(** * automatic1111-automator: prompt parsing, item descriptors and the
      generation loop of [main.py] (and its [v1.0] variant)

    Python text is a list of code points below 256, a dict is an
    insertion-ordered association list, and the effects of the batch loop
    (output tree, log, console, HTTP requests, the pause flag and its
    listener) are threaded through an explicit [world].

    The interpreter is CPython 3.11 or later, with its limit of 4300 digits
    on the conversion between integers and text: [int] refuses a longer
    numeral, and an integer of the model stands for one that the program
    holds, which has come out of [int], [json.load] or a literal and so
    has no more digits than that and can be printed and written out.  The
    file system is that of Linux with names in UTF-8: a name holds at
    most 255 bytes, a path fewer than 4096, and names differ when their
    characters do. *)

From Stdlib Require Import List Ascii String ZArith Bool Lia Arith.
From Stdlib Require Import DecimalString.
From Stdlib Require DecimalPos DecimalZ.
Import ListNotations.
Open Scope list_scope.
Open Scope bool_scope.
Set Warnings "-register-all".

(* ================================================================== *)
(** * Python text *)
(* ================================================================== *)

Definition str : Type := list ascii.

(** A literal: [lit "abc"] is the text 'abc'. *)
Definition lit (x : string) : str := list_ascii_of_string x.

Definition chr (n : nat) : ascii := ascii_of_nat n.
Definition nl : ascii := chr 10.
Definition colon : ascii := chr 58.
Definition dash : ascii := chr 45.
Definition space : ascii := chr 32.
Definition underscore : ascii := chr 95.

Fixpoint str_eqb (a b : str) : bool :=
  match a, b with
  | [], [] => true
  | x :: a', y :: b' => Ascii.eqb x y && str_eqb a' b'
  | _, _ => false
  end.

(** [str.isspace] on one code point below 256: TAB..CR, FS..US, space,
    NEL and NBSP. *)
Definition is_space (c : ascii) : bool :=
  let n := nat_of_ascii c in
  ((9 <=? n) && (n <=? 13)) || ((28 <=? n) && (n <=? 32))
  || (n =? 133) || (n =? 160).

Fixpoint lstrip (s : str) : str :=
  match s with
  | [] => []
  | c :: s' => if is_space c then lstrip s' else s
  end.

Definition rstrip (s : str) : str := rev (lstrip (rev s)).

(** [s.strip()] *)
Definition strip (s : str) : str := rstrip (lstrip s).

(** Truthiness of a text: [if s:] holds for the non-empty ones. *)
Definition truthy (s : str) : bool :=
  match s with [] => false | _ :: _ => true end.

(** [s.startswith(p)] *)
Fixpoint starts_with (p s : str) : bool :=
  match p, s with
  | [], _ => true
  | _ :: _, [] => false
  | x :: p', y :: s' => Ascii.eqb x y && starts_with p' s'
  end.

(** [sep in s] *)
Fixpoint contains (sep s : str) : bool :=
  starts_with sep s ||
  match s with
  | [] => false
  | _ :: s' => contains sep s'
  end.

(** Puts [c] in front of the first piece. *)
Definition cons_first (c : ascii) (pieces : list str) : list str :=
  match pieces with
  | [] => [[c]]
  | p :: rest => (c :: p) :: rest
  end.

(** [s.split(sep)] for a non-empty [sep]: the text is cut at the leftmost
    occurrences of [sep], which do not overlap; [skip] counts the
    characters of an occurrence still to be passed over. *)
Fixpoint split_go (sep : str) (skip : nat) (s : str) : list str :=
  match s with
  | [] => [[]]
  | c :: s' =>
      match skip with
      | S k => split_go sep k s'
      | O =>
          if starts_with sep s
          then [] :: split_go sep (List.length sep - 1) s'
          else cons_first c (split_go sep 0 s')
      end
  end.

Definition split (sep s : str) : list str := split_go sep 0 s.

(** [s.split(sep, 1)]: at most one cut, at the first occurrence. *)
Fixpoint split1 (sep s : str) : list str :=
  match s with
  | [] => [[]]
  | c :: s' =>
      if starts_with sep s then [[]; skipn (List.length sep) s]
      else cons_first c (split1 sep s')
  end.

(** [sep.join(pieces)] *)
Fixpoint join (sep : str) (pieces : list str) : str :=
  match pieces with
  | [] => []
  | [p] => p
  | p :: rest => p ++ sep ++ join sep rest
  end.

(** [s.replace(a, b)] for one-character [a] and [b]. *)
Definition replace_char (a b : ascii) (s : str) : str :=
  map (fun c => if Ascii.eqb c a then b else c) s.

(** [str(n)] for an integer. *)
Definition str_of_Z (n : Z) : str :=
  lit (NilZero.string_of_int (Z.to_int n)).

(* ================================================================== *)
(** * Python dicts: insertion-ordered association lists *)
(* ================================================================== *)

Section Dict.
Context {V : Type}.

Definition dict : Type := list (str * V).

(** [d.get(k)], [None] when the key is absent *)
Fixpoint dict_get (d : dict) (k : str) : option V :=
  match d with
  | [] => None
  | (k', v) :: d' => if str_eqb k' k then Some v else dict_get d' k
  end.

(** [d.get(k, default)] *)
Definition dict_get_default (d : dict) (k : str) (default : V) : V :=
  match dict_get d k with Some v => v | None => default end.

(** [d[k] = v]: an existing key keeps its place, a new one goes last. *)
Fixpoint dict_set (d : dict) (k : str) (v : V) : dict :=
  match d with
  | [] => [(k, v)]
  | (k', v') :: d' =>
      if str_eqb k' k then (k', v) :: d' else (k', v') :: dict_set d' k v
  end.

(** [{k: v for k, v in d.items() if k != name}] *)
Definition dict_without (d : dict) (name : str) : dict :=
  filter (fun kv => negb (str_eqb (fst kv) name)) d.

Definition keys (d : dict) : list str := map fst d.
End Dict.
Arguments dict V : clear implicits.

(* ================================================================== *)
(** * PromptFileParser: [load_prompts], [parse_prompt_block],
      [create_prompts] *)
(* ================================================================== *)

(** The record separator of a prompt file. *)
Definition separator : str := lit "---".

(** [load_prompts], after the file is read:
    [[block.strip() for block in content.split('---') if block.strip()]] *)
Definition load_prompts_content (content : str) : list str :=
  map strip (filter (fun block => truthy (strip block)) (split separator content)).

(** One turn of the [for line in lines] loop of [parse_prompt_block]; the
    state is [(data, current_key)].  The two branches marked unreachable
    stand for a [ValueError] of the unpacking and a [KeyError] of [+=];
    neither can occur: the line holds a colon, and [current_key] is a key
    of [data]. *)
Definition parse_line (st : dict str * option str) (line : str)
  : dict str * option str :=
  let '(data, current_key) := st in
  if contains [colon] line then
    match split1 [colon] line with
    | [key; value] =>
        let current_key := strip key in
        (dict_set data current_key (strip value), Some current_key)
    | _ => st (* unreachable *)
    end
  else
    match current_key with
    | Some k =>
        if truthy k then
          match dict_get data k with
          | Some v => (dict_set data k (v ++ [space] ++ strip line), current_key)
          | None => st (* unreachable *)
          end
        else st
    | None => st
    end.

Definition parse_lines (lines : list str) (st : dict str * option str)
  : dict str * option str :=
  fold_left parse_line lines st.

(** [parse_prompt_block(block)] *)
Definition parse_prompt_block (block : str) : dict str :=
  let lines := split [nl] (strip block) in
  fst (parse_lines lines ([], None)).

(** [create_prompts], after the file is read. *)
Definition create_prompts_content (content : str) : list (dict str) :=
  map parse_prompt_block (load_prompts_content content).

(* ================================================================== *)
(** * JSON values, files and the output tree *)
(* ================================================================== *)

(** A JSON document as [json.load] returns it.  Numbers with a fraction or
    an exponent are not modelled, and an integer is one that [json.load]
    reads: it has no more than 4300 digits. *)
Inductive jvalue : Type :=
| JNull
| JBool (b : bool)
| JInt (n : Z)
| JStr (s : str)
| JArr (items : list jvalue)
| JObj (fields : list (str * jvalue)).

(** What a file holds, by what its readers make of it: a JSON text is kept
    as the document [json.load] parses it to (and [json.dump] wrote),
    [Malformed] is a text that [json.load] rejects, [Bytes] is what
    [open(..., 'wb')] wrote. *)
Inductive content : Type :=
| Json (v : jvalue)
| Malformed
| Bytes (b : str).

Inductive node : Type :=
| Dir
| File (c : content).

(** A path is the list of its components, each the name of one entry of
    its directory: [os.path.join(a, b)] is [a ++ [b]] for a name [b].
    Where a name comes from the user (a story name, the name of a record)
    the statements about the tree ask it to be such a name,
    [plain_name]. *)
Definition path : Type := list str.

Definition slash : ascii := chr 47.
Definition nul : ascii := chr 0.

(** A name of one entry: not empty, without a slash, and neither [.] nor
    [..]. *)
Definition plain_name (name : str) : bool :=
  truthy name
  && negb (existsb (Ascii.eqb slash) name)
  && negb (str_eqb name (lit ".")) && negb (str_eqb name (lit "..")).

Definition has_nul (name : str) : bool := existsb (Ascii.eqb nul) name.

(** The bytes of a text in UTF-8: two for a code point from 128 on. *)
Definition byte_length (name : str) : nat :=
  list_sum (map (fun c => if nat_of_ascii c <? 128 then 1 else 2) name).

(** The bytes of the text of a path, its components joined by slashes. *)
Definition text_length (p : path) : nat :=
  list_sum (map byte_length p) + (List.length p - 1).

Definition NAME_MAX : nat := 255.
Definition PATH_MAX : nat := 4096.

Fixpoint path_eqb (p q : path) : bool :=
  match p, q with
  | [], [] => true
  | x :: p', y :: q' => str_eqb x y && path_eqb p' q'
  | _, _ => false
  end.

(** The output tree, in the order its entries were created; directory
    enumeration follows that order. *)
Definition tree : Type := list (path * node).

Fixpoint tree_lookup (t : tree) (p : path) : option node :=
  match t with
  | [] => None
  | (q, n) :: t' => if path_eqb q p then Some n else tree_lookup t' p
  end.

Fixpoint tree_set (t : tree) (p : path) (n : node) : tree :=
  match t with
  | [] => [(p, n)]
  | (q, m) :: t' =>
      if path_eqb q p then (q, n) :: t' else (q, m) :: tree_set t' p n
  end.

(** [os.path.exists(p)] *)
Definition exists_path (t : tree) (p : path) : bool :=
  match tree_lookup t p with Some _ => true | None => false end.

(** [os.path.isfile(p)] *)
Definition isfile (fs : tree) (p : path) : bool :=
  match tree_lookup fs p with Some (File _) => true | _ => false end.

(** [os.path.isdir(p)] *)
Definition isdir (fs : tree) (p : path) : bool :=
  match tree_lookup fs p with Some Dir => true | _ => false end.

(** What is at [p], the empty path being the working directory. *)
Definition at_path (t : tree) (p : path) : option node :=
  match p with
  | [] => Some Dir
  | _ :: _ => tree_lookup t p
  end.

(** [os.makedirs(p, exist_ok=True)]: [p] and its missing ancestors become
    directories; [done] is the part of the path already walked.  An entry
    that exists is left as it is. *)
Fixpoint makedirs_from (done rest : path) (t : tree) : tree :=
  match rest with
  | [] => t
  | c :: rest' =>
      let p := done ++ [c] in
      makedirs_from p rest' (if exists_path t p then t else t ++ [(p, Dir)])
  end.

Definition makedirs (p : path) (t : tree) : tree := makedirs_from [] p t.

(** The name under which [q] is an immediate entry of [base], if it is. *)
Fixpoint child_name (base q : path) : option str :=
  match base, q with
  | [], [name] => Some name
  | b :: base', c :: q' => if str_eqb b c then child_name base' q' else None
  | _, _ => None
  end.

(** [os.listdir(base)] on an existing directory. *)
Definition entries (t : tree) (base : path) : list str :=
  flat_map (fun e => match child_name base (fst e) with
                     | Some name => [name]
                     | None => []
                     end) t.

(* ================================================================== *)
(** * Settings, requests and responses *)
(* ================================================================== *)

(** GenerationSettings (the [settings] dict).  The two floating-point
    entries are carried as the text Python prints for them. *)
Record settings : Type := {
  s_model : str;
  s_lora : str;
  s_lora_weight : str;
  s_sampling_method : str;
  s_scheduler : str;
  s_sampling_steps : Z;
  s_width : Z;
  s_height : Z;
  s_cfg_scale : str;
  s_seed : Z;
  s_api_endpoint : option str
}.

(** The [payload] dict of one txt2img request. *)
Record payload : Type := {
  p_prompt : jvalue;
  p_negative_prompt : jvalue;
  p_steps : Z;
  p_cfg_scale : str;
  p_width : Z;
  p_height : Z;
  p_sampler_name : str;
  p_seed : Z;
  p_batch_size : Z;
  p_n_iter : Z;
  p_scheduler : str;
  p_sd_model_checkpoint : str
}.

(** The body of an HTTP response: a JSON text (as parsed) or another text. *)
Inductive body : Type :=
| BodyJson (v : jvalue)
| BodyText (t : str).

(** What [requests.post] does with one request: it raises (connection
    refused, timeout, ...) or returns a response. *)
Inductive post_outcome : Type :=
| ConnectionFailed (reason : str)
| Responded (status : Z) (b : body).

(** The subclasses of [requests.exceptions.RequestException] that the
    try block of [generate_images] can meet. *)
Inductive request_error : Type :=
| ConnectionError (reason : str)
| HTTPError (status : Z)
| InvalidJSON.

(** The exceptions of a run.  [OSError] is the error of a name or a path
    that is too long (errno 36); the four before it are subclasses of
    its class. *)
Inductive exn : Type :=
| RequestException (e : request_error)
| FileNotFoundError (p : path)
| IsADirectoryError (p : path)
| FileExistsError (p : path)
| NotADirectoryError (p : path)
| OSError (p : path)
| JSONDecodeError (p : path)
| AttributeError
| TypeError
| ValueError
| KeyError (k : str)
| BinasciiError.

Inductive prompt_type : Type := character | scene.

(** The keys the listener can report. *)
Inductive key : Type := KeySpace | KeyF8 | KeyOther (name : str).

Definition key_eqb (a b : key) : bool :=
  match a, b with
  | KeySpace, KeySpace => true
  | KeyF8, KeyF8 => true
  | KeyOther x, KeyOther y => str_eqb x y
  | _, _ => false
  end.

(* ================================================================== *)
(** * The world of a run *)
(* ================================================================== *)

(** Console and log messages, by the statement that writes them. *)
Inductive message : Type :=
| MsgPaused
| MsgResumed
| MsgItemHeader (t : prompt_type) (item_name : str) (s : settings)
                (seed num_images num_iterations : Z)
| MsgGenerating (item_name : str) (iteration : Z)
| MsgPayload (p : payload)
| MsgIteration (iteration num_images : Z)
| MsgResponse (b : body)
| MsgCompleted (iteration : Z) (item_name : str)
| MsgError (item_name : str) (iteration : Z) (e : request_error)
| MsgNothingToProcess (t : prompt_type) (story_name : str)
| MsgText (t : str).

Inductive level : Type := INFO | ERROR.

(** What a run does that can be seen from outside, in order. *)
Inductive event : Type :=
| EvPrint (m : message)
| EvLog (l : level) (m : message)
| EvMakedirs (p : path)
| EvWrite (p : path) (c : content)
| EvPost (url : str) (p : payload)
| EvCheckPaused (flag : bool)
| EvSleep (milliseconds : Z)
| EvInput
| EvListenerStart
| EvListenerStop.

(** The global [keyboard_listener]: [None], or a running listener with
    the callback it was given, which is known by the key it reacts to. *)
Record listener : Type := { pause_key : key }.

(** The state a run works on.  [output] is the working directory as a
    tree: the directories and the files below it.  [inputs] gives the
    text of the text files that the program reads as text (the prompt
    files) or writes as text; they are kept apart from the tree, and none
    of them lies at a path, or above one, where the run makes a directory
    or opens a file of the tree.  The log file [generation_log.txt] is
    opened before [main] runs; its records are the [EvLog] events of the
    run, and the tree says nothing of its text.  [paused] and
    [keyboard_listener] are the two globals.
    The surroundings are scripted: [responses] are the outcomes of the
    POST requests to come, in order; [pending_keys] are the keys pressed
    before each coming point at which the main thread looks at the
    listener's work (a read of [paused], or stopping the listener);
    [pending_edits] are the descriptors the user rewrites while the
    program waits at [input()]. *)
Record world : Type := {
  inputs : list (path * str);
  output : tree;
  paused : bool;
  keyboard_listener : option listener;
  events : list event;
  responses : list post_outcome;
  pending_keys : list (list key);
  pending_edits : list (path * content)
}.

Definition set_output (t : tree) (w : world) : world :=
  {| inputs := inputs w; output := t; paused := paused w;
     keyboard_listener := keyboard_listener w; events := events w;
     responses := responses w; pending_keys := pending_keys w;
     pending_edits := pending_edits w |}.

Definition set_paused (b : bool) (w : world) : world :=
  {| inputs := inputs w; output := output w; paused := b;
     keyboard_listener := keyboard_listener w; events := events w;
     responses := responses w; pending_keys := pending_keys w;
     pending_edits := pending_edits w |}.

Definition set_keyboard_listener (l : option listener) (w : world) : world :=
  {| inputs := inputs w; output := output w; paused := paused w;
     keyboard_listener := l; events := events w;
     responses := responses w; pending_keys := pending_keys w;
     pending_edits := pending_edits w |}.

Definition emit (e : event) (w : world) : world :=
  {| inputs := inputs w; output := output w; paused := paused w;
     keyboard_listener := keyboard_listener w; events := events w ++ [e];
     responses := responses w; pending_keys := pending_keys w;
     pending_edits := pending_edits w |}.

Definition set_responses (r : list post_outcome) (w : world) : world :=
  {| inputs := inputs w; output := output w; paused := paused w;
     keyboard_listener := keyboard_listener w; events := events w;
     responses := r; pending_keys := pending_keys w;
     pending_edits := pending_edits w |}.

Definition set_pending_keys (k : list (list key)) (w : world) : world :=
  {| inputs := inputs w; output := output w; paused := paused w;
     keyboard_listener := keyboard_listener w; events := events w;
     responses := responses w; pending_keys := k;
     pending_edits := pending_edits w |}.

Definition set_pending_edits (e : list (path * content)) (w : world) : world :=
  {| inputs := inputs w; output := output w; paused := paused w;
     keyboard_listener := keyboard_listener w; events := events w;
     responses := responses w; pending_keys := pending_keys w;
     pending_edits := e |}.

(** How a piece of the program ends: it returns, an exception leaves it,
    or it polls the pause flag for ever. *)
Inductive result (A : Type) : Type :=
| Ok (a : A) (w : world)
| Raised (e : exn) (w : world)
| Hangs (w : world).
Arguments Ok {A} a w.
Arguments Raised {A} e w.
Arguments Hangs {A} w.

Definition M (A : Type) : Type := world -> result A.

Definition ret {A} (a : A) : M A := fun w => Ok a w.

Definition bind {A B} (m : M A) (f : A -> M B) : M B :=
  fun w => match m w with
           | Ok a w' => f a w'
           | Raised e w' => Raised e w'
           | Hangs w' => Hangs w'
           end.

Definition raise {A} (e : exn) : M A := fun w => Raised e w.

Definition act (f : world -> world) : M unit := fun w => Ok tt (f w).

Notation "x <- m ;; k" := (bind m (fun x => k))
  (at level 61, m at next level, right associativity).
Notation "m ;;; k" := (bind m (fun _ => k))
  (at level 61, right associativity).

(** [for x in l: f(x)] *)
Fixpoint for_each {A} (l : list A) (f : A -> M unit) : M unit :=
  match l with
  | [] => ret tt
  | x :: l' => f x ;;; for_each l' f
  end.

(** A [for] loop whose body may rebind a variable of the enclosing scope. *)
Fixpoint for_fold {A S} (l : list A) (f : A -> S -> M S) (s : S) : M S :=
  match l with
  | [] => ret s
  | x :: l' => s' <- f x s ;; for_fold l' f s'
  end.

(** [try: m  except requests.exceptions.RequestException as e: handler(e)] *)
Definition try_request {A} (m : M A) (handler : request_error -> M A) : M A :=
  fun w => match m w with
           | Raised (RequestException e) w' => handler e w'
           | r => r
           end.

Definition print (m : message) : M unit := act (emit (EvPrint m)).

(** [logging.info(m)] and [logging.error(m)]: a record is appended to
    [generation_log.txt] through the handler that [logging.basicConfig]
    opened; the records of the log are the [EvLog] events. *)
Definition log_file : path := [lit "generation_log.txt"].
Definition logging_info (m : message) : M unit := act (emit (EvLog INFO m)).
Definition logging_error (m : message) : M unit := act (emit (EvLog ERROR m)).

(** Why [os.makedirs(done ++ rest, exist_ok=True)] fails, if it does,
    with the part of the path that is there by then; [done] has been
    walked, and [below_file] says that it is a file.  Going down the
    path, a name with a NUL is a [ValueError], a path or a name that is
    too long an [OSError], a file in the place of the last directory a
    [FileExistsError], and a file further up a [NotADirectoryError]. *)
Fixpoint makedirs_error (done rest : path) (below_file : bool) (t : tree)
  : option (exn * path) :=
  match rest with
  | [] => None
  | c :: rest' =>
      let q := done ++ [c] in
      if has_nul c then Some (ValueError, done)
      else if PATH_MAX <=? text_length q then Some (OSError q, done)
      else if below_file then Some (NotADirectoryError q, done)
      else if NAME_MAX <? byte_length c then Some (OSError q, done)
      else if isfile t q then
        match rest' with
        | [] => Some (FileExistsError q, done)
        | _ :: _ => makedirs_error q rest' true t
        end
      else makedirs_error q rest' false t
  end.

(** There is room for the directory [p]: its names are names of one
    entry each, and [os.makedirs(p, exist_ok=True)] goes through. *)
Definition room_for_dir (t : tree) (p : path) : bool :=
  forallb plain_name p
  && match makedirs_error [] p false t with
     | None => true
     | Some _ => false
     end.

(** [os.makedirs(p, exist_ok=True)]: when it fails, the directories made
    on the way stay. *)
Definition os_makedirs (p : path) : M unit :=
  fun w => match makedirs_error [] p false (output w) with
           | None => Ok tt (emit (EvMakedirs p) (set_output (makedirs p (output w)) w))
           | Some (e, made) => Raised e (set_output (makedirs made (output w)) w)
           end.

(** There is room for the file [p] in its directory: the names of [p]
    are names of one entry each, they fit, and [p] is not a directory. *)
Definition room_for_file (t : tree) (p : path) : bool :=
  forallb plain_name p
  && negb (existsb has_nul p)
  && (text_length p <? PATH_MAX)
  && (byte_length (last p []) <=? NAME_MAX)
  && negb (isdir t p)
  && match p with [] => false | _ :: _ => true end.

(** Why [open(p, 'w')] fails, if it does: a NUL in the path, a path that
    is too long, a directory of [p] that is missing or is a file, or no
    room for [p] in it. *)
Definition open_error (p : path) (t : tree) : option exn :=
  if existsb has_nul p then Some ValueError
  else if PATH_MAX <=? text_length p then Some (OSError p)
  else
    match p, at_path t (removelast p) with
    | [], _ => Some (FileNotFoundError p)
    | _, None => Some (FileNotFoundError p)
    | _, Some (File _) => Some (NotADirectoryError p)
    | _, Some Dir =>
        if NAME_MAX <? byte_length (last p []) then Some (OSError p)
        else if isdir t p then Some (IsADirectoryError p)
        else None
    end.

(** [with open(p, 'w'/'wb') as f: f.write(...)] *)
Definition write_file (p : path) (c : content) : M unit :=
  fun w => match open_error p (output w) with
           | None => Ok tt (emit (EvWrite p c)
                              (set_output (tree_set (output w) p (File c)) w))
           | Some e => Raised e w
           end.

(** [os.listdir(base)] *)
Definition os_listdir (base : path) : M (list str) :=
  fun w => match tree_lookup (output w) base with
           | Some Dir => Ok (entries (output w) base) w
           | _ => Raised (FileNotFoundError base) w
           end.

(** [with open(p, 'r') as f: json.load(f)] *)
Definition json_load (p : path) : M jvalue :=
  fun w => match tree_lookup (output w) p with
           | Some (File (Json v)) => Ok v w
           | Some (File _) => Raised (JSONDecodeError p) w
           | Some Dir => Raised (IsADirectoryError p) w
           | None => Raised (FileNotFoundError p) w
           end.

(* ================================================================== *)
(** * Python built-ins and library calls the loop relies on *)
(* ================================================================== *)

Definition digit_val (c : ascii) : option Z :=
  let n := nat_of_ascii c in
  if (48 <=? n) && (n <=? 57) then Some (Z.of_nat (n - 48)) else None.

(** Where the scan of a decimal literal stands: nothing read yet, after a
    digit, or after an underscore. *)
Inductive digit_state : Type := AtStart | AfterDigit | AfterUnderscore.

Fixpoint digits_go (s : str) (acc : Z) (st : digit_state) : option Z :=
  match s with
  | [] => match st with AfterDigit => Some acc | _ => None end
  | c :: s' =>
      match digit_val c with
      | Some d => digits_go s' (10 * acc + d) AfterDigit
      | None =>
          if Ascii.eqb c underscore then
            match st with
            | AfterDigit => digits_go s' acc AfterUnderscore
            | _ => None
            end
          else None
      end
  end.

(** The most digits that [int] converts ([sys.get_int_max_str_digits()]). *)
Definition max_str_digits : nat := 4300.

Definition count_digits (s : str) : nat :=
  List.length (filter (fun c => match digit_val c with Some _ => true | None => false end) s).

(** [int(s)] for a text: blanks around, a sign, decimal digits with single
    underscores between them, and no more than 4300 digits, leading zeros
    counted; [None] is a [ValueError]. *)
Definition int_of_str (s : str) : option Z :=
  match strip s with
  | c :: rest =>
      if max_str_digits <? count_digits (c :: rest) then None
      else if Ascii.eqb c (chr 45) then option_map Z.opp (digits_go rest 0 AtStart)
      else if Ascii.eqb c (chr 43) then digits_go rest 0 AtStart
      else digits_go (c :: rest) 0 AtStart
  | [] => None
  end.

(** [int(v)] *)
Definition py_int (v : jvalue) : M Z :=
  match v with
  | JInt n => ret n
  | JBool b => ret (if b then 1 else 0)%Z
  | JStr s => match int_of_str s with
              | Some n => ret n
              | None => raise ValueError
              end
  | JNull | JArr _ | JObj _ => raise TypeError
  end.

(** [v.get(k, default)]: only a dict has [get]. *)
Definition py_get (v : jvalue) (k : str) (default : jvalue) : M jvalue :=
  match v with
  | JObj fields => ret (dict_get_default fields k default)
  | _ => raise AttributeError
  end.

(** [v[k]] for a text [k] *)
Definition py_subscript (v : jvalue) (k : str) : M jvalue :=
  match v with
  | JObj fields => match dict_get fields k with
                   | Some x => ret x
                   | None => raise (KeyError k)
                   end
  | _ => raise TypeError
  end.

(** The items a [for] loop draws from [v]. *)
Definition py_iter (v : jvalue) : M (list jvalue) :=
  match v with
  | JArr items => ret items
  | JStr s => ret (map (fun c => JStr [c]) s)
  | JObj fields => ret (map (fun kv => JStr (fst kv)) fields)
  | JNull | JBool _ | JInt _ => raise TypeError
  end.

(** [range(1, n + 1)] *)
Definition range_from_1 (n : Z) : list Z :=
  map (fun i => Z.of_nat i) (seq 1 (Z.to_nat n)).

(** [enumerate(l)] with the index already moved to [idx + 1]. *)
Definition enumerate_from_1 {A} (l : list A) : list (Z * A) :=
  combine (map Z.of_nat (seq 1 (List.length l))) l.

(** The value of a character of the base64 alphabet. *)
Definition b64_value (c : ascii) : option Z :=
  let n := nat_of_ascii c in
  if (65 <=? n) && (n <=? 90) then Some (Z.of_nat (n - 65))
  else if (97 <=? n) && (n <=? 122) then Some (Z.of_nat (n - 71))
  else if (48 <=? n) && (n <=? 57) then Some (Z.of_nat (n + 4))
  else if n =? 43 then Some 62%Z
  else if n =? 47 then Some 63%Z
  else None.

Definition byte_of_Z (z : Z) : ascii := ascii_of_N (Z.to_N (Z.land z 255)).

(** [binascii.a2b_base64] without strict mode (CPython 3.11 and later):
    characters outside the alphabet are passed over, a pad that completes
    a quad ends the scan, and data that stops inside a quad is an error
    ([None]). *)
Fixpoint a2b_base64 (s : str) (quad_pos : nat) (leftchar : Z) (pads : nat)
                    (out : str) : option str :=
  match s with
  | [] => match quad_pos with O => Some (rev out) | _ => None end
  | c :: s' =>
      if Ascii.eqb c (chr 61) then
        if (2 <=? quad_pos) && (4 <=? quad_pos + S pads) then Some (rev out)
        else a2b_base64 s' quad_pos leftchar
                        (if 2 <=? quad_pos then S pads else pads) out
      else
        match b64_value c with
        | None => a2b_base64 s' quad_pos leftchar pads out
        | Some v =>
            match quad_pos with
            | 0 => a2b_base64 s' 1 v 0 out
            | 1 => a2b_base64 s' 2 (Z.land v 15) 0
                     (byte_of_Z (Z.lor (Z.shiftl leftchar 2) (Z.shiftr v 4)) :: out)
            | 2 => a2b_base64 s' 3 (Z.land v 3) 0
                     (byte_of_Z (Z.lor (Z.shiftl leftchar 4) (Z.shiftr v 2)) :: out)
            | _ => a2b_base64 s' 0 0%Z 0
                     (byte_of_Z (Z.lor (Z.shiftl leftchar 6) v) :: out)
            end
        end
  end.

Definition is_ascii (c : ascii) : bool := nat_of_ascii c <? 128.

(** [base64.b64decode(v)] *)
Definition b64decode (v : jvalue) : M str :=
  match v with
  | JStr s =>
      if forallb is_ascii s then
        match a2b_base64 s 0 0%Z 0 [] with
        | Some bytes => ret bytes
        | None => raise BinasciiError
        end
      else raise ValueError
  | _ => raise TypeError
  end.

(** [s.rfind(c)], [-1] when [c] does not occur. *)
Fixpoint rfind_from (c : ascii) (s : str) (i best : Z) : Z :=
  match s with
  | [] => best
  | x :: s' => rfind_from c s' (i + 1)%Z (if Ascii.eqb x c then i else best)
  end.

Definition rfind (c : ascii) (s : str) : Z := rfind_from c s 0%Z (-1)%Z.

(** [os.path.splitext(p)[0]] (POSIX): the extension starts at the last dot
    of the last component, unless only dots come before it there. *)
Definition splitext_root (p : str) : str :=
  let sepIndex := rfind (chr 47) p in
  let dotIndex := rfind (chr 46) p in
  if (sepIndex <? dotIndex)%Z then
    let name_start := Z.to_nat (sepIndex + 1) in
    let before_dot := firstn (Z.to_nat dotIndex - name_start) (skipn name_start p) in
    if existsb (fun c => negb (Ascii.eqb c (chr 46))) before_dot
    then firstn (Z.to_nat dotIndex) p
    else p
  else p.

(** [requests.post(url, headers=headers, json=payload)]: the next scripted
    outcome; when the script has run out, nothing answers. *)
Definition requests_post (url : str) (p : payload) : M (Z * body) :=
  fun w =>
    let w1 := emit (EvPost url p) w in
    match responses w1 with
    | [] => Raised (RequestException (ConnectionError [])) w1
    | ConnectionFailed reason :: rest =>
        Raised (RequestException (ConnectionError reason)) (set_responses rest w1)
    | Responded status b :: rest => Ok (status, b) (set_responses rest w1)
    end.

(** [response.raise_for_status()]: an [HTTPError] for 4xx and 5xx. *)
Definition raise_for_status (status : Z) : M unit :=
  if ((400 <=? status) && (status <? 600))%Z
  then raise (RequestException (HTTPError status))
  else ret tt.

(** [response.json()] (requests 2.27 and later, whose [JSONDecodeError] is
    a [RequestException]) *)
Definition response_json (b : body) : M jvalue :=
  match b with
  | BodyJson v => ret v
  | BodyText _ => raise (RequestException InvalidJSON)
  end.

(* ================================================================== *)
(** * PauseController *)
(* ================================================================== *)

(** [on_press] of a listener whose callback reacts to [pk]: the flag is
    flipped and the new state printed. *)
Definition on_press_reacting_to (pk : key) (k : key) (w : world) : world :=
  if key_eqb k pk then
    let w1 := set_paused (negb (paused w)) w in
    emit (EvPrint (if paused w1 then MsgPaused else MsgResumed)) w1
  else w.

(** [on_press] of [main.py]: the space key. *)
Definition on_press (k : key) (w : world) : world :=
  on_press_reacting_to KeySpace k w.

(** The listener thread hands the keys [ks] to its callback. *)
Definition deliver (ks : list key) (w : world) : world :=
  match keyboard_listener w with
  | Some l => fold_left (fun w' k => on_press_reacting_to (pause_key l) k w') ks w
  | None => w
  end.

(** The main thread reaches a point where it meets the listener's work:
    the keys pressed since the last such point have been handled. *)
Definition sync (w : world) : world :=
  match pending_keys w with
  | [] => w
  | ks :: rest => deliver ks (set_pending_keys rest w)
  end.

(** [start_keyboard_listener] of [main.py] *)
Definition start_keyboard_listener : M unit :=
  act (fun w => emit EvListenerStart
                  (set_keyboard_listener (Some {| pause_key := KeySpace |}) w)).

(** [stop_keyboard_listener] *)
Definition stop_keyboard_listener : M unit :=
  act (fun w => match keyboard_listener w with
                | Some _ => emit EvListenerStop
                              (set_keyboard_listener None (sync w))
                | None => w
                end).

(** [while paused: time.sleep(0.5)], by recursion on the script of key
    presses: each test of the flag sees the keys pressed before it.  When
    the flag is set and no key press is left, the loop polls for ever. *)
Fixpoint poll_paused (sched : list (list key)) (w : world) : result unit :=
  match sched with
  | [] =>
      let w0 := set_pending_keys [] w in
      if paused w0 then Hangs (emit (EvCheckPaused true) w0)
      else Ok tt (emit (EvCheckPaused false) w0)
  | ks :: sched' =>
      let w1 := deliver ks (set_pending_keys sched' w) in
      if paused w1
      then poll_paused sched' (emit (EvSleep 500) (emit (EvCheckPaused true) w1))
      else Ok tt (emit (EvCheckPaused false) w1)
  end.

Definition while_paused : M unit := fun w => poll_paused (pending_keys w) w.

(* ================================================================== *)
(** * ItemStore: [generate_json_files] *)
(* ================================================================== *)

Definition type_dir (t : prompt_type) : str :=
  match t with character => lit "Characters" | scene => lit "Scenes" end.

(** [data.get('Name', 'Unnamed').replace(' ', '_')] *)
Definition item_name_of (data : dict str) : str :=
  replace_char space underscore (dict_get_default data (lit "Name") (lit "Unnamed")).

(** The descriptor written for a record: the record without its name, then
    the three control fields. *)
Definition descriptor_of (data : dict str) (num_images num_iterations : jvalue)
                         (default_seed : Z) : dict jvalue :=
  let data_without_name :=
    map (fun kv => (fst kv, JStr (snd kv))) (dict_without data (lit "Name")) in
  let d1 := dict_set data_without_name (lit "Number of Images") num_images in
  let d2 := dict_set d1 (lit "Number of Iterations") num_iterations in
  dict_set d2 (lit "Seed") (JInt default_seed).

(** The body of [for data in prompts] of [generate_json_files]; the state
    is [json_files]. *)
Definition materialize (base_dir : path) (num_images num_iterations : jvalue)
    (default_seed : Z) (data : dict str) (json_files : list path)
  : M (list path) :=
  let item_name := item_name_of data in
  let item_dir := base_dir ++ [item_name] in
  os_makedirs item_dir ;;;
  let prompt_path := item_dir ++ [lit "prompt.json"] in
  write_file prompt_path
    (Json (JObj (descriptor_of data num_images num_iterations default_seed))) ;;;
  ret (json_files ++ [prompt_path]).

(** Where the descriptor of a record goes. *)
Definition descriptor_path (base : path) (data : dict str) : path :=
  base ++ [item_name_of data] ++ [lit "prompt.json"].

(** There is room for the item of a record below [base]: for its
    directory, and in it for its prompt.json. *)
Definition room_for_item (t : tree) (base : path) (data : dict str) : bool :=
  room_for_dir t (base ++ [item_name_of data])
  && room_for_file t (descriptor_path base data).

(** [generate_json_files(prompts, prompt_type, story_name, default_seed)]
    of [main.py] *)
Definition generate_json_files (prompts : list (dict str)) (t : prompt_type)
    (story_name : str) (default_seed : Z) : M (list path) :=
  let base_dir := [story_name; type_dir t] in
  os_makedirs base_dir ;;;
  for_fold prompts (materialize base_dir (JInt 1) (JInt 1) default_seed) [].

(** [with open(file_path, 'r') as f: content = f.read()] on a prompt file *)
Fixpoint input_lookup (l : list (path * str)) (p : path) : option str :=
  match l with
  | [] => None
  | (q, t) :: l' => if path_eqb q p then Some t else input_lookup l' p
  end.

(** [load_prompts(file_path)] of [main.py] *)
Definition load_prompts (file_path : path) : M (list str) :=
  fun w => match input_lookup (inputs w) file_path with
           | Some content => Ok (load_prompts_content content) w
           | None => Raised (FileNotFoundError file_path) w
           end.

Definition prompts_file (t : prompt_type) : str :=
  match t with
  | character => lit "characters.txt"
  | scene => lit "scenes.txt"
  end.

(** [create_prompts(prompt_type)] of [main.py] *)
Definition create_prompts (t : prompt_type) : M (list (dict str)) :=
  prompt_blocks <- load_prompts [prompts_file t] ;;
  ret (map parse_prompt_block prompt_blocks).

(* ================================================================== *)
(** * GenerationClient and BatchOrchestrator: [generate_images] *)
(* ================================================================== *)

Definition default_endpoint : str := lit "http://localhost:7860".

(** [settings.get('api_endpoint', 'http://localhost:7860') + '/sdapi/v1/txt2img'] *)
Definition api_url_of (s : settings) : str :=
  match s_api_endpoint s with
  | Some e => e
  | None => default_endpoint
  end ++ lit "/sdapi/v1/txt2img".

(** [f" <lora:{lora_name}:{settings['lora_weight']}>"] *)
Definition lora_tag (s : settings) : str :=
  lit " <lora:" ++ splitext_root (s_lora s) ++ [colon] ++ s_lora_weight s ++ lit ">".

(** [positive_prompt += tag]: a text is extended into a new text; a list
    is extended in place by the characters of [tag], and it is the very
    list that [data] holds; anything else is a [TypeError]. *)
Definition add_tag (positive_prompt : jvalue) (tag : str) (data : jvalue)
  : M (jvalue * jvalue) :=
  match positive_prompt with
  | JStr t => ret (JStr (t ++ tag), data)
  | JArr items =>
      let extended := JArr (items ++ map (fun c => JStr [c]) tag) in
      match data with
      | JObj fields => ret (extended, JObj (dict_set fields (lit "Positive prompt") extended))
      | _ => ret (extended, data)
      end
  | _ => raise TypeError
  end.

Definition iteration_dir_of (item_dir : path) (iteration : Z) : path :=
  item_dir ++ [lit "Iteration_" ++ str_of_Z iteration].

(** [f'{item_name}_{iteration}_{idx + 1}.png'] *)
Definition image_name (item_name : str) (iteration k : Z) : str :=
  item_name ++ [underscore] ++ str_of_Z iteration ++ [underscore]
            ++ str_of_Z k ++ lit ".png".

Definition make_payload (s : settings) (positive_prompt negative_prompt : jvalue)
    (seed num_images : Z) : payload :=
  {| p_prompt := positive_prompt;
     p_negative_prompt := negative_prompt;
     p_steps := s_sampling_steps s;
     p_cfg_scale := s_cfg_scale s;
     p_width := s_width s;
     p_height := s_height s;
     p_sampler_name := s_sampling_method s;
     p_seed := seed;
     p_batch_size := 1;
     p_n_iter := num_images;
     p_scheduler := s_scheduler s;
     p_sd_model_checkpoint := s_model s |}.

(** The body of the loop that saves the images of a response. *)
Definition save_image (iteration_dir : path) (item_name : str) (iteration : Z)
    (indexed : Z * jvalue) : M unit :=
  img_bytes <- b64decode (snd indexed) ;;
  write_file (iteration_dir ++ [image_name item_name iteration (fst indexed)])
             (Bytes img_bytes).

(** The try block of an iteration; [false] says that the except branch was
    not taken. *)
Definition request_and_save (api_url : str) (p : payload) (iteration_dir : path)
    (item_name : str) (iteration : Z) : M bool :=
  response <- requests_post api_url p ;;
  raise_for_status (fst response) ;;;
  r <- response_json (snd response) ;;
  logging_info (MsgResponse (snd response)) ;;;
  images <- py_subscript r (lit "images") ;;
  items <- py_iter images ;;
  for_each (enumerate_from_1 items) (save_image iteration_dir item_name iteration) ;;;
  print (MsgCompleted iteration item_name) ;;;
  ret false.

(** The except branch, which ends in [continue]. *)
Definition on_request_error (item_name : str) (iteration : Z) (e : request_error)
  : M bool :=
  print (MsgError item_name iteration e) ;;;
  logging_error (MsgError item_name iteration e) ;;;
  ret true.

(** The body of [for iteration in range(1, num_iterations + 1)], the same
    text in both versions.  It returns [data], which it may have changed
    in place. *)
Definition iteration_body (s : settings) (item_dir : path) (item_name : str)
    (seed num_images : Z) (iteration : Z) (data : jvalue) : M jvalue :=
  let iteration_dir := iteration_dir_of item_dir iteration in
  os_makedirs iteration_dir ;;;
  positive_prompt <- py_get data (lit "Positive prompt") (JStr []) ;;
  negative_prompt <- py_get data (lit "Negative prompt") (JStr []) ;;
  tagged <- (if truthy (s_lora s)
             then add_tag positive_prompt (lora_tag s) data
             else ret (positive_prompt, data)) ;;
  let positive_prompt := fst tagged in
  let data := snd tagged in
  while_paused ;;;
  let p := make_payload s positive_prompt negative_prompt seed num_images in
  logging_info (MsgGenerating item_name iteration) ;;;
  logging_info (MsgPayload p) ;;;
  print (MsgIteration iteration num_images) ;;;
  continued <- try_request
                 (request_and_save (api_url_of s) p iteration_dir item_name iteration)
                 (on_request_error item_name iteration) ;;
  if continued : bool then ret data
  else while_paused ;;; ret data.

(** The iterations of one item. *)
Definition iterations (s : settings) (item_dir : path) (item_name : str)
    (seed num_images num_iterations : Z) (data : jvalue) : M unit :=
  for_fold (range_from_1 num_iterations)
           (iteration_body s item_dir item_name seed num_images) data ;;;
  ret tt.

(** The body of [for item_name in items] of [main.py]. *)
Definition process_item (s : settings) (t : prompt_type) (base_dir : path)
    (item_name : str) : M unit :=
  let item_dir := base_dir ++ [item_name] in
  let prompt_path := item_dir ++ [lit "prompt.json"] in
  data <- json_load prompt_path ;;
  images_field <- py_get data (lit "Number of Images") (JInt 1) ;;
  num_images <- py_int images_field ;;
  iterations_field <- py_get data (lit "Number of Iterations") (JInt 1) ;;
  num_iterations <- py_int iterations_field ;;
  seed_field <- py_get data (lit "Seed") (JInt (s_seed s)) ;;
  seed <- py_int seed_field ;;
  print (MsgItemHeader t item_name s seed num_images num_iterations) ;;;
  iterations s item_dir item_name seed num_images num_iterations data.

(** [generate_images(settings, prompt_type, story_name)] of [main.py] *)
Definition generate_images (s : settings) (t : prompt_type) (story_name : str)
  : M unit :=
  let base_dir := [story_name; type_dir t] in
  items <- os_listdir base_dir ;;
  for_each items (process_item s t base_dir).

(** The user's turn at [input()]: the scripted edits are applied. *)
Definition input_enter : M unit :=
  act (fun w =>
         emit EvInput
           (set_pending_edits []
              (set_output
                 (fold_left (fun t e => tree_set t (fst e) (File (snd e)))
                            (pending_edits w) (output w)) w))).

(** [main] of [main.py] from "Process prompts and generate JSON files"
    on, with the settings it has resolved and the story name it has read. *)
Definition main (s : settings) (story_name : str) : M unit :=
  print (MsgText (lit "Processing character prompts...")) ;;;
  character_prompts <- create_prompts character ;;
  _ <- generate_json_files character_prompts character story_name (s_seed s) ;;
  print (MsgText (lit "Processing scene prompts...")) ;;;
  scene_prompts <- create_prompts scene ;;
  _ <- generate_json_files scene_prompts scene story_name (s_seed s) ;;
  print (MsgText (lit "JSON files for characters and scenes have been created.")) ;;;
  print (MsgText (lit "You can review and edit them before proceeding.")) ;;;
  print (MsgText (lit "Set 'Number of Images', 'Number of Iterations', and 'Seed' in each JSON file as desired.")) ;;;
  input_enter ;;;
  print (MsgText (lit "Press 'Space' at any time to pause/resume the script during image generation.")) ;;;
  start_keyboard_listener ;;;
  print (MsgText (lit "Starting image generation for characters...")) ;;;
  generate_images s character story_name ;;;
  print (MsgText (lit "Starting image generation for scenes...")) ;;;
  generate_images s scene story_name ;;;
  stop_keyboard_listener ;;;
  print (MsgText (lit "Image generation completed.")).

(* ================================================================== *)
(** * The [v1.0] variant ([v1.0/main.py]) *)
(* ================================================================== *)

Module V1_0.

(** [on_press]: the F8 key. *)
Definition on_press (k : key) (w : world) : world :=
  on_press_reacting_to KeyF8 k w.

Definition start_keyboard_listener : M unit :=
  act (fun w => emit EvListenerStart
                  (set_keyboard_listener (Some {| pause_key := KeyF8 |}) w)).

(** [load_prompts(file_path)]: a missing file has no prompts. *)
Definition load_prompts (file_path : path) : M (list str) :=
  fun w => match input_lookup (inputs w) file_path with
           | Some content => Ok (load_prompts_content content) w
           | None => Ok [] w
           end.

(** [create_prompts(prompt_type, folder_path)] *)
Definition create_prompts (t : prompt_type) (folder_path : path)
  : M (list (dict str)) :=
  prompt_blocks <- load_prompts (folder_path ++ [prompts_file t]) ;;
  ret (map parse_prompt_block prompt_blocks).

(** [generate_json_files(prompts, prompt_type, story_name, default_seed,
    num_images, num_iterations, output_dir)] *)
Definition generate_json_files (prompts : list (dict str)) (t : prompt_type)
    (story_name : str) (default_seed num_images num_iterations : Z)
    (output_dir : path) : M (list path) :=
  let base_dir := output_dir ++ [story_name; type_dir t] in
  os_makedirs base_dir ;;;
  for_fold prompts
    (materialize base_dir (JInt num_images) (JInt num_iterations) default_seed) [].

(** The body of [for item_name in items]; a missing descriptor is
    passed over. *)
Definition process_item (s : settings) (t : prompt_type) (base_dir : path)
    (num_images num_iterations : Z) (item_name : str) : M unit :=
  let item_dir := base_dir ++ [item_name] in
  let prompt_path := item_dir ++ [lit "prompt.json"] in
  fun w =>
    if negb (exists_path (output w) prompt_path) then Ok tt w
    else
      (data <- json_load prompt_path ;;
       seed_field <- py_get data (lit "Seed") (JInt (s_seed s)) ;;
       seed <- py_int seed_field ;;
       print (MsgItemHeader t item_name s seed num_images num_iterations) ;;;
       iterations s item_dir item_name seed num_images num_iterations data) w.

(** [generate_images(settings, prompt_type, story_name, num_images,
    num_iterations, output_dir)] *)
Definition generate_images (s : settings) (t : prompt_type) (story_name : str)
    (num_images num_iterations : Z) (output_dir : path) : M unit :=
  let base_dir := output_dir ++ [story_name; type_dir t] in
  fun w =>
    if negb (exists_path (output w) base_dir)
    then print (MsgNothingToProcess t story_name) w
    else
      (items <- os_listdir base_dir ;;
       for_each items (process_item s t base_dir num_images num_iterations)) w.

Definition input_dir : path := [lit "input"].
Definition output_dir : path := [lit "output"].

(** The body of [for story_name in selected_folders] of [main]. *)
Definition process_folder (s : settings) (num_images num_iterations : Z)
    (story_name : str) : M unit :=
  let folder_path := input_dir ++ [story_name] in
  print (MsgText (lit "Processing folder: " ++ story_name)) ;;;
  print (MsgText (lit "Processing character prompts...")) ;;;
  character_prompts <- create_prompts character folder_path ;;
  _ <- generate_json_files character_prompts character story_name (s_seed s)
                           num_images num_iterations output_dir ;;
  print (MsgText (lit "Processing scene prompts...")) ;;;
  scene_prompts <- create_prompts scene folder_path ;;
  _ <- generate_json_files scene_prompts scene story_name (s_seed s)
                           num_images num_iterations output_dir ;;
  print (MsgText (lit "JSON files for characters and scenes have been created.")) ;;;
  print (MsgText (lit "You can review and edit them before proceeding if needed.")) ;;;
  print (MsgText (lit "Press 'Space' at any time to pause/resume the script during image generation.")) ;;;
  start_keyboard_listener ;;;
  print (MsgText (lit "Starting image generation for characters...")) ;;;
  generate_images s character story_name num_images num_iterations output_dir ;;;
  print (MsgText (lit "Starting image generation for scenes...")) ;;;
  generate_images s scene story_name num_images num_iterations output_dir ;;;
  stop_keyboard_listener ;;;
  print (MsgText (lit "Image generation completed for folder: " ++ story_name)).

(** [main] from "Process each selected folder" on, with the settings,
    counts and folders it has read. *)
Definition main (s : settings) (num_images num_iterations : Z)
    (selected_folders : list str) : M unit :=
  for_each selected_folders (process_folder s num_images num_iterations).

End V1_0.

(* ================================================================== *)
(** * The prompt file format, as the specification words it *)
(* ================================================================== *)

(** The lines of a text are cut into blocks at the lines that consist of
    the separator alone. *)
Fixpoint blocks_of_lines (lines : list str) : list (list str) :=
  match lines with
  | [] => [[]]
  | l :: ls =>
      if str_eqb l separator then [] :: blocks_of_lines ls
      else match blocks_of_lines ls with
           | b :: bs => (l :: b) :: bs
           | [] => [[l]]
           end
  end.

(** The blocks of a text delimited by separator lines. *)
Definition spec_blocks (content : str) : list str :=
  map (join [nl]) (blocks_of_lines (split [nl] content)).

Definition nonblank (block : str) : bool := truthy (strip block).

(** The separator token occurs in the text only as a whole line. *)
Definition separator_only_on_lines (content : str) : bool :=
  forallb (fun l => str_eqb l separator || negb (contains separator l))
          (split [nl] content).

(** A colon line with the colon-free lines that follow it: its trimmed
    label, its trimmed value and its continuation lines. *)
Definition segment : Type := (str * str * list str)%type.

Definition seg_label (g : segment) : str := fst (fst g).
Definition seg_value (g : segment) : str := snd (fst g).
Definition seg_lines (g : segment) : list str := snd g.

Fixpoint take_continuation (lines : list str) : list str :=
  match lines with
  | [] => []
  | l :: ls => if contains [colon] l then [] else l :: take_continuation ls
  end.

Fixpoint segments (lines : list str) : list segment :=
  match lines with
  | [] => []
  | l :: ls =>
      if contains [colon] l then
        match split1 [colon] l with
        | [key; value] =>
            (strip key, strip value, take_continuation ls) :: segments ls
        | _ => segments ls
        end
      else segments ls
  end.

(** The continuation lines, each trimmed and led by one space. *)
Definition continuation_text (lines : list str) : str :=
  flat_map (fun l => space :: strip l) lines.

(** The value a field gets as the claims state it: the value of the colon
    line followed by its continuation lines. *)
Definition stated_value (g : segment) : str :=
  seg_value g ++ continuation_text (seg_lines g).

(** The value a field gets in the code: the continuation lines count only
    under a non-empty label. *)
Definition field_value (g : segment) : str :=
  seg_value g ++ (if truthy (seg_label g) then continuation_text (seg_lines g) else []).

Definition record_of (value : segment -> str) (gs : list segment) : dict str :=
  fold_left (fun d g => dict_set d (seg_label g) (value g)) gs [].

(** The record of a block as the claims state it. *)
Definition stated_record (block : str) : dict str :=
  record_of stated_value (segments (split [nl] (strip block))).

(** The last segment that carries the label [k]. *)
Definition last_with_label (k : str) (gs : list segment) : option segment :=
  find (fun g => str_eqb (seg_label g) k) (rev gs).

(** The distinct texts of a list, in the order of their first occurrence. *)
Definition distinct (l : list str) : list str :=
  fold_left (fun acc x => if existsb (str_eqb x) acc then acc else acc ++ [x]) l [].

(** Each line led by a newline. *)
Definition prejoin (lines : list str) : str :=
  flat_map (fun l => nl :: l) lines.

(** Puts the text [l] in front of the first piece. *)
Definition app_first (l : str) (pieces : list str) : list str :=
  match pieces with
  | [] => [l]
  | p :: rest => (l ++ p) :: rest
  end.

(** The pieces between the separators, for blocks given by their lines:
    every block but the last is followed by the newline that ends it. *)
Fixpoint pieces_of_blocks (blocks : list (list str)) : list str :=
  match blocks with
  | [] => []
  | [b] => [prejoin b]
  | b :: bs => (prejoin b ++ [nl]) :: pieces_of_blocks bs
  end.

(** Prompt texts used as concrete inputs. *)
Definition text_two_blocks : str :=
  lit "Name: Jean Grey" ++ [nl] ++ lit "Description: A hero" ++ [nl]
    ++ lit "who flies" ++ [nl] ++ lit "---" ++ [nl] ++ [nl] ++ lit "---" ++ [nl]
    ++ lit "Name: Storm" ++ [nl].

Definition text_dashes_in_value : str := lit "Name: Spider---Man".

(** Blocks used as concrete inputs. *)
Definition block_hero : str :=
  lit "Description: A hero" ++ [nl] ++ lit "who flies".

Definition block_empty_label : str := lit ":a" ++ [nl] ++ lit "b".

Definition block_no_colon : str := lit "just some text" ++ [nl] ++ lit "and more".

Definition block_repeated_label : str :=
  lit "Tag: one" ++ [nl] ++ lit "more" ++ [nl] ++ lit "Tag : two" ++ [nl]
    ++ lit "  and on" ++ [nl] ++ lit "Other: x".

Definition block_repeated_empty_label : str :=
  lit ":a" ++ [nl] ++ lit ":b" ++ [nl] ++ lit "c".

(** What the colon-free lines at the head of [conts] add to the field
    under way. *)
Definition append_continuation (d : dict str) (cur : option str)
    (conts : list str) : dict str :=
  match cur with
  | Some k =>
      if truthy k then
        match dict_get d k with
        | Some v => dict_set d k (v ++ continuation_text conts)
        | None => d
        end
      else d
  | None => d
  end.

Definition set_field (d : dict str) (g : segment) : dict str :=
  dict_set d (seg_label g) (field_value g).

(** The world in which a piece of the program ends. *)
Definition final {A} (r : result A) : world :=
  match r with
  | Ok _ w => w
  | Raised _ w => w
  | Hangs w => w
  end.

Definition is_ok {A} (r : result A) : bool :=
  match r with Ok _ _ => true | _ => false end.

(** The descriptor that [json.load] finds at [p], if it is a JSON object. *)
Definition descriptor_at (w : world) (p : path) : option (dict jvalue) :=
  match tree_lookup (output w) p with
  | Some (File (Json (JObj fields))) => Some fields
  | _ => None
  end.

(** A world with nothing on disk, nothing scripted and nobody listening. *)
Definition empty_world : world :=
  {| inputs := []; output := []; paused := false; keyboard_listener := None;
     events := []; responses := []; pending_keys := []; pending_edits := [] |}.

Definition record_jean : dict str :=
  [(lit "Name", lit "Jean Grey"); (lit "Positive prompt", lit "red hair");
   (lit "Seed", lit "42")].

Definition path_jean (base : path) : path :=
  base ++ [lit "Characters"; lit "Jean_Grey"; lit "prompt.json"].

(* ================================================================== *)
(** * What a piece of the program may do to the world *)
(* ================================================================== *)

(** [w'] continues [w] by events that all satisfy [P]. *)
Definition extends_by (P : event -> Prop) (w w' : world) : Prop :=
  exists evs, events w' = events w ++ evs /\ Forall P evs.

(** The events that [w'] has after those of [w]. *)
Definition new_events (w w' : world) : list event :=
  skipn (List.length (events w)) (events w').

(** Every run of [m] ends in a world related to the one it started in,
    however it ends. *)
Definition respects {A} (R : world -> world -> Prop) (m : M A) : Prop :=
  forall w, R w (final (m w)).

(** [m] leaves the world as it is. *)
Definition pure {A} (m : M A) : Prop := forall w, final (m w) = w.

Definition keeps_listener (w w' : world) : Prop :=
  keyboard_listener w' = keyboard_listener w.

(** Entries of the output tree survive, except where a file of depth
    [depth] is rewritten. *)
Definition keeps_entries (depth : nat) (w w' : world) : Prop :=
  forall p n,
    List.length p <> depth ->
    tree_lookup (output w) p = Some n -> tree_lookup (output w') p = Some n.

(** [t'] has the files of [t] down to depth [n] and its directories at
    depth [n + 1]: what has room in [t], a directory down to depth [n] or
    a file below it, has room in [t']. *)
Definition settled (n : nat) (t t' : tree) : Prop :=
  (forall q, List.length q <= n -> isfile t' q = isfile t q)
  /\ (forall q, List.length q = S n -> isdir t' q = isdir t q).

(** An exception of the file system or of a conversion, which no handler
    of the program catches. *)
Definition uncaught (e : exn) : Prop := forall x, e <> RequestException x.

Definition made_dirs (evs : list event) : list path :=
  flat_map (fun e => match e with EvMakedirs p => [p] | _ => [] end) evs.

Definition posts (evs : list event) : list payload :=
  flat_map (fun e => match e with EvPost _ p => [p] | _ => [] end) evs.

Definition is_post (e : event) : bool :=
  match e with EvPost _ _ => true | _ => false end.

Definition not_post (e : event) : Prop := is_post e = false.

Definition not_makedirs (e : event) : Prop :=
  match e with EvMakedirs _ => False | _ => True end.

Definition not_listener_event (e : event) : Prop :=
  match e with EvListenerStart | EvListenerStop => False | _ => True end.

(** The events of a wait at the pause flag. *)
Definition wait_event (e : event) : Prop :=
  match e with
  | EvCheckPaused _ => True
  | EvSleep ms => ms = 500%Z
  | EvPrint MsgPaused | EvPrint MsgResumed => True
  | _ => False
  end.

(** The events of the generation loop for given counts and seed: the
    requests carry them, and the listener is left alone. *)
Definition generation_event (seed num_images : Z) (e : event) : Prop :=
  match e with
  | EvPost _ p => p_seed p = seed /\ p_n_iter p = num_images
  | EvListenerStart | EvListenerStop | EvInput => False
  | _ => True
  end.

(** The frame of the generation code: its events satisfy [P], the entries
    of the output tree survive except files of depth [depth], and the
    listener is left alone. *)
Definition frame (P : event -> Prop) (depth : nat) (w w' : world) : Prop :=
  extends_by P w w' /\ keeps_entries depth w w' /\ keeps_listener w w'.

(** The events of one iteration after its directory is made. *)
Definition request_event (s : settings) (seed num_images : Z) (e : event) : Prop :=
  match e with
  | EvMakedirs _ => False
  | EvPost url p => url = api_url_of s /\ p_seed p = seed /\ p_n_iter p = num_images
  | EvSleep ms => ms = 500%Z
  | EvInput | EvListenerStart | EvListenerStop => False
  | _ => True
  end.

(** The events of one iteration. *)
Definition iteration_event (s : settings) (item_dir : path) (seed num_images : Z)
    (iteration : Z) (e : event) : Prop :=
  match e with
  | EvMakedirs p => p = iteration_dir_of item_dir iteration
  | _ => request_event s seed num_images e
  end.

(** The events of the iterations of one item. *)
Definition item_event (s : settings) (item_dir : path) (seed num_images : Z)
    (e : event) : Prop :=
  match e with
  | EvMakedirs p => exists iteration, p = iteration_dir_of item_dir iteration
  | _ => request_event s seed num_images e
  end.

(* ================================================================== *)
(** * Concrete worlds *)
(* ================================================================== *)

Definition example_settings : settings :=
  {| s_model := lit "dream.safetensors";
     s_lora := lit "ink.v2.safetensors";
     s_lora_weight := lit "0.8";
     s_sampling_method := lit "Euler a";
     s_scheduler := lit "Karras";
     s_sampling_steps := 20;
     s_width := 512;
     s_height := 768;
     s_cfg_scale := lit "7.5";
     s_seed := -1;
     s_api_endpoint := None |}.

(** A descriptor edited by hand: 2 images, 3 iterations, seed 7. *)
Definition descriptor_three : dict jvalue :=
  [(lit "Positive prompt", JStr (lit "a hero"));
   (lit "Negative prompt", JStr (lit "blurry"));
   (lit "Number of Images", JInt 2);
   (lit "Number of Iterations", JInt 3);
   (lit "Seed", JInt 7)].

(** A descriptor as [generate_json_files] of [main.py] writes it. *)
Definition descriptor_plain : dict jvalue :=
  [(lit "Positive prompt", JStr (lit "a storm"));
   (lit "Number of Images", JInt 1);
   (lit "Number of Iterations", JInt 1);
   (lit "Seed", JInt (-1))].

Definition response_one_image : post_outcome :=
  Responded 200 (BodyJson (JObj [(lit "images", JArr [JStr (lit "aGk=")])])).

Definition response_refused : post_outcome := ConnectionFailed (lit "refused").

(** An output tree with the item directories [names] under [base], each
    holding the node given for its prompt.json, if any. *)
Definition tree_of_items (base : path) (items : list (str * option node)) : tree :=
  fold_left
    (fun t item =>
       let t1 := makedirs (base ++ [fst item]) t in
       match snd item with
       | Some n => tree_set t1 (base ++ [fst item; lit "prompt.json"]) n
       | None => t1
       end)
    items (makedirs base []).

Definition world_of (t : tree) (rs : list post_outcome) (ks : list (list key))
    (l : option listener) : world :=
  {| inputs := []; output := t; paused := false; keyboard_listener := l;
     events := []; responses := rs; pending_keys := ks; pending_edits := [] |}.

Definition story : str := lit "X-Men".
Definition characters_dir : path := [story; lit "Characters"].
Definition item_A : str := lit "A".
Definition item_B : str := lit "B".

(** Item A with the hand-edited descriptor; the server answers, refuses,
    answers. *)
Definition world_three : world :=
  world_of (tree_of_items characters_dir
              [(item_A, Some (File (Json (JObj descriptor_three))))])
           [response_one_image; response_refused; response_one_image] [] None.

(** The same item below [output/], for [v1.0]. *)
Definition world_three_v1_0 : world :=
  world_of (tree_of_items (V1_0.output_dir ++ characters_dir)
              [(item_A, Some (File (Json (JObj descriptor_three))))])
           [response_one_image; response_refused; response_one_image] [] None.

(* ================================================================== *)
(** * Clean runs: what the loop needs to go through *)
(* ================================================================== *)

(** The [RequestException] that the try block meets on an outcome, if it
    meets one: no connection, a 4xx or 5xx status, or a body that is not
    JSON. *)
Definition request_error_of (o : post_outcome) : option request_error :=
  match o with
  | ConnectionFailed reason => Some (ConnectionError reason)
  | Responded status b =>
      if ((400 <=? status) && (status <? 600))%Z then Some (HTTPError status)
      else match b with
           | BodyText _ => Some InvalidJSON
           | BodyJson _ => None
           end
  end.

Definition decodable (v : jvalue) : bool :=
  match v with
  | JStr s =>
      forallb is_ascii s
      && match a2b_base64 s 0 0%Z 0 [] with Some _ => true | None => false end
  | _ => false
  end.

(** A response body with a list of decodable images. *)
Definition clean_body (v : jvalue) : bool :=
  match v with
  | JObj fields =>
      match dict_get fields (lit "images") with
      | Some (JArr items) => forallb decodable items
      | _ => false
      end
  | _ => false
  end.

(** An outcome that the loop gets over: a failed request, or a response
    with a clean body. *)
Definition benign (o : post_outcome) : bool :=
  match request_error_of o with
  | Some _ => true
  | None => match o with
            | Responded _ (BodyJson v) => clean_body v
            | _ => false
            end
  end.

(** Nobody has paused the run and no key is pressed any more. *)
Definition idle (w : world) : bool :=
  negb (paused w) && match pending_keys w with [] => true | _ :: _ => false end.

Definition clean (w : world) : bool := idle w && forallb benign (responses w).

(** The integer [int(v)] returns, if it returns. *)
Definition int_value (v : jvalue) : option Z :=
  match v with
  | JInt n => Some n
  | JBool b => Some (if b then 1 else 0)%Z
  | JStr s => int_of_str s
  | _ => None
  end.

Definition is_some {A} (o : option A) : bool :=
  match o with Some _ => true | None => false end.

(** The positive prompt can take the LoRA tag. *)
Definition good_prompt (s : settings) (fields : dict jvalue) : bool :=
  negb (truthy (s_lora s))
  || match dict_get_default fields (lit "Positive prompt") (JStr []) with
     | JStr _ => true
     | _ => false
     end.

(** A descriptor that [main.py] reads without an exception. *)
Definition good_descriptor (s : settings) (n : option node) : bool :=
  match n with
  | Some (File (Json (JObj fields))) =>
      is_some (int_value (dict_get_default fields (lit "Number of Images") (JInt 1)))
      && is_some (int_value (dict_get_default fields (lit "Number of Iterations") (JInt 1)))
      && is_some (int_value (dict_get_default fields (lit "Seed") (JInt (s_seed s))))
      && good_prompt s fields
  | _ => false
  end.

(** In [v1.0] a missing descriptor is as good: the item is passed over. *)
Definition good_descriptor_v1_0 (s : settings) (n : option node) : bool :=
  match n with
  | None => true
  | Some (File (Json (JObj fields))) =>
      is_some (int_value (dict_get_default fields (lit "Seed") (JInt (s_seed s))))
      && good_prompt s fields
  | _ => false
  end.

Definition prompt_path_of (base : path) (item_name : str) : path :=
  (base ++ [item_name]) ++ [lit "prompt.json"].

(** The iterations that the descriptor of an item asks for. *)
Definition planned_iterations (t : tree) (base : path) (item_name : str) : Z :=
  match tree_lookup t (prompt_path_of base item_name) with
  | Some (File (Json (JObj fields))) =>
      match int_value (dict_get_default fields (lit "Number of Iterations")
                                        (JInt 1)) with
      | Some n => n
      | None => 0
      end
  | _ => 0
  end.

(** The requests [main.py] is to send for the items: one for each
    iteration that the descriptors ask for. *)
Definition planned_requests (t : tree) (base : path) (items : list str) : nat :=
  list_sum
    (map (fun item_name => Z.to_nat (planned_iterations t base item_name)) items).

(** The images that an answer carries. *)
Definition images_of (o : post_outcome) : nat :=
  match o with
  | Responded _ (BodyJson (JObj fields)) =>
      match dict_get fields (lit "images") with
      | Some (JArr items) => List.length items
      | _ => 0
      end
  | _ => 0
  end.

(** The most images that an answer of the script carries. *)
Definition most_images (rs : list post_outcome) : nat :=
  fold_right (fun o n => Nat.max (images_of o) n) 0 rs.

(** The answers to come carry at most [images] images each. *)
Definition within (images : nat) (w : world) : Prop :=
  Forall (fun o => images_of o <= images) (responses w).

(** There is room for the images 1 to [images] of an iteration in its
    directory [dir]. *)
Definition room_for_images (t : tree) (dir : path) (item_name : str)
    (iteration : Z) (images : nat) : bool :=
  forallb (fun k => room_for_file t (dir ++ [image_name item_name iteration (Z.of_nat k)]))
          (seq 1 images).

(** There is room for the iterations of an item: for the directory of
    each, and in it for up to [images] images. *)
Definition room_for_iterations (t : tree) (item_dir : path) (item_name : str)
    (iterations : list Z) (images : nat) : bool :=
  forallb (fun i =>
             room_for_dir t (iteration_dir_of item_dir i)
             && room_for_images t (iteration_dir_of item_dir i) item_name i images)
          iterations.

(** There is room for what [generate_images] of [main.py] is to write
    below [base]: for the iterations that the descriptors ask for, with
    as many images as the answers carry. *)
Definition room_for_generation (w : world) (base : path) : bool :=
  forallb (fun item_name =>
             room_for_iterations (output w) (base ++ [item_name]) item_name
               (range_from_1 (planned_iterations (output w) base item_name))
               (most_images (responses w)))
          (entries (output w) base).

(** The same for [v1.0], with the iterations of the run. *)
Definition room_for_generation_v1_0 (w : world) (base : path) (num_iterations : Z)
  : bool :=
  forallb (fun item_name =>
             room_for_iterations (output w) (base ++ [item_name]) item_name
               (range_from_1 num_iterations) (most_images (responses w)))
          (entries (output w) base).

(** The requests [v1.0] is to send: [num_iterations] for each item that
    has a descriptor. *)
Definition planned_requests_v1_0 (t : tree) (base : path) (num_iterations : Z)
    (items : list str) : nat :=
  list_sum
    (map (fun item_name =>
            if exists_path t (prompt_path_of base item_name)
            then Z.to_nat num_iterations else 0) items).

(** [w'] differs from [w] by files of depth [depth], by [n] requests with
    their responses taken from the script, and by events. *)
Definition advances (depth n : nat) (w w' : world) : Prop :=
  keeps_entries depth w w'
  /\ keeps_listener w w'
  /\ (exists evs, events w' = events w ++ evs /\ List.length (posts evs) = n)
  /\ responses w' = skipn n (responses w).

(** [w'] has the flag, the keys, the script and the listener of [w]. *)
Definition same_control (w w' : world) : Prop :=
  paused w' = paused w /\ pending_keys w' = pending_keys w
  /\ responses w' = responses w /\ keyboard_listener w' = keyboard_listener w.

(** The world after a failed request: the request, then the error on the
    console and in the log. *)
Definition after_failure (url : str) (p : payload) (item_name : str) (iteration : Z)
    (e : request_error) (rest : list post_outcome) (w : world) : world :=
  emit (EvLog ERROR (MsgError item_name iteration e))
    (emit (EvPrint (MsgError item_name iteration e))
       (set_responses rest (emit (EvPost url p) w))).

(** Every item that the enumeration of [base] yields has a descriptor
    that [main.py] reads without an exception. *)
Definition good_items (s : settings) (t : tree) (base : path) : bool :=
  forallb (fun item_name =>
             good_descriptor s (tree_lookup t (prompt_path_of base item_name)))
          (entries t base).

(** The same for [v1.0], every item having its descriptor. *)
Definition good_items_v1_0 (s : settings) (t : tree) (base : path) : bool :=
  forallb (fun item_name =>
             exists_path t (prompt_path_of base item_name)
             && good_descriptor_v1_0 s (tree_lookup t (prompt_path_of base item_name)))
          (entries t base).

Definition is_error_log (e : event) : bool :=
  match e with EvLog ERROR _ => true | _ => false end.

Definition plain_item (item_name : str) : str * option node :=
  (item_name, Some (File (Json (JObj descriptor_plain)))).

(** Items A and B; the request for A is refused, the one for B answered. *)
Definition world_A_fails : world :=
  world_of (tree_of_items characters_dir [plain_item item_A; plain_item item_B])
           [response_refused; response_one_image] [] None.

Definition world_A_fails_v1_0 : world :=
  world_of (tree_of_items (V1_0.output_dir ++ characters_dir)
              [plain_item item_A; plain_item item_B])
           [response_refused; response_one_image] [] None.

(** Item A; the server answers with status 300 and an image. *)
Definition world_status_300 : world :=
  world_of (tree_of_items characters_dir [plain_item item_A])
           [Responded 300 (BodyJson (JObj [(lit "images", JArr [JStr (lit "aGk=")])]))]
           [] None.

(** The same with the directory of the first iteration of A made. *)
Definition world_status_300_in_iteration : world :=
  final (os_makedirs (iteration_dir_of (characters_dir ++ [item_A]) 1) world_status_300).

Definition image_path (base : path) (item_name : str) (iteration k : Z) : path :=
  iteration_dir_of (base ++ [item_name]) iteration
    ++ [image_name item_name iteration k].

(** Items A and B; A's descriptor is not JSON. *)
Definition world_A_malformed : world :=
  world_of (tree_of_items characters_dir
              [(item_A, Some (File Malformed)); plain_item item_B])
           [response_one_image; response_one_image] [] None.

Definition world_A_malformed_v1_0 : world :=
  world_of (tree_of_items (V1_0.output_dir ++ characters_dir)
              [(item_A, Some (File Malformed)); plain_item item_B])
           [response_one_image; response_one_image] [] None.

(** Items A and B; A has no descriptor. *)
Definition world_A_missing : world :=
  world_of (tree_of_items characters_dir [(item_A, None); plain_item item_B])
           [response_one_image; response_one_image] [] None.

Definition world_A_missing_v1_0 : world :=
  world_of (tree_of_items (V1_0.output_dir ++ characters_dir)
              [(item_A, None); plain_item item_B])
           [response_one_image; response_one_image] [] None.

Definition not_json (c : content) : Prop :=
  match c with Json _ => False | _ => True end.

(** The events of the generation loop: anything but the listener's start
    and stop and the wait for Enter. *)
Definition loop_event (e : event) : Prop :=
  match e with
  | EvListenerStart | EvListenerStop | EvInput => False
  | EvSleep ms => ms = 500%Z
  | _ => True
  end.

(** The events before [generate_images] is called, for the story
    [story] below [root]: lines of text are printed, the directories of
    the story and of its items are made, their descriptors are written,
    and the program waits for Enter.  No request, no entry of the log, no
    look at the pause flag, no iteration directory and no image is among
    them, and the listener is left alone. *)
Definition setup_event (root : path) (story : str) (e : event) : Prop :=
  match e with
  | EvPrint (MsgText _) => True
  | EvMakedirs p =>
      exists t, p = root ++ [story; type_dir t]
                \/ exists name, p = root ++ [story; type_dir t; name]
  | EvWrite p c =>
      exists t name fields,
        p = root ++ [story; type_dir t; name; lit "prompt.json"]
        /\ c = Json (JObj fields)
  | EvInput => True
  | _ => False
  end.

(** The events are as [P] wants and the listener is left alone. *)
Definition light (P : event -> Prop) (w w' : world) : Prop :=
  extends_by P w w' /\ keeps_listener w w'.

(** What holds of code that runs while the listener [l] is running: when
    it returns, the listener has been stopped, once; when an exception
    leaves it or it hangs, the listener is still running. *)
Definition stops_listener (l : listener) (m : M unit) : Prop :=
  forall w,
    keyboard_listener w = Some l ->
    exists evs,
      events (final (m w)) = events w ++ evs
      /\ if is_ok (m w)
         then keyboard_listener (final (m w)) = None
              /\ exists before after,
                   evs = before ++ EvListenerStop :: after
                   /\ Forall not_listener_event before
                   /\ Forall not_listener_event after
         else keyboard_listener (final (m w)) = Some l
              /\ Forall not_listener_event evs.

(** What holds of a run that starts the listener [l]: up to the start
    there are only events that [setup] allows; either the run ends before
    the start, without returning, or the start is followed by code of
    which [stops_listener] holds. *)
Definition starts_listener (setup : event -> Prop) (l : listener) (m : M unit)
  : Prop :=
  forall w,
    exists before rest,
      events (final (m w)) = events w ++ before ++ rest
      /\ Forall setup before
      /\ ((rest = [] /\ is_ok (m w) = false
           /\ keyboard_listener (final (m w)) = keyboard_listener w)
          \/ exists rest',
               rest = EvListenerStart :: rest'
               /\ if is_ok (m w)
                  then keyboard_listener (final (m w)) = None
                       /\ exists during after,
                            rest' = during ++ EvListenerStop :: after
                            /\ Forall not_listener_event during
                            /\ Forall not_listener_event after
                  else keyboard_listener (final (m w)) = Some l
                       /\ Forall not_listener_event rest').

Definition space_listener : listener := {| pause_key := KeySpace |}.
Definition f8_listener : listener := {| pause_key := KeyF8 |}.

(** The prompt files of a story with the characters A and B. *)
Definition text_A_B : str :=
  lit "Name: A" ++ [nl] ++ lit "Positive prompt: a hero" ++ [nl] ++ lit "---" ++ [nl]
    ++ lit "Name: B" ++ [nl] ++ lit "Positive prompt: a storm" ++ [nl].

Definition response_bad_image : post_outcome :=
  Responded 200 (BodyJson (JObj [(lit "images",
                                  JArr [JStr (lit "aGk="); JStr (lit "A")])])).

(** A run of [main.py]: the listener reports nothing, and the first
    response carries an image that is not base64. *)
Definition world_main_bad_image : world :=
  {| inputs := [([lit "characters.txt"], text_A_B); ([lit "scenes.txt"], [])];
     output := []; paused := false; keyboard_listener := None; events := [];
     responses := [response_bad_image; response_one_image];
     pending_keys := []; pending_edits := [] |}.

(** The same run with responses that are in order. *)
Definition world_main_fine : world :=
  {| inputs := [([lit "characters.txt"], text_A_B); ([lit "scenes.txt"], [])];
     output := []; paused := false; keyboard_listener := None; events := [];
     responses := [response_one_image; response_refused];
     pending_keys := []; pending_edits := [] |}.

(** Items A and B on disk, the first response with the bad image. *)
Definition world_bad_image : world :=
  world_of (tree_of_items characters_dir [plain_item item_A; plain_item item_B])
           [response_bad_image; response_one_image] [] None.

Definition is_listener_stop (e : event) : bool :=
  match e with EvListenerStop => true | _ => false end.

(* ================================================================== *)
(** * Monitors of the pause protocol *)
(* ================================================================== *)

(** A request is sent only when the last look at the flag read it false
    and nothing but logging and printing has happened since. *)
Fixpoint requests_guarded (armed : bool) (evs : list event) : bool :=
  match evs with
  | [] => true
  | EvCheckPaused flag :: rest => requests_guarded (negb flag) rest
  | EvPost _ _ :: rest => armed && requests_guarded false rest
  | EvLog _ _ :: rest => requests_guarded armed rest
  | EvPrint _ :: rest => requests_guarded armed rest
  | _ :: rest => requests_guarded false rest
  end.

(** A look at the flag that reads it true is followed by a sleep of half
    a second (or by nothing more, when the wait goes on for ever). *)
Fixpoint polls_spaced (evs : list event) : bool :=
  match evs with
  | [] => true
  | EvCheckPaused true :: rest =>
      match rest with
      | [] => true
      | EvSleep 500 :: rest' => polls_spaced rest'
      | _ :: _ => false
      end
  | _ :: rest => polls_spaced rest
  end.

(** The reading of "a wait-check immediately after each request": every
    request is followed by a look at the flag before the next iteration
    starts or the run ends. *)
Fixpoint post_then_check (pending : bool) (evs : list event) : bool :=
  match evs with
  | [] => negb pending
  | EvPost _ _ :: rest => post_then_check true rest
  | EvCheckPaused _ :: rest => post_then_check false rest
  | EvMakedirs _ :: rest => negb pending && post_then_check false rest
  | _ :: rest => post_then_check pending rest
  end.

(** The last event of a world is a passed wait-check, or the log entry of
    a failed request. *)
Definition ends_checked_or_failed (w : world) : Prop :=
  exists evs,
    events w = evs ++ [EvCheckPaused false]
    \/ exists item_name iteration e,
         events w = evs ++ [EvLog ERROR (MsgError item_name iteration e)].

(** [w'] continues [w] by events that the guard of requests accepts. *)
Definition guarded (w w' : world) : Prop :=
  exists evs, events w' = events w ++ evs /\ requests_guarded false evs = true.

(** Item A with the listener running; the user presses space while the
    only request is under way. *)
Definition world_key_during_request (o : post_outcome) : world :=
  world_of (tree_of_items characters_dir [plain_item item_A])
           [o] [[]; [KeySpace]] (Some space_listener).

(** The flag is set, and the user presses space before the third look. *)
Definition world_paused : world :=
  {| inputs := []; output := []; paused := true;
     keyboard_listener := Some space_listener; events := []; responses := [];
     pending_keys := [[]; [KeyOther (lit "a")]; [KeySpace]; [KeySpace]];
     pending_edits := [] |}.

(* ================================================================== *)
(** * Shapes, footprints and survivable answers *)
(* ================================================================== *)

(** What holds of a label and its value in a parsed record. *)
Definition field_shape (kv : str * str) : Prop :=
  strip (fst kv) = fst kv /\ ~ In colon (fst kv) /\ ~ In nl (fst kv)
  /\ ~ In nl (snd kv).

(** The events of [generate_json_files]: directories made and JSON
    documents written. *)
Definition store_event (e : event) : Prop :=
  match e with
  | EvMakedirs _ => True
  | EvWrite _ (Json _) => True
  | _ => False
  end.

(** [w'] continues [w] by events that satisfy [P]; of the output tree
    only the paths in [W] may have been rewritten, every other entry is
    kept; the prompt files are left alone. *)
Definition touches (P : event -> Prop) (W : path -> Prop) (w w' : world) : Prop :=
  extends_by P w w'
  /\ (forall p n,
         ~ W p -> tree_lookup (output w) p = Some n ->
         tree_lookup (output w') p = Some n)
  /\ inputs w' = inputs w.

(** What a piece of [generate_json_files] does, however it ends: its
    events are directories made and documents written, the entries of the
    tree are kept but for the paths in [W], and the prompt files, the
    flag, the keys, the script and the listener are left alone. *)
Definition stores (W : path -> Prop) (w w' : world) : Prop :=
  (forall p n, ~ W p -> tree_lookup (output w) p = Some n ->
               tree_lookup (output w') p = Some n)
  /\ inputs w' = inputs w
  /\ same_control w w'
  /\ extends_by store_event w w'.

(** The path of an image of some item below [base]. *)
Definition is_image_path (base p : path) : Prop :=
  exists item_name iteration k, p = image_path base item_name iteration k.

(** A request built from the settings: the endpoint, the sampling
    parameters and the model are the settings', one image per batch. *)
Definition built_from (s : settings) (url : str) (p : payload) : Prop :=
  url = api_url_of s
  /\ p_steps p = s_sampling_steps s /\ p_cfg_scale p = s_cfg_scale s
  /\ p_width p = s_width s /\ p_height p = s_height s
  /\ p_sampler_name p = s_sampling_method s /\ p_scheduler p = s_scheduler s
  /\ p_sd_model_checkpoint p = s_model s /\ p_batch_size p = 1%Z.

(** What the generation of the items below [base] does: requests built
    from the settings, iteration directories, image files, waits at the
    pause flag, and lines on the console and in the log. *)
Definition footprint_event (s : settings) (base : path) (e : event) : Prop :=
  match e with
  | EvPost url p => built_from s url p
  | EvMakedirs p =>
      exists item_name iteration, p = iteration_dir_of (base ++ [item_name]) iteration
  | EvWrite p c => is_image_path base p /\ exists bytes, c = Bytes bytes
  | EvSleep ms => ms = 500%Z
  | EvInput | EvListenerStart | EvListenerStop => False
  | EvPrint _ | EvLog _ _ | EvCheckPaused _ => True
  end.

(** The bytes [base64.b64decode(v)] returns, if it returns. *)
Definition decoded (v : jvalue) : option str :=
  match v with
  | JStr s => if forallb is_ascii s then a2b_base64 s 0 0%Z 0 [] else None
  | _ => None
  end.

(** The items a [for] loop draws from [v], if [v] can be iterated. *)
Definition items_of (v : jvalue) : option (list jvalue) :=
  match v with
  | JArr items => Some items
  | JStr s => Some (map (fun c => JStr [c]) s)
  | JObj fields => Some (map (fun kv => JStr (fst kv)) fields)
  | JNull | JBool _ | JInt _ => None
  end.

(** The images that the try block can save from a response body: the
    body is an object whose "images" entry can be iterated and whose
    items all decode. *)
Definition savable_images (v : jvalue) : option (list jvalue) :=
  match v with
  | JObj fields =>
      match dict_get fields (lit "images") with
      | Some images =>
          match items_of images with
          | Some items => if forallb (fun i => is_some (decoded i)) items
                          then Some items else None
          | None => None
          end
      | None => None
      end
  | _ => None
  end.

(** An outcome of the request that the try block gets over as far as
    the answer goes: the request fails with a [RequestException], or the
    images of the answer can be decoded. *)
Definition survivable (o : post_outcome) : bool :=
  match request_error_of o with
  | Some _ => true
  | None => match o with
            | Responded _ (BodyJson v) => is_some (savable_images v)
            | _ => false
            end
  end.

(** [open(p, 'w')] goes through. *)
Definition can_open (t : tree) (p : path) : bool :=
  match open_error p t with
  | None => true
  | Some _ => false
  end.

(** The files of the images that an outcome brings can be opened in
    [dir]; an outcome that brings none asks for nothing. *)
Definition files_can_be_opened (t : tree) (dir : path) (item_name : str)
    (iteration : Z) (o : post_outcome) : bool :=
  match request_error_of o, o with
  | None, Responded _ (BodyJson v) =>
      match savable_images v with
      | Some items =>
          forallb (fun k => can_open t (dir ++ [image_name item_name iteration
                                                           (Z.of_nat k)]))
                  (seq 1 (List.length items))
      | None => true
      end
  | _, _ => true
  end.

(** The outcome of the next request: when the script has run out,
    nothing answers. *)
Definition next_outcome (w : world) : post_outcome :=
  match responses w with
  | [] => ConnectionFailed []
  | o :: _ => o
  end.

(** The prompts a request is to carry for a descriptor whose positive
    prompt is the text [pp]: the LoRA tag follows the positive prompt when
    the settings name a LoRA; the negative prompt is the descriptor's
    (the empty text when it has none). *)
Definition carries_prompts (s : settings) (fields : dict jvalue) (pp : str)
    (p : payload) : Prop :=
  p_prompt p = JStr (pp ++ (if truthy (s_lora s) then lora_tag s else []))
  /\ p_negative_prompt p = dict_get_default fields (lit "Negative prompt") (JStr []).

Definition prompt_event (s : settings) (fields : dict jvalue) (pp : str)
    (e : event) : Prop :=
  match e with
  | EvPost _ p => carries_prompts s fields pp p
  | _ => True
  end.

(** The line [v1.0] prints before it starts the listener. *)
Definition pause_banner : event :=
  EvPrint (MsgText (lit "Press 'Space' at any time to pause/resume the script during image generation.")).

(** Any event but the start of the listener. *)
Definition no_start (e : event) : Prop :=
  match e with EvListenerStart => False | _ => True end.

(** Whenever the listener is started in a run of [m], the event just
    before the start is [e]. *)
Definition start_follows {A} (e : event) (m : M A) : Prop :=
  forall w,
    exists evs,
      events (final (m w)) = events w ++ evs
      /\ forall before after,
           evs = before ++ EvListenerStart :: after ->
           exists earlier, before = earlier ++ [e].

(** A LoRA directory used as a concrete input: two files with a model
    extension, a directory named like a model, and another file. *)
Definition lora_fs : tree :=
  [([lit "Lora"], Dir);
   ([lit "Lora"; lit "ink.v2.SafeTensors"], File (Bytes []));
   ([lit "Lora"; lit ".pt"], File (Bytes []));
   ([lit "Lora"; lit "sub.ckpt"], Dir);
   ([lit "Lora"; lit "readme.txt"], File (Bytes []))].

Definition settings_with_lora (lora : str) : settings :=
  {| s_model := lit "dream.safetensors";
     s_lora := lora;
     s_lora_weight := lit "0.8";
     s_sampling_method := lit "Euler a";
     s_scheduler := lit "Karras";
     s_sampling_steps := 20;
     s_width := 512;
     s_height := 768;
     s_cfg_scale := lit "7.5";
     s_seed := -1;
     s_api_endpoint := None |}.

(** A record whose fields ask for four images and the seed 42. *)
Definition record_with_counts : dict str :=
  [(lit "Name", lit "A"); (lit "Number of Images", lit "4"); (lit "Seed", lit "42")].

(* ================================================================== *)
(** * Start-up: the listings, the checks and the menus of [main] *)
(* ================================================================== *)

(** [c.lower()] for a code point below 256: A..Z and the capital letters
    of Latin-1 (all of 192..222 but the multiplication sign). *)
Definition lower_char (c : ascii) : ascii :=
  let n := nat_of_ascii c in
  if ((65 <=? n) && (n <=? 90))
     || ((192 <=? n) && (n <=? 222) && negb (n =? 215))
  then ascii_of_nat (n + 32)
  else c.

(** [s.lower()] *)
Definition lower (s : str) : str := map lower_char s.

(** [s.endswith(suffix)] *)
Definition ends_with (suffix s : str) : bool := starts_with (rev suffix) (rev s).

(** [s.endswith(suffixes)] for a tuple of suffixes *)
Definition ends_with_any (suffixes : list str) (s : str) : bool :=
  existsb (fun suffix => ends_with suffix s) suffixes.

(** [model_extensions] and [lora_extensions]: the same tuple. *)
Definition model_extensions : list str :=
  [lit ".ckpt"; lit ".safetensors"; lit ".pt"].

(** [get_available_models(sd_models_path)], read off the file system
    [fs]: the entries of the directory that are files and whose name, in
    lower case, ends in one of the extensions.  When the directory is
    not there [os.listdir] raises (as in [os_listdir], one exception
    stands for a missing directory and for a path that is a file). *)
Definition get_available_models (fs : tree) (sd_models_path : path)
  : exn + list str :=
  match tree_lookup fs sd_models_path with
  | Some Dir =>
      inr (filter (fun f => isfile fs (sd_models_path ++ [f])
                            && ends_with_any model_extensions (lower f))
                  (entries fs sd_models_path))
  | _ => inl (FileNotFoundError sd_models_path)
  end.

(** [get_available_loras(sd_loras_path)]: the same text. *)
Definition get_available_loras (fs : tree) (sd_loras_path : path)
  : exn + list str :=
  match tree_lookup fs sd_loras_path with
  | Some Dir =>
      inr (filter (fun f => isfile fs (sd_loras_path ++ [f])
                            && ends_with_any model_extensions (lower f))
                  (entries fs sd_loras_path))
  | _ => inl (FileNotFoundError sd_loras_path)
  end.

(** How the start-up code ends when it does not return: an exception of
    the generation code, the [IndexError] of a subscript out of range, or
    [sys.exit]. *)
Inductive startup_exn : Type :=
| Exn (e : exn)
| IndexError
| SystemExit (status : Z).

(** [l[i]] for a list: a negative index counts from the end. *)
Definition py_index {A} (l : list A) (i : Z) : option A :=
  let n := Z.of_nat (List.length l) in
  if (0 <=? i)%Z then nth_error l (Z.to_nat i)
  else if (- n <=? i)%Z then nth_error l (Z.to_nat (n + i))
  else None.

(** [options[int(answer) - 1]]: the choice at one of the menus of [main]
    (model, LoRA, scheduler, sampler), [answer] being what [input]
    returned.  The menu shows the options as [enumerate_from_1] numbers
    them. *)
Definition select_by_number {A} (options : list A) (answer : str)
  : startup_exn + A :=
  match int_of_str answer with
  | None => inl (Exn ValueError)
  | Some n =>
      match py_index options (n - 1) with
      | Some x => inr x
      | None => inl IndexError
      end
  end.

(** [s.isdigit()] for code points below 256: the digits 0..9 and the
    superscripts 2, 3 and 1. *)
Definition isdigit_char (c : ascii) : bool :=
  let n := nat_of_ascii c in
  ((48 <=? n) && (n <=? 57)) || (n =? 178) || (n =? 179) || (n =? 185).

Definition isdigit (s : str) : bool := truthy s && forallb isdigit_char s.

(** A list comprehension whose element expression may raise: the first
    exception ends it. *)
Fixpoint collect {E A B} (f : A -> E + B) (l : list A) : E + list B :=
  match l with
  | [] => inr []
  | x :: l' =>
      match f x with
      | inl e => inl e
      | inr y => match collect f l' with
                 | inl e => inl e
                 | inr ys => inr (y :: ys)
                 end
      end
  end.

(** The folder selection of [main] in [v1.0], [answer] being what
    [input] returned:
    [folder_choices = answer.strip()];
    ['0'] selects all folders; otherwise
    [selected_indices = [int(x.strip()) - 1 for x in
    folder_choices.split(',') if x.strip().isdigit()]] and
    [selected_folders = [available_folders[idx] for idx in
    selected_indices if 0 <= idx < len(available_folders)]];
    an empty selection is [sys.exit(1)]. *)
Definition select_folders (available_folders : list str) (answer : str)
  : startup_exn + list str :=
  let folder_choices := strip answer in
  let selected :=
    if str_eqb folder_choices (lit "0") then inr available_folders
    else
      match collect (fun x => match int_of_str (strip x) with
                              | Some n => inr (n - 1)%Z
                              | None => inl (Exn ValueError)
                              end)
                    (filter (fun x => isdigit (strip x))
                            (split (lit ",") folder_choices)) with
      | inl e => inl e
      | inr selected_indices =>
          inr (flat_map
                 (fun idx =>
                    if ((0 <=? idx) && (idx <? Z.of_nat (List.length available_folders)))%Z
                    then match nth_error available_folders (Z.to_nat idx) with
                         | Some folder => [folder]
                         | None => []
                         end
                    else [])
                 selected_indices)
      end in
  match selected with
  | inl e => inl e
  | inr [] => inl (SystemExit 1)
  | inr selected_folders => inr selected_folders
  end.

(** A response to a GET request: the status, the text of the body, and
    the document [response.json()] makes of it, if the text is JSON. *)
Record response : Type := {
  status_code : Z;
  text : str;
  json : option jvalue
}.

(** What [requests.get] does: it raises a [ConnectionError], raises
    something else (a timeout, an invalid URL), or returns a response.
    The exceptions are known by their text. *)
Inductive get_outcome : Type :=
| GetConnectionError (e : str)
| GetOtherError (e : str)
| GetResponse (r : response).

(** The web UI as the start-up code meets it: an outcome for each URL. *)
Definition server : Type := str -> get_outcome.

(** What the try blocks of [get_available_samplers] and
    [get_available_schedulers] can catch. *)
Inductive fetch_error : Type :=
| FetchFailed (e : str)
| FetchStatus (status : Z)
| FetchNotJSON
| FetchTypeError
| FetchKeyError (k : str).

(** The lines the start-up code prints, by the statement that prints
    them. *)
Inductive notice : Type :=
| NoticeFetchingSamplers (e : fetch_error)
| NoticeFetchingSchedulers (e : fetch_error)
| NoticeNoSettingsFile.

(** [item['name']] *)
Definition name_of (item : jvalue) : fetch_error + jvalue :=
  match item with
  | JObj fields =>
      match dict_get fields (lit "name") with
      | Some x => inr x
      | None => inl (FetchKeyError (lit "name"))
      end
  | _ => inl FetchTypeError
  end.

(** The try block of [get_available_samplers] and of
    [get_available_schedulers], on the outcome of its GET request:
    [response.raise_for_status()], [response.json()] and
    [[item['name'] for item in items]]. *)
Definition fetch_names (reply : get_outcome) : fetch_error + list jvalue :=
  match reply with
  | GetConnectionError e => inl (FetchFailed e)
  | GetOtherError e => inl (FetchFailed e)
  | GetResponse r =>
      if ((400 <=? status_code r) && (status_code r <? 600))%Z
      then inl (FetchStatus (status_code r))
      else match json r with
           | None => inl FetchNotJSON
           | Some v =>
               match items_of v with
               | None => inl FetchTypeError
               | Some items => collect name_of items
               end
           end
  end.

(** [get_available_samplers(api_endpoint)]: what it returns and what it
    prints. *)
Definition get_available_samplers (web : server) (api_endpoint : str)
  : list jvalue * list notice :=
  match fetch_names (web (api_endpoint ++ lit "/sdapi/v1/samplers")) with
  | inr names => (names, [])
  | inl e => ([], [NoticeFetchingSamplers e])
  end.

(** [get_available_schedulers(api_endpoint)] *)
Definition get_available_schedulers (web : server) (api_endpoint : str)
  : list jvalue * list notice :=
  match fetch_names (web (api_endpoint ++ lit "/sdapi/v1/schedulers")) with
  | inr names => (names, [])
  | inl e => ([], [NoticeFetchingSchedulers e])
  end.

Definition sd_settings_path : path := [lit "settings"; lit "sd_settings.json"].

(** [load_sd_settings()], read off the file system below the working
    directory. *)
Definition load_sd_settings (fs : tree) : (startup_exn + jvalue) * list notice :=
  if negb (exists_path fs sd_settings_path)
  then (inl (SystemExit 1), [NoticeNoSettingsFile])
  else match tree_lookup fs sd_settings_path with
       | Some (File (Json v)) => (inr v, [])
       | Some (File _) => (inl (Exn (JSONDecodeError sd_settings_path)), [])
       | Some Dir => (inl (Exn (IsADirectoryError sd_settings_path)), [])
       | None => (inl (Exn (FileNotFoundError sd_settings_path)), [])
       end.

(** [os.path.splitext(p)[0]] of a plain file name that ends in the
    extension [ext]: the name without it, unless nothing but dots comes
    before the extension. *)
Definition without_extension (f : str) (ext_length : nat) : str :=
  let stem := firstn (List.length f - ext_length) f in
  if existsb (fun c => negb (Ascii.eqb c (chr 46))) stem then stem else f.

(** The folder that the menu of [v1.0] shows under the number [n], if it
    shows that number. *)
Definition picked (available_folders : list str) (n : Z) : list str :=
  if ((1 <=? n) && (n <=? Z.of_nat (List.length available_folders)))%Z
  then match nth_error available_folders (Z.to_nat (n - 1)) with
       | Some folder => [folder]
       | None => []
       end
  else [].

(** One of the superscript digits below 256, which [isdigit] accepts and
    [int] rejects. *)
Definition is_superscript_digit (c : ascii) : bool :=
  let n := nat_of_ascii c in (n =? 178) || (n =? 179) || (n =? 185).

(* ================================================================== *)
(** * [Setup.py] *)
(* ================================================================== *)

Definition set_inputs (i : list (path * str)) (w : world) : world :=
  {| inputs := i; output := output w; paused := paused w;
     keyboard_listener := keyboard_listener w; events := events w;
     responses := responses w; pending_keys := pending_keys w;
     pending_edits := pending_edits w |}.

Fixpoint input_set (l : list (path * str)) (p : path) (t : str)
  : list (path * str) :=
  match l with
  | [] => [(p, t)]
  | (q, u) :: l' =>
      if path_eqb q p then (q, t) :: l' else (q, u) :: input_set l' p t
  end.

(** [with open(p, 'w') as f: f.write(t)] for a text [t]: the file is
    among the text files afterwards; the event records what was written. *)
Definition write_text (p : path) (t : str) : M unit :=
  fun w => match open_error p (output w) with
           | None => Ok tt (emit (EvWrite p (Bytes t))
                              (set_inputs (input_set (inputs w) p t) w))
           | Some e => Raised e w
           end.

(** [os.path.exists(p)], over the text files and the tree. *)
Definition os_path_exists (p : path) : M bool :=
  fun w => Ok (is_some (input_lookup (inputs w) p) || exists_path (output w) p) w.

Module Setup.

Definition template_files : list str := [lit "characters.txt"; lit "scenes.txt"].

(** The settings that [main] writes for the folder [sd_folder]. *)
Definition sd_settings (sd_folder : str) : jvalue :=
  JObj [(lit "sd_folder", JStr sd_folder);
        (lit "api_endpoint", JStr (lit "http://localhost:7860"))].

(** The body of [for template_file in template_files]: a file that is
    there is left alone. *)
Definition create_template (template_file : str) : M unit :=
  present <- os_path_exists [template_file] ;;
  if present : bool then ret tt else write_text [template_file] [].

(** [main] of [Setup.py], run without command-line arguments; [answer]
    is what [input] returned and [main_script_content] the text that
    [get_main_script] returns.  Paths are taken from the working
    directory; the mode that [os.chmod] sets is not modelled. *)
Definition main (main_script_content answer : str) : M unit :=
  let sd_folder := strip answer in
  let settings_dir := [lit "settings"] in
  os_makedirs settings_dir ;;;
  write_file (settings_dir ++ [lit "sd_settings.json"]) (Json (sd_settings sd_folder)) ;;;
  for_each template_files create_template ;;;
  write_text [lit "main.py"] main_script_content ;;;
  print (MsgText ([nl] ++ lit "Setup complete. You can now edit 'characters.txt' and 'scenes.txt' with your prompts.")) ;;;
  print (MsgText (lit "When ready, run 'python main.py' to start the image generation process.")).

End Setup.

(** The text file at [p], when there is one, has the same text in [w']. *)
Definition keeps_text (p : path) (w w' : world) : Prop :=
  forall content,
    input_lookup (inputs w) p = Some content ->
    input_lookup (inputs w') p = Some content.

(* ================================================================== *)
(** * Theorems *)
(* ================================================================== *)

(** ** Text *)

Lemma str_eqb_refl (a : str) : str_eqb a a = true.
Proof.
  induction a as [|c a IH]; simpl; [reflexivity|].
  now rewrite Ascii.eqb_refl.
Qed.

Lemma str_eqb_eq (a b : str) : str_eqb a b = true <-> a = b.
Proof.
  split.
  - revert b; induction a as [|x a IH]; intros [|y b]; simpl; try discriminate; auto.
    intros H. apply andb_true_iff in H as [Hx Hr].
    apply Ascii.eqb_eq in Hx. subst. f_equal. now apply IH.
  - intros ->. apply str_eqb_refl.
Qed.

Lemma str_eqb_neq (a b : str) : str_eqb a b = false <-> a <> b.
Proof.
  split.
  - intros H E. apply str_eqb_eq in E. congruence.
  - intros H. destruct (str_eqb a b) eqn:E; [|reflexivity].
    apply str_eqb_eq in E. contradiction.
Qed.

Lemma split_go_nonempty (sep : str) (s : str) :
  forall skip, split_go sep skip s <> [].
Proof.
  induction s as [|c s IH]; intros skip; simpl; [discriminate|].
  destruct skip; [|apply IH].
  destruct (starts_with sep (c :: s)); [discriminate|].
  specialize (IH 0). destruct (split_go sep 0 s); [contradiction|discriminate].
Qed.

Lemma split_nonempty (sep s : str) : split sep s <> [].
Proof. apply split_go_nonempty. Qed.

Lemma join_cons (sep p : str) (rest : list str) :
  rest <> [] -> join sep (p :: rest) = p ++ sep ++ join sep rest.
Proof. destruct rest; [contradiction|reflexivity]. Qed.

Lemma join_cons_first (sep : str) (c : ascii) (pieces : list str) :
  pieces <> [] -> join sep (cons_first c pieces) = c :: join sep pieces.
Proof.
  destruct pieces as [|p [|q rest]]; [contradiction| |]; intros _; reflexivity.
Qed.

(** Cutting a text into lines and joining them again gives the text. *)
Lemma join_split_lines (s : str) : join [nl] (split [nl] s) = s.
Proof.
  unfold split. induction s as [|c s IH]; [reflexivity|].
  cbn [split_go starts_with List.length Nat.sub].
  destruct (Ascii.eqb nl c) eqn:E; cbn [andb].
  - apply Ascii.eqb_eq in E. subst c.
    rewrite join_cons by apply split_go_nonempty.
    cbn [app]. now rewrite IH.
  - rewrite join_cons_first by apply split_go_nonempty. now rewrite IH.
Qed.

(** ** Trimming *)

Lemma strip_cons_space (c : ascii) (x : str) :
  is_space c = true -> strip (c :: x) = strip x.
Proof. intros H. unfold strip. simpl. now rewrite H. Qed.

Lemma lstrip_snoc_space (c : ascii) (x : str) :
  is_space c = true ->
  (lstrip x = [] /\ lstrip (x ++ [c]) = []) \/ lstrip (x ++ [c]) = lstrip x ++ [c].
Proof.
  intros H. induction x as [|a x IH]; simpl.
  - left. now rewrite H.
  - destruct (is_space a); [exact IH|]. now right.
Qed.

Lemma rstrip_snoc_space (c : ascii) (y : str) :
  is_space c = true -> rstrip (y ++ [c]) = rstrip y.
Proof.
  intros H. unfold rstrip. rewrite rev_app_distr. simpl. now rewrite H.
Qed.

Lemma strip_snoc_space (c : ascii) (x : str) :
  is_space c = true -> strip (x ++ [c]) = strip x.
Proof.
  intros H. unfold strip.
  destruct (lstrip_snoc_space c x H) as [[E1 E2]|E].
  - now rewrite E1, E2.
  - rewrite E. now apply rstrip_snoc_space.
Qed.

Lemma is_space_nl : is_space nl = true.
Proof. reflexivity. Qed.

(** ** Separator lines and occurrences of the separator *)

Lemma prejoin_join (lines : list str) :
  lines <> [] -> prejoin lines = nl :: join [nl] lines.
Proof.
  induction lines as [|l ls IH]; [contradiction|]. intros _.
  destruct ls as [|l2 ls].
  - simpl. now rewrite app_nil_r.
  - rewrite join_cons by discriminate.
    change (prejoin (l :: l2 :: ls)) with ((nl :: l) ++ prejoin (l2 :: ls)).
    rewrite IH by discriminate. reflexivity.
Qed.

Lemma strip_prejoin (b : list str) : strip (prejoin b) = strip (join [nl] b).
Proof.
  destruct b as [|l ls]; [reflexivity|].
  rewrite prejoin_join by discriminate.
  apply strip_cons_space, is_space_nl.
Qed.

Lemma blocks_of_lines_nonempty (lines : list str) : blocks_of_lines lines <> [].
Proof.
  destruct lines as [|l ls]; simpl; [discriminate|].
  destruct (str_eqb l separator); [discriminate|].
  destruct (blocks_of_lines ls); discriminate.
Qed.

Lemma strip_pieces_of_blocks (blocks : list (list str)) :
  map strip (pieces_of_blocks blocks) = map strip (map (join [nl]) blocks).
Proof.
  induction blocks as [|b bs IH]; [reflexivity|].
  destruct bs as [|b2 bs].
  - simpl. now rewrite strip_prejoin.
  - change (pieces_of_blocks (b :: b2 :: bs))
      with ((prejoin b ++ [nl]) :: pieces_of_blocks (b2 :: bs)).
    cbn [map]. cbn [map] in IH. rewrite IH.
    rewrite strip_snoc_space by apply is_space_nl.
    now rewrite strip_prejoin.
Qed.

(** An occurrence of the separator cannot begin in a line free of it and
    run into what follows, when that is nothing or starts a new line. *)
Lemma separator_chars : separator = [dash; dash; dash].
Proof. reflexivity. Qed.

Lemma dash_not_nl : Ascii.eqb dash nl = false.
Proof. reflexivity. Qed.

Lemma no_straddle (l X : str) :
  contains separator l = false ->
  (X = [] \/ exists X', X = nl :: X') ->
  starts_with separator (l ++ X) = false.
Proof.
  rewrite separator_chars. intros Hc HX.
  destruct l as [|a [|b [|c l]]].
  - destruct HX as [->|[X' ->]]; cbn [app starts_with];
      rewrite ?dash_not_nl; reflexivity.
  - destruct HX as [->|[X' ->]]; cbn [app starts_with];
      rewrite ?dash_not_nl; destruct (Ascii.eqb dash a); reflexivity.
  - destruct HX as [->|[X' ->]]; cbn [app starts_with];
      rewrite ?dash_not_nl;
      destruct (Ascii.eqb dash a); destruct (Ascii.eqb dash b); reflexivity.
  - cbn [contains] in Hc. apply orb_false_iff in Hc as [Hs _].
    cbn [app starts_with] in Hs |- *. exact Hs.
Qed.

Lemma contains_tail (sep : str) (c : ascii) (l : str) :
  contains sep (c :: l) = false -> contains sep l = false.
Proof. cbn [contains]. intros H. now apply orb_false_iff in H as [_ H]. Qed.

Lemma split_free_line (l X : str) :
  contains separator l = false ->
  (X = [] \/ exists X', X = nl :: X') ->
  split separator (l ++ X) = app_first l (split separator X).
Proof.
  intros Hc HX. induction l as [|c l IH].
  - simpl. destruct (split separator X) eqn:E; [|reflexivity].
    now apply split_nonempty in E.
  - unfold split in *. cbn [app split_go].
    change (c :: l ++ X) with ((c :: l) ++ X).
    rewrite (no_straddle (c :: l) X Hc HX).
    rewrite IH by (eapply contains_tail; exact Hc).
    destruct (split_go separator 0 X) eqn:E; [|reflexivity].
    now apply split_go_nonempty in E.
Qed.

Lemma split_separator_line (s : str) :
  split separator (nl :: separator ++ s) = [nl] :: split separator s.
Proof.
  rewrite separator_chars. unfold split.
  cbn [split_go app starts_with List.length Nat.sub].
  rewrite dash_not_nl, !Ascii.eqb_refl. reflexivity.
Qed.

Lemma split_newline_first (s : str) :
  split separator (nl :: s) = cons_first nl (split separator s).
Proof.
  rewrite separator_chars. unfold split. cbn [split_go starts_with].
  now rewrite dash_not_nl.
Qed.

Lemma prejoin_shape (lines : list str) :
  prejoin lines = [] \/ exists X', prejoin lines = nl :: X'.
Proof. destruct lines as [|l ls]; [now left|right]. now exists (l ++ prejoin ls). Qed.

(** When the separator occurs only as a whole line, cutting the text at
    the separator gives the blocks of lines, up to the newlines around. *)
Lemma split_prejoin (lines : list str) :
  Forall (fun l => l = separator \/ contains separator l = false) lines ->
  split separator (prejoin lines) = pieces_of_blocks (blocks_of_lines lines).
Proof.
  induction 1 as [|l ls Hl _ IH]; [reflexivity|].
  change (prejoin (l :: ls)) with (nl :: l ++ prejoin ls).
  cbn [blocks_of_lines].
  pose proof (blocks_of_lines_nonempty ls) as Hne.
  destruct (str_eqb l separator) eqn:E.
  - apply str_eqb_eq in E. subst l.
    rewrite split_separator_line, IH.
    destruct (blocks_of_lines ls) as [|b bs]; [contradiction|reflexivity].
  - assert (Hc : contains separator l = false).
    { destruct Hl as [->|Hc]; [|exact Hc]. now rewrite str_eqb_refl in E. }
    rewrite split_newline_first, (split_free_line l _ Hc (prejoin_shape ls)), IH.
    destruct (blocks_of_lines ls) as [|b [|b2 bs]]; [contradiction| |].
    + reflexivity.
    + cbn [pieces_of_blocks app_first cons_first].
      change (prejoin (l :: b)) with (nl :: l ++ prejoin b).
      f_equal. cbn [app]. now rewrite app_assoc.
Qed.

Lemma map_filter_through {A B} (f : A -> B) (g : B -> bool) (l1 l2 : list A) :
  map f l1 = map f l2 ->
  map f (filter (fun x => g (f x)) l1) = map f (filter (fun x => g (f x)) l2).
Proof.
  revert l2. induction l1 as [|a l1 IH]; intros [|b l2] H; try discriminate.
  - reflexivity.
  - cbn [map] in H. injection H as Hab Hr. cbn [filter].
    rewrite Hab. destruct (g (f b)); cbn [map]; rewrite ?Hab, (IH l2 Hr); reflexivity.
Qed.

Lemma map_strip_cons_first (pieces : list str) :
  pieces <> [] -> map strip (cons_first nl pieces) = map strip pieces.
Proof.
  destruct pieces as [|p rest]; [contradiction|]. intros _.
  cbn [cons_first map]. now rewrite strip_cons_space by apply is_space_nl.
Qed.

Lemma separator_only_on_lines_Forall (content : str) :
  separator_only_on_lines content = true ->
  Forall (fun l => l = separator \/ contains separator l = false) (split [nl] content).
Proof.
  unfold separator_only_on_lines. rewrite forallb_forall. intros H.
  apply Forall_forall. intros l Hin. specialize (H l Hin).
  apply orb_true_iff in H as [H|H].
  - left. now apply str_eqb_eq.
  - right. now apply negb_true_iff.
Qed.

(** The pieces the code cuts and the blocks of the file format agree once
    trimmed. *)
Lemma strip_split_separator (content : str) :
  separator_only_on_lines content = true ->
  map strip (split separator content) = map strip (spec_blocks content).
Proof.
  intros H. apply separator_only_on_lines_Forall in H.
  rewrite <- (map_strip_cons_first (split separator content)) by apply split_nonempty.
  rewrite <- split_newline_first.
  rewrite <- (join_split_lines content) at 1.
  rewrite <- prejoin_join by apply split_nonempty.
  rewrite (split_prejoin _ H). apply strip_pieces_of_blocks.
Qed.

(** Trimming twice is trimming once. *)
Lemma lstrip_idempotent (x : str) : lstrip (lstrip x) = lstrip x.
Proof.
  induction x as [|c x IH]; [reflexivity|]. simpl.
  destruct (is_space c) eqn:E; [exact IH|]. simpl. now rewrite E.
Qed.

Lemma rstrip_idempotent (x : str) : rstrip (rstrip x) = rstrip x.
Proof. unfold rstrip. now rewrite rev_involutive, lstrip_idempotent. Qed.

Lemma lstrip_keeps_last (z : str) (a : ascii) :
  is_space a = false -> exists z', lstrip (z ++ [a]) = z' ++ [a].
Proof.
  intros H. induction z as [|c z IH]; simpl.
  - rewrite H. now exists [].
  - destruct (is_space c); [exact IH|]. now exists (c :: z).
Qed.

Lemma lstrip_rstrip_lstrip (x : str) : lstrip (rstrip (lstrip x)) = rstrip (lstrip x).
Proof.
  destruct (lstrip x) as [|a y] eqn:E; [reflexivity|].
  assert (Ha : is_space a = false).
  { pose proof (lstrip_idempotent x) as Hi. rewrite E in Hi. simpl in Hi.
    destruct (is_space a); [|reflexivity].
    exfalso. assert (Hl : List.length (lstrip y) <= List.length y).
    { clear. induction y as [|c y IH]; simpl; [lia|]. destruct (is_space c); simpl; lia. }
    rewrite Hi in Hl. simpl in Hl. lia. }
  unfold rstrip. cbn [rev].
  destruct (lstrip_keeps_last (rev y) a Ha) as [z' Hz]. rewrite Hz.
  rewrite rev_app_distr. simpl. now rewrite Ha.
Qed.

Lemma strip_idempotent (x : str) : strip (strip x) = strip x.
Proof.
  unfold strip. rewrite lstrip_rstrip_lstrip. apply rstrip_idempotent.
Qed.

Lemma parse_prompt_block_strip (b : str) :
  parse_prompt_block (strip b) = parse_prompt_block b.
Proof. unfold parse_prompt_block. now rewrite strip_idempotent. Qed.

(** C3, as amended: when the separator token [---] occurs in the text only
    as a whole line, [load_prompts] yields the trimmed non-blank blocks
    delimited by the separator lines, and [create_prompts] yields one
    record for each of them, in the order of the blocks. *)
Theorem load_prompts_separator_lines (content : str) :
  separator_only_on_lines content = true ->
  load_prompts_content content = map strip (filter nonblank (spec_blocks content))
  /\ create_prompts_content content
     = map parse_prompt_block (filter nonblank (spec_blocks content))
  /\ List.length (create_prompts_content content)
     = List.length (filter nonblank (spec_blocks content)).
Proof.
  intros H.
  assert (E : load_prompts_content content
              = map strip (filter nonblank (spec_blocks content))).
  { unfold load_prompts_content, nonblank.
    apply (map_filter_through strip truthy). now apply strip_split_separator. }
  split; [exact E|].
  unfold create_prompts_content. rewrite E, map_map.
  split.
  - apply map_ext. intros b. apply parse_prompt_block_strip.
  - now rewrite !length_map.
Qed.

Lemma load_prompts_separator_lines_witness :
  separator_only_on_lines text_two_blocks = true
  /\ List.length (create_prompts_content text_two_blocks) = 2
  /\ List.length (filter nonblank (spec_blocks text_two_blocks)) = 2.
Proof.
  split; [reflexivity|].
  destruct (load_prompts_separator_lines text_two_blocks eq_refl) as (_ & _ & E).
  split; [reflexivity|]. rewrite <- E. reflexivity.
Defined.

(** C3 as stated fails: the code cuts at every occurrence of [---], also
    inside a line; a text of one block with [---] in a value yields two
    records. *)
Lemma load_prompts_splits_inside_lines :
  List.length (filter nonblank (spec_blocks text_dashes_in_value)) = 1
  /\ List.length (create_prompts_content text_dashes_in_value) = 2.
Proof. split; vm_compute; reflexivity. Qed.

(** ** Dicts *)

Lemma dict_get_set_same {V} (d : dict V) (k : str) (v : V) :
  dict_get (dict_set d k v) k = Some v.
Proof.
  induction d as [|[k' v'] d IH]; simpl.
  - now rewrite str_eqb_refl.
  - destruct (str_eqb k' k) eqn:E; simpl; rewrite E; [reflexivity|exact IH].
Qed.

Lemma dict_get_set_other {V} (d : dict V) (k k' : str) (v : V) :
  k <> k' -> dict_get (dict_set d k v) k' = dict_get d k'.
Proof.
  intros Hne. induction d as [|[q v'] d IH]; simpl.
  - apply str_eqb_neq in Hne. now rewrite Hne.
  - destruct (str_eqb q k) eqn:E; simpl.
    + apply str_eqb_eq in E. subst q.
      apply str_eqb_neq in Hne. now rewrite Hne.
    + destruct (str_eqb q k'); [reflexivity|exact IH].
Qed.

Lemma dict_set_set {V} (d : dict V) (k : str) (a b : V) :
  dict_set (dict_set d k a) k b = dict_set d k b.
Proof.
  induction d as [|[k' v'] d IH]; simpl.
  - now rewrite str_eqb_refl.
  - destruct (str_eqb k' k) eqn:E; simpl; rewrite E; [reflexivity|now rewrite IH].
Qed.

Lemma dict_set_get_same {V} (d : dict V) (k : str) (v : V) :
  dict_get d k = Some v -> dict_set d k v = d.
Proof.
  induction d as [|[k' v'] d IH]; simpl; [discriminate|].
  destruct (str_eqb k' k); intros H.
  - now injection H as ->.
  - now rewrite IH.
Qed.

Lemma keys_dict_set {V} (d : dict V) (k : str) (v : V) :
  keys (dict_set d k v)
  = if existsb (str_eqb k) (keys d) then keys d else keys d ++ [k].
Proof.
  unfold keys. induction d as [|[k' v'] d IH]; [reflexivity|].
  cbn [dict_set]. destruct (str_eqb k' k) eqn:E.
  - apply str_eqb_eq in E. subst k'. cbn [map fst existsb].
    now rewrite str_eqb_refl.
  - assert (E' : str_eqb k k' = false).
    { apply str_eqb_neq. apply str_eqb_neq in E. congruence. }
    cbn [map fst existsb]. rewrite E', IH. cbn [orb].
    now destruct (existsb (str_eqb k) (map fst d)).
Qed.

(** ** Lines, fields and continuation lines *)

Lemma split1_colon_free_key (key value : str) :
  contains [colon] key = false ->
  split1 [colon] (key ++ colon :: value) = [key; value]
  /\ contains [colon] (key ++ colon :: value) = true.
Proof.
  induction key as [|c key IH]; intros H.
  - cbn [app split1 contains starts_with List.length skipn].
    now rewrite Ascii.eqb_refl.
  - cbn [contains starts_with] in H. apply orb_false_iff in H as [Hc Hk].
    rewrite andb_true_r in Hc.
    destruct (IH Hk) as [E1 E2].
    cbn [app split1 contains starts_with]. rewrite Hc, E1, E2. now split.
Qed.

Lemma split1_colon (l : str) :
  contains [colon] l = true -> exists key value, split1 [colon] l = [key; value].
Proof.
  induction l as [|c l IH]; [discriminate|].
  cbn [contains split1]. destruct (starts_with [colon] (c :: l)).
  - intros _. now eexists _, _.
  - cbn [orb]. intros H. destruct (IH H) as (key & value & E).
    rewrite E. now eexists _, _.
Qed.

Lemma continuation_text_cons (l : str) (conts : list str) :
  continuation_text (l :: conts) = [space] ++ strip l ++ continuation_text conts.
Proof. reflexivity. Qed.

Lemma append_continuation_nil (d : dict str) (cur : option str) :
  append_continuation d cur [] = d.
Proof.
  unfold append_continuation. destruct cur as [k|]; [|reflexivity].
  destruct (truthy k); [|reflexivity].
  destruct (dict_get d k) eqn:E; [|reflexivity].
  cbn [continuation_text flat_map]. rewrite app_nil_r. now apply dict_set_get_same.
Qed.

(** The loop over the lines of a block, in terms of its segments. *)
Lemma parse_lines_segments (lines : list str) :
  forall d cur,
    fst (parse_lines lines (d, cur))
    = fold_left set_field (segments lines)
                (append_continuation d cur (take_continuation lines)).
Proof.
  induction lines as [|l ls IH]; intros d cur.
  - cbn [parse_lines fold_left fst segments take_continuation].
    now rewrite append_continuation_nil.
  - unfold parse_lines in *. cbn [fold_left segments take_continuation].
    unfold parse_line at 2.
    destruct (contains [colon] l) eqn:Hc.
    + destruct (split1_colon l Hc) as (key & value & E). rewrite E.
      rewrite IH, append_continuation_nil. cbn [fold_left]. f_equal.
      unfold set_field, field_value, seg_label, seg_value, seg_lines.
      cbn [fst snd append_continuation].
      destruct (truthy (strip key)).
      * now rewrite dict_get_set_same, dict_set_set.
      * now rewrite app_nil_r.
    + destruct cur as [k|]; [|apply IH].
      destruct (truthy k) eqn:Hk; [|rewrite IH; cbn [append_continuation]; now rewrite Hk].
      destruct (dict_get d k) as [v|] eqn:Hg.
      * rewrite IH. f_equal. cbn [append_continuation]. rewrite Hk, Hg.
        rewrite dict_get_set_same, dict_set_set, continuation_text_cons.
        now rewrite <- !app_assoc.
      * rewrite IH. cbn [append_continuation]. now rewrite Hk, Hg.
Qed.

Lemma parse_prompt_block_segments (block : str) :
  parse_prompt_block block
  = record_of field_value (segments (split [nl] (strip block))).
Proof. unfold parse_prompt_block. now rewrite parse_lines_segments. Qed.

Lemma segments_no_colon (lines : list str) :
  Forall (fun l => contains [colon] l = false) lines -> segments lines = [].
Proof.
  induction 1 as [|l ls Hl _ IH]; [reflexivity|].
  cbn [segments]. now rewrite Hl.
Qed.

(** C4, as amended: a line with a colon starts a field whose label is the
    trimmed text before the first colon and whose value is the trimmed
    rest; a line without a colon is trimmed and appended after a single
    space to the value of the most recently started field, provided that
    field's label is not empty (under an empty label, and before the first
    colon line, such a line is dropped); a block without colon lines gives
    the empty record; and the block "Description: A hero\nwho flies" gives
    {"Description": "A hero who flies"}. *)
Theorem parse_prompt_block_fields :
  (forall key value ls,
      contains [colon] key = false ->
      segments ((key ++ colon :: value) :: ls)
      = (strip key, strip value, take_continuation ls) :: segments ls)
  /\ (forall g,
         truthy (seg_label g) = true ->
         field_value g = seg_value g ++ continuation_text (seg_lines g))
  /\ (forall block,
         parse_prompt_block block
         = record_of field_value (segments (split [nl] (strip block))))
  /\ (forall block,
         Forall (fun l => contains [colon] l = false) (split [nl] (strip block)) ->
         parse_prompt_block block = [])
  /\ parse_prompt_block block_hero = [(lit "Description", lit "A hero who flies")].
Proof.
  split; [|split; [|split; [|split]]].
  - intros key value ls H. destruct (split1_colon_free_key key value H) as [E1 E2].
    cbn [segments]. now rewrite E2, E1.
  - intros g H. unfold field_value. now rewrite H.
  - apply parse_prompt_block_segments.
  - intros block H. rewrite parse_prompt_block_segments.
    now rewrite segments_no_colon.
  - reflexivity.
Qed.

Lemma parse_prompt_block_fields_witness :
  parse_prompt_block block_no_colon = []
  /\ parse_prompt_block block_repeated_label
     = [(lit "Tag", lit "two and on"); (lit "Other", lit "x")].
Proof.
  destruct parse_prompt_block_fields as (_ & _ & Hrec & Hnone & _).
  split.
  - apply Hnone. repeat constructor.
  - rewrite Hrec. reflexivity.
Defined.

(** C4 as stated fails on a continuation line under an empty label: the
    code leaves ":a\nb" at {"": "a"}, the claim gives {"": "a b"}. *)
Lemma continuation_under_empty_label_dropped :
  parse_prompt_block block_empty_label = [([], lit "a")]
  /\ stated_record block_empty_label = [([], lit "a b")].
Proof. split; vm_compute; reflexivity. Qed.

(** ** Repeated labels *)

Lemma find_app {A} (p : A -> bool) (l1 l2 : list A) :
  find p (l1 ++ l2) = match find p l1 with Some x => Some x | None => find p l2 end.
Proof.
  induction l1 as [|a l1 IH]; [reflexivity|]. simpl. now destruct (p a).
Qed.

Lemma dict_get_record_of (value : segment -> str) (k : str) (gs : list segment) :
  forall d,
    dict_get (fold_left (fun d g => dict_set d (seg_label g) (value g)) gs d) k
    = match last_with_label k gs with
      | Some g => Some (value g)
      | None => dict_get d k
      end.
Proof.
  unfold last_with_label.
  induction gs as [|g gs IH]; intros d; [reflexivity|].
  cbn [fold_left rev]. rewrite IH, find_app.
  destruct (find _ (rev gs)); [reflexivity|].
  cbn [find]. destruct (str_eqb (seg_label g) k) eqn:E.
  - apply str_eqb_eq in E. subst k. apply dict_get_set_same.
  - apply dict_get_set_other. now apply str_eqb_neq.
Qed.

Lemma keys_record_of (value : segment -> str) (gs : list segment) :
  forall d,
    keys (fold_left (fun d g => dict_set d (seg_label g) (value g)) gs d)
    = fold_left (fun acc x => if existsb (str_eqb x) acc then acc else acc ++ [x])
                (map seg_label gs) (keys d).
Proof.
  induction gs as [|g gs IH]; intros d; [reflexivity|].
  cbn [fold_left map]. now rewrite IH, keys_dict_set.
Qed.

(** C10, as amended: when a label is repeated in a block, the record maps
    it to the value of the last colon line that carries it, together with
    that line's continuation lines when the label is not empty, and
    without them when it is empty; earlier values are dropped, and the
    record has as many entries as the block has distinct trimmed labels.
    This holds of every label, repeated or not, the empty one too. *)
Theorem repeated_label_last_wins (block k : str) :
  dict_get (parse_prompt_block block) k
  = option_map field_value
      (last_with_label k (segments (split [nl] (strip block))))
  /\ (forall g,
        last_with_label k (segments (split [nl] (strip block))) = Some g ->
        seg_label g = k
        /\ field_value g
           = seg_value g ++ (if truthy k then continuation_text (seg_lines g) else []))
  /\ List.length (parse_prompt_block block)
     = List.length (distinct (map seg_label (segments (split [nl] (strip block))))).
Proof.
  rewrite parse_prompt_block_segments. unfold record_of. split; [|split].
  - rewrite dict_get_record_of.
    now destruct (last_with_label k _).
  - intros g E. unfold last_with_label in E.
    apply find_some in E as [_ E]. apply str_eqb_eq in E.
    split; [exact E|]. unfold field_value. now rewrite E.
  - rewrite <- (length_map fst).
    change (map fst ?d) with (keys d). now rewrite keys_record_of.
Qed.

Lemma repeated_label_last_wins_witness :
  dict_get (parse_prompt_block block_repeated_label) (lit "Tag")
  = Some (lit "two and on")
  /\ dict_get (parse_prompt_block block_repeated_empty_label) [] = Some (lit "b")
  /\ List.length (parse_prompt_block block_repeated_label) = 2.
Proof.
  destruct (repeated_label_last_wins block_repeated_label (lit "Tag"))
    as (Hv & _ & Hn).
  destruct (repeated_label_last_wins block_repeated_empty_label []) as (He & _).
  split; [rewrite Hv|split; [rewrite He|rewrite Hn]]; reflexivity.
Defined.

(** C10 as stated fails for the empty label: the last line ":b" keeps no
    continuation line, so ":a\n:b\nc" gives "b" where the claim gives
    "b c". *)
Lemma repeated_empty_label_without_continuation :
  dict_get (parse_prompt_block block_repeated_empty_label) [] = Some (lit "b")
  /\ option_map stated_value
       (last_with_label [] (segments (split [nl] (strip block_repeated_empty_label))))
     = Some (lit "b c").
Proof. split; vm_compute; reflexivity. Qed.

(** ** The output tree *)

Lemma path_eqb_refl (p : path) : path_eqb p p = true.
Proof. induction p as [|c p IH]; simpl; [reflexivity|]. now rewrite str_eqb_refl. Qed.

Lemma path_eqb_eq (p q : path) : path_eqb p q = true <-> p = q.
Proof.
  split.
  - revert q; induction p as [|x p IH]; intros [|y q]; simpl; try discriminate; auto.
    intros H. apply andb_true_iff in H as [Hx Hr].
    apply str_eqb_eq in Hx. subst. f_equal. now apply IH.
  - intros ->. apply path_eqb_refl.
Qed.

Lemma path_eqb_neq (p q : path) : p <> q -> path_eqb p q = false.
Proof.
  intros H. destruct (path_eqb p q) eqn:E; [|reflexivity].
  apply path_eqb_eq in E. contradiction.
Qed.

Lemma tree_lookup_set_same (t : tree) (p : path) (n : node) :
  tree_lookup (tree_set t p n) p = Some n.
Proof.
  induction t as [|[q m] t IH]; simpl.
  - now rewrite path_eqb_refl.
  - destruct (path_eqb q p) eqn:E; simpl; rewrite E; [reflexivity|exact IH].
Qed.

Lemma tree_lookup_set_other (t : tree) (p q : path) (n : node) :
  p <> q -> tree_lookup (tree_set t p n) q = tree_lookup t q.
Proof.
  intros Hne. induction t as [|[r m] t IH]; simpl.
  - now rewrite path_eqb_neq.
  - destruct (path_eqb r p) eqn:E; simpl.
    + apply path_eqb_eq in E. subst r. now rewrite path_eqb_neq.
    + destruct (path_eqb r q); [reflexivity|exact IH].
Qed.

Lemma tree_lookup_app (t : tree) (p q : path) (n : node) :
  tree_lookup (t ++ [(q, n)]) p
  = match tree_lookup t p with
    | Some m => Some m
    | None => if path_eqb q p then Some n else None
    end.
Proof.
  induction t as [|[r m] t IH]; simpl; [reflexivity|].
  destruct (path_eqb r p); [reflexivity|exact IH].
Qed.

(** [makedirs] leaves every entry that exists as it is. *)
Lemma makedirs_from_keeps (rest : path) :
  forall done t p n,
    tree_lookup t p = Some n ->
    tree_lookup (makedirs_from done rest t) p = Some n.
Proof.
  induction rest as [|c rest IH]; intros done t p n H; [exact H|].
  cbn [makedirs_from]. apply IH.
  destruct (exists_path t (done ++ [c])); [exact H|].
  now rewrite tree_lookup_app, H.
Qed.

Lemma makedirs_keeps (q : path) (t : tree) (p : path) (n : node) :
  tree_lookup t p = Some n -> tree_lookup (makedirs q t) p = Some n.
Proof. apply makedirs_from_keeps. Qed.

(** [makedirs] makes its path exist. *)
Lemma makedirs_from_exists (rest : path) :
  forall done t,
    rest <> [] \/ exists_path t done = true ->
    exists_path (makedirs_from done rest t) (done ++ rest) = true.
Proof.
  induction rest as [|c rest IH]; intros done t H.
  - destruct H as [H|H]; [contradiction|]. now rewrite app_nil_r.
  - cbn [makedirs_from].
    replace (done ++ c :: rest) with ((done ++ [c]) ++ rest)
      by now rewrite <- app_assoc.
    apply IH. right.
    destruct (exists_path t (done ++ [c])) eqn:E; [exact E|].
    unfold exists_path. now rewrite tree_lookup_app, path_eqb_refl; destruct (tree_lookup t _).
Qed.

(** ** Room in the tree *)

Lemma isfile_app_dir (t : tree) (q p : path) :
  isfile (t ++ [(q, Dir)]) p = isfile t p.
Proof.
  unfold isfile. rewrite tree_lookup_app.
  destruct (tree_lookup t p) as [[|c]|]; try reflexivity.
  now destruct (path_eqb q p).
Qed.

Lemma makedirs_from_isfile (rest : path) :
  forall done t p, isfile (makedirs_from done rest t) p = isfile t p.
Proof.
  induction rest as [|c rest IH]; intros done t p; [reflexivity|].
  cbn [makedirs_from]. rewrite IH.
  destruct (exists_path t (done ++ [c])); [reflexivity|apply isfile_app_dir].
Qed.

Lemma makedirs_isfile (q : path) (t : tree) (p : path) :
  isfile (makedirs q t) p = isfile t p.
Proof. apply makedirs_from_isfile. Qed.

Lemma isdir_set_file (t : tree) (p q : path) (c : content) :
  isdir t p = false -> isdir (tree_set t p (File c)) q = isdir t q.
Proof.
  intros H. unfold isdir in *.
  destruct (list_eq_dec (list_eq_dec Ascii.ascii_dec) p q) as [->|Hne].
  - rewrite tree_lookup_set_same. destruct (tree_lookup t q) as [[|]|]; congruence.
  - now rewrite tree_lookup_set_other.
Qed.

Lemma isfile_set_other (t : tree) (p q : path) (n : node) :
  p <> q -> isfile (tree_set t p n) q = isfile t q.
Proof. intros H. unfold isfile. now rewrite tree_lookup_set_other. Qed.

(** The walk of [os.makedirs] looks at the files on its path only. *)
Lemma makedirs_error_ext (rest : path) :
  forall done b t t',
    (forall q, List.length q <= List.length (done ++ rest) -> isfile t' q = isfile t q) ->
    makedirs_error done rest b t' = makedirs_error done rest b t.
Proof.
  induction rest as [|c rest IH]; intros done b t t' H; [reflexivity|].
  cbn [makedirs_error].
  rewrite (H (done ++ [c])) by (rewrite !length_app; simpl; lia).
  assert (IH' : forall b', makedirs_error (done ++ [c]) rest b' t'
                           = makedirs_error (done ++ [c]) rest b' t).
  { intros b'. apply IH. intros q Hq. apply H.
    rewrite !length_app in *. simpl in *. lia. }
  rewrite !IH'. reflexivity.
Qed.

Lemma makedirs_error_below_file (rest : path) (done : path) (t : tree) :
  rest <> [] -> makedirs_error done rest true t <> None.
Proof.
  destruct rest as [|c rest]; [congruence|]. intros _. cbn [makedirs_error].
  destruct (has_nul c); [discriminate|].
  destruct (PATH_MAX <=? _); discriminate.
Qed.

(** What [os.makedirs] raises is no [RequestException]. *)
Lemma makedirs_error_uncaught (rest : path) :
  forall done b t e made,
    makedirs_error done rest b t = Some (e, made) -> uncaught e.
Proof.
  induction rest as [|c rest IH]; intros done b t e made; [discriminate|].
  cbn [makedirs_error].
  destruct (has_nul c); [intros [= <- _] x; discriminate|].
  destruct (PATH_MAX <=? _); [intros [= <- _] x; discriminate|].
  destruct b; [intros [= <- _] x; discriminate|].
  destruct (NAME_MAX <? _); [intros [= <- _] x; discriminate|].
  destruct (isfile t _).
  - destruct rest; [intros [= <- _] x; discriminate|apply IH].
  - apply IH.
Qed.

(** A directory that [os.makedirs] has made is there. *)
Lemma makedirs_from_isdir (rest : path) :
  forall done t,
    makedirs_error done rest false t = None -> rest <> [] ->
    tree_lookup (makedirs_from done rest t) (done ++ rest) = Some Dir.
Proof.
  induction rest as [|c rest IH]; intros done t E Hne; [congruence|].
  cbn [makedirs_error] in E. cbn [makedirs_from].
  destruct (has_nul c); [discriminate|].
  destruct (PATH_MAX <=? _); [discriminate|].
  destruct (NAME_MAX <? _); [discriminate|].
  destruct (isfile t (done ++ [c])) eqn:Ef.
  { destruct rest as [|c' rest']; [discriminate|].
    exfalso. revert E. now apply makedirs_error_below_file. }
  set (t1 := if exists_path t (done ++ [c]) then t else t ++ [(done ++ [c], Dir)]).
  assert (H1 : tree_lookup t1 (done ++ [c]) = Some Dir).
  { unfold t1, exists_path. unfold isfile in Ef.
    destruct (tree_lookup t (done ++ [c])) as [[|x]|] eqn:El.
    - exact El.
    - discriminate.
    - now rewrite tree_lookup_app, El, path_eqb_refl. }
  replace (done ++ c :: rest) with ((done ++ [c]) ++ rest)
    by now rewrite <- app_assoc.
  destruct rest as [|c' rest'].
  - cbn [makedirs_from]. now rewrite app_nil_r.
  - apply IH; [|discriminate].
    rewrite <- E. apply makedirs_error_ext. intros q _. unfold t1.
    destruct (exists_path t (done ++ [c])); [reflexivity|apply isfile_app_dir].
Qed.

Lemma makedirs_isdir (p : path) (t : tree) :
  room_for_dir t p = true -> p <> [] -> tree_lookup (makedirs p t) p = Some Dir.
Proof.
  unfold room_for_dir. intros H Hne. apply andb_true_iff in H as [_ H].
  apply (makedirs_from_isdir p [] t); [|exact Hne].
  now destruct (makedirs_error [] p false t).
Qed.

Lemma os_makedirs_ok (p : path) (w : world) :
  room_for_dir (output w) p = true ->
  os_makedirs p w = Ok tt (emit (EvMakedirs p) (set_output (makedirs p (output w)) w)).
Proof.
  unfold room_for_dir, os_makedirs. intros H. apply andb_true_iff in H as [_ H].
  now destruct (makedirs_error [] p false (output w)).
Qed.

(** However [os.makedirs] ends, the entries of the tree stay, no event
    but its own is added, and what it raises is not caught. *)
Lemma os_makedirs_cases (p : path) (w : world) :
  os_makedirs p w = Ok tt (emit (EvMakedirs p) (set_output (makedirs p (output w)) w))
  \/ exists e made,
       os_makedirs p w = Raised e (set_output (makedirs made (output w)) w)
       /\ uncaught e.
Proof.
  unfold os_makedirs.
  destruct (makedirs_error [] p false (output w)) as [[e made]|] eqn:E.
  - right. exists e, made. split; [reflexivity|].
    eapply makedirs_error_uncaught. exact E.
  - now left.
Qed.

Lemma open_error_room (p : path) (t : tree) :
  room_for_file t p = true -> at_path t (removelast p) = Some Dir ->
  open_error p t = None.
Proof.
  unfold room_for_file, open_error. intros H Hd.
  repeat (apply andb_true_iff in H as [H ?]).
  destruct (existsb has_nul p); [discriminate|].
  destruct (PATH_MAX <=? text_length p) eqn:E1.
  { apply Nat.leb_le in E1.
    match goal with H : (text_length p <? PATH_MAX) = true |- _ =>
      apply Nat.ltb_lt in H end. lia. }
  destruct p as [|c p]; [discriminate|]. rewrite Hd.
  destruct (NAME_MAX <? byte_length (last (c :: p) [])) eqn:E2.
  { apply Nat.ltb_lt in E2.
    match goal with H : (byte_length _ <=? NAME_MAX) = true |- _ =>
      apply Nat.leb_le in H end. lia. }
  now destruct (isdir t (c :: p)).
Qed.

Lemma open_error_uncaught (p : path) (t : tree) (e : exn) :
  open_error p t = Some e -> uncaught e.
Proof.
  unfold open_error.
  destruct (existsb has_nul p); [intros [= <-] x; discriminate|].
  destruct (PATH_MAX <=? text_length p); [intros [= <-] x; discriminate|].
  destruct p as [|c p]; [intros [= <-] x; discriminate|].
  destruct (at_path t (removelast (c :: p))) as [[|f]|];
    try (intros [= <-] x; discriminate).
  destruct (NAME_MAX <? _); [intros [= <-] x; discriminate|].
  destruct (isdir t (c :: p)); [intros [= <-] x; discriminate|discriminate].
Qed.

(** A file that is written was no directory. *)
Lemma open_error_none_isdir (p : path) (t : tree) :
  open_error p t = None -> isdir t p = false.
Proof.
  unfold open_error.
  destruct (existsb has_nul p); [discriminate|].
  destruct (PATH_MAX <=? text_length p); [discriminate|].
  destruct p as [|c p]; [discriminate|].
  destruct (at_path t (removelast (c :: p))) as [[|f]|]; try discriminate.
  destruct (NAME_MAX <? _); [discriminate|].
  now destruct (isdir t (c :: p)).
Qed.

Lemma write_file_ok (p : path) (c : content) (w : world) :
  room_for_file (output w) p = true ->
  at_path (output w) (removelast p) = Some Dir ->
  write_file p c w
  = Ok tt (emit (EvWrite p c) (set_output (tree_set (output w) p (File c)) w)).
Proof.
  intros H Hd. unfold write_file. now rewrite (open_error_room _ _ H Hd).
Qed.

Lemma write_file_cases (p : path) (c : content) (w : world) :
  (write_file p c w
   = Ok tt (emit (EvWrite p c) (set_output (tree_set (output w) p (File c)) w))
   /\ isdir (output w) p = false)
  \/ exists e, write_file p c w = Raised e w /\ uncaught e.
Proof.
  unfold write_file. destruct (open_error p (output w)) as [e|] eqn:E.
  - right. exists e. split; [reflexivity|]. eapply open_error_uncaught. exact E.
  - left. split; [reflexivity|]. now apply open_error_none_isdir.
Qed.

Lemma settled_refl (n : nat) (t : tree) : settled n t t.
Proof. split; reflexivity. Qed.

Lemma settled_trans (n : nat) (t1 t2 t3 : tree) :
  settled n t1 t2 -> settled n t2 t3 -> settled n t1 t3.
Proof.
  intros [A1 B1] [A2 B2]. split; intros q Hq.
  - now rewrite A2, A1.
  - now rewrite B2, B1.
Qed.

Lemma isdir_app_dir (t : tree) (q p : path) :
  p <> q -> isdir (t ++ [(q, Dir)]) p = isdir t p.
Proof.
  intros Hne. unfold isdir. rewrite tree_lookup_app.
  destruct (tree_lookup t p) as [[|c]|]; try reflexivity.
  rewrite path_eqb_neq; [reflexivity|congruence].
Qed.

Lemma makedirs_from_isdir_other (rest : path) :
  forall done t p,
    List.length (done ++ rest) < List.length p ->
    isdir (makedirs_from done rest t) p = isdir t p.
Proof.
  induction rest as [|c rest IH]; intros done t p Hlen; [reflexivity|].
  cbn [makedirs_from]. rewrite IH.
  - destruct (exists_path t (done ++ [c])); [reflexivity|].
    apply isdir_app_dir. intros ->. rewrite !length_app in Hlen. simpl in Hlen. lia.
  - rewrite !length_app in *. simpl in *. lia.
Qed.

Lemma settled_makedirs (n : nat) (q : path) (t : tree) :
  List.length q <= n -> settled n t (makedirs q t).
Proof.
  intros Hq. split; intros p Hp.
  - apply makedirs_isfile.
  - apply (makedirs_from_isdir_other q [] t p). simpl. lia.
Qed.

Lemma settled_write (n : nat) (p : path) (c : content) (t : tree) :
  List.length p = S n -> isdir t p = false -> settled n t (tree_set t p (File c)).
Proof.
  intros Hp Hd. split; intros q Hq.
  - apply isfile_set_other. intros ->. lia.
  - now apply isdir_set_file.
Qed.

Lemma room_for_dir_settled (n : nat) (t t' : tree) (p : path) :
  settled n t t' -> List.length p <= n -> room_for_dir t' p = room_for_dir t p.
Proof.
  intros [A _] Hp. unfold room_for_dir. f_equal.
  rewrite (makedirs_error_ext p [] false t t'); [reflexivity|].
  intros q Hq. apply A. simpl in Hq. lia.
Qed.

Lemma room_for_file_settled (n : nat) (t t' : tree) (p : path) :
  settled n t t' -> List.length p = S n -> room_for_file t' p = room_for_file t p.
Proof. intros [_ B] Hp. unfold room_for_file. now rewrite (B p Hp). Qed.

(** ** Loops *)

Lemma bind_run {A B} (m : M A) (f : A -> M B) (w : world) :
  bind m f w = match m w with
               | Ok a w' => f a w'
               | Raised e w' => Raised e w'
               | Hangs w' => Hangs w'
               end.
Proof. reflexivity. Qed.

Lemma for_fold_app {A S} (l1 l2 : list A) (f : A -> S -> M S) (s : S) (w : world) :
  for_fold (l1 ++ l2) f s w = (s' <- for_fold l1 f s ;; for_fold l2 f s') w.
Proof.
  revert s w. induction l1 as [|x l1 IH]; intros s w; [reflexivity|].
  cbn [app for_fold]. unfold bind.
  destruct (f x s w) as [s1 w1| |]; [|reflexivity|reflexivity].
  now rewrite IH.
Qed.

Lemma for_each_app {A} (l1 l2 : list A) (f : A -> M unit) (w : world) :
  for_each (l1 ++ l2) f w = (for_each l1 f ;;; for_each l2 f) w.
Proof.
  revert w. induction l1 as [|x l1 IH]; intros w; [reflexivity|].
  cbn [app for_each]. unfold bind.
  destruct (f x w) as [[] w1| |]; [|reflexivity|reflexivity].
  now rewrite IH.
Qed.

(** ** ItemStore *)

Lemma dict_get_without (data : dict str) (name k : str) :
  dict_get (map (fun kv => (fst kv, JStr (snd kv))) (dict_without data name)) k
  = if str_eqb k name then None else option_map JStr (dict_get data k).
Proof.
  induction data as [|[k' v] data IH]; simpl.
  - now destruct (str_eqb k name).
  - destruct (str_eqb k' name) eqn:E1; simpl.
    + rewrite IH. destruct (str_eqb k name) eqn:E2; [reflexivity|].
      apply str_eqb_eq in E1. subst k'.
      assert (E3 : str_eqb name k = false).
      { apply str_eqb_neq. apply str_eqb_neq in E2. congruence. }
      now rewrite E3.
    + destruct (str_eqb k' k) eqn:E2.
      * apply str_eqb_eq in E2. subst k'. now rewrite E1.
      * exact IH.
Qed.

(** What a descriptor holds: no name, the three control fields, and the
    other fields of the record. *)
Lemma descriptor_of_fields (data : dict str) (ni nit : jvalue) (seed : Z) :
  let d := descriptor_of data ni nit seed in
  dict_get d (lit "Name") = None
  /\ dict_get d (lit "Number of Images") = Some ni
  /\ dict_get d (lit "Number of Iterations") = Some nit
  /\ dict_get d (lit "Seed") = Some (JInt seed)
  /\ (forall k,
         k <> lit "Name" -> k <> lit "Number of Images" ->
         k <> lit "Number of Iterations" -> k <> lit "Seed" ->
         dict_get d k = option_map JStr (dict_get data k)).
Proof.
  unfold descriptor_of. cbv zeta. repeat split.
  - rewrite !dict_get_set_other by (apply str_eqb_neq; reflexivity).
    now rewrite dict_get_without, str_eqb_refl.
  - rewrite !dict_get_set_other by (apply str_eqb_neq; reflexivity).
    apply dict_get_set_same.
  - rewrite dict_get_set_other by (apply str_eqb_neq; reflexivity).
    apply dict_get_set_same.
  - apply dict_get_set_same.
  - intros k H1 H2 H3 H4.
    rewrite !dict_get_set_other by congruence.
    rewrite dict_get_without. apply str_eqb_neq in H1. now rewrite H1.
Qed.

Lemma descriptor_path_length (base : path) (data : dict str) :
  List.length (descriptor_path base data) = S (S (List.length base)).
Proof. unfold descriptor_path. rewrite !length_app. simpl. lia. Qed.

Lemma item_dir_length (base : path) (name : str) :
  List.length (base ++ [name]) = S (List.length base).
Proof. rewrite length_app. simpl. lia. Qed.

Lemma descriptor_path_parent (base : path) (data : dict str) :
  removelast (descriptor_path base data) = base ++ [item_name_of data].
Proof.
  unfold descriptor_path.
  replace (base ++ [item_name_of data] ++ [lit "prompt.json"])
    with ((base ++ [item_name_of data]) ++ [lit "prompt.json"])
    by now rewrite <- app_assoc.
  apply removelast_last.
Qed.

Lemma at_path_app (t : tree) (p : path) (c : str) :
  at_path t (p ++ [c]) = tree_lookup t (p ++ [c]).
Proof. unfold at_path. now destruct p. Qed.

Lemma room_for_item_settled (t t' : tree) (base : path) (data : dict str) :
  settled (S (List.length base)) t t' ->
  room_for_item t' base data = room_for_item t base data.
Proof.
  intros H. unfold room_for_item.
  rewrite (room_for_dir_settled _ _ _ _ H) by (rewrite item_dir_length; lia).
  now rewrite (room_for_file_settled _ _ _ _ H) by apply descriptor_path_length.
Qed.

(** One turn of the loop of [generate_json_files] when there is room for
    the item. *)
Lemma materialize_writes (base : path) (ni nit : jvalue) (seed : Z)
    (data : dict str) (files : list path) (w : world) :
  room_for_item (output w) base data = true ->
  exists w',
    materialize base ni nit seed data files w
    = Ok (files ++ [descriptor_path base data]) w'
    /\ tree_lookup (output w') (descriptor_path base data)
       = Some (File (Json (JObj (descriptor_of data ni nit seed))))
    /\ isdir (output w') (base ++ [item_name_of data]) = true
    /\ (forall p n,
           p <> descriptor_path base data ->
           tree_lookup (output w) p = Some n ->
           tree_lookup (output w') p = Some n)
    /\ settled (S (List.length base)) (output w) (output w').
Proof.
  intros Hroom. apply andb_true_iff in Hroom as [Hd Hf].
  set (item_dir := base ++ [item_name_of data]) in *.
  set (w1 := emit (EvMakedirs item_dir) (set_output (makedirs item_dir (output w)) w)).
  assert (S1 : settled (S (List.length base)) (output w) (output w1)).
  { apply settled_makedirs. unfold item_dir. rewrite item_dir_length. lia. }
  assert (D1 : tree_lookup (output w1) item_dir = Some Dir).
  { apply makedirs_isdir; [exact Hd|]. unfold item_dir. now destruct base. }
  assert (Hf1 : room_for_file (output w1) (descriptor_path base data) = true).
  { rewrite (room_for_file_settled _ _ _ _ S1); [exact Hf|].
    apply descriptor_path_length. }
  assert (Hn : isdir (output w1) (descriptor_path base data) = false).
  { unfold room_for_file in Hf1. repeat (apply andb_true_iff in Hf1 as [Hf1 ?]).
    now apply negb_true_iff. }
  assert (Hne : descriptor_path base data <> item_dir).
  { intros E. apply (f_equal (@List.length str)) in E.
    rewrite descriptor_path_length in E. unfold item_dir in E.
    rewrite item_dir_length in E. lia. }
  eexists. split; [|split; [|split; [|split]]].
  - unfold materialize, bind. fold item_dir. rewrite (os_makedirs_ok _ _ Hd).
    fold w1. change (item_dir ++ [lit "prompt.json"]) with
      ((base ++ [item_name_of data]) ++ [lit "prompt.json"]).
    rewrite <- app_assoc. fold (descriptor_path base data).
    rewrite write_file_ok; [reflexivity|exact Hf1|].
    rewrite descriptor_path_parent. fold item_dir.
    unfold item_dir at 1. rewrite at_path_app. exact D1.
  - cbn [output emit set_output]. apply tree_lookup_set_same.
  - cbn [output emit set_output]. unfold isdir.
    rewrite tree_lookup_set_other by exact Hne.
    now rewrite D1.
  - intros p n Hp H. cbn [output emit set_output].
    rewrite tree_lookup_set_other by congruence.
    now apply makedirs_keeps.
  - eapply settled_trans; [exact S1|]. cbn [output emit set_output].
    apply settled_write; [apply descriptor_path_length|exact Hn].
Qed.

Lemma for_fold_materialize (base : path) (ni nit : jvalue) (seed : Z)
    (prompts : list (dict str)) :
  forall files w,
  Forall (fun d => room_for_item (output w) base d = true) prompts ->
  exists w',
    for_fold prompts (materialize base ni nit seed) files w
    = Ok (files ++ map (descriptor_path base) prompts) w'
    /\ (forall p n,
           Forall (fun d => p <> descriptor_path base d) prompts ->
           tree_lookup (output w) p = Some n ->
           tree_lookup (output w') p = Some n)
    /\ settled (S (List.length base)) (output w) (output w').
Proof.
  induction prompts as [|data prompts IH]; intros files w Hroom.
  - exists w. rewrite app_nil_r. split; [reflexivity|]. split; [auto|apply settled_refl].
  - inversion Hroom as [|? ? Hd Hrest]; subst.
    destruct (materialize_writes base ni nit seed data files w Hd)
      as (w1 & E1 & _ & _ & K1 & S1).
    destruct (IH (files ++ [descriptor_path base data]) w1)
      as (w' & E & K & S2).
    { eapply Forall_impl; [|exact Hrest]. intros d Hr.
      now rewrite (room_for_item_settled _ _ _ _ S1). }
    exists w'. split; [|split].
    + cbn [for_fold map]. unfold bind. rewrite E1, E.
      now rewrite <- app_assoc.
    + intros p n HF H. inversion HF; subst. apply K; [assumption|].
      now apply K1.
    + eapply settled_trans; eassumption.
Qed.

Lemma prompt_path_injective (base : path) (a b : str) :
  base ++ [a] ++ [lit "prompt.json"] = base ++ [b] ++ [lit "prompt.json"] -> a = b.
Proof. intros E. apply app_inv_head in E. now injection E. Qed.

(** The loop of [generate_json_files], in both versions, when there is
    room for what it makes: the descriptor of a record is on disk at the
    end unless a later record has its name. *)
Lemma materialize_all (base : path) (ni nit : jvalue) (seed : Z)
    (pre : list (dict str)) (data : dict str) (post : list (dict str)) (w : world) :
  Forall (fun d => item_name_of d <> item_name_of data) post ->
  room_for_dir (output w) base = true ->
  Forall (fun d => room_for_item (output w) base d = true) (pre ++ data :: post) ->
  exists w',
    (os_makedirs base ;;;
     for_fold (pre ++ data :: post) (materialize base ni nit seed) []) w
    = Ok (map (descriptor_path base) (pre ++ data :: post)) w'
    /\ descriptor_at w' (descriptor_path base data)
       = Some (descriptor_of data ni nit seed)
    /\ isdir (output w') (base ++ [item_name_of data]) = true.
Proof.
  intros Hpost Hbase Hroom. unfold bind at 1. rewrite (os_makedirs_ok _ _ Hbase).
  set (w0 := emit _ _).
  assert (S0 : settled (S (List.length base)) (output w) (output w0)).
  { apply settled_makedirs. lia. }
  assert (Hroom0 : Forall (fun d => room_for_item (output w0) base d = true)
                          (pre ++ data :: post)).
  { eapply Forall_impl; [|exact Hroom]. intros d Hr.
    now rewrite (room_for_item_settled _ _ _ _ S0). }
  apply Forall_app in Hroom0 as [Hpre Hrest].
  inversion Hrest as [|? ? Hdata Hpost']; subst.
  destruct (for_fold_materialize base ni nit seed pre [] w0 Hpre) as (w1 & E1 & _ & S1).
  destruct (materialize_writes base ni nit seed data (map (descriptor_path base) pre) w1)
    as (w2 & E2 & L2 & D2 & _ & S2).
  { now rewrite (room_for_item_settled _ _ _ _ S1). }
  destruct (for_fold_materialize base ni nit seed post
              (map (descriptor_path base) pre ++ [descriptor_path base data]) w2)
    as (w3 & E3 & K3 & _).
  { eapply Forall_impl; [|exact Hpost']. intros d Hr.
    rewrite (room_for_item_settled _ _ _ _ S2).
    now rewrite (room_for_item_settled _ _ _ _ S1). }
  exists w3. split; [|split].
  - rewrite for_fold_app. unfold bind. rewrite E1. cbn [for_fold app]. unfold bind.
    cbn [app] in E2. rewrite E2, E3.
    rewrite map_app. cbn [map]. now rewrite <- app_assoc.
  - assert (HF : Forall (fun d => descriptor_path base data <> descriptor_path base d) post).
    { eapply Forall_impl; [|exact Hpost]. intros d Hd E.
      apply prompt_path_injective in E. congruence. }
    unfold descriptor_at. now rewrite (K3 _ _ HF L2).
  - unfold isdir in *.
    destruct (tree_lookup (output w2) (base ++ [item_name_of data])) as [[|c]|] eqn:El;
      try discriminate.
    rewrite (K3 _ Dir); [reflexivity| |exact El].
    apply Forall_forall. intros d _ E.
    apply (f_equal (@List.length str)) in E.
    rewrite descriptor_path_length, item_dir_length in E. lia.
Qed.

(** C5, as amended: the item directory is named after the record's "Name"
    field ("Unnamed" when absent) with spaces replaced by underscores, and
    the prompt.json written there holds no "Name", the three control
    fields, and every other field of the record under a label that is not
    one of the control labels (a record field with a control label is
    overwritten).  In [main.py] the control fields are 1, 1 and the default
    seed; in [v1.0] they are the run's image count, its iteration count
    and the default seed.  This is what happens when there is room for
    the directories and the descriptors: the story name and the item
    names are names of one entry each that the file system takes, no
    file lies where a directory goes and no directory where a prompt.json
    goes. *)
Theorem generate_json_files_descriptor :
  (forall pre data post t story seed w,
      Forall (fun d => item_name_of d <> item_name_of data) post ->
      room_for_dir (output w) [story; type_dir t] = true ->
      Forall (fun d => room_for_item (output w) [story; type_dir t] d = true)
             (pre ++ data :: post) ->
      exists files w',
        generate_json_files (pre ++ data :: post) t story seed w = Ok files w'
        /\ descriptor_at w' ([story; type_dir t] ++ [item_name_of data]
                                                 ++ [lit "prompt.json"])
           = Some (descriptor_of data (JInt 1) (JInt 1) seed)
        /\ isdir (output w') ([story; type_dir t] ++ [item_name_of data]) = true)
  /\ (forall pre data post t story seed num_images num_iterations output_dir w,
         Forall (fun d => item_name_of d <> item_name_of data) post ->
         room_for_dir (output w) (output_dir ++ [story; type_dir t]) = true ->
         Forall (fun d => room_for_item (output w) (output_dir ++ [story; type_dir t]) d
                          = true)
                (pre ++ data :: post) ->
         exists files w',
           V1_0.generate_json_files (pre ++ data :: post) t story seed
                                    num_images num_iterations output_dir w
           = Ok files w'
           /\ descriptor_at w' ((output_dir ++ [story; type_dir t])
                                  ++ [item_name_of data] ++ [lit "prompt.json"])
              = Some (descriptor_of data (JInt num_images) (JInt num_iterations) seed)
           /\ isdir (output w')
                ((output_dir ++ [story; type_dir t]) ++ [item_name_of data]) = true)
  /\ (forall data,
         item_name_of data
         = replace_char space underscore
             (dict_get_default data (lit "Name") (lit "Unnamed")))
  /\ (forall data ni nit seed,
         dict_get (descriptor_of data ni nit seed) (lit "Name") = None
         /\ dict_get (descriptor_of data ni nit seed) (lit "Number of Images") = Some ni
         /\ dict_get (descriptor_of data ni nit seed) (lit "Number of Iterations")
            = Some nit
         /\ dict_get (descriptor_of data ni nit seed) (lit "Seed") = Some (JInt seed)
         /\ (forall k,
                k <> lit "Name" -> k <> lit "Number of Images" ->
                k <> lit "Number of Iterations" -> k <> lit "Seed" ->
                dict_get (descriptor_of data ni nit seed) k
                = option_map JStr (dict_get data k))).
Proof.
  split; [|split; [|split]].
  - intros pre data post t story seed w H Hb Hr.
    destruct (materialize_all [story; type_dir t] (JInt 1) (JInt 1) seed
                              pre data post w H Hb Hr) as (w' & E & D & I).
    eexists. exists w'. split; [exact E|]. split; [exact D|exact I].
  - intros pre data post t story seed ni nit out w H Hb Hr.
    destruct (materialize_all (out ++ [story; type_dir t]) (JInt ni) (JInt nit) seed
                              pre data post w H Hb Hr) as (w' & E & D & I).
    eexists. exists w'. split; [exact E|]. split; [exact D|exact I].
  - reflexivity.
  - intros data ni nit seed. apply descriptor_of_fields.
Qed.

Lemma generate_json_files_descriptor_witness :
  exists d,
    descriptor_at
      (final (generate_json_files [record_jean] character (lit "X-Men") (-1) empty_world))
      [lit "X-Men"; lit "Characters"; lit "Jean_Grey"; lit "prompt.json"]
    = Some d
    /\ dict_get d (lit "Name") = None
    /\ dict_get d (lit "Number of Images") = Some (JInt 1)
    /\ dict_get d (lit "Number of Iterations") = Some (JInt 1)
    /\ dict_get d (lit "Seed") = Some (JInt (-1))
    /\ dict_get d (lit "Positive prompt") = Some (JStr (lit "red hair")).
Proof.
  destruct generate_json_files_descriptor as (Hmain & _ & _ & Hd).
  destruct (Hmain [] record_jean [] character (lit "X-Men") (-1)%Z empty_world)
    as (files & w' & E & D & _);
    [constructor|reflexivity|repeat constructor|].
  destruct (Hd record_jean (JInt 1) (JInt 1) (-1)%Z) as (H1 & H2 & H3 & H4 & H5).
  exists (descriptor_of record_jean (JInt 1) (JInt 1) (-1)).
  cbn [app] in E. rewrite E. cbn [final].
  split; [exact D|]. split; [exact H1|]. split; [exact H2|]. split; [exact H3|].
  split; [exact H4|]. rewrite H5 by (intros E'; discriminate E'). reflexivity.
Defined.

(** C5 as stated fails in [v1.0]: with a run-wide image count of 2 and an
    iteration count of 3 the descriptor holds 2 and 3, not 1 and 1. *)
Lemma v1_0_descriptor_holds_run_counts :
  exists d,
    descriptor_at
      (final (V1_0.generate_json_files [record_jean] character (lit "X-Men") (-1)
                                       2 3 V1_0.output_dir empty_world))
      (path_jean [lit "output"; lit "X-Men"])
    = Some d
    /\ dict_get d (lit "Number of Images") = Some (JInt 2)
    /\ dict_get d (lit "Number of Iterations") = Some (JInt 3).
Proof. eexists. split; [reflexivity|]. split; reflexivity. Qed.

(** ** Frames: what runs preserve *)

Section Respects.
Variable R : world -> world -> Prop.
Hypothesis R_refl : forall w, R w w.
Hypothesis R_trans : forall a b c, R a b -> R b c -> R a c.

Lemma respects_pure {A} (m : M A) : pure m -> respects R m.
Proof. intros H w. rewrite H. apply R_refl. Qed.

Lemma respects_ret {A} (a : A) : respects R (ret a).
Proof. intros w. apply R_refl. Qed.

Lemma respects_raise {A} (e : exn) : respects R (@raise A e).
Proof. intros w. apply R_refl. Qed.

Lemma respects_act (f : world -> world) :
  (forall w, R w (f w)) -> respects R (act f).
Proof. intros H w. apply H. Qed.

Lemma respects_bind {A B} (m : M A) (f : A -> M B) :
  respects R m -> (forall a, respects R (f a)) -> respects R (bind m f).
Proof.
  intros Hm Hf w. unfold bind. specialize (Hm w).
  destruct (m w) as [a w1| |]; cbn [final] in *; try exact Hm.
  eapply R_trans; [exact Hm|apply Hf].
Qed.

Lemma respects_for_each {A} (l : list A) (f : A -> M unit) :
  (forall x, respects R (f x)) -> respects R (for_each l f).
Proof.
  intros H. induction l as [|x l IH]; cbn [for_each].
  - apply respects_ret.
  - apply respects_bind; [apply H|intros _; exact IH].
Qed.

Lemma respects_for_fold {A S} (l : list A) (f : A -> S -> M S) :
  (forall x s, respects R (f x s)) -> forall s, respects R (for_fold l f s).
Proof.
  intros H. induction l as [|x l IH]; intros s; cbn [for_fold].
  - apply respects_ret.
  - apply respects_bind; [apply H|intros s'; apply IH].
Qed.

Lemma respects_try_request {A} (m : M A) (h : request_error -> M A) :
  respects R m -> (forall e, respects R (h e)) -> respects R (try_request m h).
Proof.
  intros Hm Hh w. unfold try_request. specialize (Hm w).
  destruct (m w) as [a w1|e w1|w1]; cbn [final] in *; try exact Hm.
  destruct e; try exact Hm.
  eapply R_trans; [exact Hm|apply Hh].
Qed.

Lemma respects_guard {A} (test : world -> bool) (m1 m2 : M A) :
  respects R m1 -> respects R m2 ->
  respects R (fun w => if test w then m1 w else m2 w).
Proof. intros H1 H2 w. destruct (test w); [apply H1|apply H2]. Qed.
End Respects.

Lemma extends_by_refl (P : event -> Prop) (w : world) : extends_by P w w.
Proof. exists []. now rewrite app_nil_r. Qed.

Lemma extends_by_same_events (P : event -> Prop) (w w' : world) :
  events w' = events w -> extends_by P w w'.
Proof. intros E. exists []. now rewrite app_nil_r. Qed.

Lemma extends_by_trans (P : event -> Prop) (a b c : world) :
  extends_by P a b -> extends_by P b c -> extends_by P a c.
Proof.
  intros (e1 & E1 & F1) (e2 & E2 & F2). exists (e1 ++ e2). split.
  - now rewrite E2, E1, app_assoc.
  - apply Forall_app. now split.
Qed.

Lemma extends_by_weaken (P Q : event -> Prop) (w w' : world) :
  (forall e, P e -> Q e) -> extends_by P w w' -> extends_by Q w w'.
Proof.
  intros H (evs & E & F). exists evs. split; [exact E|].
  eapply Forall_impl; [exact H|exact F].
Qed.

Lemma extends_by_new_events (P : event -> Prop) (w w' : world) :
  extends_by P w w' ->
  events w' = events w ++ new_events w w' /\ Forall P (new_events w w').
Proof.
  intros (evs & E & F). unfold new_events. rewrite E.
  rewrite skipn_app, skipn_all, Nat.sub_diag. cbn [skipn app]. now split.
Qed.

Lemma extends_by_emit (P : event -> Prop) (e : event) (w : world) :
  P e -> extends_by P w (emit e w).
Proof. intros H. exists [e]. split; [reflexivity|]. now constructor. Qed.

Lemma keeps_listener_refl (w : world) : keeps_listener w w.
Proof. reflexivity. Qed.

Lemma keeps_listener_trans (a b c : world) :
  keeps_listener a b -> keeps_listener b c -> keeps_listener a c.
Proof. unfold keeps_listener. congruence. Qed.

Lemma keeps_entries_refl (depth : nat) (w : world) : keeps_entries depth w w.
Proof. intros p n _ H. exact H. Qed.

Lemma keeps_entries_trans (depth : nat) (a b c : world) :
  keeps_entries depth a b -> keeps_entries depth b c -> keeps_entries depth a c.
Proof. intros H1 H2 p n Hp H. apply H2; [exact Hp|]. now apply H1. Qed.

(** ** The built-ins leave the world alone *)

Lemma pure_py_int (v : jvalue) : pure (py_int v).
Proof. intros w. destruct v; try reflexivity. simpl. now destruct (int_of_str s). Qed.

Lemma pure_py_get (v : jvalue) (k : str) (d : jvalue) : pure (py_get v k d).
Proof. intros w. now destruct v. Qed.

Lemma pure_py_subscript (v : jvalue) (k : str) : pure (py_subscript v k).
Proof. intros w. destruct v; try reflexivity. simpl. now destruct (dict_get fields k). Qed.

Lemma pure_py_iter (v : jvalue) : pure (py_iter v).
Proof. intros w. now destruct v. Qed.

Lemma pure_b64decode (v : jvalue) : pure (b64decode v).
Proof.
  intros w. destruct v; try reflexivity. simpl.
  destruct (forallb is_ascii s); [|reflexivity].
  now destruct (a2b_base64 s 0 0 0 []).
Qed.

Lemma pure_raise_for_status (status : Z) : pure (raise_for_status status).
Proof. intros w. unfold raise_for_status. now destruct (_ && _). Qed.

Lemma pure_response_json (b : body) : pure (response_json b).
Proof. intros w. now destruct b. Qed.

Lemma pure_add_tag (v : jvalue) (tag : str) (data : jvalue) : pure (add_tag v tag data).
Proof. intros w. destruct v; try reflexivity. now destruct data. Qed.

Lemma pure_json_load (p : path) : pure (json_load p).
Proof.
  intros w. unfold json_load.
  destruct (tree_lookup (output w) p) as [[|[]]|]; reflexivity.
Qed.

Lemma pure_os_listdir (p : path) : pure (os_listdir p).
Proof.
  intros w. unfold os_listdir.
  destruct (tree_lookup (output w) p) as [[|]|]; reflexivity.
Qed.

Lemma pure_load_prompts (p : path) : pure (load_prompts p).
Proof. intros w. unfold load_prompts. now destruct (input_lookup (inputs w) p). Qed.

Lemma pure_v1_0_load_prompts (p : path) : pure (V1_0.load_prompts p).
Proof. intros w. unfold V1_0.load_prompts. now destruct (input_lookup (inputs w) p). Qed.

(** ** The frame of the generation code *)

Section Frame.
Variable P : event -> Prop.
Variable depth : nat.

Lemma frame_refl (w : world) : frame P depth w w.
Proof.
  split; [apply extends_by_refl|split;
    [apply keeps_entries_refl|apply keeps_listener_refl]].
Qed.

Lemma frame_trans (a b c : world) :
  frame P depth a b -> frame P depth b c -> frame P depth a c.
Proof.
  intros (E1 & K1 & L1) (E2 & K2 & L2). split; [|split].
  - eapply extends_by_trans; eassumption.
  - eapply keeps_entries_trans; eassumption.
  - eapply keeps_listener_trans; eassumption.
Qed.

Lemma frame_emit (e : event) (w : world) : P e -> frame P depth w (emit e w).
Proof.
  intros H. split; [now apply extends_by_emit|split].
  - intros p n _ Hn. exact Hn.
  - reflexivity.
Qed.

Lemma frame_set_paused (b : bool) (w : world) : frame P depth w (set_paused b w).
Proof.
  split; [now apply extends_by_same_events|split];
    [intros p n _ H; exact H|reflexivity].
Qed.

Lemma frame_set_pending_keys (k : list (list key)) (w : world) :
  frame P depth w (set_pending_keys k w).
Proof.
  split; [now apply extends_by_same_events|split];
    [intros p n _ H; exact H|reflexivity].
Qed.

Lemma frame_set_responses (r : list post_outcome) (w : world) :
  frame P depth w (set_responses r w).
Proof.
  split; [now apply extends_by_same_events|split];
    [intros p n _ H; exact H|reflexivity].
Qed.

Lemma frame_print (m : message) : P (EvPrint m) -> respects (frame P depth) (print m).
Proof. intros H w. now apply frame_emit. Qed.

Lemma frame_logging_info (m : message) :
  P (EvLog INFO m) -> respects (frame P depth) (logging_info m).
Proof. intros H w. now apply frame_emit. Qed.

Lemma frame_logging_error (m : message) :
  P (EvLog ERROR m) -> respects (frame P depth) (logging_error m).
Proof. intros H w. now apply frame_emit. Qed.

Lemma frame_os_makedirs (p : path) :
  P (EvMakedirs p) -> respects (frame P depth) (os_makedirs p).
Proof.
  intros H w.
  destruct (os_makedirs_cases p w) as [E|(e & made & E & _)]; rewrite E; cbn [final].
  - split; [|split].
    + exists [EvMakedirs p]. split; [reflexivity|now constructor].
    + intros q n _ Hn. cbn. now apply makedirs_keeps.
    + reflexivity.
  - split; [now apply extends_by_same_events|split].
    + intros q n _ Hn. cbn. now apply makedirs_keeps.
    + reflexivity.
Qed.

Lemma frame_write_file (p : path) (c : content) :
  P (EvWrite p c) -> List.length p = depth ->
  respects (frame P depth) (write_file p c).
Proof.
  intros H Hd w.
  destruct (write_file_cases p c w) as [[E _]|(e & E & _)]; rewrite E; cbn [final];
    [|apply frame_refl].
  split; [|split].
  - exists [EvWrite p c]. split; [reflexivity|now constructor].
  - intros q n Hq Hn. cbn. rewrite tree_lookup_set_other; [exact Hn|congruence].
  - reflexivity.
Qed.

Lemma frame_requests_post (url : str) (p : payload) :
  P (EvPost url p) -> respects (frame P depth) (requests_post url p).
Proof.
  intros H w. unfold requests_post.
  assert (F : frame P depth w (emit (EvPost url p) w)) by now apply frame_emit.
  destruct (responses (emit (EvPost url p) w)) as [|[reason|status b] rest];
    cbn [final]; try exact F;
    (eapply frame_trans; [exact F|apply frame_set_responses]).
Qed.

Hypothesis P_wait : forall e, wait_event e -> P e.

Lemma frame_on_press (pk k : key) (w : world) :
  frame P depth w (on_press_reacting_to pk k w).
Proof.
  unfold on_press_reacting_to. destruct (key_eqb k pk); [|apply frame_refl].
  eapply frame_trans; [apply frame_set_paused|]. apply frame_emit, P_wait.
  now destruct (paused _).
Qed.

Lemma frame_deliver (ks : list key) (w : world) : frame P depth w (deliver ks w).
Proof.
  unfold deliver. destruct (keyboard_listener w) as [l|]; [|apply frame_refl].
  revert w. induction ks as [|k ks IH]; intros w; cbn [fold_left].
  - apply frame_refl.
  - eapply frame_trans; [apply frame_on_press|apply IH].
Qed.

Lemma frame_poll_paused (sched : list (list key)) :
  forall w, frame P depth w (final (poll_paused sched w)).
Proof.
  induction sched as [|ks sched IH]; intros w; cbn [poll_paused].
  - destruct (paused (set_pending_keys [] w)); cbn [final];
      (eapply frame_trans; [apply frame_set_pending_keys|]);
      apply frame_emit, P_wait; exact I.
  - assert (F : frame P depth w (deliver ks (set_pending_keys sched w))).
    { eapply frame_trans; [apply frame_set_pending_keys|apply frame_deliver]. }
    destruct (paused (deliver ks (set_pending_keys sched w))); cbn [final].
    + eapply frame_trans; [exact F|]. eapply frame_trans; [|apply IH].
      eapply frame_trans; apply frame_emit, P_wait; [exact I|reflexivity].
    + eapply frame_trans; [exact F|]. apply frame_emit, P_wait. exact I.
Qed.

Lemma frame_while_paused : respects (frame P depth) while_paused.
Proof. intros w. apply frame_poll_paused. Qed.
End Frame.

(** Programs are framed by taking them apart along their binds. *)
Ltac frame_program P d :=
  repeat first
    [ apply (respects_bind (frame P d) (frame_trans P d)); [|intro]
    | apply (respects_ret (frame P d) (frame_refl P d))
    | apply (respects_raise (frame P d) (frame_refl P d))
    | apply (respects_try_request (frame P d) (frame_trans P d)); [|intro]
    | apply (respects_for_each (frame P d) (frame_refl P d) (frame_trans P d)); intro
    | apply (respects_for_fold (frame P d) (frame_refl P d) (frame_trans P d)); intros
    | apply (respects_pure (frame P d) (frame_refl P d));
        first [ apply pure_py_int | apply pure_py_get | apply pure_py_subscript
              | apply pure_py_iter | apply pure_b64decode | apply pure_raise_for_status
              | apply pure_response_json | apply pure_add_tag | apply pure_json_load
              | apply pure_os_listdir | apply pure_load_prompts
              | apply pure_v1_0_load_prompts ]
    | apply frame_print
    | apply frame_logging_info
    | apply frame_logging_error
    | apply frame_os_makedirs
    | apply frame_write_file
    | apply frame_requests_post
    | apply frame_while_paused
    | match goal with
      | |- respects _ (if ?b then _ else _) => destruct b
      end ].

Section FramePrograms.
Variable P : event -> Prop.
Variable s : settings.
Variables seed num_images : Z.
Hypothesis P_request : forall e, request_event s seed num_images e -> P e.

Lemma P_of_wait (e : event) : wait_event e -> P e.
Proof.
  intros H. apply P_request.
  destruct e; cbn in *; try contradiction; try exact I; exact H.
Qed.

Lemma request_and_save_frame (pp np : jvalue) (iteration_dir : path)
    (item_name : str) (iteration : Z) :
  respects (frame P (S (List.length iteration_dir)))
           (request_and_save (api_url_of s) (make_payload s pp np seed num_images)
                             iteration_dir item_name iteration).
Proof.
  unfold request_and_save. frame_program P (S (List.length iteration_dir));
    try (apply P_request; cbn; auto; fail).
  rewrite length_app. simpl. lia.
Qed.

Lemma on_request_error_frame (d : nat) (item_name : str) (iteration : Z)
    (e : request_error) :
  respects (frame P d) (on_request_error item_name iteration e).
Proof.
  unfold on_request_error. frame_program P d; apply P_request; exact I.
Qed.
End FramePrograms.

Section Iterations.
Variable s : settings.
Variable item_dir : path.
Variable item_name : str.
Variables seed num_images : Z.

Let depth := List.length item_dir + 2.

(** One iteration: its directory is made first, whatever follows, unless
    the directory cannot be made, which ends the iteration with nothing
    done. *)
Lemma iteration_body_events (iteration : Z) (data : jvalue) (w : world) :
  ((is_ok (iteration_body s item_dir item_name seed num_images iteration data w) = false
    /\ events (final (iteration_body s item_dir item_name seed num_images
                                     iteration data w)) = events w)
   \/ exists evs,
        events (final (iteration_body s item_dir item_name seed num_images
                                      iteration data w))
        = events w ++ EvMakedirs (iteration_dir_of item_dir iteration) :: evs
        /\ Forall (request_event s seed num_images) evs)
  /\ keeps_entries depth w
       (final (iteration_body s item_dir item_name seed num_images iteration data w))
  /\ keeps_listener w
       (final (iteration_body s item_dir item_name seed num_images iteration data w)).
Proof.
  unfold iteration_body.
  rewrite (bind_run (os_makedirs (iteration_dir_of item_dir iteration)) _ w).
  destruct (os_makedirs_cases (iteration_dir_of item_dir iteration) w)
    as [E|(e & made & E & _)]; rewrite E.
  2:{ cbn [final is_ok]. split; [left; split; reflexivity|]. split.
      - intros p n _ Hn. cbn. now apply makedirs_keeps.
      - reflexivity. }
  set (w1 := emit _ _).
  match goal with
  | |- context [final (?m w1)] =>
      assert (F : respects (frame (request_event s seed num_images) depth) m)
  end.
  { subst depth.
    frame_program (request_event s seed num_images) (List.length item_dir + 2);
      try (cbn; auto; fail);
      try (intros e He; destruct e; cbn in *; try contradiction; try exact I; exact He).
    unfold iteration_dir_of. rewrite !length_app. simpl. lia. }
  destruct (F w1) as ((evs & E1 & HF) & K & L).
  split; [right; exists evs; split; [|exact HF]|split].
  - rewrite E1. subst w1. cbn [events emit set_output]. now rewrite <- app_assoc.
  - intros p n Hp Hn. apply K; [exact Hp|]. subst w1. cbn. now apply makedirs_keeps.
  - exact L.
Qed.

Lemma made_dirs_app (a b : list event) : made_dirs (a ++ b) = made_dirs a ++ made_dirs b.
Proof. apply flat_map_app. Qed.

Lemma made_dirs_request_events (evs : list event) :
  Forall (request_event s seed num_images) evs -> made_dirs evs = [].
Proof.
  induction 1 as [|e evs He _ IH]; [reflexivity|].
  cbn [made_dirs flat_map]. fold (made_dirs evs). rewrite IH.
  destruct e; try reflexivity. contradiction.
Qed.

Lemma request_event_item_event (e : event) :
  request_event s seed num_images e -> item_event s item_dir seed num_images e.
Proof. destruct e; cbn; auto. contradiction. Qed.

(** The iterations of an item: the directories made are those of the
    first iterations, of all of them when the loop returns. *)
Lemma iterations_events (l : list Z) :
  forall data w,
  exists evs j,
    events (final (for_fold l (iteration_body s item_dir item_name seed num_images)
                            data w))
    = events w ++ evs
    /\ Forall (item_event s item_dir seed num_images) evs
    /\ made_dirs evs = map (iteration_dir_of item_dir) (firstn j l)
    /\ (is_ok (for_fold l (iteration_body s item_dir item_name seed num_images)
                        data w) = true -> j = List.length l)
    /\ keeps_entries depth w
         (final (for_fold l (iteration_body s item_dir item_name seed num_images)
                          data w))
    /\ keeps_listener w
         (final (for_fold l (iteration_body s item_dir item_name seed num_images)
                          data w)).
Proof.
  induction l as [|i l IH]; intros data w.
  - exists [], 0. cbn. rewrite app_nil_r. repeat split; auto.
    intros p n _ H. exact H.
  - cbn [for_fold]. unfold bind.
    destruct (iteration_body_events i data w) as ([[O1 E1]|(evs1 & E1 & F1)] & K1 & L1).
    { destruct (iteration_body s item_dir item_name seed num_images i data w)
        as [data1 w1|e w1|w1]; cbn [final is_ok] in *; [discriminate| |];
        (exists [], 0; rewrite app_nil_r; split; [exact E1|];
         split; [constructor|]; split; [reflexivity|]; split; [discriminate|];
         now split). }
    assert (F1' : Forall (item_event s item_dir seed num_images)
                         (EvMakedirs (iteration_dir_of item_dir i) :: evs1)).
    { constructor; [now exists i|].
      eapply Forall_impl; [apply request_event_item_event|exact F1]. }
    assert (D1 : made_dirs (EvMakedirs (iteration_dir_of item_dir i) :: evs1)
                 = [iteration_dir_of item_dir i]).
    { cbn [made_dirs flat_map]. fold (made_dirs evs1).
      now rewrite (made_dirs_request_events evs1 F1). }
    destruct (iteration_body s item_dir item_name seed num_images i data w)
      as [data1 w1|e w1|w1]; cbn [final] in *.
    + destruct (IH data1 w1) as (evs2 & j & E2 & F2 & D2 & O2 & K2 & L2).
      exists ((EvMakedirs (iteration_dir_of item_dir i) :: evs1) ++ evs2), (S j).
      split; [now rewrite E2, E1, <- app_assoc|].
      split; [apply Forall_app; now split|].
      split; [rewrite made_dirs_app, D1, D2; reflexivity|].
      split; [intros H; cbn; f_equal; now apply O2|].
      split; [eapply keeps_entries_trans; eassumption|].
      eapply keeps_listener_trans; eassumption.
    + exists (EvMakedirs (iteration_dir_of item_dir i) :: evs1), 1.
      split; [exact E1|]. split; [exact F1'|]. split; [now rewrite D1|].
      split; [discriminate|]. now split.
    + exists (EvMakedirs (iteration_dir_of item_dir i) :: evs1), 1.
      split; [exact E1|]. split; [exact F1'|]. split; [now rewrite D1|].
      split; [discriminate|]. now split.
Qed.
End Iterations.

(** ** The generation loop and the descriptor *)

Lemma new_events_app (w w' : world) (evs : list event) :
  events w' = events w ++ evs -> new_events w w' = evs.
Proof.
  intros E. unfold new_events. rewrite E.
  now rewrite skipn_app, skipn_all, Nat.sub_diag.
Qed.

Lemma posts_item_events (s : settings) (item_dir : path) (seed num_images : Z)
    (evs : list event) :
  Forall (item_event s item_dir seed num_images) evs ->
  Forall (fun p => p_n_iter p = num_images /\ p_seed p = seed) (posts evs).
Proof.
  induction 1 as [|e evs He _ IH]; [constructor|].
  cbn [posts flat_map]. fold (posts evs).
  destruct e; cbn [app]; try exact IH.
  constructor; [|exact IH]. cbn in He. tauto.
Qed.

(** The header and the iterations of an item, once its descriptor is read. *)
Lemma item_run_events (s : settings) (t : prompt_type) (item_dir : path)
    (item_name : str) (seed num_images num_iterations : Z) (data : jvalue) (w : world) :
  let r := (print (MsgItemHeader t item_name s seed num_images num_iterations) ;;;
            iterations s item_dir item_name seed num_images num_iterations data) w in
  exists j,
    made_dirs (new_events w (final r))
    = map (iteration_dir_of item_dir) (firstn j (range_from_1 num_iterations))
    /\ (is_ok r = true ->
        made_dirs (new_events w (final r))
        = map (iteration_dir_of item_dir) (range_from_1 num_iterations))
    /\ Forall (fun p => p_n_iter p = num_images /\ p_seed p = seed)
              (posts (new_events w (final r)))
    /\ keeps_listener w (final r).
Proof.
  cbv zeta.
  set (w1 := emit (EvPrint (MsgItemHeader t item_name s seed num_images num_iterations)) w).
  assert (Hr : (print (MsgItemHeader t item_name s seed num_images num_iterations) ;;;
                iterations s item_dir item_name seed num_images num_iterations data) w
               = match for_fold (range_from_1 num_iterations)
                                (iteration_body s item_dir item_name seed num_images)
                                data w1 with
                 | Ok _ w' => Ok tt w'
                 | Raised e w' => Raised e w'
                 | Hangs w' => Hangs w'
                 end) by reflexivity.
  rewrite Hr. clear Hr.
  destruct (iterations_events s item_dir item_name seed num_images
              (range_from_1 num_iterations) data w1)
    as (evs & j & E & F & D & O & _ & L).
  set (r := for_fold _ _ data w1) in *.
  assert (E' : events (final r)
               = events w ++ EvPrint (MsgItemHeader t item_name s seed num_images
                                                   num_iterations) :: evs).
  { rewrite E. subst w1. cbn [events emit]. now rewrite <- app_assoc. }
  assert (D' : made_dirs (EvPrint (MsgItemHeader t item_name s seed num_images
                                                 num_iterations) :: evs)
               = map (iteration_dir_of item_dir)
                     (firstn j (range_from_1 num_iterations))) by exact D.
  assert (F' : Forall (fun p => p_n_iter p = num_images /\ p_seed p = seed)
                 (posts (EvPrint (MsgItemHeader t item_name s seed num_images
                                                num_iterations) :: evs))).
  { change (posts (_ :: evs)) with (posts evs). eapply posts_item_events; exact F. }
  exists j. destruct r as [a w2|e w2|w2]; cbn [final is_ok] in *;
    rewrite (new_events_app _ _ _ E').
  - split; [exact D'|]. split; [|split; [exact F'|exact L]].
    intros _. rewrite D', (O eq_refl). now rewrite firstn_all.
  - split; [exact D'|]. split; [discriminate|]. split; [exact F'|exact L].
  - split; [exact D'|]. split; [discriminate|]. split; [exact F'|exact L].
Qed.

Lemma length_range_from_1 (n : Z) : List.length (range_from_1 n) = Z.to_nat n.
Proof. unfold range_from_1. now rewrite length_map, length_seq. Qed.

Lemma process_item_run (s : settings) (t : prompt_type) (base : path)
    (item_name : str) (w : world) (fields : dict jvalue) (n k sd : Z) :
  tree_lookup (output w) ((base ++ [item_name]) ++ [lit "prompt.json"])
  = Some (File (Json (JObj fields))) ->
  dict_get_default fields (lit "Number of Images") (JInt 1) = JInt k ->
  dict_get_default fields (lit "Number of Iterations") (JInt 1) = JInt n ->
  dict_get_default fields (lit "Seed") (JInt (s_seed s)) = JInt sd ->
  process_item s t base item_name w
  = (print (MsgItemHeader t item_name s sd k n) ;;;
     iterations s (base ++ [item_name]) item_name sd k n (JObj fields)) w.
Proof.
  intros Hl Hk Hn Hsd.
  unfold process_item, bind, json_load, py_get, ret.
  rewrite Hl, Hk, Hn, Hsd. reflexivity.
Qed.

Lemma v1_0_process_item_run (s : settings) (t : prompt_type) (base : path)
    (num_images num_iterations : Z) (item_name : str) (w : world)
    (fields : dict jvalue) (sd : Z) :
  tree_lookup (output w) ((base ++ [item_name]) ++ [lit "prompt.json"])
  = Some (File (Json (JObj fields))) ->
  dict_get_default fields (lit "Seed") (JInt (s_seed s)) = JInt sd ->
  V1_0.process_item s t base num_images num_iterations item_name w
  = (print (MsgItemHeader t item_name s sd num_images num_iterations) ;;;
     iterations s (base ++ [item_name]) item_name sd num_images num_iterations
                (JObj fields)) w.
Proof.
  intros Hl Hsd.
  unfold V1_0.process_item, exists_path, bind, json_load, py_get, ret.
  rewrite Hl, Hsd. reflexivity.
Qed.

(** C1, as amended: in [main.py] the loop takes the iteration count, the
    image count and the seed of an item from its descriptor (1, 1 and the
    settings' seed where a field is absent): the directories it makes are
    Iteration_1 .. Iteration_n for the descriptor's n, all of them when the
    item's processing returns, and every request carries the descriptor's
    image count and seed.  In [v1.0] only the seed comes from the
    descriptor; the iteration count and the image count are those of the
    run. *)
Theorem generation_uses_descriptor_values :
  (forall s t base item_name w fields n k sd,
      tree_lookup (output w) ((base ++ [item_name]) ++ [lit "prompt.json"])
      = Some (File (Json (JObj fields))) ->
      dict_get_default fields (lit "Number of Images") (JInt 1) = JInt k ->
      dict_get_default fields (lit "Number of Iterations") (JInt 1) = JInt n ->
      dict_get_default fields (lit "Seed") (JInt (s_seed s)) = JInt sd ->
      exists j,
        made_dirs (new_events w (final (process_item s t base item_name w)))
        = map (iteration_dir_of (base ++ [item_name])) (firstn j (range_from_1 n))
        /\ (is_ok (process_item s t base item_name w) = true ->
            made_dirs (new_events w (final (process_item s t base item_name w)))
            = map (iteration_dir_of (base ++ [item_name])) (range_from_1 n))
        /\ Forall (fun p => p_n_iter p = k /\ p_seed p = sd)
                  (posts (new_events w (final (process_item s t base item_name w)))))
  /\ (forall s t base num_images num_iterations item_name w fields sd,
         tree_lookup (output w) ((base ++ [item_name]) ++ [lit "prompt.json"])
         = Some (File (Json (JObj fields))) ->
         dict_get_default fields (lit "Seed") (JInt (s_seed s)) = JInt sd ->
         exists j,
           made_dirs (new_events w (final (V1_0.process_item s t base num_images
                                             num_iterations item_name w)))
           = map (iteration_dir_of (base ++ [item_name]))
                 (firstn j (range_from_1 num_iterations))
           /\ (is_ok (V1_0.process_item s t base num_images num_iterations
                                        item_name w) = true ->
               made_dirs (new_events w (final (V1_0.process_item s t base num_images
                                                 num_iterations item_name w)))
               = map (iteration_dir_of (base ++ [item_name]))
                     (range_from_1 num_iterations))
           /\ Forall (fun p => p_n_iter p = num_images /\ p_seed p = sd)
                     (posts (new_events w (final (V1_0.process_item s t base num_images
                                                    num_iterations item_name w)))))
  /\ (forall n, List.length (range_from_1 n) = Z.to_nat n).
Proof.
  split; [|split].
  - intros s t base item_name w fields n k sd Hl Hk Hn Hsd.
    rewrite (process_item_run s t base item_name w fields n k sd Hl Hk Hn Hsd).
    destruct (item_run_events s t (base ++ [item_name]) item_name sd k n
                              (JObj fields) w) as (j & H1 & H2 & H3 & _).
    exists j. now split; [|split].
  - intros s t base ni nit item_name w fields sd Hl Hsd.
    rewrite (v1_0_process_item_run s t base ni nit item_name w fields sd Hl Hsd).
    destruct (item_run_events s t (base ++ [item_name]) item_name sd ni nit
                              (JObj fields) w) as (j & H1 & H2 & H3 & _).
    exists j. now split; [|split].
  - apply length_range_from_1.
Qed.

Lemma generation_uses_descriptor_values_witness :
  is_ok (process_item example_settings character characters_dir item_A world_three)
  = true
  /\ made_dirs (new_events world_three
                  (final (process_item example_settings character characters_dir
                                       item_A world_three)))
     = [characters_dir ++ [item_A; lit "Iteration_1"];
        characters_dir ++ [item_A; lit "Iteration_2"];
        characters_dir ++ [item_A; lit "Iteration_3"]]
  /\ Forall (fun p => p_n_iter p = 2%Z /\ p_seed p = 7%Z)
            (posts (new_events world_three
                      (final (process_item example_settings character characters_dir
                                           item_A world_three)))).
Proof.
  destruct generation_uses_descriptor_values as (Hmain & _ & _).
  destruct (Hmain example_settings character characters_dir item_A world_three
                  descriptor_three 3%Z 2%Z 7%Z eq_refl eq_refl eq_refl eq_refl)
    as (j & _ & Hall & Hposts).
  split; [reflexivity|]. split; [|exact Hposts].
  rewrite (Hall eq_refl). reflexivity.
Defined.

(** C1 as stated fails in [v1.0]: the descriptor asks for 3 iterations of
    2 images, the run was started with 1 iteration of 1 image, and one
    iteration directory is made and one image asked for. *)
Lemma v1_0_ignores_descriptor_counts :
  descriptor_at world_three_v1_0
    (V1_0.output_dir ++ characters_dir ++ [item_A; lit "prompt.json"])
  = Some descriptor_three
  /\ made_dirs (events (final (V1_0.generate_images example_settings character story
                                 1 1 V1_0.output_dir world_three_v1_0)))
     = [V1_0.output_dir ++ characters_dir ++ [item_A; lit "Iteration_1"]]
  /\ map p_n_iter (posts (events (final (V1_0.generate_images example_settings
                                           character story 1 1 V1_0.output_dir
                                           world_three_v1_0))))
     = [1%Z].
Proof. split; [reflexivity|]. split; reflexivity. Qed.

(** ** Failed requests *)

(** The try block on a failing outcome: the except branch is taken. *)
Lemma try_block_failure (url : str) (p : payload) (dir : path) (item_name : str)
    (iteration : Z) (w : world) (o : post_outcome) (rest : list post_outcome)
    (e : request_error) :
  responses w = o :: rest ->
  request_error_of o = Some e ->
  try_request (request_and_save url p dir item_name iteration)
              (on_request_error item_name iteration) w
  = Ok true (after_failure url p item_name iteration e rest w).
Proof.
  intros Hr He.
  unfold try_request, request_and_save, bind, requests_post.
  cbn [responses emit]. rewrite Hr.
  destruct o as [reason|status b]; cbn [request_error_of] in He.
  - injection He as <-. reflexivity.
  - unfold raise_for_status. cbn [fst snd].
    destruct ((400 <=? status)%Z && (status <? 600)%Z).
    + injection He as <-. reflexivity.
    + destruct b as [v|t]; [discriminate|]. injection He as <-. reflexivity.
Qed.

(** The try block when the script has run out: nothing answers. *)
Lemma try_block_no_answer (url : str) (p : payload) (dir : path) (item_name : str)
    (iteration : Z) (w : world) :
  responses w = [] ->
  try_request (request_and_save url p dir item_name iteration)
              (on_request_error item_name iteration) w
  = Ok true (after_failure url p item_name iteration (ConnectionError []) [] w).
Proof.
  intros Hr.
  unfold try_request, request_and_save, bind, requests_post.
  cbn [responses emit]. rewrite Hr. unfold after_failure.
  unfold on_request_error, bind, print, logging_error, act, ret.
  do 3 f_equal. destruct w. cbn in *. now subst.
Qed.

(** ** Saving the images of a clean response *)

Lemma forallb_combine_snd {A B} (f : B -> bool) (items : list B) :
  forallb f items = true ->
  forall idx : list A, forallb (fun x => f (snd x)) (combine idx items) = true.
Proof.
  induction items as [|b items IH]; intros H idx.
  - now destruct idx.
  - cbn in H. apply andb_true_iff in H as [Hb Hr].
    destruct idx as [|i idx]; [reflexivity|].
    cbn. rewrite Hb. now apply IH.
Qed.

Lemma forallb_combine_fst {A B} (f : A -> bool) (idx : list A) :
  forallb f idx = true ->
  forall items : list B, forallb (fun x => f (fst x)) (combine idx items) = true.
Proof.
  induction idx as [|i idx IH]; intros H items; [reflexivity|].
  cbn in H. apply andb_true_iff in H as [Hi Hr].
  destruct items as [|b items]; [reflexivity|].
  cbn. rewrite Hi. now apply IH.
Qed.

Lemma forallb_map_of {A B} (f : B -> bool) (g : A -> B) (l : list A) :
  forallb f (map g l) = forallb (fun x => f (g x)) l.
Proof. induction l as [|x l IH]; [reflexivity|]. cbn. now rewrite IH. Qed.

Lemma forallb_agree {A} (f g : A -> bool) (l : list A) :
  (forall x, In x l -> f x = g x) -> forallb f l = forallb g l.
Proof.
  induction l as [|x l IH]; intros H; [reflexivity|].
  cbn. rewrite (H x (or_introl eq_refl)). f_equal. apply IH.
  intros y Hy. apply H. now right.
Qed.

Lemma forallb_seq_le (f : nat -> bool) (start n m : nat) :
  m <= n -> forallb f (seq start n) = true -> forallb f (seq start m) = true.
Proof.
  intros Hle H. rewrite forallb_forall in *. intros x Hx. apply H.
  apply in_seq in Hx. apply in_seq. lia.
Qed.

Lemma posts_app (a b : list event) : posts (a ++ b) = posts a ++ posts b.
Proof. apply flat_map_app. Qed.

Lemma at_path_set_other (t : tree) (p q : path) (n : node) :
  p <> q -> at_path (tree_set t p n) q = at_path t q.
Proof.
  intros H. destruct q as [|c q]; [reflexivity|].
  cbn [at_path]. now apply tree_lookup_set_other.
Qed.

Lemma room_for_file_isdir (t : tree) (p : path) :
  room_for_file t p = true -> isdir t p = false.
Proof.
  unfold room_for_file. intros H. repeat (apply andb_true_iff in H as [H ?]).
  now apply negb_true_iff.
Qed.

Lemma image_file_length (dir : path) (name : str) :
  List.length (dir ++ [name]) = S (List.length dir).
Proof. rewrite length_app. simpl. lia. Qed.

(** The images of a response, when they decode and there is room for
    them in the directory of the iteration. *)
Lemma save_images_ok (dir : path) (item_name : str) (iteration : Z)
    (l : list (Z * jvalue)) :
  forallb (fun x => decodable (snd x)) l = true ->
  forall w,
  at_path (output w) dir = Some Dir ->
  forallb (fun x => room_for_file (output w)
                      (dir ++ [image_name item_name iteration (fst x)])) l = true ->
  exists w',
    for_each l (save_image dir item_name iteration) w = Ok tt w'
    /\ same_control w w'
    /\ keeps_entries (S (List.length dir)) w w'
    /\ settled (List.length dir) (output w) (output w')
    /\ exists evs, events w' = events w ++ evs /\ posts evs = [].
Proof.
  induction l as [|[k v] l IH]; intros H w Hdir Hroom.
  - exists w. split; [reflexivity|]. split; [now repeat split|].
    split; [apply keeps_entries_refl|]. split; [apply settled_refl|].
    exists []. now rewrite app_nil_r.
  - cbn in H. apply andb_true_iff in H as [Hv Hl].
    cbn [forallb fst] in Hroom. apply andb_true_iff in Hroom as [Hr1 Hrl].
    destruct v; try discriminate. cbn in Hv.
    apply andb_true_iff in Hv as [Ha Hd].
    destruct (a2b_base64 s 0 0 0 []) as [bytes|] eqn:Hb; [|discriminate].
    set (p1 := dir ++ [image_name item_name iteration k]) in *.
    set (w1 := emit (EvWrite p1 (Bytes bytes))
                 (set_output (tree_set (output w) p1 (File (Bytes bytes))) w)).
    assert (Hlen : List.length p1 = S (List.length dir)) by apply image_file_length.
    assert (Hne : p1 <> dir).
    { intros E. rewrite E in Hlen. lia. }
    assert (S1 : settled (List.length dir) (output w) (output w1)).
    { apply settled_write; [exact Hlen|now apply room_for_file_isdir]. }
    destruct (IH Hl w1) as (w' & E & (C1 & C2 & C3 & C4) & K & S2 & (evs & Ev & Pv)).
    { subst w1. cbn [output emit set_output]. now rewrite at_path_set_other. }
    { rewrite forallb_forall in *. intros x Hx.
      rewrite (room_for_file_settled _ _ _ _ S1) by apply image_file_length.
      now apply Hrl. }
    exists w'. split; [|split; [|split; [|split]]].
    + cbn [for_each]. rewrite bind_run. unfold save_image at 1.
      rewrite bind_run. unfold b64decode. cbn [snd fst]. rewrite Ha, Hb.
      unfold ret at 1. fold p1. rewrite write_file_ok; [exact E|exact Hr1|].
      unfold p1. now rewrite removelast_last.
    + repeat split; [rewrite C1|rewrite C2|rewrite C3|rewrite C4]; reflexivity.
    + intros q n Hq Hn. apply K; [exact Hq|]. subst w1. cbn.
      rewrite tree_lookup_set_other; [exact Hn|].
      intros Eq. apply Hq. now rewrite <- Eq.
    + eapply settled_trans; eassumption.
    + exists (EvWrite p1 (Bytes bytes) :: evs).
      split; [|exact Pv]. rewrite Ev. subst w1. cbn [events emit set_output].
      now rewrite <- app_assoc.
Qed.

(** The try block on a clean response: the images are saved and the
    except branch is not taken. *)
Lemma try_block_success (url : str) (p : payload) (dir : path) (item_name : str)
    (iteration : Z) (w : world) (status : Z) (v : jvalue) (rest : list post_outcome) :
  responses w = Responded status (BodyJson v) :: rest ->
  ((400 <=? status) && (status <? 600))%Z = false ->
  clean_body v = true ->
  at_path (output w) dir = Some Dir ->
  room_for_images (output w) dir item_name iteration
                  (images_of (Responded status (BodyJson v))) = true ->
  exists w',
    try_request (request_and_save url p dir item_name iteration)
                (on_request_error item_name iteration) w
    = Ok false w'
    /\ paused w' = paused w /\ pending_keys w' = pending_keys w
    /\ keyboard_listener w' = keyboard_listener w
    /\ responses w' = rest
    /\ keeps_entries (S (List.length dir)) w w'
    /\ settled (List.length dir) (output w) (output w')
    /\ exists evs, events w' = events w ++ evs /\ List.length (posts evs) = 1.
Proof.
  intros Hr Hs Hc Hdir Hroom.
  destruct v as [ |b0|n0|s0|items0|fields]; try discriminate.
  unfold clean_body in Hc. cbn [images_of] in Hroom.
  destruct (dict_get fields (lit "images")) as [[ |b1|n1|s1|items|fields1]|] eqn:Hi;
    try discriminate.
  set (w1 := emit (EvLog INFO (MsgResponse (BodyJson (JObj fields))))
               (set_responses rest (emit (EvPost url p) w))).
  destruct (save_images_ok dir item_name iteration (enumerate_from_1 items)
              (forallb_combine_snd decodable items Hc _) w1)
    as (w2 & E & (C1 & C2 & C3 & C4) & K & S2 & (evs & Ev & Pv)).
  { exact Hdir. }
  { unfold enumerate_from_1.
    apply (forallb_combine_fst
             (fun k => room_for_file (output w1) (dir ++ [image_name item_name iteration k]))).
    rewrite forallb_map_of. exact Hroom. }
  exists (emit (EvPrint (MsgCompleted iteration item_name)) w2).
  split; [|split; [|split; [|split; [|split; [|split; [|split]]]]]].
  - unfold try_request, request_and_save. unfold bind at 1.
    unfold requests_post. cbn [responses emit]. rewrite Hr.
    unfold bind at 1. unfold raise_for_status. cbn [fst snd]. rewrite Hs.
    unfold ret at 1. unfold bind at 1. unfold response_json, ret at 1.
    unfold bind at 1. unfold logging_info, act at 1.
    unfold bind at 1. unfold py_subscript. rewrite Hi. unfold ret at 1.
    unfold bind at 1. unfold py_iter, ret at 1.
    unfold bind at 1. fold w1. rewrite E. reflexivity.
  - cbn. now rewrite C1.
  - cbn. now rewrite C2.
  - cbn. now rewrite C4.
  - cbn. now rewrite C3.
  - intros q n Hq Hn. cbn. apply K; [exact Hq|exact Hn].
  - exact S2.
  - exists (EvPost url p :: EvLog INFO (MsgResponse (BodyJson (JObj fields)))
              :: evs ++ [EvPrint (MsgCompleted iteration item_name)]).
    split.
    + cbn [events emit]. rewrite Ev. subst w1. cbn [events emit set_responses].
      now rewrite <- !app_assoc.
    + cbn [posts flat_map app List.length]. fold (posts (evs ++ [EvPrint (MsgCompleted iteration item_name)])).
      rewrite posts_app, Pv. reflexivity.
Qed.

(** ** Clean runs *)

Lemma while_paused_idle (w : world) :
  idle w = true ->
  while_paused w = Ok tt (emit (EvCheckPaused false) (set_pending_keys [] w)).
Proof.
  unfold idle, while_paused. intros H. apply andb_true_iff in H as [Hp Hk].
  destruct (pending_keys w); [|discriminate].
  cbn [poll_paused paused set_pending_keys].
  now destruct (paused w).
Qed.

Lemma clean_intro (w : world) :
  paused w = false -> pending_keys w = [] ->
  forallb benign (responses w) = true -> clean w = true.
Proof. intros Hp Hk Hr. unfold clean, idle. now rewrite Hp, Hk, Hr. Qed.

Lemma clean_elim (w : world) :
  clean w = true ->
  paused w = false /\ pending_keys w = [] /\ forallb benign (responses w) = true.
Proof.
  unfold clean, idle. intros H. apply andb_true_iff in H as [H Hr].
  apply andb_true_iff in H as [Hp Hk].
  apply negb_true_iff in Hp. destruct (pending_keys w); [|discriminate]. now repeat split.
Qed.

Lemma idle_intro (w : world) : paused w = false -> pending_keys w = [] -> idle w = true.
Proof. intros Hp Hk. unfold idle. now rewrite Hp, Hk. Qed.

Lemma within_most (w : world) : within (most_images (responses w)) w.
Proof.
  unfold within. induction (responses w) as [|o rs IH]; [constructor|].
  cbn [most_images fold_right]. fold (most_images rs). constructor; [lia|].
  eapply Forall_impl; [|exact IH]. cbn. intros o' H. lia.
Qed.

Lemma room_for_images_le (t : tree) (dir : path) (item_name : str) (iteration : Z)
    (n m : nat) :
  m <= n -> room_for_images t dir item_name iteration n = true ->
  room_for_images t dir item_name iteration m = true.
Proof. intros H. unfold room_for_images. now apply forallb_seq_le. Qed.

Lemma room_for_images_settled (t t' : tree) (dir : path) (item_name : str)
    (iteration : Z) (n : nat) :
  settled (List.length dir) t t' ->
  room_for_images t' dir item_name iteration n
  = room_for_images t dir item_name iteration n.
Proof.
  intros H. unfold room_for_images. apply forallb_agree. intros k _.
  apply (room_for_file_settled _ _ _ _ H), image_file_length.
Qed.

(** The request of an iteration and what follows it, in a clean world
    with room for the images: whether the request fails or not, the
    iteration ends normally. *)
Lemma request_phase_clean (url : str) (p : payload) (dir : path) (item_name : str)
    (iteration : Z) (data : jvalue) (images : nat) (w : world) :
  clean w = true ->
  within images w ->
  at_path (output w) dir = Some Dir ->
  room_for_images (output w) dir item_name iteration images = true ->
  exists w',
    (continued <- try_request (request_and_save url p dir item_name iteration)
                              (on_request_error item_name iteration) ;;
     if continued : bool then ret data else while_paused ;;; ret data) w
    = Ok data w'
    /\ clean w' = true
    /\ within images w'
    /\ advances (S (List.length dir)) 1 w w'
    /\ settled (List.length dir) (output w) (output w').
Proof.
  intros Hc Hw Hdir Hroom. destruct (clean_elim w Hc) as (Hp & Hk & Hr).
  unfold within in *. unfold bind at 1.
  destruct (responses w) as [|o rest] eqn:Eo.
  - rewrite (try_block_no_answer url p dir item_name iteration w Eo).
    eexists. split; [reflexivity|]. split; [now apply clean_intro|].
    split; [constructor|]. split; [|apply settled_refl].
    split; [intros q n _ H; exact H|]. split; [reflexivity|]. split.
    + eexists. split; [cbn; rewrite <- !app_assoc; reflexivity|reflexivity].
    + cbn. now rewrite Eo.
  - cbn [forallb] in Hr. apply andb_true_iff in Hr as [Hb Hrest].
    inversion Hw as [|? ? Ho Hwrest]; subst.
    unfold benign in Hb. destruct (request_error_of o) as [e|] eqn:Ee.
    + rewrite (try_block_failure url p dir item_name iteration w o rest e Eo Ee).
      eexists. split; [reflexivity|]. split; [now apply clean_intro|].
      split; [exact Hwrest|]. split; [|apply settled_refl].
      split; [intros q n _ H; exact H|]. split; [reflexivity|]. split.
      * eexists. split; [cbn; rewrite <- !app_assoc; reflexivity|reflexivity].
      * cbn. now rewrite Eo.
    + destruct o as [reason|status [v|t]]; try discriminate.
      cbn [request_error_of] in Ee.
      destruct ((400 <=? status)%Z && (status <? 600)%Z) eqn:Es; [discriminate|].
      destruct (try_block_success url p dir item_name iteration w status v rest
                                  Eo Es Hb Hdir)
        as (w1 & E & P1 & K1 & L1 & R1 & T1 & S1 & (evs & Ev & Pv)).
      { eapply room_for_images_le; [exact Ho|exact Hroom]. }
      rewrite E.
      assert (Hi : idle w1 = true) by (apply idle_intro; congruence).
      unfold bind. rewrite (while_paused_idle w1 Hi).
      eexists. split; [reflexivity|]. split; [apply clean_intro; cbn; congruence|].
      split; [cbn; now rewrite R1|]. split; [|exact S1].
      split; [intros q n Hq H; cbn; now apply T1|].
      split; [exact L1|]. split.
      * exists (evs ++ [EvCheckPaused false]). split.
        -- cbn. now rewrite Ev, <- app_assoc.
        -- now rewrite posts_app, length_app, Pv.
      * cbn. now rewrite R1, Eo.
Qed.

Lemma iteration_dir_length (item_dir : path) (iteration : Z) :
  List.length (iteration_dir_of item_dir iteration) = S (List.length item_dir).
Proof. unfold iteration_dir_of. rewrite length_app. simpl. lia. Qed.

Lemma iteration_body_clean (s : settings) (item_dir : path) (item_name : str)
    (seed num_images iteration : Z) (fields : dict jvalue) (images : nat) (w : world) :
  clean w = true ->
  within images w ->
  good_prompt s fields = true ->
  room_for_dir (output w) (iteration_dir_of item_dir iteration) = true ->
  room_for_images (output w) (iteration_dir_of item_dir iteration) item_name
                  iteration images = true ->
  exists w',
    iteration_body s item_dir item_name seed num_images iteration (JObj fields) w
    = Ok (JObj fields) w'
    /\ clean w' = true
    /\ within images w'
    /\ advances (List.length item_dir + 2) 1 w w'
    /\ settled (S (List.length item_dir)) (output w) (output w').
Proof.
  intros Hc Hw Hg Hrd Hri. destruct (clean_elim w Hc) as (Hp & Hk & Hr).
  set (dir := iteration_dir_of item_dir iteration) in *.
  assert (Hlen : List.length dir = S (List.length item_dir))
    by apply iteration_dir_length.
  unfold iteration_body. fold dir. rewrite bind_run, (os_makedirs_ok _ _ Hrd).
  set (w1 := emit _ (set_output _ w)).
  assert (S1 : settled (S (List.length item_dir)) (output w) (output w1)).
  { apply settled_makedirs. lia. }
  assert (D1 : at_path (output w1) dir = Some Dir).
  { unfold dir, iteration_dir_of. rewrite at_path_app.
    apply makedirs_isdir; [exact Hrd|]. unfold iteration_dir_of. now destruct item_dir. }
  cbv [bind py_get ret logging_info print act].
  assert (Ht : exists pp,
             (if truthy (s_lora s)
              then add_tag (dict_get_default fields (lit "Positive prompt") (JStr []))
                           (lora_tag s) (JObj fields)
              else fun w0 => Ok (dict_get_default fields (lit "Positive prompt")
                                                  (JStr []), JObj fields) w0) w1
             = Ok (pp, JObj fields) w1).
  { unfold good_prompt in Hg. destruct (truthy (s_lora s)); [|now eexists].
    cbn [negb orb] in Hg.
    destruct (dict_get_default fields (lit "Positive prompt") (JStr []));
      try discriminate. now eexists. }
  destruct Ht as (pp & Ht). rewrite Ht. cbn [fst snd].
  assert (Hi : idle w1 = true) by now apply idle_intro.
  rewrite (while_paused_idle w1 Hi).
  set (p := make_payload s pp _ seed num_images).
  set (w3 := emit (EvPrint _) _).
  assert (Hc3 : clean w3 = true) by now apply clean_intro.
  destruct (request_phase_clean (api_url_of s) p dir item_name iteration (JObj fields)
              images w3 Hc3)
    as (w' & E & Hc' & Hw' & (K & L & (evs & Ev & Pv) & R) & S3).
  { exact Hw. }
  { exact D1. }
  { change (output w3) with (output w1).
    rewrite (room_for_images_settled (output w) (output w1)); [exact Hri|].
    now rewrite Hlen. }
  exists w'. split; [exact E|]. split; [exact Hc'|]. split; [exact Hw'|].
  split; [split; [|split; [|split]]|].
  - intros q n Hq H. apply K.
    + rewrite Hlen. lia.
    + subst w3 w1. cbn. now apply makedirs_keeps.
  - unfold keeps_listener in *. rewrite L. reflexivity.
  - assert (E3 : exists evs3, events w3 = events w ++ evs3 /\ posts evs3 = []).
    { eexists. split; [|shelve]. subst w3 w1.
      cbn [events emit set_output set_pending_keys].
      rewrite <- !app_assoc. reflexivity. Unshelve. reflexivity. }
    destruct E3 as (evs3 & E3 & P3).
    exists (evs3 ++ evs). split.
    + now rewrite Ev, E3, app_assoc.
    + rewrite posts_app, P3. exact Pv.
  - rewrite R. reflexivity.
  - eapply settled_trans; [exact S1|]. rewrite Hlen in S3. exact S3.
Qed.

Lemma advances_refl (depth : nat) (w : world) : advances depth 0 w w.
Proof.
  split; [apply keeps_entries_refl|]. split; [reflexivity|]. split; [|reflexivity].
  exists []. now rewrite app_nil_r.
Qed.

Lemma advances_trans (depth n m : nat) (a b c : world) :
  advances depth n a b -> advances depth m b c -> advances depth (n + m) a c.
Proof.
  intros (K1 & L1 & (e1 & E1 & P1) & R1) (K2 & L2 & (e2 & E2 & P2) & R2).
  split; [eapply keeps_entries_trans; eassumption|].
  split; [eapply keeps_listener_trans; eassumption|]. split.
  - exists (e1 ++ e2). split; [now rewrite E2, E1, app_assoc|].
    now rewrite posts_app, length_app, P1, P2.
  - rewrite R2, R1, skipn_skipn. f_equal. lia.
Qed.

Lemma advances_print (depth : nat) (m : message) (w : world) :
  advances depth 0 w (emit (EvPrint m) w).
Proof.
  split; [intros p n _ H; exact H|]. split; [reflexivity|]. split; [|reflexivity].
  now exists [EvPrint m].
Qed.

Lemma room_for_iterations_settled (t t' : tree) (item_dir : path) (item_name : str)
    (l : list Z) (images : nat) :
  settled (S (List.length item_dir)) t t' ->
  room_for_iterations t' item_dir item_name l images
  = room_for_iterations t item_dir item_name l images.
Proof.
  intros H. unfold room_for_iterations. apply forallb_agree. intros i _.
  rewrite (room_for_dir_settled _ _ _ _ H) by (rewrite iteration_dir_length; lia).
  f_equal. apply room_for_images_settled. now rewrite iteration_dir_length.
Qed.

Lemma iterations_clean (s : settings) (item_dir : path) (item_name : str)
    (seed num_images : Z) (fields : dict jvalue) (images : nat) (l : list Z) :
  good_prompt s fields = true ->
  forall w,
    clean w = true ->
    within images w ->
    room_for_iterations (output w) item_dir item_name l images = true ->
    exists w',
      for_fold l (iteration_body s item_dir item_name seed num_images) (JObj fields) w
      = Ok (JObj fields) w'
      /\ clean w' = true
      /\ within images w'
      /\ advances (List.length item_dir + 2) (List.length l) w w'
      /\ settled (S (List.length item_dir)) (output w) (output w').
Proof.
  intros Hg. induction l as [|i l IH]; intros w Hc Hw Hroom.
  - exists w. split; [reflexivity|]. split; [exact Hc|]. split; [exact Hw|].
    split; [apply advances_refl|apply settled_refl].
  - cbn [room_for_iterations forallb] in Hroom.
    apply andb_true_iff in Hroom as [Hi Hl]. apply andb_true_iff in Hi as [Hd Hf].
    destruct (iteration_body_clean s item_dir item_name seed num_images i fields
                                   images w Hc Hw Hg Hd Hf)
      as (w1 & E1 & C1 & W1 & A1 & S1).
    destruct (IH w1 C1 W1) as (w' & E & C & W & A & S2).
    { fold (room_for_iterations (output w) item_dir item_name l images) in Hl.
      now rewrite (room_for_iterations_settled _ _ _ _ _ _ S1). }
    exists w'. split; [|split; [exact C|split; [exact W|split]]].
    + cbn [for_fold]. unfold bind. now rewrite E1.
    + apply (advances_trans _ 1 (List.length l) w w1 w' A1 A).
    + eapply settled_trans; eassumption.
Qed.

Lemma py_int_value (v : jvalue) (n : Z) (w : world) :
  int_value v = Some n -> py_int v w = Ok n w.
Proof.
  destruct v; cbn; try discriminate.
  - intros H. injection H as <-. reflexivity.
  - intros H. now injection H as <-.
  - intros H. now rewrite H.
Qed.

Lemma is_some_elim {A} (o : option A) : is_some o = true -> exists a, o = Some a.
Proof. destruct o as [a|]; [now exists a|discriminate]. Qed.

Lemma item_depth (base : path) (item_name : str) :
  List.length (base ++ [item_name]) + 2 = List.length base + 3.
Proof. rewrite length_app. simpl. lia. Qed.

(** An item with a good descriptor, in a clean world with room for its
    iterations ([main.py]): every iteration the descriptor asks for sends
    its request, and the item's processing returns. *)
Lemma process_item_clean (s : settings) (t : prompt_type) (base : path)
    (item_name : str) (images : nat) (w : world) :
  good_descriptor s (tree_lookup (output w) (prompt_path_of base item_name)) = true ->
  clean w = true ->
  within images w ->
  room_for_iterations (output w) (base ++ [item_name]) item_name
    (range_from_1 (planned_iterations (output w) base item_name)) images = true ->
  exists w',
    process_item s t base item_name w = Ok tt w'
    /\ clean w' = true
    /\ within images w'
    /\ advances (List.length base + 3)
                (planned_requests (output w) base [item_name]) w w'
    /\ settled (List.length base + 2) (output w) (output w').
Proof.
  intros Hg Hc Hw Hroom. unfold planned_requests. cbn [map]. unfold list_sum.
  cbn [fold_right]. rewrite Nat.add_0_r.
  unfold planned_iterations in *. unfold good_descriptor in Hg.
  destruct (tree_lookup (output w) (prompt_path_of base item_name))
    as [[|[[ |b0|n0|s0|items0|fields]| |]]|] eqn:Hl; try discriminate.
  apply andb_true_iff in Hg as [Hg Hgp]. apply andb_true_iff in Hg as [Hg Hsd].
  apply andb_true_iff in Hg as [Hni Hnit].
  apply is_some_elim in Hni as (k & Hk). apply is_some_elim in Hnit as (n & Hn).
  apply is_some_elim in Hsd as (sd & Hs). rewrite Hn in *.
  set (w1 := emit (EvPrint (MsgItemHeader t item_name s sd k n)) w).
  assert (C1 : clean w1 = true) by exact Hc.
  destruct (iterations_clean s (base ++ [item_name]) item_name sd k fields images
              (range_from_1 n) Hgp w1 C1 Hw Hroom) as (w' & E & C & W & A & S1).
  exists w'. split; [|split; [exact C|split; [exact W|split]]].
  - unfold process_item, bind, json_load. unfold prompt_path_of in Hl. rewrite Hl.
    cbn [py_get]. unfold ret.
    rewrite (py_int_value _ k w Hk), (py_int_value _ n w Hn), (py_int_value _ sd w Hs).
    unfold print, act. fold w1. unfold iterations, bind. now rewrite E.
  - rewrite length_range_from_1, item_depth in A.
    apply (advances_trans _ 0 (Z.to_nat n) w w1 w'); [apply advances_print|exact A].
  - rewrite item_dir_length in S1.
    replace (List.length base + 2) with (S (S (List.length base))) by lia. exact S1.
Qed.

Lemma prompt_path_depth (base : path) (item_name : str) :
  List.length (prompt_path_of base item_name) <> List.length base + 3.
Proof. unfold prompt_path_of. rewrite !length_app. simpl. lia. Qed.

Lemma lookup_kept (base : path) (item_name : str) (w w' : world) :
  keeps_entries (List.length base + 3) w w' ->
  tree_lookup (output w) (prompt_path_of base item_name) <> None ->
  tree_lookup (output w') (prompt_path_of base item_name)
  = tree_lookup (output w) (prompt_path_of base item_name).
Proof.
  intros K H.
  destruct (tree_lookup (output w) (prompt_path_of base item_name)) as [n|] eqn:E;
    [|contradiction].
  apply K; [apply prompt_path_depth|exact E].
Qed.

Lemma good_descriptor_present (s : settings) (n : option node) :
  good_descriptor s n = true -> n <> None.
Proof. destruct n; [discriminate|]. discriminate. Qed.

Lemma planned_requests_cons (t : tree) (base : path) (item_name : str)
    (items : list str) :
  planned_requests t base (item_name :: items)
  = planned_requests t base [item_name] + planned_requests t base items.
Proof. unfold planned_requests, list_sum. cbn [map fold_right]. lia. Qed.

Lemma item_room_settled (t t' : tree) (base : path) (item_name : str) (l : list Z)
    (images : nat) :
  settled (List.length base + 2) t t' ->
  room_for_iterations t' (base ++ [item_name]) item_name l images
  = room_for_iterations t (base ++ [item_name]) item_name l images.
Proof.
  intros H. apply room_for_iterations_settled. rewrite item_dir_length.
  replace (S (S (List.length base))) with (List.length base + 2) by lia. exact H.
Qed.

(** The loop over the items in a clean world ([main.py]): it returns, and
    every planned request has been sent. *)
Lemma items_clean (s : settings) (t : prompt_type) (base : path) (images : nat)
    (items : list str) :
  forall w,
    clean w = true ->
    within images w ->
    Forall (fun item_name =>
              good_descriptor s (tree_lookup (output w) (prompt_path_of base item_name))
              = true
              /\ room_for_iterations (output w) (base ++ [item_name]) item_name
                   (range_from_1 (planned_iterations (output w) base item_name))
                   images = true) items ->
    exists w',
      for_each items (process_item s t base) w = Ok tt w'
      /\ clean w' = true
      /\ advances (List.length base + 3) (planned_requests (output w) base items) w w'.
Proof.
  induction items as [|item_name items IH]; intros w Hc Hw Hg.
  - exists w. split; [reflexivity|]. split; [exact Hc|apply advances_refl].
  - inversion Hg as [|? ? [Hg1 Hr1] Hg2]; subst.
    destruct (process_item_clean s t base item_name images w Hg1 Hc Hw Hr1)
      as (w1 & E1 & C1 & W1 & A1 & S1).
    assert (K1 : keeps_entries (List.length base + 3) w w1) by apply A1.
    assert (Hsame : forall i, In i items ->
              tree_lookup (output w1) (prompt_path_of base i)
              = tree_lookup (output w) (prompt_path_of base i)).
    { intros i Hi. apply lookup_kept; [exact K1|].
      apply (good_descriptor_present s). rewrite Forall_forall in Hg2.
      now apply Hg2. }
    assert (Hplan : forall i, In i items ->
              planned_iterations (output w1) base i = planned_iterations (output w) base i).
    { intros i Hi. unfold planned_iterations. now rewrite (Hsame i Hi). }
    assert (Hg' : Forall (fun i =>
                good_descriptor s (tree_lookup (output w1) (prompt_path_of base i)) = true
                /\ room_for_iterations (output w1) (base ++ [i]) i
                     (range_from_1 (planned_iterations (output w1) base i)) images = true)
                         items).
    { apply Forall_forall. intros i Hi. rewrite (Hsame i Hi), (Hplan i Hi).
      rewrite (item_room_settled _ _ _ _ _ _ S1).
      rewrite Forall_forall in Hg2. now apply Hg2. }
    destruct (IH w1 C1 W1 Hg') as (w' & E & C & A).
    exists w'. split; [|split; [exact C|]].
    + cbn [for_each]. unfold bind. now rewrite E1.
    + rewrite planned_requests_cons.
      replace (planned_requests (output w) base items)
        with (planned_requests (output w1) base items).
      * eapply advances_trans; eassumption.
      * unfold planned_requests. f_equal. apply map_ext_in.
        intros i Hi. now rewrite (Hplan i Hi).
Qed.

(** [generate_images] of [main.py] in a clean world with room for what it
    writes returns, whatever requests fail. *)
Lemma generate_images_clean (s : settings) (t : prompt_type) (story_name : str)
    (w : world) :
  tree_lookup (output w) [story_name; type_dir t] = Some Dir ->
  good_items s (output w) [story_name; type_dir t] = true ->
  clean w = true ->
  room_for_generation w [story_name; type_dir t] = true ->
  exists w',
    generate_images s t story_name w = Ok tt w'
    /\ clean w' = true
    /\ advances 5 (planned_requests (output w) [story_name; type_dir t]
                     (entries (output w) [story_name; type_dir t])) w w'.
Proof.
  intros Hd Hg Hc Hroom. unfold generate_images, bind, os_listdir. rewrite Hd.
  apply (items_clean s t [story_name; type_dir t] (most_images (responses w)));
    [exact Hc|apply within_most|].
  apply Forall_forall. intros i Hi. unfold good_items in Hg.
  unfold room_for_generation in Hroom.
  rewrite forallb_forall in Hg, Hroom. split; [now apply Hg|now apply Hroom].
Qed.

Lemma v1_0_process_item_clean (s : settings) (t : prompt_type) (base : path)
    (num_images num_iterations : Z) (item_name : str) (images : nat) (w : world) :
  exists_path (output w) (prompt_path_of base item_name)
  && good_descriptor_v1_0 s (tree_lookup (output w) (prompt_path_of base item_name))
  = true ->
  clean w = true ->
  within images w ->
  room_for_iterations (output w) (base ++ [item_name]) item_name
    (range_from_1 num_iterations) images = true ->
  exists w',
    V1_0.process_item s t base num_images num_iterations item_name w = Ok tt w'
    /\ clean w' = true
    /\ within images w'
    /\ advances (List.length base + 3)
                (planned_requests_v1_0 (output w) base num_iterations [item_name]) w w'
    /\ settled (List.length base + 2) (output w) (output w').
Proof.
  intros Hg Hc Hw Hroom. apply andb_true_iff in Hg as [He Hg].
  unfold planned_requests_v1_0, list_sum. cbn [map fold_right].
  rewrite He, Nat.add_0_r.
  unfold exists_path in He. unfold good_descriptor_v1_0 in Hg.
  destruct (tree_lookup (output w) (prompt_path_of base item_name))
    as [[|[[ |b0|n0|s0|items0|fields]| |]]|] eqn:Hl; try discriminate.
  apply andb_true_iff in Hg as [Hsd Hgp].
  apply is_some_elim in Hsd as (sd & Hs).
  set (w1 := emit (EvPrint (MsgItemHeader t item_name s sd num_images num_iterations)) w).
  assert (C1 : clean w1 = true) by exact Hc.
  destruct (iterations_clean s (base ++ [item_name]) item_name sd num_images fields
              images (range_from_1 num_iterations) Hgp w1 C1 Hw Hroom)
    as (w' & E & C & W & A & S1).
  exists w'. split; [|split; [exact C|split; [exact W|split]]].
  - unfold V1_0.process_item, exists_path, bind, json_load.
    unfold prompt_path_of in Hl. rewrite Hl.
    cbn [negb py_get]. unfold ret. rewrite (py_int_value _ sd w Hs).
    unfold print, act. fold w1. unfold iterations, bind. now rewrite E.
  - rewrite length_range_from_1, item_depth in A.
    apply (advances_trans _ 0 (Z.to_nat num_iterations) w w1 w');
      [apply advances_print|exact A].
  - rewrite item_dir_length in S1.
    replace (List.length base + 2) with (S (S (List.length base))) by lia. exact S1.
Qed.

Lemma planned_requests_v1_0_cons (t : tree) (base : path) (n : Z) (item_name : str)
    (items : list str) :
  planned_requests_v1_0 t base n (item_name :: items)
  = planned_requests_v1_0 t base n [item_name] + planned_requests_v1_0 t base n items.
Proof. unfold planned_requests_v1_0, list_sum. cbn [map fold_right]. lia. Qed.

Lemma exists_path_present (t : tree) (p : path) :
  exists_path t p = true -> tree_lookup t p <> None.
Proof. unfold exists_path. now destruct (tree_lookup t p). Qed.

Lemma v1_0_items_clean (s : settings) (t : prompt_type) (base : path)
    (num_images num_iterations : Z) (images : nat) (items : list str) :
  forall w,
    clean w = true ->
    within images w ->
    Forall (fun item_name =>
              exists_path (output w) (prompt_path_of base item_name)
              && good_descriptor_v1_0 s
                   (tree_lookup (output w) (prompt_path_of base item_name))
              = true
              /\ room_for_iterations (output w) (base ++ [item_name]) item_name
                   (range_from_1 num_iterations) images = true) items ->
    exists w',
      for_each items (V1_0.process_item s t base num_images num_iterations) w
      = Ok tt w'
      /\ clean w' = true
      /\ advances (List.length base + 3)
                  (planned_requests_v1_0 (output w) base num_iterations items) w w'.
Proof.
  induction items as [|item_name items IH]; intros w Hc Hw Hg.
  - exists w. split; [reflexivity|]. split; [exact Hc|apply advances_refl].
  - inversion Hg as [|? ? [Hg1 Hr1] Hg2]; subst.
    destruct (v1_0_process_item_clean s t base num_images num_iterations item_name
                                      images w Hg1 Hc Hw Hr1)
      as (w1 & E1 & C1 & W1 & A1 & S1).
    assert (K1 : keeps_entries (List.length base + 3) w w1) by apply A1.
    assert (Hsame : forall i, In i items ->
              tree_lookup (output w1) (prompt_path_of base i)
              = tree_lookup (output w) (prompt_path_of base i)).
    { intros i Hi. apply lookup_kept; [exact K1|].
      apply exists_path_present. rewrite Forall_forall in Hg2.
      destruct (Hg2 i Hi) as [Hg2' _]. now apply andb_true_iff in Hg2' as [Hg2' _]. }
    assert (Hg' : Forall (fun i =>
                exists_path (output w1) (prompt_path_of base i)
                && good_descriptor_v1_0 s
                     (tree_lookup (output w1) (prompt_path_of base i)) = true
                /\ room_for_iterations (output w1) (base ++ [i]) i
                     (range_from_1 num_iterations) images = true) items).
    { apply Forall_forall. intros i Hi. unfold exists_path. rewrite (Hsame i Hi).
      rewrite (item_room_settled _ _ _ _ _ _ S1).
      rewrite Forall_forall in Hg2. now apply Hg2. }
    destruct (IH w1 C1 W1 Hg') as (w' & E & C & A).
    exists w'. split; [|split; [exact C|]].
    + cbn [for_each]. unfold bind. now rewrite E1.
    + rewrite planned_requests_v1_0_cons.
      replace (planned_requests_v1_0 (output w) base num_iterations items)
        with (planned_requests_v1_0 (output w1) base num_iterations items).
      * eapply advances_trans; eassumption.
      * unfold planned_requests_v1_0. f_equal. apply map_ext_in.
        intros i Hi. unfold exists_path. now rewrite (Hsame i Hi).
Qed.

Lemma v1_0_generate_images_clean (s : settings) (t : prompt_type) (story_name : str)
    (num_images num_iterations : Z) (output_dir : path) (w : world) :
  tree_lookup (output w) (output_dir ++ [story_name; type_dir t]) = Some Dir ->
  good_items_v1_0 s (output w) (output_dir ++ [story_name; type_dir t]) = true ->
  clean w = true ->
  room_for_generation_v1_0 w (output_dir ++ [story_name; type_dir t]) num_iterations
  = true ->
  exists w',
    V1_0.generate_images s t story_name num_images num_iterations output_dir w
    = Ok tt w'
    /\ clean w' = true
    /\ advances (List.length (output_dir ++ [story_name; type_dir t]) + 3)
                (planned_requests_v1_0 (output w) (output_dir ++ [story_name; type_dir t])
                   num_iterations
                   (entries (output w) (output_dir ++ [story_name; type_dir t]))) w w'.
Proof.
  intros Hd Hg Hc Hroom. unfold V1_0.generate_images, exists_path, bind, os_listdir.
  rewrite Hd. cbn [negb].
  apply (v1_0_items_clean s t (output_dir ++ [story_name; type_dir t]) num_images
                          num_iterations (most_images (responses w)));
    [exact Hc|apply within_most|].
  apply Forall_forall. intros i Hi. unfold good_items_v1_0 in Hg.
  unfold room_for_generation_v1_0 in Hroom.
  rewrite forallb_forall in Hg, Hroom. split; [now apply Hg|now apply Hroom].
Qed.




(** ** Descriptors that are missing or not JSON *)

Lemma for_each_raises {A} (f : A -> M unit) (pre : list A) (x : A) (post : list A)
    (w w1 w2 : world) (e : exn) :
  for_each pre f w = Ok tt w1 ->
  f x w1 = Raised e w2 ->
  for_each (pre ++ x :: post) f w = Raised e w2.
Proof.
  intros H1 H2. rewrite for_each_app. unfold bind at 1. rewrite H1.
  cbn [for_each]. unfold bind. now rewrite H2.
Qed.

Lemma for_each_skips {A} (f : A -> M unit) (x : A) (rest : list A) (w : world) :
  f x w = Ok tt w -> for_each (x :: rest) f w = for_each rest f w.
Proof. intros H. cbn [for_each]. unfold bind. now rewrite H. Qed.

Lemma json_load_not_json (p : path) (c : content) (w : world) :
  tree_lookup (output w) p = Some (File c) -> not_json c ->
  json_load p w = Raised (JSONDecodeError p) w.
Proof.
  intros H Hc. unfold json_load. rewrite H. destruct c; [contradiction| |]; reflexivity.
Qed.

(** C6, as amended: in [v1.0] an enumerated item without prompt.json is
    passed over and the loop goes on with the remaining items; a
    descriptor that is there but is not JSON is handled in neither
    version: the exception of [json.load] leaves the loop over the items,
    and with it [generate_images], the remaining items unprocessed. *)
Theorem missing_descriptor_skipped_malformed_raises :
  (forall s t base num_images num_iterations item_name rest w,
      exists_path (output w) (prompt_path_of base item_name) = false ->
      V1_0.process_item s t base num_images num_iterations item_name w = Ok tt w
      /\ for_each (item_name :: rest)
                  (V1_0.process_item s t base num_images num_iterations) w
         = for_each rest (V1_0.process_item s t base num_images num_iterations) w)
  /\ (forall s t base pre item_name rest w w1 c,
         for_each pre (process_item s t base) w = Ok tt w1 ->
         tree_lookup (output w1) (prompt_path_of base item_name) = Some (File c) ->
         not_json c ->
         for_each (pre ++ item_name :: rest) (process_item s t base) w
         = Raised (JSONDecodeError (prompt_path_of base item_name)) w1)
  /\ (forall s t base num_images num_iterations pre item_name rest w w1 c,
         for_each pre (V1_0.process_item s t base num_images num_iterations) w
         = Ok tt w1 ->
         tree_lookup (output w1) (prompt_path_of base item_name) = Some (File c) ->
         not_json c ->
         for_each (pre ++ item_name :: rest)
                  (V1_0.process_item s t base num_images num_iterations) w
         = Raised (JSONDecodeError (prompt_path_of base item_name)) w1).
Proof.
  split; [|split].
  - intros s t base ni nit item_name rest w H.
    assert (E : V1_0.process_item s t base ni nit item_name w = Ok tt w).
    { unfold V1_0.process_item. unfold prompt_path_of in H. now rewrite H. }
    split; [exact E|]. now apply for_each_skips.
  - intros s t base pre item_name rest w w1 c H1 Hl Hc.
    apply (for_each_raises _ pre item_name rest w w1 w1 _ H1).
    unfold process_item, bind. unfold prompt_path_of in Hl.
    now rewrite (json_load_not_json _ c w1 Hl Hc).
  - intros s t base ni nit pre item_name rest w w1 c H1 Hl Hc.
    apply (for_each_raises _ pre item_name rest w w1 w1 _ H1).
    unfold V1_0.process_item, exists_path, bind. unfold prompt_path_of in Hl.
    rewrite Hl. cbn [negb]. now rewrite (json_load_not_json _ c w1 Hl Hc).
Qed.

Lemma missing_descriptor_skipped_malformed_raises_witness :
  V1_0.process_item example_settings character (V1_0.output_dir ++ characters_dir)
                    1 1 item_A world_A_missing_v1_0
  = Ok tt world_A_missing_v1_0
  /\ tree_lookup
       (output (final (V1_0.generate_images example_settings character story 1 1
                                            V1_0.output_dir world_A_missing_v1_0)))
       (image_path (V1_0.output_dir ++ characters_dir) item_B 1 1)
     = Some (File (Bytes (lit "hi")))
  /\ for_each ([] ++ item_A :: [item_B])
              (process_item example_settings character characters_dir)
              world_A_malformed
     = Raised (JSONDecodeError (prompt_path_of characters_dir item_A)) world_A_malformed.
Proof.
  destruct missing_descriptor_skipped_malformed_raises as (Hskip & Hmain & _).
  split; [|split].
  - apply (Hskip example_settings character (V1_0.output_dir ++ characters_dir)
                 1%Z 1%Z item_A [item_B] world_A_missing_v1_0).
    vm_compute. reflexivity.
  - vm_compute. reflexivity.
  - apply (Hmain example_settings character characters_dir [] item_A [item_B]
                 world_A_malformed world_A_malformed Malformed eq_refl);
      [vm_compute; reflexivity|exact I].
Defined.

(** C6 as stated fails: with A's prompt.json not JSON, [generate_images]
    of [v1.0] (and of [main.py]) ends in the exception, and nothing is
    requested for B. *)
Lemma malformed_descriptor_aborts_batch :
  V1_0.generate_images example_settings character story 1 1 V1_0.output_dir
                       world_A_malformed_v1_0
  = Raised (JSONDecodeError (prompt_path_of (V1_0.output_dir ++ characters_dir) item_A))
           world_A_malformed_v1_0
  /\ generate_images example_settings character story world_A_malformed
     = Raised (JSONDecodeError (prompt_path_of characters_dir item_A))
              world_A_malformed.
Proof. split; vm_compute; reflexivity. Qed.

(** ** The frame of [generate_images] *)

Section GenerationFrame.
Variable P : event -> Prop.
Hypothesis P_loop : forall e, loop_event e -> P e.

Lemma P_loop_wait (e : event) : wait_event e -> P e.
Proof.
  intros H. apply P_loop.
  destruct e; cbn in *; try contradiction; try exact I; exact H.
Qed.

Lemma iterations_frame (s : settings) (item_dir : path) (item_name : str)
    (seed num_images num_iterations : Z) (data : jvalue) :
  respects (frame P (List.length item_dir + 2))
           (iterations s item_dir item_name seed num_images num_iterations data).
Proof.
  unfold iterations, iteration_body.
  frame_program P (List.length item_dir + 2);
    try (apply P_loop; exact I); try (exact P_loop_wait).
  unfold iteration_dir_of. rewrite !length_app. simpl. lia.
Qed.

Ltac finish_frame P_loop P_loop_wait :=
  try (apply P_loop; exact I); try (exact P_loop_wait);
  try (unfold iteration_dir_of; rewrite !length_app; simpl; lia).

Lemma process_item_frame (s : settings) (t : prompt_type) (base : path)
    (item_name : str) :
  respects (frame P (List.length base + 3)) (process_item s t base item_name).
Proof.
  unfold process_item.
  frame_program P (List.length base + 3); finish_frame P_loop P_loop_wait.
Qed.

Lemma generate_images_frame (s : settings) (t : prompt_type) (story_name : str) :
  respects (frame P 5) (generate_images s t story_name).
Proof.
  unfold generate_images.
  apply (respects_bind (frame P 5) (frame_trans P 5));
    [apply (respects_pure (frame P 5) (frame_refl P 5)), pure_os_listdir|intros items].
  apply (respects_for_each (frame P 5) (frame_refl P 5) (frame_trans P 5)).
  intros item_name. apply (process_item_frame s t [story_name; type_dir t]).
Qed.

Lemma v1_0_process_item_frame (s : settings) (t : prompt_type) (base : path)
    (num_images num_iterations : Z) (item_name : str) :
  respects (frame P (List.length base + 3))
           (V1_0.process_item s t base num_images num_iterations item_name).
Proof.
  unfold V1_0.process_item.
  apply respects_guard; [apply respects_ret, frame_refl|].
  frame_program P (List.length base + 3); finish_frame P_loop P_loop_wait.
Qed.

Lemma v1_0_generate_images_frame (s : settings) (t : prompt_type) (story_name : str)
    (num_images num_iterations : Z) (output_dir : path) :
  respects (frame P (List.length output_dir + 5))
           (V1_0.generate_images s t story_name num_images num_iterations output_dir).
Proof.
  unfold V1_0.generate_images.
  apply respects_guard; [apply frame_print, P_loop; exact I|].
  set (d := List.length output_dir + 5).
  apply (respects_bind (frame P d) (frame_trans P d));
    [apply (respects_pure (frame P d) (frame_refl P d)), pure_os_listdir|intros items].
  apply (respects_for_each (frame P d) (frame_refl P d) (frame_trans P d)).
  intros item_name. subst d.
  replace (List.length output_dir + 5)
    with (List.length (output_dir ++ [story_name; type_dir t]) + 3)
    by (rewrite length_app; simpl; lia).
  apply v1_0_process_item_frame.
Qed.
End GenerationFrame.

(** ** The listener around the batch *)

Lemma light_refl (P : event -> Prop) (w : world) : light P w w.
Proof. split; [apply extends_by_refl|reflexivity]. Qed.

Lemma light_trans (P : event -> Prop) (a b c : world) :
  light P a b -> light P b c -> light P a c.
Proof.
  intros [E1 L1] [E2 L2]. split.
  - eapply extends_by_trans; eassumption.
  - eapply keeps_listener_trans; eassumption.
Qed.

Lemma frame_light {A} (P : event -> Prop) (d : nat) (m : M A) :
  respects (frame P d) m -> respects (light P) m.
Proof. intros H w. destruct (H w) as (E & _ & L). now split. Qed.

Lemma light_weaken {A} (P Q : event -> Prop) (m : M A) :
  (forall e, P e -> Q e) -> respects (light P) m -> respects (light Q) m.
Proof.
  intros H Hm w. destruct (Hm w) as [E L]. split; [|exact L].
  eapply extends_by_weaken; eassumption.
Qed.

Lemma loop_event_not_listener (e : event) : loop_event e -> not_listener_event e.
Proof. destruct e; cbn; auto. Qed.

Lemma setup_event_not_listener (root : path) (story : str) (e : event) :
  setup_event root story e -> not_listener_event e.
Proof. destruct e; cbn; auto. Qed.

Lemma wait_event_not_listener (e : event) : wait_event e -> not_listener_event e.
Proof. destruct e; cbn; auto. Qed.

Lemma stops_listener_bind {A} (l : listener) (m : M A) (k : A -> M unit) :
  respects (light not_listener_event) m ->
  (forall a, stops_listener l (k a)) ->
  stops_listener l (bind m k).
Proof.
  intros Hm Hk w Hl. unfold bind.
  destruct (Hm w) as [(e1 & E1 & F1) L1]. unfold keeps_listener in L1.
  destruct (m w) as [a w1|e w1|w1]; cbn [final is_ok] in *.
  - rewrite Hl in L1. destruct (Hk a w1 L1) as (e2 & E2 & H2).
    exists (e1 ++ e2). split; [now rewrite E2, E1, app_assoc|].
    destruct (is_ok (k a w1)).
    + destruct H2 as (Hn & before & after & Eb & Fb & Fa).
      split; [exact Hn|]. exists (e1 ++ before), after.
      split; [now rewrite Eb, app_assoc|]. split; [|exact Fa].
      apply Forall_app. now split.
    + destruct H2 as (Hs & F2). split; [exact Hs|]. apply Forall_app. now split.
  - exists e1. split; [exact E1|]. split; [congruence|exact F1].
  - exists e1. split; [exact E1|]. split; [congruence|exact F1].
Qed.

Lemma sync_light (w : world) : light wait_event w (sync w).
Proof.
  unfold sync. destruct (pending_keys w) as [|ks rest]; [apply light_refl|].
  assert (F : frame wait_event 0 w (deliver ks (set_pending_keys rest w))).
  { eapply frame_trans; [apply frame_set_pending_keys|].
    apply frame_deliver. auto. }
  destruct F as (E & _ & L). now split.
Qed.

Lemma stops_listener_stop (l : listener) (m : message) :
  stops_listener l (stop_keyboard_listener ;;; print m).
Proof.
  intros w Hl. unfold bind, stop_keyboard_listener, print, act. rewrite Hl.
  cbn [final is_ok]. destruct (sync_light w) as [(e1 & E1 & F1) L1].
  exists (e1 ++ [EvListenerStop; EvPrint m]). split.
  - cbn [events emit set_keyboard_listener]. rewrite E1. now rewrite <- !app_assoc.
  - split; [reflexivity|]. exists e1, [EvPrint m]. split; [reflexivity|].
    split; [|repeat constructor].
    eapply Forall_impl; [apply wait_event_not_listener|exact F1].
Qed.

Lemma starts_listener_bind {A} (setup : event -> Prop) (l : listener) (m : M A)
    (k : A -> M unit) :
  respects (light setup) m ->
  (forall a, starts_listener setup l (k a)) ->
  starts_listener setup l (bind m k).
Proof.
  intros Hm Hk w. unfold bind.
  destruct (Hm w) as [(e1 & E1 & F1) L1]. unfold keeps_listener in L1.
  destruct (m w) as [a w1|e w1|w1]; cbn [final is_ok] in *.
  - destruct (Hk a w1) as (before & rest & E2 & Fb & H2).
    exists (e1 ++ before), rest. split; [now rewrite E2, E1, <- !app_assoc|].
    split; [apply Forall_app; now split|].
    destruct H2 as [(Hr & Ho & Hkl)|H2]; [left|right; exact H2].
    split; [exact Hr|]. split; [exact Ho|]. congruence.
  - exists e1, []. rewrite app_nil_r. split; [exact E1|]. split; [exact F1|].
    left. now repeat split.
  - exists e1, []. rewrite app_nil_r. split; [exact E1|]. split; [exact F1|].
    left. now repeat split.
Qed.

Lemma starts_listener_start (setup : event -> Prop) (l : listener) (k : M unit) :
  stops_listener l k ->
  starts_listener setup l
    (act (fun w => emit EvListenerStart (set_keyboard_listener (Some l) w)) ;;; k).
Proof.
  intros Hk w. unfold bind, act.
  set (w1 := emit EvListenerStart (set_keyboard_listener (Some l) w)).
  destruct (Hk w1 eq_refl) as (evs & E & H).
  exists [], (EvListenerStart :: evs). split.
  - rewrite E. subst w1. cbn [events emit set_keyboard_listener app].
    now rewrite <- app_assoc.
  - split; [constructor|]. right. exists evs. split; [reflexivity|exact H].
Qed.

Lemma print_light (P : event -> Prop) (m : message) :
  P (EvPrint m) -> respects (light P) (print m).
Proof. intros H. apply (frame_light P 0). now apply frame_print. Qed.

Lemma create_prompts_light (P : event -> Prop) (t : prompt_type) :
  respects (light P) (create_prompts t).
Proof.
  apply (frame_light P 0). unfold create_prompts. frame_program P 0.
Qed.

Lemma v1_0_create_prompts_light (P : event -> Prop) (t : prompt_type) (folder : path) :
  respects (light P) (V1_0.create_prompts t folder).
Proof.
  apply (frame_light P 0). unfold V1_0.create_prompts. frame_program P 0.
Qed.

Lemma materialize_loop_light (root : path) (story : str) (t : prompt_type)
    (ni nit : jvalue) (seed : Z) (prompts : list (dict str)) :
  respects (light (setup_event root story))
           (os_makedirs (root ++ [story; type_dir t]) ;;;
            for_fold prompts (materialize (root ++ [story; type_dir t]) ni nit seed) []).
Proof.
  apply (frame_light _ (List.length (root ++ [story; type_dir t]) + 2)).
  unfold materialize.
  frame_program (setup_event root story)
                (List.length (root ++ [story; type_dir t]) + 2).
  - exists t. now left.
  - exists t. right. eexists. now rewrite <- app_assoc.
  - exists t. eexists _, _. split; [|reflexivity]. now rewrite <- !app_assoc.
  - rewrite !length_app. simpl. lia.
Qed.

Lemma input_enter_light (root : path) (story : str) :
  respects (light (setup_event root story)) input_enter.
Proof.
  intros w. split; [|reflexivity].
  exists [EvInput]. split; [reflexivity|]. repeat constructor.
Qed.

Lemma generate_images_light (s : settings) (t : prompt_type) (story_name : str) :
  respects (light not_listener_event) (generate_images s t story_name).
Proof.
  apply (frame_light _ 5), generate_images_frame. apply loop_event_not_listener.
Qed.

Lemma v1_0_generate_images_light (s : settings) (t : prompt_type) (story_name : str)
    (num_images num_iterations : Z) (output_dir : path) :
  respects (light not_listener_event)
           (V1_0.generate_images s t story_name num_images num_iterations output_dir).
Proof.
  apply (frame_light _ (List.length output_dir + 5)), v1_0_generate_images_frame.
  apply loop_event_not_listener.
Qed.



(** The run of C7's failing input: the first response of the batch holds
    an image that is not base64; the exception is not caught, the first
    image of the response stays written, and B is never asked for. *)
Lemma malformed_image_aborts_run :
  (exists w', generate_images example_settings character story world_bad_image
              = Raised BinasciiError w')
  /\ tree_lookup
       (output (final (generate_images example_settings character story
                                       world_bad_image)))
       (image_path characters_dir item_A 1 1)
     = Some (File (Bytes (lit "hi")))
  /\ List.length
       (posts (events (final (generate_images example_settings character story
                                              world_bad_image)))) = 1
  /\ (exists w', main example_settings story world_main_bad_image
                 = Raised BinasciiError w').
Proof.
  split; [eexists; vm_compute; reflexivity|].
  split; [vm_compute; reflexivity|].
  split; [vm_compute; reflexivity|].
  eexists; vm_compute; reflexivity.
Qed.

(** ** The pause flag *)

Lemma polls_spaced_app_prints (a b : list event) :
  Forall (fun e => match e with EvPrint _ => True | _ => False end) a ->
  polls_spaced (a ++ b) = polls_spaced b.
Proof.
  induction 1 as [|e a He _ IH]; [reflexivity|].
  destruct e; try contradiction. exact IH.
Qed.

Lemma deliver_prints (ks : list key) (w : world) :
  exists evs,
    events (deliver ks w) = events w ++ evs
    /\ Forall (fun e => match e with EvPrint _ => True | _ => False end) evs.
Proof.
  unfold deliver. destruct (keyboard_listener w) as [l|].
  - revert w. induction ks as [|k ks IH]; intros w; cbn [fold_left].
    + exists []. now rewrite app_nil_r.
    + destruct (IH (on_press_reacting_to (pause_key l) k w)) as (evs & E & F).
      unfold on_press_reacting_to in *. destruct (key_eqb k (pause_key l)).
      * eexists (_ :: evs). split.
        -- rewrite E. cbn [events emit set_paused]. now rewrite <- app_assoc.
        -- constructor; [exact I|exact F].
      * now exists evs.
  - exists []. now rewrite app_nil_r.
Qed.

(** The wait at the flag: it only looks at the flag, sleeps half a second
    after each look that reads it true, and echoes key presses; it never
    raises; when it returns the flag reads false, and when it goes on for
    ever the flag is set. *)
Lemma poll_paused_spec (sched : list (list key)) :
  forall w,
    extends_by wait_event w (final (poll_paused sched w))
    /\ polls_spaced (new_events w (final (poll_paused sched w))) = true
    /\ match poll_paused sched w with
       | Ok _ w' =>
           paused w' = false
           /\ exists evs, events w' = events w ++ evs ++ [EvCheckPaused false]
       | Raised _ _ => False
       | Hangs w' => paused w' = true
       end.
Proof.
  induction sched as [|ks sched IH]; intros w.
  - split; [apply (frame_poll_paused wait_event 0); auto|].
    cbn [poll_paused]. destruct (paused (set_pending_keys [] w)) eqn:Hp; cbn [final].
    + split; [|exact Hp].
      now rewrite (new_events_app w _ [EvCheckPaused true]).
    + split; [now rewrite (new_events_app w _ [EvCheckPaused false])|].
      split; [exact Hp|]. now exists [].
  - split; [apply (frame_poll_paused wait_event 0); auto|].
    cbn [poll_paused].
    destruct (deliver_prints ks (set_pending_keys sched w)) as (d & Ed & Fd).
    cbn [events set_pending_keys] in Ed.
    destruct (paused (deliver ks (set_pending_keys sched w))) eqn:Hp.
    + set (w2 := emit (EvSleep 500) (emit (EvCheckPaused true) _)).
      destruct (IH w2) as ((evs & E & F) & S & O).
      assert (E2 : events w2 = events w ++ d ++ [EvCheckPaused true; EvSleep 500]).
      { subst w2. cbn [events emit]. rewrite Ed. now rewrite <- !app_assoc. }
      split.
      * rewrite (new_events_app w _ (d ++ [EvCheckPaused true; EvSleep 500] ++ evs)).
        -- rewrite polls_spaced_app_prints by exact Fd. cbn [app polls_spaced].
           now rewrite (new_events_app w2 _ evs E) in S.
        -- rewrite E, E2. now rewrite <- !app_assoc.
      * destruct (poll_paused sched w2) as [[] w3|e w3|w3]; cbn [final] in *.
        -- destruct O as (Hp3 & evs3 & E3). split; [exact Hp3|].
           exists (d ++ [EvCheckPaused true; EvSleep 500] ++ evs3).
           rewrite E3, E2. now rewrite <- !app_assoc.
        -- exact O.
        -- exact O.
    + cbn [final]. split.
      * rewrite (new_events_app w _ (d ++ [EvCheckPaused false])).
        -- now rewrite polls_spaced_app_prints by exact Fd.
        -- cbn [events emit]. rewrite Ed. now rewrite <- app_assoc.
      * split; [exact Hp|]. exists d. cbn [events emit]. rewrite Ed.
        now rewrite <- app_assoc.
Qed.

(** Two presses of the pause key in a row leave the flag, and everything
    but the console, as they were. *)
Lemma on_press_twice (pk k : key) (w : world) :
  paused (on_press_reacting_to pk k (on_press_reacting_to pk k w)) = paused w
  /\ output (on_press_reacting_to pk k (on_press_reacting_to pk k w)) = output w
  /\ responses (on_press_reacting_to pk k (on_press_reacting_to pk k w)) = responses w
  /\ pending_keys (on_press_reacting_to pk k (on_press_reacting_to pk k w))
     = pending_keys w
  /\ keyboard_listener (on_press_reacting_to pk k (on_press_reacting_to pk k w))
     = keyboard_listener w.
Proof.
  unfold on_press_reacting_to. destruct (key_eqb k pk); cbn.
  - now rewrite negb_involutive.
  - now repeat split.
Qed.

Lemma paused_fold_on_press (pk : key) (ks : list key) :
  forall w1 w2,
    paused w1 = paused w2 ->
    paused (fold_left (fun w' k => on_press_reacting_to pk k w') ks w1)
    = paused (fold_left (fun w' k => on_press_reacting_to pk k w') ks w2).
Proof.
  induction ks as [|k ks IH]; intros w1 w2 H; [exact H|].
  cbn [fold_left]. apply IH. unfold on_press_reacting_to.
  destruct (key_eqb k pk); cbn; [now rewrite H|exact H].
Qed.

(** Delivered to the loop, two presses in a row change nothing of what the
    next look at the flag reads. *)
Lemma deliver_twice (k : key) (ks : list key) (w : world) :
  paused (deliver (k :: k :: ks) w) = paused (deliver ks w).
Proof.
  unfold deliver. destruct (keyboard_listener w) as [l|]; [|reflexivity].
  cbn [fold_left]. apply paused_fold_on_press. apply on_press_twice.
Qed.

(** ** Requests are sent only after a passed wait-check *)

Lemma requests_guarded_mono (evs : list event) :
  requests_guarded false evs = true -> requests_guarded true evs = true.
Proof.
  induction evs as [|e evs IH]; [reflexivity|].
  destruct e; cbn [requests_guarded andb]; auto. discriminate.
Qed.

Lemma requests_guarded_app (a b : list event) :
  forall x,
    requests_guarded x a = true -> requests_guarded false b = true ->
    requests_guarded x (a ++ b) = true.
Proof.
  induction a as [|e a IH]; intros x Ha Hb.
  - destruct x; [now apply requests_guarded_mono|exact Hb].
  - destruct e; cbn [app requests_guarded] in *; try (now apply IH).
    apply andb_true_iff in Ha as [Hx Ha]. rewrite Hx. now apply IH.
Qed.

Lemma requests_guarded_no_post (evs : list event) :
  Forall not_post evs -> forall x, requests_guarded x evs = true.
Proof.
  induction 1 as [|e evs He _ IH]; intros x; [reflexivity|].
  destruct e; cbn [requests_guarded]; try apply IH. discriminate He.
Qed.

Lemma requests_guarded_after_check (a b : list event) :
  Forall not_post a ->
  forall x,
    requests_guarded x (a ++ EvCheckPaused false :: b) = requests_guarded true b.
Proof.
  induction 1 as [|e a He _ IH]; intros x; [reflexivity|].
  destruct e; cbn [app requests_guarded]; try apply IH. discriminate He.
Qed.

Lemma guarded_refl (w : world) : guarded w w.
Proof. exists []. now rewrite app_nil_r. Qed.

Lemma guarded_trans (a b c : world) : guarded a b -> guarded b c -> guarded a c.
Proof.
  intros (e1 & E1 & G1) (e2 & E2 & G2). exists (e1 ++ e2). split.
  - now rewrite E2, E1, app_assoc.
  - now apply requests_guarded_app.
Qed.

Lemma no_post_guarded (w w' : world) : extends_by not_post w w' -> guarded w w'.
Proof.
  intros (evs & E & F). exists evs. split; [exact E|].
  now apply requests_guarded_no_post.
Qed.

Lemma frame_guarded {A} (d : nat) (m : M A) :
  respects (frame not_post d) m -> respects guarded m.
Proof. intros H w. apply no_post_guarded. apply (H w). Qed.

Lemma try_request_bind_ok {A B} (m : M A) (k : A -> M B) (h : request_error -> M B)
    (w w1 : world) (a : A) :
  m w = Ok a w1 -> try_request (bind m k) h w = try_request (k a) h w1.
Proof. intros H. unfold try_request, bind. now rewrite H. Qed.

Lemma try_request_bind_failed {A B} (m : M A) (k : A -> M B)
    (h : request_error -> M B) (w w1 : world) (e : request_error) :
  m w = Raised (RequestException e) w1 -> try_request (bind m k) h w = h e w1.
Proof. intros H. unfold try_request, bind. now rewrite H. Qed.

(** The try block: the request comes first, and no other request follows
    it. *)
Lemma try_block_events (url : str) (p : payload) (dir : path) (item_name : str)
    (iteration : Z) (w : world) :
  exists T,
    events (final (try_request (request_and_save url p dir item_name iteration)
                               (on_request_error item_name iteration) w))
    = events w ++ EvPost url p :: T
    /\ Forall not_post T.
Proof.
  unfold request_and_save.
  assert (Hh : forall e, respects (frame not_post 0)
                                  (on_request_error item_name iteration e)).
  { intros e. unfold on_request_error. frame_program not_post 0; reflexivity. }
  destruct (responses w) as [|[reason|status b] rest] eqn:Er.
  - rewrite (try_request_bind_failed _ _ _ w (emit (EvPost url p) w)
                                     (ConnectionError [])).
    + destruct (Hh (ConnectionError []) (emit (EvPost url p) w)) as ((T & E & F) & _).
      exists T. split; [|exact F]. rewrite E. cbn [events emit].
      now rewrite <- app_assoc.
    + unfold requests_post. cbn [responses emit]. now rewrite Er.
  - rewrite (try_request_bind_failed _ _ _ w
               (set_responses rest (emit (EvPost url p) w)) (ConnectionError reason)).
    + destruct (Hh (ConnectionError reason)
                   (set_responses rest (emit (EvPost url p) w))) as ((T & E & F) & _).
      exists T. split; [|exact F]. rewrite E. cbn [events emit set_responses].
      now rewrite <- app_assoc.
    + unfold requests_post. cbn [responses emit]. now rewrite Er.
  - rewrite (try_request_bind_ok _ _ _ w
               (set_responses rest (emit (EvPost url p) w)) (status, b)).
    + match goal with
      | |- context [try_request ?m ?h ?w1] =>
          assert (F : respects (frame not_post (S (List.length dir)))
                               (try_request m h))
      end.
      { apply (respects_try_request _ (frame_trans _ _)).
        - frame_program not_post (S (List.length dir)); try reflexivity.
          rewrite length_app. simpl. lia.
        - intros e. unfold on_request_error.
          frame_program not_post (S (List.length dir)); reflexivity. }
      destruct (F (set_responses rest (emit (EvPost url p) w))) as ((T & E & FT) & _).
      exists T. split; [|exact FT]. rewrite E. cbn [events emit set_responses].
      now rewrite <- app_assoc.
    + unfold requests_post. cbn [responses emit]. now rewrite Er.
Qed.

(** From the first wait-check of an iteration on. *)
Lemma request_segment_guarded (url : str) (p : payload) (dir : path) (item_name : str)
    (iteration : Z) (l1 l2 pr : message) (data : jvalue) (w : world) :
  guarded w
    (final ((while_paused ;;;
             logging_info l1 ;;;
             logging_info l2 ;;;
             print pr ;;;
             continued <- try_request (request_and_save url p dir item_name iteration)
                                      (on_request_error item_name iteration) ;;
             if continued : bool then ret data else while_paused ;;; ret data) w)).
Proof.
  unfold bind at 1. unfold while_paused at 1.
  destruct (poll_paused_spec (pending_keys w) w) as ((W1 & E1 & F1) & _ & O).
  assert (N1 : Forall not_post W1).
  { eapply Forall_impl; [|exact F1]. intros e He. destruct e; try reflexivity.
    contradiction. }
  destruct (poll_paused (pending_keys w) w) as [[] w2|e w2|w2]; cbn [final] in *.
  - destruct O as (_ & W1' & E2).
    assert (EW : W1 = W1' ++ [EvCheckPaused false]).
    { rewrite E2 in E1. now apply app_inv_head in E1. }
    assert (N1' : Forall not_post W1').
    { rewrite EW in N1. now apply Forall_app in N1 as [N1 _]. }
    cbv [bind logging_info print act].
    set (w3 := emit (EvPrint pr) _).
    destruct (try_block_events url p dir item_name iteration w3) as (T & ET & FT).
    assert (E3 : events w3
                 = events w ++ W1' ++ [EvCheckPaused false; EvLog INFO l1;
                                       EvLog INFO l2; EvPrint pr]).
    { subst w3. cbn [events emit]. rewrite E2. now rewrite <- !app_assoc. }
    destruct (try_request _ _ w3) as [c w4|e w4|w4]; cbn [final] in *.
    + destruct c.
      * unfold ret. cbn [final].
        exists (W1' ++ EvCheckPaused false
                    :: [EvLog INFO l1; EvLog INFO l2; EvPrint pr; EvPost url p] ++ T).
        split; [rewrite ET, E3; now rewrite <- !app_assoc|].
        rewrite requests_guarded_after_check by exact N1'.
        cbn [app requests_guarded andb]. now apply requests_guarded_no_post.
      * destruct (poll_paused_spec (pending_keys w4) w4) as ((W2 & E4 & F2) & _ & _).
        assert (N2 : Forall not_post W2).
        { eapply Forall_impl; [|exact F2]. intros e He. destruct e; try reflexivity.
          contradiction. }
        assert (EF : events (final (match while_paused w4 with
                                    | Ok _ w' => ret data w'
                                    | Raised e w' => Raised e w'
                                    | Hangs w' => Hangs w'
                                    end)) = events w4 ++ W2).
        { unfold while_paused. now destruct (poll_paused (pending_keys w4) w4). }
        exists (W1' ++ EvCheckPaused false
                    :: [EvLog INFO l1; EvLog INFO l2; EvPrint pr; EvPost url p]
                    ++ T ++ W2).
        split; [rewrite EF, ET, E3; now rewrite <- !app_assoc|].
        rewrite requests_guarded_after_check by exact N1'.
        cbn [app requests_guarded andb]. apply requests_guarded_no_post.
        apply Forall_app. now split.
    + exists (W1' ++ EvCheckPaused false
                  :: [EvLog INFO l1; EvLog INFO l2; EvPrint pr; EvPost url p] ++ T).
      split; [rewrite ET, E3; now rewrite <- !app_assoc|].
      rewrite requests_guarded_after_check by exact N1'.
      cbn [app requests_guarded andb]. now apply requests_guarded_no_post.
    + exists (W1' ++ EvCheckPaused false
                  :: [EvLog INFO l1; EvLog INFO l2; EvPrint pr; EvPost url p] ++ T).
      split; [rewrite ET, E3; now rewrite <- !app_assoc|].
      rewrite requests_guarded_after_check by exact N1'.
      cbn [app requests_guarded andb]. now apply requests_guarded_no_post.
  - contradiction.
  - exists W1. split; [exact E1|]. now apply requests_guarded_no_post.
Qed.

Lemma iteration_body_guarded (s : settings) (item_dir : path) (item_name : str)
    (seed num_images iteration : Z) (data : jvalue) :
  respects guarded (iteration_body s item_dir item_name seed num_images iteration data).
Proof.
  unfold iteration_body.
  apply (respects_bind _ guarded_trans);
    [apply (frame_guarded 0); frame_program not_post 0; reflexivity|intros _].
  apply (respects_bind _ guarded_trans);
    [apply (frame_guarded 0); frame_program not_post 0|intros pp].
  apply (respects_bind _ guarded_trans);
    [apply (frame_guarded 0); frame_program not_post 0|intros np].
  apply (respects_bind _ guarded_trans);
    [apply (frame_guarded 0); frame_program not_post 0|intros tagged].
  intros w. apply request_segment_guarded.
Qed.

(** Every run of [generate_images] keeps to the guard, in both versions. *)
Lemma process_item_guarded (s : settings) (t : prompt_type) (base : path)
    (item_name : str) :
  respects guarded (process_item s t base item_name).
Proof.
  unfold process_item, iterations.
  repeat first
    [ apply iteration_body_guarded
    | apply (respects_for_fold _ guarded_refl guarded_trans); intros
    | apply (respects_bind _ guarded_trans); [|intro]
    | apply (respects_ret _ guarded_refl)
    | apply (frame_guarded 0); frame_program not_post 0; reflexivity ].
Qed.

Lemma generate_images_guarded (s : settings) (t : prompt_type) (story_name : str) :
  respects guarded (generate_images s t story_name).
Proof.
  unfold generate_images.
  apply (respects_bind _ guarded_trans);
    [apply (frame_guarded 0); frame_program not_post 0|intros items].
  apply (respects_for_each _ guarded_refl guarded_trans).
  intros item_name. apply process_item_guarded.
Qed.

Lemma v1_0_process_item_guarded (s : settings) (t : prompt_type) (base : path)
    (num_images num_iterations : Z) (item_name : str) :
  respects guarded (V1_0.process_item s t base num_images num_iterations item_name).
Proof.
  unfold V1_0.process_item, iterations.
  apply respects_guard; [apply (respects_ret _ guarded_refl)|].
  repeat first
    [ apply iteration_body_guarded
    | apply (respects_for_fold _ guarded_refl guarded_trans); intros
    | apply (respects_bind _ guarded_trans); [|intro]
    | apply (respects_ret _ guarded_refl)
    | apply (frame_guarded 0); frame_program not_post 0; reflexivity ].
Qed.

Lemma v1_0_generate_images_guarded (s : settings) (t : prompt_type) (story_name : str)
    (num_images num_iterations : Z) (output_dir : path) :
  respects guarded
    (V1_0.generate_images s t story_name num_images num_iterations output_dir).
Proof.
  unfold V1_0.generate_images.
  apply respects_guard;
    [apply (frame_guarded 0); frame_program not_post 0; reflexivity|].
  apply (respects_bind _ guarded_trans);
    [apply (frame_guarded 0); frame_program not_post 0|intros items].
  apply (respects_for_each _ guarded_refl guarded_trans).
  intros item_name. apply v1_0_process_item_guarded.
Qed.

(** ** The wait-check after a request *)

Lemma bind_ok_inv {A B} (m : M A) (k : A -> M B) (w w' : world) (b : B) :
  bind m k w = Ok b w' -> exists a w1, m w = Ok a w1 /\ k a w1 = Ok b w'.
Proof.
  unfold bind. destruct (m w) as [a w1| |]; try discriminate.
  intros H. now exists a, w1.
Qed.

Lemma request_and_save_returns_false (url : str) (p : payload) (dir : path)
    (item_name : str) (iteration : Z) (w w' : world) (c : bool) :
  request_and_save url p dir item_name iteration w = Ok c w' -> c = false.
Proof.
  unfold request_and_save. intros H.
  repeat (apply bind_ok_inv in H; destruct H as (? & ? & _ & H)).
  unfold ret in H. now injection H as <- _.
Qed.

(** An iteration that returns has ended with a wait-check that read the
    flag false, unless its request failed and was logged. *)
Lemma iteration_body_ends_checked (s : settings) (item_dir : path) (item_name : str)
    (seed num_images iteration : Z) (data data' : jvalue) (w w' : world) :
  iteration_body s item_dir item_name seed num_images iteration data w = Ok data' w' ->
  ends_checked_or_failed w'.
Proof.
  unfold iteration_body. intros H.
  do 8 (apply bind_ok_inv in H; destruct H as (? & ? & _ & H)).
  apply bind_ok_inv in H. destruct H as (c & w4 & Ht & H).
  destruct c.
  - unfold ret in H. injection H as _ <-.
    unfold try_request in Ht.
    destruct (request_and_save _ _ _ _ _ _) as [c1 w5|e w5|w5] eqn:Er;
      try discriminate.
    + injection Ht as -> ->.
      now apply request_and_save_returns_false in Er.
    + destruct e; try discriminate.
      unfold on_request_error, bind, print, logging_error, act, ret in Ht.
      injection Ht as <-. eexists. right. eexists _, _, _. reflexivity.
  - apply bind_ok_inv in H. destruct H as ([] & w5 & Hw & H).
    unfold ret in H. injection H as _ <-.
    unfold while_paused in Hw.
    destruct (poll_paused_spec (pending_keys w4) w4) as (_ & _ & O).
    rewrite Hw in O. destruct O as (_ & evs & E).
    exists (events w4 ++ evs). left. now rewrite E, app_assoc.
Qed.




(* ================================================================== *)
(** * Further properties of the code *)
(* ================================================================== *)

(** ** Blocks of a prompt file *)

Lemma starts_with_app (p x rest : str) :
  starts_with p x = true -> starts_with p (x ++ rest) = true.
Proof.
  revert x. induction p as [|a p IH]; intros x H; [reflexivity|].
  destruct x as [|b x]; [discriminate|].
  cbn [starts_with app] in *. apply andb_true_iff in H as [Hab Hp].
  now rewrite Hab, IH.
Qed.

Lemma contains_app_l (sep a b : str) :
  contains sep (a ++ b) = false -> contains sep a = false.
Proof.
  induction a as [|c a IH]; intros H.
  - destruct sep as [|x sep]; [|reflexivity].
    destruct b; discriminate H.
  - cbn [app] in H. change (starts_with sep (c :: a ++ b) || contains sep (a ++ b) = false) in H.
    apply orb_false_iff in H as [Hs Hc].
    change (starts_with sep (c :: a) || contains sep a = false).
    rewrite (IH Hc), orb_false_r.
    destruct (starts_with sep (c :: a)) eqn:E; [|reflexivity].
    apply (starts_with_app _ _ b) in E. cbn [app] in E. congruence.
Qed.

Lemma contains_app_r (sep a b : str) :
  contains sep (a ++ b) = false -> contains sep b = false.
Proof.
  induction a as [|c a IH]; intros H; [exact H|].
  apply IH. eapply contains_tail. exact H.
Qed.

Lemma lstrip_suffix (x : str) : exists z, x = z ++ lstrip x.
Proof.
  induction x as [|c x (z & E)]; [now exists []|].
  cbn [lstrip]. destruct (is_space c).
  - exists (c :: z). cbn [app]. now f_equal.
  - now exists [].
Qed.

Lemma rstrip_prefix (x : str) : exists z, x = rstrip x ++ z.
Proof.
  unfold rstrip. destruct (lstrip_suffix (rev x)) as (z & E).
  exists (rev z). rewrite <- rev_app_distr, <- E. now rewrite rev_involutive.
Qed.

Lemma contains_strip (sep x : str) :
  contains sep x = false -> contains sep (strip x) = false.
Proof.
  intros H. unfold strip.
  destruct (lstrip_suffix x) as (z & E).
  destruct (rstrip_prefix (lstrip x)) as (z' & E').
  rewrite E in H. apply contains_app_r in H.
  rewrite E' in H. now apply contains_app_l in H.
Qed.

(** The first piece of a cut is the text up to the first occurrence. *)
Lemma split_first_prefix (sep s p : str) (ps : list str) :
  split_go sep 0 s = p :: ps -> exists rest, s = p ++ rest.
Proof.
  revert p ps. induction s as [|c s IH]; intros p ps H.
  - cbn in H. injection H as <- <-. now exists [].
  - cbn [split_go] in H. destruct (starts_with sep (c :: s)).
    + injection H as <- _. now exists (c :: s).
    + destruct (split_go sep 0 s) as [|q qs] eqn:E.
      * now apply split_go_nonempty in E.
      * cbn [cons_first] in H. injection H as <- <-.
        destruct (IH q qs eq_refl) as (rest & ->). now exists rest.
Qed.

(** No piece of a cut holds the separator. *)
Lemma split_go_pieces_free (sep : str) (s : str) :
  sep <> [] ->
  forall skip, Forall (fun p => contains sep p = false) (split_go sep skip s).
Proof.
  intros Hsep. induction s as [|c s IH]; intros skip.
  - cbn. constructor; [|constructor]. destruct sep; [contradiction|reflexivity].
  - cbn [split_go]. destruct skip as [|k]; [|apply IH].
    destruct (starts_with sep (c :: s)) eqn:Hs.
    + constructor; [|apply IH]. destruct sep; [contradiction|reflexivity].
    + specialize (IH 0). destruct (split_go sep 0 s) as [|q qs] eqn:E.
      * now apply split_go_nonempty in E.
      * cbn [cons_first]. inversion IH as [|? ? Hq Hqs]; subst.
        constructor; [|exact Hqs].
        change (starts_with sep (c :: q) || contains sep q = false).
        rewrite Hq, orb_false_r.
        destruct (split_first_prefix sep s q qs E) as (rest & ->).
        destruct (starts_with sep (c :: q)) eqn:E'; [|reflexivity].
        apply (starts_with_app _ _ rest) in E'. cbn [app] in E'. congruence.
Qed.

Lemma separator_nonempty : separator <> [].
Proof. rewrite separator_chars. discriminate. Qed.

(** X1: every block that [load_prompts] returns is trimmed, is not empty and
    is free of the separator: nothing of the [---] lines reaches
    [parse_prompt_block], and no record comes from a blank block. *)
Theorem load_prompts_blocks_trimmed (content : str) :
  Forall (fun block =>
            block <> [] /\ strip block = block /\ contains separator block = false)
         (load_prompts_content content).
Proof.
  unfold load_prompts_content. apply Forall_forall. intros block Hb.
  apply in_map_iff in Hb as (piece & <- & Hp).
  apply filter_In in Hp as [Hin Ht].
  split; [|split].
  - intros E. now rewrite E in Ht.
  - apply strip_idempotent.
  - apply contains_strip.
    pose proof (split_go_pieces_free separator content separator_nonempty 0) as F.
    rewrite Forall_forall in F. now apply F.
Qed.

(** ** Labels and values of a parsed record *)

Lemma contains_single (c : ascii) (s : str) :
  contains [c] s = false <-> ~ In c s.
Proof.
  induction s as [|x s IH].
  - split; [intros _ []|reflexivity].
  - change (contains [c] (x :: s)) with (Ascii.eqb c x && true || contains [c] s).
    rewrite andb_true_r, orb_false_iff, IH. split.
    + intros [Hx Hs] [E|Hin]; [|contradiction].
      subst. now rewrite Ascii.eqb_refl in Hx.
    + intros H. split.
      * apply Ascii.eqb_neq. intros E. apply H. left. now symmetry.
      * intros Hin. apply H. now right.
Qed.

Lemma in_strip (c : ascii) (x : str) : In c (strip x) -> In c x.
Proof.
  unfold strip. intros H.
  destruct (lstrip_suffix x) as (z & E).
  destruct (rstrip_prefix (lstrip x)) as (z' & E').
  rewrite E, E'. apply in_or_app. right. apply in_or_app. now left.
Qed.

Lemma split1_decompose (c : ascii) (l : str) :
  contains [c] l = true ->
  exists key value,
    split1 [c] l = [key; value] /\ l = key ++ c :: value /\ ~ In c key.
Proof.
  induction l as [|x l IH]; [discriminate|].
  cbn [contains split1]. destruct (starts_with [c] (x :: l)) eqn:Hs.
  - intros _. exists [], l. cbn [starts_with] in Hs.
    rewrite andb_true_r in Hs. apply Ascii.eqb_eq in Hs. subst x.
    split; [reflexivity|]. split; [reflexivity|]. intros [].
  - cbn [orb]. intros H. destruct (IH H) as (key & value & E & -> & Hk).
    exists (x :: key), value. rewrite E. split; [reflexivity|].
    split; [reflexivity|]. intros [Ex|Hin]; [|contradiction].
    subst x. cbn [starts_with] in Hs. now rewrite Ascii.eqb_refl in Hs.
Qed.

Lemma dict_get_in {V} (d : dict V) (k : str) (v : V) :
  dict_get d k = Some v -> In (k, v) d.
Proof.
  induction d as [|[k' v'] d IH]; [discriminate|].
  cbn [dict_get]. destruct (str_eqb k' k) eqn:E.
  - intros H. injection H as ->. apply str_eqb_eq in E. subst. now left.
  - intros H. right. now apply IH.
Qed.

(** Setting a key keeps what holds of all entries, when it holds of the
    new one. *)
Lemma dict_set_Forall {V} (P : str * V -> Prop) (d : dict V) (k : str) (v : V) :
  Forall P d -> (forall k', k' = k -> P (k', v)) -> Forall P (dict_set d k v).
Proof.
  intros Hd Hv. induction d as [|[k' v'] d IH]; cbn [dict_set].
  - constructor; [now apply Hv|constructor].
  - inversion Hd as [|? ? Hk Hr]; subst.
    destruct (str_eqb k' k) eqn:E.
    + constructor; [|exact Hr]. apply Hv. now apply str_eqb_eq.
    + constructor; [exact Hk|now apply IH].
Qed.

Lemma existsb_str_eqb (k : str) (l : list str) :
  existsb (str_eqb k) l = true <-> In k l.
Proof.
  rewrite existsb_exists. split.
  - intros (x & Hx & E). apply str_eqb_eq in E. now subst.
  - intros H. exists k. split; [exact H|apply str_eqb_refl].
Qed.

Lemma dict_set_NoDup {V} (d : dict V) (k : str) (v : V) :
  NoDup (keys d) -> NoDup (keys (dict_set d k v)).
Proof.
  intros H. rewrite keys_dict_set.
  destruct (existsb (str_eqb k) (keys d)) eqn:E; [exact H|].
  apply NoDup_app; [exact H|repeat constructor; intros []|].
  intros x Hx [<-|[]].
  apply existsb_str_eqb in Hx. congruence.
Qed.

Lemma parse_line_shape (st : dict str * option str) (line : str) :
  ~ In nl line ->
  NoDup (keys (fst st)) /\ Forall field_shape (fst st) ->
  NoDup (keys (fst (parse_line st line)))
  /\ Forall field_shape (fst (parse_line st line)).
Proof.
  intros Hl [Hn Hf]. destruct st as [data cur]. cbn [fst] in *.
  unfold parse_line. destruct (contains [colon] line) eqn:Hc.
  - destruct (split1_decompose colon line Hc) as (key & value & E & -> & Hk).
    rewrite E. cbn [fst]. split; [now apply dict_set_NoDup|].
    apply dict_set_Forall; [exact Hf|]. intros k' ->.
    unfold field_shape. cbn [fst snd].
    split; [apply strip_idempotent|]. split; [|split].
    + intros H. apply in_strip in H. contradiction.
    + intros H. apply in_strip in H. apply Hl. apply in_or_app. now left.
    + intros H. apply in_strip in H. apply Hl. apply in_or_app. right. now right.
  - destruct cur as [k|]; [|now split].
    destruct (truthy k); [|now split].
    destruct (dict_get data k) as [v|] eqn:Hg; [|now split].
    cbn [fst]. split; [now apply dict_set_NoDup|].
    apply dict_get_in in Hg.
    rewrite Forall_forall in Hf. pose proof (Hf _ Hg) as (H1 & H2 & H3 & H4).
    cbn [fst snd] in *.
    apply dict_set_Forall; [now apply Forall_forall|]. intros k' ->.
    unfold field_shape. cbn [fst snd].
    split; [exact H1|]. split; [exact H2|]. split; [exact H3|].
    intros H. apply in_app_or in H as [H|H]; [contradiction|].
    cbn [app] in H. destruct H as [H|H]; [discriminate H|].
    apply in_strip in H. contradiction.
Qed.

(** X2: in every record that [parse_prompt_block] returns the labels are
    distinct, trimmed and free of colons, and neither a label nor a value
    runs over a line break. *)
Theorem parse_prompt_block_labels (block : str) :
  NoDup (keys (parse_prompt_block block))
  /\ Forall (fun kv =>
               strip (fst kv) = fst kv /\ ~ In colon (fst kv) /\ ~ In nl (fst kv)
               /\ ~ In nl (snd kv))
            (parse_prompt_block block).
Proof.
  unfold parse_prompt_block, parse_lines.
  pose proof (split_go_pieces_free [nl] (strip block) ltac:(discriminate) 0) as F.
  fold (split [nl] (strip block)) in F.
  assert (G : forall lines st,
             Forall (fun l => ~ In nl l) lines ->
             NoDup (keys (fst st)) /\ Forall field_shape (fst st) ->
             NoDup (keys (fst (fold_left parse_line lines st)))
             /\ Forall field_shape (fst (fold_left parse_line lines st))).
  { induction lines as [|l lines IH]; intros st Hl Hst; [exact Hst|].
    inversion Hl; subst. cbn [fold_left]. apply IH; [assumption|].
    now apply parse_line_shape. }
  apply G.
  - eapply Forall_impl; [|exact F]. intros l Hl. now apply contains_single.
  - split; constructor.
Qed.

(** ** All the descriptors of a run of [generate_json_files] *)

Lemma path_eq_dec (p q : path) : {p = q} + {p <> q}.
Proof. apply list_eq_dec, list_eq_dec, ascii_dec. Qed.

Lemma same_control_trans (a b c : world) :
  same_control a b -> same_control b c -> same_control a c.
Proof.
  intros (A1 & A2 & A3 & A4) (B1 & B2 & B3 & B4).
  repeat split; congruence.
Qed.

Lemma stores_refl (W : path -> Prop) (w : world) : stores W w w.
Proof.
  split; [auto|]. split; [reflexivity|]. split; [now repeat split|].
  apply extends_by_refl.
Qed.

Lemma stores_trans (W : path -> Prop) (a b c : world) :
  stores W a b -> stores W b c -> stores W a c.
Proof.
  intros (K1 & I1 & C1 & X1) (K2 & I2 & C2 & X2).
  split; [intros p n Hp Hn; now apply K2, K1|].
  split; [congruence|]. split; [eapply same_control_trans; eassumption|].
  eapply extends_by_trans; eassumption.
Qed.

Lemma stores_os_makedirs (W : path -> Prop) (p : path) :
  respects (stores W) (os_makedirs p).
Proof.
  intros w.
  destruct (os_makedirs_cases p w) as [E|(e & made & E & _)]; rewrite E; cbn [final].
  - split; [intros q n _ Hn; cbn; now apply makedirs_keeps|].
    split; [reflexivity|]. split; [now repeat split|].
    exists [EvMakedirs p]. split; [reflexivity|]. repeat constructor.
  - split; [intros q n _ Hn; cbn; now apply makedirs_keeps|].
    split; [reflexivity|]. split; [now repeat split|].
    now apply extends_by_same_events.
Qed.

Lemma stores_write_file (W : path -> Prop) (p : path) (v : jvalue) :
  W p -> respects (stores W) (write_file p (Json v)).
Proof.
  intros Hp w.
  destruct (write_file_cases p (Json v) w) as [[E _]|(e & E & _)]; rewrite E;
    cbn [final]; [|apply stores_refl].
  split.
  - intros q n Hq Hn. cbn. rewrite tree_lookup_set_other; [exact Hn|].
    intros <-. contradiction.
  - split; [reflexivity|]. split; [now repeat split|].
    exists [EvWrite p (Json v)]. split; [reflexivity|]. repeat constructor.
Qed.

Lemma stores_materialize (W : path -> Prop) (base : path) (ni nit : jvalue)
    (seed : Z) (data : dict str) (files : list path) :
  W (descriptor_path base data) ->
  respects (stores W) (materialize base ni nit seed data files).
Proof.
  intros HW. unfold materialize.
  apply (respects_bind _ (stores_trans W)); [|intros _].
  - apply stores_os_makedirs.
  - apply (respects_bind _ (stores_trans W)); [|intros _].
    + apply stores_write_file. unfold descriptor_path in HW.
      now rewrite <- app_assoc.
    + apply respects_ret, stores_refl.
Qed.

Lemma materialize_loop_stores (base : path) (ni nit : jvalue) (seed : Z)
    (prompts : list (dict str)) (W : path -> Prop) :
  (forall d, In d prompts -> W (descriptor_path base d)) ->
  forall files, respects (stores W) (for_fold prompts (materialize base ni nit seed) files).
Proof.
  induction prompts as [|d l IH]; intros Hl files; cbn [for_fold].
  - apply respects_ret, stores_refl.
  - apply (respects_bind _ (stores_trans W)); [|intros files'].
    + apply stores_materialize. apply Hl. now left.
    + apply IH. intros d' Hd'. apply Hl. now right.
Qed.

(** [generate_json_files], in both versions and however it ends. *)
Lemma generate_json_files_stores (base : path) (ni nit : jvalue) (seed : Z)
    (prompts : list (dict str)) :
  respects (stores (fun p => In p (map (descriptor_path base) prompts)))
           (os_makedirs base ;;; for_fold prompts (materialize base ni nit seed) []).
Proof.
  set (W := fun p => In p (map (descriptor_path base) prompts)).
  apply (respects_bind _ (stores_trans W)); [|intros _].
  - apply stores_os_makedirs.
  - apply materialize_loop_stores. intros d Hd. unfold W. now apply in_map.
Qed.

Lemma materialize_returned (base : path) (ni nit : jvalue) (seed : Z)
    (data : dict str) (files files' : list path) (w w' : world) :
  materialize base ni nit seed data files w = Ok files' w' ->
  tree_lookup (output w') (descriptor_path base data)
  = Some (File (Json (JObj (descriptor_of data ni nit seed)))).
Proof.
  unfold materialize. rewrite bind_run.
  destruct (os_makedirs_cases (base ++ [item_name_of data]) w)
    as [E|(e & made & E & _)]; rewrite E; [|discriminate].
  rewrite bind_run.
  match goal with
  | |- context [write_file ?p ?c ?w1] =>
      destruct (write_file_cases p c w1) as [[E1 _]|(e & E1 & _)]; rewrite E1
  end; [|discriminate].
  unfold ret. intros [= _ <-]. cbn [output emit set_output].
  unfold descriptor_path. rewrite app_assoc. apply tree_lookup_set_same.
Qed.

(** The loop over the records, when it has returned: the path of each
    record holds the descriptor of a record of that item name. *)
Lemma materialize_loop_returned (base : path) (ni nit : jvalue) (seed : Z)
    (prompts : list (dict str)) :
  forall files w files' w',
    for_fold prompts (materialize base ni nit seed) files w = Ok files' w' ->
    forall d, In d prompts ->
      exists d', In d' prompts /\ item_name_of d' = item_name_of d
                 /\ descriptor_at w' (descriptor_path base d)
                    = Some (descriptor_of d' ni nit seed).
Proof.
  induction prompts as [|data prompts IH]; intros files w files' w' E d Hd;
    [destruct Hd|].
  cbn [for_fold] in E. rewrite bind_run in E.
  destruct (materialize base ni nit seed data files w) as [f1 w1| |] eqn:E1;
    try discriminate.
  destruct Hd as [<-|Hd].
  - destruct (in_dec path_eq_dec (descriptor_path base data)
                     (map (descriptor_path base) prompts)) as [Hin|Hout].
    + apply in_map_iff in Hin as (d2 & E2 & H2).
      destruct (IH f1 w1 files' w' E d2 H2) as (d' & Hd' & N' & L').
      exists d'. split; [now right|]. split.
      * rewrite N'. now apply prompt_path_injective in E2.
      * now rewrite <- E2.
    + exists data. split; [now left|]. split; [reflexivity|].
      pose proof (materialize_loop_stores base ni nit seed prompts
                    (fun p => In p (map (descriptor_path base) prompts))
                    ltac:(intros d' Hd'; now apply in_map) f1 w1) as (K & _).
      rewrite E in K. cbn [final] in K.
      unfold descriptor_at.
      now rewrite (K _ _ Hout (materialize_returned _ _ _ _ _ _ _ _ _ E1)).
  - destruct (IH f1 w1 files' w' E d Hd) as (d' & Hd' & N' & L').
    exists d'. split; [now right|]. now split.
Qed.

(** The loop over the records when there is room for their items: it
    returns the descriptor paths in the order of the records, and at the
    end the path of each record holds the descriptor of a record of that
    item name. *)
Lemma materialize_loop (base : path) (ni nit : jvalue) (seed : Z)
    (prompts : list (dict str)) :
  forall files w,
  Forall (fun d => room_for_item (output w) base d = true) prompts ->
  exists w',
    for_fold prompts (materialize base ni nit seed) files w
    = Ok (files ++ map (descriptor_path base) prompts) w'
    /\ (forall d, In d prompts ->
          exists d', In d' prompts /\ item_name_of d' = item_name_of d
                     /\ descriptor_at w' (descriptor_path base d)
                        = Some (descriptor_of d' ni nit seed))
    /\ (forall p n, ~ In p (map (descriptor_path base) prompts) ->
          tree_lookup (output w) p = Some n -> tree_lookup (output w') p = Some n).
Proof.
  induction prompts as [|data prompts IH]; intros files w Hroom.
  - exists w. cbn [for_fold map]. rewrite app_nil_r. split; [reflexivity|].
    split; [intros d []|auto].
  - inversion Hroom as [|? ? Hd Hrest]; subst.
    destruct (materialize_writes base ni nit seed data files w Hd)
      as (w1 & E1 & L1 & _ & K1 & S1).
    destruct (IH (files ++ [descriptor_path base data]) w1)
      as (w' & E & D & K).
    { eapply Forall_impl; [|exact Hrest]. intros d Hr.
      now rewrite (room_for_item_settled _ _ _ _ S1). }
    exists w'. split; [|split].
    + cbn [for_fold map]. unfold bind. rewrite E1.
      rewrite <- app_assoc in E. exact E.
    + intros d [<-|Hin].
      * destruct (in_dec path_eq_dec (descriptor_path base data)
                         (map (descriptor_path base) prompts)) as [Hin|Hout].
        -- apply in_map_iff in Hin as (d2 & E2 & H2).
           destruct (D d2 H2) as (d' & Hd' & N' & L').
           exists d'. split; [now right|]. split.
           ++ rewrite N'. now apply prompt_path_injective in E2.
           ++ now rewrite <- E2.
        -- exists data. split; [now left|]. split; [reflexivity|].
           unfold descriptor_at. now rewrite (K _ _ Hout L1).
      * destruct (D d Hin) as (d' & Hd' & N' & L').
        exists d'. split; [now right|]. now split.
    + intros p n Hp Hn. apply K.
      * intros H. apply Hp. now right.
      * apply K1; [|exact Hn]. intros ->. apply Hp. now left.
Qed.

Lemma generate_json_files_run (base : path) (ni nit : jvalue) (seed : Z)
    (prompts : list (dict str)) (w : world) :
  room_for_dir (output w) base = true ->
  Forall (fun d => room_for_item (output w) base d = true) prompts ->
  exists w',
    (os_makedirs base ;;; for_fold prompts (materialize base ni nit seed) []) w
    = Ok (map (descriptor_path base) prompts) w'
    /\ (forall d, In d prompts ->
          exists d', In d' prompts /\ item_name_of d' = item_name_of d
                     /\ descriptor_at w' (descriptor_path base d)
                        = Some (descriptor_of d' ni nit seed)).
Proof.
  intros Hbase Hroom. unfold bind at 1. rewrite (os_makedirs_ok _ _ Hbase).
  set (w0 := emit _ _).
  assert (S0 : settled (S (List.length base)) (output w) (output w0)).
  { apply settled_makedirs. lia. }
  destruct (materialize_loop base ni nit seed prompts [] w0) as (w' & E & D & _).
  { eapply Forall_impl; [|exact Hroom]. intros d Hr.
    now rewrite (room_for_item_settled _ _ _ _ S0). }
  exists w'. now split.
Qed.

(** X3: when there is room for the directories and the descriptors (the
    story name and the item names are names of one entry each that the
    file system takes, no file lies where a directory goes and no
    directory where a prompt.json goes), [generate_json_files] returns,
    and what it returns are the descriptor paths of the records, in their
    order (a path twice when two records share an item name); at the end
    each of these paths holds the descriptor of a record of that item
    name, with the control fields of the version. *)
Theorem generate_json_files_returns_paths :
  (forall prompts t story seed w,
      room_for_dir (output w) [story; type_dir t] = true ->
      Forall (fun d => room_for_item (output w) [story; type_dir t] d = true) prompts ->
      exists w',
        generate_json_files prompts t story seed w
        = Ok (map (descriptor_path [story; type_dir t]) prompts) w'
        /\ forall d, In d prompts ->
             exists d', In d' prompts /\ item_name_of d' = item_name_of d
                        /\ descriptor_at w' (descriptor_path [story; type_dir t] d)
                           = Some (descriptor_of d' (JInt 1) (JInt 1) seed))
  /\ (forall prompts t story seed num_images num_iterations output_dir w,
         room_for_dir (output w) (output_dir ++ [story; type_dir t]) = true ->
         Forall (fun d => room_for_item (output w) (output_dir ++ [story; type_dir t]) d
                          = true) prompts ->
         exists w',
           V1_0.generate_json_files prompts t story seed num_images num_iterations
                                    output_dir w
           = Ok (map (descriptor_path (output_dir ++ [story; type_dir t])) prompts) w'
           /\ forall d, In d prompts ->
                exists d', In d' prompts /\ item_name_of d' = item_name_of d
                           /\ descriptor_at w'
                                (descriptor_path (output_dir ++ [story; type_dir t]) d)
                              = Some (descriptor_of d' (JInt num_images)
                                                    (JInt num_iterations) seed)).
Proof.
  split.
  - intros prompts t story seed w Hb Hr.
    apply (generate_json_files_run [story; type_dir t] (JInt 1) (JInt 1) seed
                                   prompts w Hb Hr).
  - intros prompts t story seed ni nit out w Hb Hr.
    apply (generate_json_files_run (out ++ [story; type_dir t]) (JInt ni) (JInt nit)
                                   seed prompts w Hb Hr).
Qed.

(** Two records of the same name in a new directory: the path comes
    twice, and holds the descriptor of the second. *)
Lemma generate_json_files_returns_paths_witness :
  exists w',
    generate_json_files [record_jean; [(lit "Name", lit "Jean Grey")]] character
                        (lit "X-Men") 7 empty_world
    = Ok [path_jean [lit "X-Men"]; path_jean [lit "X-Men"]] w'
    /\ descriptor_at w' (path_jean [lit "X-Men"])
       = Some (descriptor_of [(lit "Name", lit "Jean Grey")] (JInt 1) (JInt 1) 7).
Proof.
  destruct generate_json_files_returns_paths as (Hmain & _).
  destruct (Hmain [record_jean; [(lit "Name", lit "Jean Grey")]] character
                  (lit "X-Men") 7%Z empty_world) as (w' & E & D);
    [reflexivity|repeat constructor|].
  exists w'. split; [exact E|].
  assert (Hw : w' = final (generate_json_files
                             [record_jean; [(lit "Name", lit "Jean Grey")]] character
                             (lit "X-Men") 7 empty_world)) by now rewrite E.
  rewrite Hw. reflexivity.
Defined.

(** X4: [generate_json_files] makes directories and writes descriptors, and
    nothing else, however it ends: every entry of the tree that is not
    one of the descriptor paths of the records is kept as it was (item
    directories and descriptors of an earlier session stay where they
    are), no request is sent, nothing is printed, and the prompt files,
    the pause flag and the listener are left alone.  The names are names
    of one entry each, so that the paths of the records are those of the
    file system. *)
Theorem generate_json_files_keeps_the_rest :
  (forall prompts t story seed w,
      plain_name story = true ->
      Forall (fun d => plain_name (item_name_of d) = true) prompts ->
      let w' := final (generate_json_files prompts t story seed w) in
      (forall p n,
          ~ In p (map (descriptor_path [story; type_dir t]) prompts) ->
          tree_lookup (output w) p = Some n -> tree_lookup (output w') p = Some n)
      /\ inputs w' = inputs w
      /\ same_control w w'
      /\ extends_by store_event w w')
  /\ (forall prompts t story seed num_images num_iterations output_dir w,
         forallb plain_name (output_dir ++ [story]) = true ->
         Forall (fun d => plain_name (item_name_of d) = true) prompts ->
         let w' := final (V1_0.generate_json_files prompts t story seed num_images
                                                   num_iterations output_dir w) in
         (forall p n,
             ~ In p (map (descriptor_path (output_dir ++ [story; type_dir t])) prompts) ->
             tree_lookup (output w) p = Some n -> tree_lookup (output w') p = Some n)
         /\ inputs w' = inputs w
         /\ same_control w w'
         /\ extends_by store_event w w').
Proof.
  split.
  - intros prompts t story seed w _ _.
    apply (generate_json_files_stores [story; type_dir t] (JInt 1) (JInt 1) seed
                                      prompts w).
  - intros prompts t story seed ni nit out w _ _.
    apply (generate_json_files_stores (out ++ [story; type_dir t]) (JInt ni) (JInt nit)
                                      seed prompts w).
Qed.

(** A descriptor of an earlier session, edited by hand, of an item that
    the prompt file no longer names: it is still there after the run. *)
Lemma generate_json_files_keeps_the_rest_witness :
  tree_lookup
    (output (final (generate_json_files [record_jean] character story 7 world_three)))
    (prompt_path_of characters_dir item_A)
  = Some (File (Json (JObj descriptor_three))).
Proof.
  destruct generate_json_files_keeps_the_rest as (Hmain & _).
  destruct (Hmain [record_jean] character story 7%Z world_three)
    as (K & _); [reflexivity|repeat constructor|].
  apply K; [|reflexivity].
  intros [E|[]]. discriminate E.
Defined.

(** X5: the name of an item directory holds no space, whatever the record's
    name is; a name without spaces is taken as it is. *)
Theorem item_name_has_no_space (data : dict str) :
  ~ In space (item_name_of data)
  /\ List.length (item_name_of data)
     = List.length (dict_get_default data (lit "Name") (lit "Unnamed"))
  /\ (~ In space (dict_get_default data (lit "Name") (lit "Unnamed")) ->
      item_name_of data = dict_get_default data (lit "Name") (lit "Unnamed")).
Proof.
  unfold item_name_of, replace_char.
  generalize (dict_get_default data (lit "Name") (lit "Unnamed")). intros name.
  split; [|split].
  - intros H. apply in_map_iff in H as (c & E & _).
    destruct (Ascii.eqb c space) eqn:Ec; [discriminate E|].
    subst c. now rewrite Ascii.eqb_refl in Ec.
  - apply length_map.
  - intros H. induction name as [|c name IH]; [reflexivity|].
    cbn [map]. rewrite IH by (intros Hin; apply H; now right).
    destruct (Ascii.eqb c space) eqn:Ec; [|reflexivity].
    apply Ascii.eqb_eq in Ec. subst c. exfalso. apply H. now left.
Qed.

(** ** The footprint of the generation loop *)

Section Touches.
Variable P : event -> Prop.
Variable W : path -> Prop.

Lemma touches_refl (w : world) : touches P W w w.
Proof. split; [apply extends_by_refl|split; [auto|reflexivity]]. Qed.

Lemma touches_trans (a b c : world) :
  touches P W a b -> touches P W b c -> touches P W a c.
Proof.
  intros (E1 & K1 & I1) (E2 & K2 & I2). split; [|split].
  - eapply extends_by_trans; eassumption.
  - intros p n Hp Hn. apply K2; [exact Hp|]. now apply K1.
  - congruence.
Qed.

Lemma touches_emit (e : event) (w : world) : P e -> touches P W w (emit e w).
Proof.
  intros H. split; [now apply extends_by_emit|split; [auto|reflexivity]].
Qed.

Lemma touches_same (w w' : world) :
  events w' = events w -> output w' = output w -> inputs w' = inputs w ->
  touches P W w w'.
Proof.
  intros E O I. split; [now apply extends_by_same_events|split; [|exact I]].
  intros p n _ H. now rewrite O.
Qed.

Lemma touches_print (m : message) :
  P (EvPrint m) -> respects (touches P W) (print m).
Proof. intros H w. now apply touches_emit. Qed.

Lemma touches_logging_info (m : message) :
  P (EvLog INFO m) -> respects (touches P W) (logging_info m).
Proof. intros H w. now apply touches_emit. Qed.

Lemma touches_logging_error (m : message) :
  P (EvLog ERROR m) -> respects (touches P W) (logging_error m).
Proof. intros H w. now apply touches_emit. Qed.

Lemma touches_os_makedirs (p : path) :
  P (EvMakedirs p) -> respects (touches P W) (os_makedirs p).
Proof.
  intros H w.
  destruct (os_makedirs_cases p w) as [E|(e & made & E & _)]; rewrite E; cbn [final];
    (split; [|split; [|reflexivity]]).
  - exists [EvMakedirs p]. split; [reflexivity|now constructor].
  - intros q n _ Hn. cbn. now apply makedirs_keeps.
  - now apply extends_by_same_events.
  - intros q n _ Hn. cbn. now apply makedirs_keeps.
Qed.

Lemma touches_write_file (p : path) (c : content) :
  P (EvWrite p c) -> W p -> respects (touches P W) (write_file p c).
Proof.
  intros H Hw w.
  destruct (write_file_cases p c w) as [[E _]|(e & E & _)]; rewrite E; cbn [final];
    [|apply touches_refl].
  split; [|split; [|reflexivity]].
  - exists [EvWrite p c]. split; [reflexivity|now constructor].
  - intros q n Hq Hn. cbn. rewrite tree_lookup_set_other; [exact Hn|].
    intros ->. contradiction.
Qed.

Lemma touches_requests_post (url : str) (p : payload) :
  P (EvPost url p) -> respects (touches P W) (requests_post url p).
Proof.
  intros H w. unfold requests_post.
  assert (F : touches P W w (emit (EvPost url p) w)) by now apply touches_emit.
  destruct (responses (emit (EvPost url p) w)) as [|[reason|status b] rest];
    cbn [final]; try exact F;
    (eapply touches_trans; [exact F|now apply touches_same]).
Qed.

Hypothesis P_wait : forall e, wait_event e -> P e.

Lemma touches_on_press (pk k : key) (w : world) :
  touches P W w (on_press_reacting_to pk k w).
Proof.
  unfold on_press_reacting_to. destruct (key_eqb k pk); [|apply touches_refl].
  eapply touches_trans; [now apply (touches_same w (set_paused (negb (paused w)) w))|].
  apply touches_emit, P_wait. now destruct (paused _).
Qed.

Lemma touches_deliver (ks : list key) (w : world) : touches P W w (deliver ks w).
Proof.
  unfold deliver. destruct (keyboard_listener w) as [l|]; [|apply touches_refl].
  revert w. induction ks as [|k ks IH]; intros w; cbn [fold_left].
  - apply touches_refl.
  - eapply touches_trans; [apply touches_on_press|apply IH].
Qed.

Lemma touches_poll_paused (sched : list (list key)) :
  forall w, touches P W w (final (poll_paused sched w)).
Proof.
  induction sched as [|ks sched IH]; intros w; cbn [poll_paused].
  - destruct (paused (set_pending_keys [] w)); cbn [final];
      (eapply touches_trans; [now apply (touches_same w (set_pending_keys [] w))|]);
      apply touches_emit, P_wait; exact I.
  - assert (F : touches P W w (deliver ks (set_pending_keys sched w))).
    { eapply touches_trans; [now apply (touches_same w (set_pending_keys sched w))|].
      apply touches_deliver. }
    destruct (paused (deliver ks (set_pending_keys sched w))); cbn [final].
    + eapply touches_trans; [exact F|]. eapply touches_trans; [|apply IH].
      eapply touches_trans; apply touches_emit, P_wait; [exact I|reflexivity].
    + eapply touches_trans; [exact F|]. apply touches_emit, P_wait. exact I.
Qed.

Lemma touches_while_paused : respects (touches P W) while_paused.
Proof. intros w. apply touches_poll_paused. Qed.
End Touches.

(** Programs are followed along their binds. *)
Ltac touch_program P W :=
  repeat first
    [ apply (respects_bind (touches P W) (touches_trans P W)); [|intro]
    | apply (respects_ret (touches P W) (touches_refl P W))
    | apply (respects_raise (touches P W) (touches_refl P W))
    | apply (respects_try_request (touches P W) (touches_trans P W)); [|intro]
    | apply (respects_for_each (touches P W) (touches_refl P W) (touches_trans P W));
        intro
    | apply (respects_for_fold (touches P W) (touches_refl P W) (touches_trans P W));
        intros
    | apply (respects_pure (touches P W) (touches_refl P W));
        first [ apply pure_py_int | apply pure_py_get | apply pure_py_subscript
              | apply pure_py_iter | apply pure_b64decode | apply pure_raise_for_status
              | apply pure_response_json | apply pure_add_tag | apply pure_json_load
              | apply pure_os_listdir ]
    | apply touches_print
    | apply touches_logging_info
    | apply touches_logging_error
    | apply touches_os_makedirs
    | apply touches_write_file
    | apply touches_requests_post
    | apply touches_while_paused
    | match goal with
      | |- respects _ (if ?b then _ else _) => destruct b
      end ].

Lemma footprint_wait (s : settings) (base : path) (e : event) :
  wait_event e -> footprint_event s base e.
Proof. destruct e; cbn; try contradiction; auto. Qed.

Ltac finish_touch s base :=
  try exact I; try (exact (footprint_wait s base));
  try (now eexists _, _); try (now repeat split);
  try (split; [now eexists _, _, _|now eexists]);
  try (now eexists _, _, _).

Lemma process_item_touches (s : settings) (t : prompt_type) (base : path)
    (item_name : str) :
  respects (touches (footprint_event s base) (is_image_path base))
           (process_item s t base item_name).
Proof.
  unfold process_item.
  touch_program (footprint_event s base) (is_image_path base); finish_touch s base.
Qed.

Lemma generate_images_touches (s : settings) (t : prompt_type) (story_name : str) :
  respects (touches (footprint_event s [story_name; type_dir t])
                    (is_image_path [story_name; type_dir t]))
           (generate_images s t story_name).
Proof.
  unfold generate_images.
  set (P := footprint_event s [story_name; type_dir t]).
  set (W := is_image_path [story_name; type_dir t]).
  apply (respects_bind (touches P W) (touches_trans P W));
    [apply (respects_pure (touches P W) (touches_refl P W)), pure_os_listdir|intros items].
  apply (respects_for_each (touches P W) (touches_refl P W) (touches_trans P W)).
  intros item_name. apply process_item_touches.
Qed.

Lemma v1_0_process_item_touches (s : settings) (t : prompt_type) (base : path)
    (num_images num_iterations : Z) (item_name : str) :
  respects (touches (footprint_event s base) (is_image_path base))
           (V1_0.process_item s t base num_images num_iterations item_name).
Proof.
  unfold V1_0.process_item.
  apply respects_guard; [apply respects_ret, touches_refl|].
  touch_program (footprint_event s base) (is_image_path base); finish_touch s base.
Qed.

Lemma v1_0_generate_images_touches (s : settings) (t : prompt_type) (story_name : str)
    (num_images num_iterations : Z) (output_dir : path) :
  respects (touches (footprint_event s (output_dir ++ [story_name; type_dir t]))
                    (is_image_path (output_dir ++ [story_name; type_dir t])))
           (V1_0.generate_images s t story_name num_images num_iterations output_dir).
Proof.
  unfold V1_0.generate_images.
  set (P := footprint_event s (output_dir ++ [story_name; type_dir t])).
  set (W := is_image_path (output_dir ++ [story_name; type_dir t])).
  apply respects_guard; [apply touches_print; exact I|].
  apply (respects_bind (touches P W) (touches_trans P W));
    [apply (respects_pure (touches P W) (touches_refl P W)), pure_os_listdir|intros items].
  apply (respects_for_each (touches P W) (touches_refl P W) (touches_trans P W)).
  intros item_name. apply v1_0_process_item_touches.
Qed.

Lemma prompt_path_not_image (base : path) (item_name : str) :
  ~ is_image_path base (prompt_path_of base item_name).
Proof.
  intros (i & it & k & E). apply (f_equal (@List.length str)) in E.
  unfold prompt_path_of, image_path, iteration_dir_of in E.
  rewrite !length_app in E. simpl in E. lia.
Qed.

Lemma posts_built_from (s : settings) (base : path) (evs : list event) :
  Forall (footprint_event s base) evs ->
  Forall (fun e => match e with
                   | EvPost url p => built_from s url p
                   | _ => True
                   end) evs.
Proof.
  apply Forall_impl. intros e H. now destruct e.
Qed.

(** X6: whatever the descriptors hold and whatever the server answers, every
    request of [generate_images] goes to the txt2img route of the
    settings' endpoint (of the default endpoint when the settings name
    none) and carries the settings' sampling steps, CFG scale, width,
    height, sampler, scheduler and model, with a batch size of 1. *)
Theorem requests_carry_settings :
  (forall s t story_name w,
      Forall (fun e => match e with
                       | EvPost url p => built_from s url p
                       | _ => True
                       end)
             (new_events w (final (generate_images s t story_name w))))
  /\ (forall s t story_name num_images num_iterations output_dir w,
         Forall (fun e => match e with
                          | EvPost url p => built_from s url p
                          | _ => True
                          end)
                (new_events w (final (V1_0.generate_images s t story_name num_images
                                        num_iterations output_dir w)))).
Proof.
  split.
  - intros s t story w.
    destruct (generate_images_touches s t story w) as (X & _).
    apply extends_by_new_events in X as [_ F].
    now apply posts_built_from in F.
  - intros s t story ni nit out w.
    destruct (v1_0_generate_images_touches s t story ni nit out w) as (X & _).
    apply extends_by_new_events in X as [_ F].
    now apply posts_built_from in F.
Qed.

(** X7: whatever the descriptors hold and whatever the server answers,
    [generate_images] of a story whose name is the name of one entry
    makes no directory but iteration directories of items and opens no
    file for writing but images in them; its log apart, to which it adds
    records, every other entry of the tree (the descriptors, the
    directories, the settings file) is as before when it ends, however
    it ends; it neither starts nor stops the listener and does not wait
    for input, and the prompt files are left alone. *)
Theorem generate_images_writes_only_images :
  (forall s t story_name w,
      plain_name story_name = true ->
      let base := [story_name; type_dir t] in
      let w' := final (generate_images s t story_name w) in
      Forall (fun e =>
                match e with
                | EvMakedirs p =>
                    exists item_name iteration,
                      p = iteration_dir_of (base ++ [item_name]) iteration
                | EvWrite p c => is_image_path base p /\ exists bytes, c = Bytes bytes
                | EvInput | EvListenerStart | EvListenerStop => False
                | _ => True
                end) (new_events w w')
      /\ (forall p n,
             ~ is_image_path base p -> p <> log_file ->
             tree_lookup (output w) p = Some n -> tree_lookup (output w') p = Some n)
      /\ (forall item_name n,
             plain_name item_name = true ->
             tree_lookup (output w) (prompt_path_of base item_name) = Some n ->
             tree_lookup (output w') (prompt_path_of base item_name) = Some n)
      /\ inputs w' = inputs w)
  /\ (forall s t story_name num_images num_iterations output_dir w,
         forallb plain_name (output_dir ++ [story_name]) = true ->
         let base := output_dir ++ [story_name; type_dir t] in
         let w' := final (V1_0.generate_images s t story_name num_images
                            num_iterations output_dir w) in
         Forall (fun e =>
                   match e with
                   | EvMakedirs p =>
                       exists item_name iteration,
                         p = iteration_dir_of (base ++ [item_name]) iteration
                   | EvWrite p c => is_image_path base p /\ exists bytes, c = Bytes bytes
                   | EvInput | EvListenerStart | EvListenerStop => False
                   | _ => True
                   end) (new_events w w')
         /\ (forall p n,
                ~ is_image_path base p -> p <> log_file ->
                tree_lookup (output w) p = Some n -> tree_lookup (output w') p = Some n)
         /\ (forall item_name n,
                plain_name item_name = true ->
                tree_lookup (output w) (prompt_path_of base item_name) = Some n ->
                tree_lookup (output w') (prompt_path_of base item_name) = Some n)
         /\ inputs w' = inputs w).
Proof.
  split.
  - intros s t story w _. cbv zeta.
    destruct (generate_images_touches s t story w) as (X & K & I).
    apply extends_by_new_events in X as [_ F].
    split; [|split; [intros p n Hp _; now apply K|split; [|exact I]]].
    + eapply Forall_impl; [|exact F]. intros e H. now destruct e.
    + intros item_name n _. apply K, prompt_path_not_image.
  - intros s t story ni nit out w _. cbv zeta.
    destruct (v1_0_generate_images_touches s t story ni nit out w) as (X & K & I).
    apply extends_by_new_events in X as [_ F].
    split; [|split; [intros p n Hp _; now apply K|split; [|exact I]]].
    + eapply Forall_impl; [|exact F]. intros e H. now destruct e.
    + intros item_name n _. apply K, prompt_path_not_image.
Qed.

Lemma generate_images_writes_only_images_witness :
  tree_lookup
    (output (final (generate_images example_settings character story world_three)))
    (prompt_path_of characters_dir item_A)
  = Some (File (Json (JObj descriptor_three)))
  /\ tree_lookup
       (output (final (V1_0.generate_images example_settings character story 1 1
                         V1_0.output_dir world_three_v1_0)))
       (prompt_path_of (V1_0.output_dir ++ characters_dir) item_A)
     = Some (File (Json (JObj descriptor_three))).
Proof.
  destruct generate_images_writes_only_images as [H0 H1]. split.
  - destruct (H0 example_settings character story world_three eq_refl)
      as (_ & _ & K & _).
    apply (K item_A _ eq_refl). reflexivity.
  - destruct (H1 example_settings character story 1%Z 1%Z V1_0.output_dir
                 world_three_v1_0 eq_refl) as (_ & _ & K & _).
    apply (K item_A _ eq_refl). reflexivity.
Defined.

(** ** Image files *)

Lemma str_of_Z_injective (n m : Z) : str_of_Z n = str_of_Z m -> n = m.
Proof.
  unfold str_of_Z, lit. intros H.
  apply (f_equal string_of_list_ascii) in H.
  rewrite !string_of_list_ascii_of_string in H.
  apply (f_equal NilZero.int_of_string) in H.
  assert (N : forall z, Z.to_int z <> Decimal.Pos Decimal.Nil
                        /\ Z.to_int z <> Decimal.Neg Decimal.Nil).
  { intros [|p|p]; cbn; split; try discriminate;
      intros E; injection E as E; now apply DecimalPos.Unsigned.to_uint_nonnil in E. }
  rewrite !NilZero.isi in H by apply N.
  injection H as H. apply (f_equal Z.of_int) in H.
  now rewrite !DecimalZ.of_to in H.
Qed.

Lemma image_name_injective (item_name : str) (iteration k k' : Z) :
  image_name item_name iteration k = image_name item_name iteration k' -> k = k'.
Proof.
  unfold image_name. intros H.
  apply app_inv_head in H. apply app_inv_head in H.
  apply app_inv_head in H. apply app_inv_head in H.
  apply app_inv_tail in H. now apply str_of_Z_injective.
Qed.

(** X8: different items, iterations or image numbers never share an image
    path: within a run no image is written over another. *)
Theorem image_paths_distinct (base : path) (item_name item_name' : str)
    (iteration iteration' k k' : Z) :
  image_path base item_name iteration k = image_path base item_name' iteration' k' ->
  item_name = item_name' /\ iteration = iteration' /\ k = k'.
Proof.
  unfold image_path, iteration_dir_of. rewrite <- !app_assoc. intros H.
  apply app_inv_head in H. cbn [app] in H.
  injection H as H1 H2 H3. subst item_name'.
  apply str_of_Z_injective in H2. subst iteration'.
  apply image_name_injective in H3. now repeat split.
Qed.

Lemma image_paths_distinct_witness :
  image_path characters_dir item_A 1 2 = image_path characters_dir item_A 1 2
  /\ item_A = item_A /\ 1%Z = 1%Z /\ 2%Z = 2%Z.
Proof.
  split; [reflexivity|].
  apply (image_paths_distinct characters_dir item_A item_A 1 1 2 2). reflexivity.
Defined.

Lemma decodable_decoded (v : jvalue) : decodable v = is_some (decoded v).
Proof.
  destruct v; try reflexivity. cbn. destruct (forallb is_ascii s); [|reflexivity].
  now destruct (a2b_base64 s 0 0 0 []).
Qed.

Lemma b64decode_decoded (v : jvalue) (w : world) :
  match decoded v with
  | Some bytes => b64decode v w = Ok bytes w
  | None => exists e, b64decode v w = Raised e w
                      /\ forall r, e <> RequestException r
  end.
Proof.
  destruct v; cbn; try (eexists; split; [reflexivity|discriminate]).
  destruct (forallb is_ascii s); [|eexists; split; [reflexivity|discriminate]].
  destruct (a2b_base64 s 0 0 0 []); [reflexivity|].
  eexists; split; [reflexivity|discriminate].
Qed.

Lemma open_error_set_other (t : tree) (p q : path) (n : node) :
  q <> p -> removelast q <> p -> open_error q (tree_set t p n) = open_error q t.
Proof.
  intros H1 H2. unfold open_error, isdir.
  destruct q as [|c q]; [reflexivity|].
  rewrite at_path_set_other by congruence.
  now rewrite tree_lookup_set_other by congruence.
Qed.

Lemma can_open_room (t : tree) (p : path) :
  room_for_file t p = true -> at_path t (removelast p) = Some Dir -> can_open t p = true.
Proof. intros H Hd. unfold can_open. now rewrite (open_error_room _ _ H Hd). Qed.

(** The loop that saves the images: it returns when every item decodes
    and the file of each can be opened, and then each item is on disk
    under its number; at the first item that does not decode, or whose
    file cannot be opened, an exception that is no [RequestException]
    leaves it.  Nothing but the files of the numbers at hand is
    rewritten. *)
Lemma save_images_files (dir : path) (item_name : str) (iteration : Z)
    (l : list (Z * jvalue)) :
  NoDup (map fst l) ->
  forall w,
    (forall q n,
        (forall k, In k (map fst l) -> q <> dir ++ [image_name item_name iteration k]) ->
        tree_lookup (output w) q = Some n ->
        tree_lookup (output (final (for_each l (save_image dir item_name iteration) w))) q
        = Some n)
    /\ if forallb (fun x => is_some (decoded (snd x))
                            && can_open (output w)
                                 (dir ++ [image_name item_name iteration (fst x)])) l
       then exists w',
              for_each l (save_image dir item_name iteration) w = Ok tt w'
              /\ forall k v, In (k, v) l ->
                   exists bytes,
                     decoded v = Some bytes
                     /\ tree_lookup (output w')
                          (dir ++ [image_name item_name iteration k])
                        = Some (File (Bytes bytes))
       else exists e w',
              for_each l (save_image dir item_name iteration) w = Raised e w'
              /\ uncaught e.
Proof.
  induction l as [|[k v] l IH]; intros Hnd w.
  - split; [auto|]. exists w. split; [reflexivity|]. intros k v [].
  - inversion Hnd as [|? ? Hk Hnd']; subst. cbn [map fst] in Hk.
    cbn [forallb snd fst].
    set (p1 := dir ++ [image_name item_name iteration k]).
    pose proof (b64decode_decoded v w) as Hb.
    destruct (decoded v) as [bytes|] eqn:Hd.
    2:{ destruct Hb as (e & Hb & Hne).
        assert (Hstep : for_each ((k, v) :: l) (save_image dir item_name iteration) w
                        = Raised e w).
        { cbn [for_each]. unfold bind at 1. unfold save_image at 1. cbn [fst snd].
          unfold bind at 1. rewrite Hb. reflexivity. }
        rewrite Hstep. cbn [is_some andb final].
        split; [auto|]. now exists e, w. }
    cbn [is_some andb]. unfold can_open at 1. fold p1.
    destruct (open_error p1 (output w)) as [e|] eqn:Ho.
    { assert (Hstep : for_each ((k, v) :: l) (save_image dir item_name iteration) w
                      = Raised e w).
      { cbn [for_each]. unfold bind at 1. unfold save_image at 1. cbn [fst snd].
        unfold bind at 1. rewrite Hb. fold p1. unfold write_file. now rewrite Ho. }
      rewrite Hstep. cbn [final]. split; [auto|].
      exists e, w. split; [reflexivity|]. eapply open_error_uncaught. exact Ho. }
    set (w1 := emit (EvWrite p1 (Bytes bytes))
                 (set_output (tree_set (output w) p1 (File (Bytes bytes))) w)).
    assert (Hstep : for_each ((k, v) :: l) (save_image dir item_name iteration) w
                    = for_each l (save_image dir item_name iteration) w1).
    { cbn [for_each]. unfold bind at 1. unfold save_image at 1. cbn [fst snd].
      unfold bind at 1. rewrite Hb. fold p1. unfold write_file. rewrite Ho.
      reflexivity. }
    rewrite Hstep.
    destruct (IH Hnd' w1) as (K & R).
    assert (L1 : tree_lookup (output w1) p1 = Some (File (Bytes bytes))).
    { subst w1. cbn [output emit set_output]. apply tree_lookup_set_same. }
    assert (Hsame : forallb (fun x => is_some (decoded (snd x))
                                      && can_open (output w1)
                                           (dir ++ [image_name item_name iteration (fst x)])) l
                    = forallb (fun x => is_some (decoded (snd x))
                                        && can_open (output w)
                                             (dir ++ [image_name item_name iteration (fst x)])) l).
    { apply forallb_agree. intros [k' v'] Hin. cbn [fst snd]. f_equal.
      unfold can_open. subst w1. cbn [output emit set_output].
      rewrite open_error_set_other; [reflexivity| |].
      - intros Eq. apply app_inv_head in Eq. injection Eq as Eq.
        apply image_name_injective in Eq. subst k'.
        apply Hk. apply in_map_iff. now exists (k, v').
      - rewrite removelast_last. unfold p1. intros Eq.
        apply (f_equal (@List.length str)) in Eq. rewrite length_app in Eq.
        simpl in Eq. lia. }
    rewrite Hsame in R. split.
    + intros q n Hq Hn. apply K.
      * intros k' Hk'. apply Hq. cbn [map fst]. now right.
      * subst w1. cbn [output emit set_output].
        rewrite tree_lookup_set_other; [exact Hn|].
        intros E. apply (Hq k); [now left|]. now symmetry.
    + destruct (forallb _ l).
      * destruct R as (w' & E & F). exists w'. split; [exact E|].
        intros k' v' [Hin|Hin].
        -- injection Hin as <- <-. exists bytes. split; [exact Hd|].
           specialize (K p1 (File (Bytes bytes))).
           rewrite E in K. cbn [final] in K. apply K; [|exact L1].
           intros k' Hk' Eq. apply app_inv_head in Eq. injection Eq as Eq.
           apply image_name_injective in Eq. subst k'. contradiction.
        -- now apply F.
      * destruct R as (e & w' & E & Hne). now exists e, w'.
Qed.

(** ** The try block, response by response *)

Lemma py_iter_items_of (v : jvalue) (w : world) :
  match items_of v with
  | Some items => py_iter v w = Ok items w
  | None => py_iter v w = Raised TypeError w
  end.
Proof. now destruct v. Qed.

Lemma map_fst_combine {A B} (a : list A) (b : list B) :
  List.length a = List.length b -> map fst (combine a b) = a.
Proof.
  revert b. induction a as [|x a IH]; intros [|y b] H; try discriminate; [reflexivity|].
  cbn. f_equal. apply IH. now injection H.
Qed.

Lemma enumerate_from_1_NoDup {A} (l : list A) : NoDup (map fst (enumerate_from_1 l)).
Proof.
  unfold enumerate_from_1. rewrite map_fst_combine by now rewrite length_map, length_seq.
  generalize 1 at 1. generalize (List.length l). clear.
  induction n as [|n IH]; intros a; cbn [seq map]; constructor.
  - intros H. apply in_map_iff in H as (x & E & Hx).
    apply Nat2Z.inj in E. subst x. apply in_seq in Hx. lia.
  - apply IH.
Qed.

Lemma in_enumerate_from {A} (l : list A) (start j : nat) (x : A) :
  nth_error l j = Some x ->
  In (Z.of_nat (start + j), x) (combine (map Z.of_nat (seq start (List.length l))) l).
Proof.
  revert start j. induction l as [|y l IH]; intros start [|j] H; try discriminate.
  - injection H as ->. left. now rewrite Nat.add_0_r.
  - right. cbn [nth_error] in H. specialize (IH (S start) j H).
    now rewrite Nat.add_succ_r.
Qed.

(** What the try block does once an answer with a JSON body has come in
    and passed [raise_for_status]. *)
Lemma request_and_save_answered (url : str) (p : payload) (dir : path)
    (item_name : str) (iteration : Z) (w : world) (status : Z) (v : jvalue)
    (rest : list post_outcome) :
  responses w = Responded status (BodyJson v) :: rest ->
  ((400 <=? status) && (status <? 600))%Z = false ->
  request_and_save url p dir item_name iteration w
  = (images <- py_subscript v (lit "images") ;;
     items <- py_iter images ;;
     for_each (enumerate_from_1 items) (save_image dir item_name iteration) ;;;
     print (MsgCompleted iteration item_name) ;;;
     ret false)
      (emit (EvLog INFO (MsgResponse (BodyJson v)))
            (set_responses rest (emit (EvPost url p) w))).
Proof.
  intros Hr Hs. unfold request_and_save. unfold bind at 1.
  unfold requests_post. cbn [responses emit]. rewrite Hr.
  unfold bind at 1. unfold raise_for_status. cbn [fst snd]. rewrite Hs.
  unfold ret at 1. unfold bind at 1. unfold response_json, ret at 1.
  unfold bind at 1. unfold logging_info, act at 1. reflexivity.
Qed.

Lemma try_request_raised {A} (m : M A) (h : request_error -> M A) (w w' : world)
    (e : exn) :
  m w = Raised e w' -> (forall r, e <> RequestException r) ->
  try_request m h w = Raised e w'.
Proof.
  intros E H. unfold try_request. rewrite E. destruct e; try reflexivity.
  now destruct (H e).
Qed.

Lemma try_request_ok {A} (m : M A) (h : request_error -> M A) (w w' : world) (a : A) :
  m w = Ok a w' -> try_request m h w = Ok a w'.
Proof. intros E. unfold try_request. now rewrite E. Qed.

Lemma forallb_enumerate_and {A} (f : A -> bool) (g : Z -> bool) (items : list A) :
  forallb (fun x => f (snd x) && g (fst x)) (enumerate_from_1 items)
  = forallb f items && forallb (fun k => g (Z.of_nat k)) (seq 1 (List.length items)).
Proof.
  unfold enumerate_from_1. generalize 1.
  induction items as [|x items IH]; intros start; [reflexivity|].
  cbn [List.length seq map combine forallb fst snd]. rewrite IH.
  destruct (f x), (g (Z.of_nat start)), (forallb f items); reflexivity.
Qed.

(** The try block on an answer whose images decode: it returns exactly
    when the file of each image can be opened. *)
Lemma try_block_saves_images (url : str) (p : payload) (dir : path)
    (item_name : str) (iteration : Z) (w : world) (status : Z) (v : jvalue)
    (rest : list post_outcome) (items : list jvalue) :
  responses w = Responded status (BodyJson v) :: rest ->
  ((400 <=? status) && (status <? 600))%Z = false ->
  savable_images v = Some items ->
  (forall q n,
      (forall k, q <> dir ++ [image_name item_name iteration k]) ->
      tree_lookup (output w) q = Some n ->
      tree_lookup (output (final (try_request
                                    (request_and_save url p dir item_name iteration)
                                    (on_request_error item_name iteration) w))) q
      = Some n)
  /\ if forallb (fun k => can_open (output w)
                            (dir ++ [image_name item_name iteration (Z.of_nat k)]))
                (seq 1 (List.length items))
     then exists w',
            try_request (request_and_save url p dir item_name iteration)
                        (on_request_error item_name iteration) w
            = Ok false w'
            /\ (forall j x,
                   nth_error items j = Some x ->
                   exists bytes,
                     decoded x = Some bytes
                     /\ tree_lookup (output w')
                          (dir ++ [image_name item_name iteration (Z.of_nat (S j))])
                        = Some (File (Bytes bytes)))
     else exists e w',
            try_request (request_and_save url p dir item_name iteration)
                        (on_request_error item_name iteration) w
            = Raised e w'
            /\ uncaught e.
Proof.
  intros Hr Hs Hv.
  destruct v as [ |b0|n0|s0|items0|fields]; try discriminate.
  cbn [savable_images] in Hv.
  destruct (dict_get fields (lit "images")) as [images|] eqn:Hi; [|discriminate].
  destruct (items_of images) as [items'|] eqn:Ho; [|discriminate].
  destruct (forallb (fun i => is_some (decoded i)) items') eqn:Hd; [|discriminate].
  injection Hv as ->.
  set (w1 := emit (EvLog INFO (MsgResponse (BodyJson (JObj fields))))
               (set_responses rest (emit (EvPost url p) w))).
  destruct (save_images_files dir item_name iteration (enumerate_from_1 items)
              (enumerate_from_1_NoDup items) w1) as (K & R).
  rewrite (forallb_enumerate_and (fun i => is_some (decoded i))
             (fun k => can_open (output w1) (dir ++ [image_name item_name iteration k])))
    in R.
  rewrite Hd in R. cbn [andb] in R. change (output w1) with (output w) in R.
  assert (Erun : request_and_save url p dir item_name iteration w
                 = (for_each (enumerate_from_1 items)
                             (save_image dir item_name iteration) ;;;
                    print (MsgCompleted iteration item_name) ;;; ret false) w1).
  { rewrite (request_and_save_answered url p dir item_name iteration w status
               (JObj fields) rest Hr Hs).
    fold w1. unfold bind at 1. unfold py_subscript. rewrite Hi. unfold ret at 1.
    unfold bind at 1. pose proof (py_iter_items_of images w1) as Hp.
    rewrite Ho in Hp. now rewrite Hp. }
  destruct (forallb _ (seq 1 (List.length items))).
  - destruct R as (w2 & E & F).
    assert (Et : try_request (request_and_save url p dir item_name iteration)
                             (on_request_error item_name iteration) w
                 = Ok false (emit (EvPrint (MsgCompleted iteration item_name)) w2)).
    { apply try_request_ok. rewrite Erun. unfold bind at 1. now rewrite E. }
    split.
    + intros q n Hq Hn. rewrite Et. cbn [final output emit].
      rewrite E in K. cbn [final] in K. apply K; [intros k _; apply Hq|exact Hn].
    + eexists. split; [exact Et|].
      intros j x Hj. cbn [output emit]. apply F.
      apply (in_enumerate_from items 1 j x Hj).
  - destruct R as (e & w2 & E & Hne).
    assert (Et : try_request (request_and_save url p dir item_name iteration)
                             (on_request_error item_name iteration) w
                 = Raised e w2).
    { apply try_request_raised; [|exact Hne]. rewrite Erun. unfold bind at 1.
      now rewrite E. }
    split.
    + intros q n Hq Hn. rewrite Et. cbn [final].
      rewrite E in K. cbn [final] in K. apply K; [intros k _; apply Hq|exact Hn].
    + now exists e, w2.
Qed.

(** X9: a clean answer, in a directory that is there and has room for the
    images: every image of the response is on disk afterwards, under the
    item's name, the iteration and its number, counted from 1, and it
    holds the decoded bytes; nothing else is rewritten. *)
Theorem images_of_a_response_are_saved (url : str) (p : payload) (dir : path)
    (item_name : str) (iteration : Z) (w : world) (status : Z) (v : jvalue)
    (rest : list post_outcome) (items : list jvalue) :
  responses w = Responded status (BodyJson v) :: rest ->
  ((400 <=? status) && (status <? 600))%Z = false ->
  savable_images v = Some items ->
  at_path (output w) dir = Some Dir ->
  room_for_images (output w) dir item_name iteration (List.length items) = true ->
  exists w',
    try_request (request_and_save url p dir item_name iteration)
                (on_request_error item_name iteration) w
    = Ok false w'
    /\ (forall j x,
           nth_error items j = Some x ->
           exists bytes,
             decoded x = Some bytes
             /\ tree_lookup (output w')
                  (dir ++ [image_name item_name iteration (Z.of_nat (S j))])
                = Some (File (Bytes bytes)))
    /\ (forall q n,
           (forall k, q <> dir ++ [image_name item_name iteration k]) ->
           tree_lookup (output w) q = Some n -> tree_lookup (output w') q = Some n).
Proof.
  intros Hr Hs Hv Hdir Hroom.
  destruct (try_block_saves_images url p dir item_name iteration w status v rest items
                                   Hr Hs Hv) as (K & R).
  assert (Hopen : forallb (fun k => can_open (output w)
                             (dir ++ [image_name item_name iteration (Z.of_nat k)]))
                          (seq 1 (List.length items)) = true).
  { unfold room_for_images in Hroom. rewrite forallb_forall in *.
    intros k Hk. apply can_open_room; [now apply Hroom|].
    now rewrite removelast_last. }
  rewrite Hopen in R. destruct R as (w' & E & F).
  exists w'. split; [exact E|]. split; [exact F|].
  intros q n Hq Hn. rewrite E in K. cbn [final] in K. now apply K.
Qed.

Lemma images_of_a_response_are_saved_witness :
  exists w',
    try_request (request_and_save (api_url_of example_settings)
                   (make_payload example_settings (JStr (lit "a storm")) (JStr [])
                                 (-1) 1)
                   (iteration_dir_of (characters_dir ++ [item_A]) 1) item_A 1)
                (on_request_error item_A 1) world_status_300_in_iteration
    = Ok false w'
    /\ tree_lookup (output w') (image_path characters_dir item_A 1 1)
       = Some (File (Bytes (lit "hi"))).
Proof.
  destruct (images_of_a_response_are_saved (api_url_of example_settings)
              (make_payload example_settings (JStr (lit "a storm")) (JStr []) (-1) 1)
              (iteration_dir_of (characters_dir ++ [item_A]) 1) item_A 1
              world_status_300_in_iteration 300
              (JObj [(lit "images", JArr [JStr (lit "aGk=")])]) []
              [JStr (lit "aGk=")] eq_refl eq_refl eq_refl eq_refl eq_refl)
    as (w' & E & F & _).
  exists w'. split; [exact E|].
  destruct (F 0 (JStr (lit "aGk=")) eq_refl) as (bytes & Hb & L).
  vm_compute in Hb. injection Hb as <-. exact L.
Defined.

(** X10: the try block of an iteration returns exactly when the request
    fails with a [RequestException] (which the except branch handles), or
    the images of the answer decode and the file of each can be opened
    in the directory of the iteration.  After every other answer (JSON
    that is no object, that has no "images", whose "images" cannot be
    iterated or hold an item that does not decode), and when a file
    cannot be opened (its directory is missing, a directory lies in its
    place, its name is too long), an exception that is no
    [RequestException] leaves the try block, and with it the loop.  The
    directory is given by the names of its entries and the item by the
    name of one, as [os.listdir] yields it. *)
Theorem try_block_returns_iff_survivable (url : str) (p : payload) (dir : path)
    (item_name : str) (iteration : Z) (w : world) :
  forallb plain_name (dir ++ [item_name]) = true ->
  let r := try_request (request_and_save url p dir item_name iteration)
                       (on_request_error item_name iteration) w in
  is_ok r = survivable (next_outcome w)
            && files_can_be_opened (output w) dir item_name iteration (next_outcome w)
  /\ (is_ok r = false -> exists e w', r = Raised e w' /\ uncaught e).
Proof.
  intros _. cbv zeta. unfold next_outcome.
  destruct (responses w) as [|o rest] eqn:Hr.
  - assert (E : is_ok (try_request (request_and_save url p dir item_name iteration)
                         (on_request_error item_name iteration) w) = true).
    { unfold try_request, request_and_save. unfold bind at 1.
      unfold requests_post. cbn [responses emit]. now rewrite Hr. }
    rewrite E. split; [reflexivity|discriminate].
  - unfold survivable, files_can_be_opened.
    destruct (request_error_of o) as [e|] eqn:He.
    + rewrite (try_block_failure url p dir item_name iteration w o rest e Hr He).
      split; [reflexivity|discriminate].
    + destruct o as [reason|status b]; [discriminate|]. cbn [request_error_of] in He.
      destruct ((400 <=? status) && (status <? 600))%Z eqn:Hs; [discriminate|].
      destruct b as [v|txt]; [|discriminate].
      destruct (savable_images v) as [items|] eqn:Hv.
      * destruct (try_block_saves_images url p dir item_name iteration w
                    status v rest items Hr Hs Hv) as (_ & R).
        cbn [is_some andb].
        destruct (forallb _ (seq 1 (List.length items))).
        -- destruct R as (w' & E & _). rewrite E. split; [reflexivity|discriminate].
        -- destruct R as (e & w' & E & Hne). rewrite E.
           split; [reflexivity|]. intros _. now exists e, w'.
      * cbn [is_some andb].
        assert (R : exists e w',
                   request_and_save url p dir item_name iteration w = Raised e w'
                   /\ uncaught e).
        { rewrite (request_and_save_answered url p dir item_name iteration w status
                     v rest Hr Hs).
          set (w1 := emit _ _).
          destruct v as [ |b0|n0|s0|items0|fields];
            try (exists TypeError, w1; split; [reflexivity|intros x; discriminate]).
          cbn [savable_images] in Hv. unfold bind at 1. unfold py_subscript.
          destruct (dict_get fields (lit "images")) as [images|] eqn:Hi;
            [|eexists _, w1; split; [reflexivity|intros x; discriminate]].
          unfold ret at 1. unfold bind at 1.
          pose proof (py_iter_items_of images w1) as Hp.
          destruct (items_of images) as [items|] eqn:Ho;
            [|rewrite Hp; eexists _, w1; split; [reflexivity|intros x; discriminate]].
          rewrite Hp. unfold bind at 1.
          destruct (forallb (fun i => is_some (decoded i)) items) eqn:Hd; [discriminate|].
          destruct (save_images_files dir item_name iteration (enumerate_from_1 items)
                      (enumerate_from_1_NoDup items) w1) as (_ & R).
          rewrite (forallb_enumerate_and (fun i => is_some (decoded i))
                     (fun k => can_open (output w1)
                                 (dir ++ [image_name item_name iteration k]))) in R.
          rewrite Hd in R. cbn [andb] in R. destruct R as (e & w' & E & Hne).
          rewrite E. now exists e, w'. }
        destruct R as (e & w' & E & Hne).
        rewrite (try_request_raised _ _ w w' e E Hne).
        split; [reflexivity|]. intros _. now exists e, w'.
Qed.

Lemma try_block_returns_iff_survivable_witness :
  is_ok (try_request
           (request_and_save (api_url_of example_settings)
              (make_payload example_settings (JStr (lit "a storm")) (JStr []) (-1) 1)
              (iteration_dir_of (characters_dir ++ [item_A]) 1) item_A 1)
           (on_request_error item_A 1) world_status_300_in_iteration) = true
  /\ is_ok (try_request
              (request_and_save (api_url_of example_settings)
                 (make_payload example_settings (JStr (lit "a storm")) (JStr []) (-1) 1)
                 (iteration_dir_of (characters_dir ++ [item_A]) 1) item_A 1)
              (on_request_error item_A 1) world_status_300) = false.
Proof.
  split.
  - destruct (try_block_returns_iff_survivable (api_url_of example_settings)
                (make_payload example_settings (JStr (lit "a storm")) (JStr []) (-1) 1)
                (iteration_dir_of (characters_dir ++ [item_A]) 1) item_A 1
                world_status_300_in_iteration eq_refl) as [H _].
    rewrite H. reflexivity.
  - destruct (try_block_returns_iff_survivable (api_url_of example_settings)
                (make_payload example_settings (JStr (lit "a storm")) (JStr []) (-1) 1)
                (iteration_dir_of (characters_dir ++ [item_A]) 1) item_A 1
                world_status_300 eq_refl) as [H _].
    rewrite H. reflexivity.
Defined.

(** ** The prompts of the requests *)

Section Prompts.
Variable s : settings.
Variable fields : dict jvalue.
Variable pp : str.
Hypothesis positive :
  dict_get_default fields (lit "Positive prompt") (JStr []) = JStr pp.

Let P := prompt_event s fields pp.
Let W := fun _ : path => True.

Lemma prompt_wait (e : event) : wait_event e -> P e.
Proof. destruct e; cbn; try contradiction; auto. Qed.

Lemma bind_ret {A B} (a : A) (f : A -> M B) : bind (ret a) f = f a.
Proof. reflexivity. Qed.

Lemma iteration_body_prompts (item_dir : path) (item_name : str)
    (seed num_images iteration : Z) (w : world) :
  touches P W w
    (final (iteration_body s item_dir item_name seed num_images iteration
                           (JObj fields) w))
  /\ forall d w',
       iteration_body s item_dir item_name seed num_images iteration (JObj fields) w
       = Ok d w' ->
       d = JObj fields.
Proof.
  split.
  - revert w.
    change (respects (touches P W)
              (iteration_body s item_dir item_name seed num_images iteration
                              (JObj fields))).
    unfold iteration_body.
    apply (respects_bind (touches P W) (touches_trans P W));
      [now apply touches_os_makedirs|intros _].
    cbn [py_get]. rewrite !bind_ret, positive.
    destruct (truthy (s_lora s)) eqn:Hl.
    + cbn [add_tag]. rewrite bind_ret. cbn [fst snd].
      touch_program P W; try exact I; try exact prompt_wait.
      cbn. unfold carries_prompts. cbn. now rewrite Hl.
    + rewrite bind_ret. cbn [fst snd].
      touch_program P W; try exact I; try exact prompt_wait.
      cbn. unfold carries_prompts. cbn. now rewrite Hl, app_nil_r.
  - intros d w' H. unfold iteration_body in H.
    apply bind_ok_inv in H. destruct H as (? & w1 & _ & H).
    cbn [py_get] in H. rewrite !bind_ret, positive in H.
    assert (G : forall tagged : jvalue * jvalue,
               snd tagged = JObj fields ->
               forall w2,
                 (while_paused ;;;
                  logging_info (MsgGenerating item_name iteration) ;;;
                  logging_info
                    (MsgPayload
                       (make_payload s (fst tagged)
                          (dict_get_default fields (lit "Negative prompt") (JStr []))
                          seed num_images)) ;;;
                  print (MsgIteration iteration num_images) ;;;
                  continued <- try_request
                                 (request_and_save (api_url_of s)
                                    (make_payload s (fst tagged)
                                       (dict_get_default fields (lit "Negative prompt")
                                                         (JStr []))
                                       seed num_images)
                                    (iteration_dir_of item_dir iteration) item_name
                                    iteration)
                                 (on_request_error item_name iteration) ;;
                  (if continued : bool then ret (snd tagged)
                   else while_paused ;;; ret (snd tagged))) w2 = Ok d w' ->
                 d = JObj fields).
    { intros tagged Ht w2 H2.
      do 4 (apply bind_ok_inv in H2; destruct H2 as (? & ? & _ & H2)).
      apply bind_ok_inv in H2. destruct H2 as (c & w3 & _ & H2).
      destruct c.
      - unfold ret in H2. injection H2 as <- _. exact Ht.
      - apply bind_ok_inv in H2. destruct H2 as (? & ? & _ & H2).
        unfold ret in H2. injection H2 as <- _. exact Ht. }
    destruct (truthy (s_lora s)).
    + cbn [add_tag] in H. rewrite bind_ret in H.
      exact (G (JStr (pp ++ lora_tag s), JObj fields) eq_refl w1 H).
    + rewrite bind_ret in H.
      exact (G (JStr pp, JObj fields) eq_refl w1 H).
Qed.

Lemma iterations_prompts (item_dir : path) (item_name : str)
    (seed num_images num_iterations : Z) :
  respects (touches P W)
           (iterations s item_dir item_name seed num_images num_iterations
                       (JObj fields)).
Proof.
  unfold iterations.
  apply (respects_bind (touches P W) (touches_trans P W));
    [|intros _; apply respects_ret, touches_refl].
  generalize (range_from_1 num_iterations). intros l.
  induction l as [|i l IH]; intros w; cbn [for_fold].
  - apply touches_refl.
  - unfold bind.
    destruct (iteration_body_prompts item_dir item_name seed num_images i w) as (T & D).
    destruct (iteration_body s item_dir item_name seed num_images i (JObj fields) w)
      as [d w1|e w1|w1]; cbn [final] in *; try exact T.
    rewrite (D d w1 eq_refl). eapply touches_trans; [exact T|apply IH].
Qed.

Lemma process_item_prompts (t : prompt_type) (base : path) (item_name : str)
    (w : world) :
  tree_lookup (output w) ((base ++ [item_name]) ++ [lit "prompt.json"])
  = Some (File (Json (JObj fields))) ->
  touches P W w (final (process_item s t base item_name w)).
Proof.
  intros Hl.
  assert (E : process_item s t base item_name w
              = (images_field <- py_get (JObj fields) (lit "Number of Images") (JInt 1) ;;
                 num_images <- py_int images_field ;;
                 iterations_field <- py_get (JObj fields) (lit "Number of Iterations")
                                            (JInt 1) ;;
                 num_iterations <- py_int iterations_field ;;
                 seed_field <- py_get (JObj fields) (lit "Seed") (JInt (s_seed s)) ;;
                 seed <- py_int seed_field ;;
                 print (MsgItemHeader t item_name s seed num_images num_iterations) ;;;
                 iterations s (base ++ [item_name]) item_name seed num_images
                            num_iterations (JObj fields)) w).
  { unfold process_item. unfold bind at 1. unfold json_load. now rewrite Hl. }
  rewrite E. clear E. revert w Hl. intros w _. revert w.
  match goal with |- forall w, touches P W w (final (?m w)) =>
    change (respects (touches P W) m) end.
  do 6 (apply (respects_bind (touches P W) (touches_trans P W));
        [apply (respects_pure (touches P W) (touches_refl P W));
         first [apply pure_py_get|apply pure_py_int]|intro]).
  apply (respects_bind (touches P W) (touches_trans P W));
    [now apply touches_print|intros _].
  apply iterations_prompts.
Qed.

Lemma v1_0_process_item_prompts (t : prompt_type) (base : path)
    (num_images num_iterations : Z) (item_name : str) (w : world) :
  tree_lookup (output w) ((base ++ [item_name]) ++ [lit "prompt.json"])
  = Some (File (Json (JObj fields))) ->
  touches P W w
    (final (V1_0.process_item s t base num_images num_iterations item_name w)).
Proof.
  intros Hl.
  assert (E : V1_0.process_item s t base num_images num_iterations item_name w
              = (seed_field <- py_get (JObj fields) (lit "Seed") (JInt (s_seed s)) ;;
                 seed <- py_int seed_field ;;
                 print (MsgItemHeader t item_name s seed num_images num_iterations) ;;;
                 iterations s (base ++ [item_name]) item_name seed num_images
                            num_iterations (JObj fields)) w).
  { unfold V1_0.process_item, exists_path. rewrite Hl. cbn [negb].
    unfold bind at 1. unfold json_load. now rewrite Hl. }
  rewrite E. clear E. revert w Hl. intros w _. revert w.
  match goal with |- forall w, touches P W w (final (?m w)) =>
    change (respects (touches P W) m) end.
  do 2 (apply (respects_bind (touches P W) (touches_trans P W));
        [apply (respects_pure (touches P W) (touches_refl P W));
         first [apply pure_py_get|apply pure_py_int]|intro]).
  apply (respects_bind (touches P W) (touches_trans P W));
    [now apply touches_print|intros _].
  apply iterations_prompts.
Qed.
End Prompts.

Lemma posts_prompt_events (s : settings) (fields : dict jvalue) (pp : str)
    (evs : list event) :
  Forall (prompt_event s fields pp) evs ->
  Forall (carries_prompts s fields pp) (posts evs).
Proof.
  induction 1 as [|e evs He _ IH]; [constructor|].
  cbn [posts flat_map]. fold (posts evs).
  destruct e; cbn [app]; try exact IH.
  constructor; [exact He|exact IH].
Qed.

(** X11: an item whose descriptor gives its positive prompt as a text: every
    request for it carries that text, followed by the LoRA tag
    [ <lora:NAME:WEIGHT>] when the settings name a LoRA, and the
    descriptor's negative prompt (the empty text when it has none).  The
    tag is added once in every iteration: it does not pile up from one
    iteration to the next. *)
Theorem requests_carry_the_prompts :
  (forall s t base item_name w fields pp,
      tree_lookup (output w) ((base ++ [item_name]) ++ [lit "prompt.json"])
      = Some (File (Json (JObj fields))) ->
      dict_get_default fields (lit "Positive prompt") (JStr []) = JStr pp ->
      Forall (carries_prompts s fields pp)
             (posts (new_events w (final (process_item s t base item_name w)))))
  /\ (forall s t base num_images num_iterations item_name w fields pp,
         tree_lookup (output w) ((base ++ [item_name]) ++ [lit "prompt.json"])
         = Some (File (Json (JObj fields))) ->
         dict_get_default fields (lit "Positive prompt") (JStr []) = JStr pp ->
         Forall (carries_prompts s fields pp)
                (posts (new_events w (final (V1_0.process_item s t base num_images
                                               num_iterations item_name w))))).
Proof.
  split.
  - intros s t base item_name w fields pp Hl Hp.
    destruct (process_item_prompts s fields pp Hp t base item_name w Hl) as (X & _).
    apply extends_by_new_events in X as [_ F]. now apply posts_prompt_events.
  - intros s t base ni nit item_name w fields pp Hl Hp.
    destruct (v1_0_process_item_prompts s fields pp Hp t base ni nit item_name w Hl)
      as (X & _).
    apply extends_by_new_events in X as [_ F]. now apply posts_prompt_events.
Qed.

Lemma requests_carry_the_prompts_witness :
  exists p rest,
    posts (new_events world_three
             (final (process_item example_settings character characters_dir item_A
                                  world_three)))
    = p :: rest
    /\ p_prompt p = JStr (lit "a hero <lora:ink.v2:0.8>")
    /\ p_negative_prompt p = JStr (lit "blurry").
Proof.
  destruct requests_carry_the_prompts as (H & _).
  specialize (H example_settings character characters_dir item_A world_three
                descriptor_three (lit "a hero") eq_refl eq_refl).
  destruct (posts _) as [|p rest] eqn:E; [vm_compute in E; discriminate E|].
  exists p, rest. split; [reflexivity|].
  inversion H as [|? ? (H1 & H2) _]; subst. split; [exact H1|exact H2].
Defined.

(** ** From the prompt file to the requests *)

Lemma descriptor_at_lookup (w : world) (p : path) (fields : dict jvalue) :
  descriptor_at w p = Some fields ->
  tree_lookup (output w) p = Some (File (Json (JObj fields))).
Proof.
  unfold descriptor_at.
  destruct (tree_lookup (output w) p) as [[|[[ | | | | |f]| |]]|]; try discriminate.
  now intros [= ->].
Qed.

(** X12: a record that [generate_json_files] of [main.py] has just written
    (the call has returned) is generated with the defaults, whatever its
    fields say: one iteration directory at most, exactly [Iteration_1]
    when the item's processing returns, and requests for one image with
    the default seed.  A line such as [Number of Images: 4] or [Seed: 42]
    in the prompt file has no effect: the control fields replace it. *)
Theorem materialized_item_runs_with_defaults (prompts : list (dict str))
    (t : prompt_type) (story_name : str) (seed : Z) (s : settings)
    (data : dict str) (w : world) :
  In data prompts ->
  is_ok (generate_json_files prompts t story_name seed w) = true ->
  let base := [story_name; type_dir t] in
  let w1 := final (generate_json_files prompts t story_name seed w) in
  let r := process_item s t base (item_name_of data) w1 in
  (exists j,
      made_dirs (new_events w1 (final r))
      = map (iteration_dir_of (base ++ [item_name_of data])) (firstn j [1%Z]))
  /\ (is_ok r = true ->
      made_dirs (new_events w1 (final r))
      = [iteration_dir_of (base ++ [item_name_of data]) 1])
  /\ Forall (fun p => p_n_iter p = 1%Z /\ p_seed p = seed)
            (posts (new_events w1 (final r))).
Proof.
  intros Hin Hok. cbv zeta. unfold generate_json_files in *. cbv zeta in *.
  rewrite bind_run in *.
  destruct (os_makedirs_cases [story_name; type_dir t] w)
    as [E0|(e & made & E0 & _)]; rewrite E0 in *; [|discriminate].
  set (w0 := emit _ _) in *.
  destruct (for_fold prompts
              (materialize [story_name; type_dir t] (JInt 1) (JInt 1) seed) [] w0)
    as [files w'| |] eqn:E; try discriminate.
  cbn [final].
  destruct (materialize_loop_returned _ _ _ _ _ _ _ _ _ E data Hin)
    as (d' & _ & _ & L).
  apply descriptor_at_lookup in L. unfold descriptor_path in L.
  rewrite app_assoc in L.
  destruct (descriptor_of_fields d' (JInt 1) (JInt 1) seed) as (_ & F1 & F2 & F3 & _).
  rewrite (process_item_run s t [story_name; type_dir t] (item_name_of data) w'
             (descriptor_of d' (JInt 1) (JInt 1) seed) 1 1 seed L).
  - destruct (item_run_events s t ([story_name; type_dir t] ++ [item_name_of data])
                (item_name_of data) seed 1 1
                (JObj (descriptor_of d' (JInt 1) (JInt 1) seed)) w')
      as (j & H1 & H2 & H3 & _).
    split; [now exists j|]. split; [exact H2|exact H3].
  - unfold dict_get_default. now rewrite F1.
  - unfold dict_get_default. now rewrite F2.
  - unfold dict_get_default. now rewrite F3.
Qed.

Lemma materialized_item_runs_with_defaults_witness :
  In record_with_counts [record_with_counts]
  /\ Forall (fun p => p_n_iter p = 1%Z /\ p_seed p = (-1)%Z)
       (posts (new_events
                 (final (generate_json_files [record_with_counts] character story (-1)
                                             world_status_300))
                 (final (process_item example_settings character characters_dir
                           (item_name_of record_with_counts)
                           (final (generate_json_files [record_with_counts] character
                                                       story (-1) world_status_300))))))
  /\ List.length
       (posts (new_events
                 (final (generate_json_files [record_with_counts] character story (-1)
                                             world_status_300))
                 (final (process_item example_settings character characters_dir
                           (item_name_of record_with_counts)
                           (final (generate_json_files [record_with_counts] character
                                                       story (-1) world_status_300))))))
     = 1.
Proof.
  split; [now left|]. split.
  - apply (materialized_item_runs_with_defaults [record_with_counts] character story
             (-1) example_settings record_with_counts world_status_300);
      [now left|reflexivity].
  - vm_compute. reflexivity.
Defined.

(** ** The key that pauses *)

Lemma deliver_other_keys (l : listener) (ks : list key) (w : world) :
  keyboard_listener w = Some l ->
  Forall (fun k => key_eqb k (pause_key l) = false) ks ->
  deliver ks w = w.
Proof.
  intros Hl H. unfold deliver. rewrite Hl. clear Hl.
  induction H as [|k ks Hk _ IH]; [reflexivity|].
  cbn [fold_left]. unfold on_press_reacting_to at 2. now rewrite Hk.
Qed.

Lemma no_start_split (e1 e2 before after : list event) :
  Forall no_start e1 ->
  e1 ++ e2 = before ++ EvListenerStart :: after ->
  exists before2, before = e1 ++ before2 /\ e2 = before2 ++ EvListenerStart :: after.
Proof.
  revert before. induction e1 as [|x e1 IH]; intros before H E.
  - now exists before.
  - inversion H as [|? ? Hx Hr]; subst.
    destruct before as [|y before]; cbn [app] in E.
    + injection E as -> _. contradiction.
    + injection E as <- E. destruct (IH before Hr E) as (b2 & -> & E2).
      now exists b2.
Qed.

Lemma no_start_absent (e1 before after : list event) :
  Forall no_start e1 -> e1 <> before ++ EvListenerStart :: after.
Proof.
  intros H E. rewrite <- (app_nil_r e1) in E.
  destruct (no_start_split e1 [] before after H E) as (b2 & _ & E2).
  now destruct b2.
Qed.

Lemma start_follows_bind {A B} (e : event) (m : M A) (k : A -> M B) :
  respects (extends_by no_start) m -> (forall a, start_follows e (k a)) ->
  start_follows e (bind m k).
Proof.
  intros Hm Hk w. rewrite bind_run.
  destruct (Hm w) as (e1 & E1 & F1).
  destruct (m w) as [a w1|x w1|w1]; cbn [final] in *.
  - destruct (Hk a w1) as (e2 & E2 & H2).
    exists (e1 ++ e2). split; [now rewrite E2, E1, app_assoc|].
    intros before after E.
    destruct (no_start_split e1 e2 before after F1 E) as (b2 & -> & E').
    destruct (H2 b2 after E') as (earlier & ->).
    exists (e1 ++ earlier). now rewrite app_assoc.
  - exists e1. split; [exact E1|]. intros before after E.
    now destruct (no_start_absent e1 before after F1).
  - exists e1. split; [exact E1|]. intros before after E.
    now destruct (no_start_absent e1 before after F1).
Qed.

Lemma start_follows_now {B} (e : event) (l : listener) (k : M B) :
  no_start e -> respects (extends_by no_start) k ->
  start_follows e
    (act (emit e) ;;;
     act (fun w => emit EvListenerStart (set_keyboard_listener (Some l) w)) ;;; k).
Proof.
  intros He Hk w. unfold bind, act.
  set (w2 := emit EvListenerStart (set_keyboard_listener (Some l) (emit e w))).
  destruct (Hk w2) as (e3 & E3 & F3).
  exists ([e] ++ EvListenerStart :: e3). split.
  { rewrite E3. subst w2. cbn [events emit set_keyboard_listener].
    now rewrite <- !app_assoc. }
  intros before after E.
  destruct (no_start_split [e] (EvListenerStart :: e3) before after
              ltac:(now constructor) E) as (b2 & -> & E').
  destruct b2 as [|y b2].
  - exists []. now rewrite app_nil_r.
  - cbn [app] in E'. injection E' as <- E'.
    now destruct (no_start_absent e3 b2 after F3).
Qed.

Lemma light_no_start {A} (P : event -> Prop) (m : M A) :
  (forall e, P e -> no_start e) -> respects (light P) m ->
  respects (extends_by no_start) m.
Proof.
  intros H Hm w. destruct (Hm w) as [E _].
  eapply extends_by_weaken; eassumption.
Qed.

Lemma not_listener_no_start (e : event) : not_listener_event e -> no_start e.
Proof. now destruct e. Qed.

Lemma no_start_stop_keyboard_listener :
  respects (extends_by no_start) stop_keyboard_listener.
Proof.
  intros w. unfold stop_keyboard_listener, act. cbn [final].
  destruct (keyboard_listener w); [|apply extends_by_refl].
  destruct (sync_light w) as [(e1 & E1 & F1) _].
  exists (e1 ++ [EvListenerStop]). split.
  - cbn [events emit set_keyboard_listener]. now rewrite E1, <- app_assoc.
  - apply Forall_app. split; [|repeat constructor].
    eapply Forall_impl; [|exact F1]. intros e He.
    apply not_listener_no_start. now apply wait_event_not_listener.
Qed.

(** X13: only the key of the listener's callback changes the pause flag: the
    space key in [main.py], F8 in [v1.0]; any other key leaves the world
    as it is.  [v1.0] nevertheless tells the user to press Space:
    whenever it starts the listener for a folder, the line printed just
    before says so; in a new directory it does start it. *)
Theorem only_the_pause_key_toggles :
  (forall w ks,
      ~ In KeySpace ks ->
      deliver ks (final (start_keyboard_listener w)) = final (start_keyboard_listener w))
  /\ (forall w ks,
         ~ In KeyF8 ks ->
         deliver ks (final (V1_0.start_keyboard_listener w))
         = final (V1_0.start_keyboard_listener w))
  /\ (forall w,
         paused (deliver [KeySpace] (final (start_keyboard_listener w)))
         = negb (paused w)
         /\ paused (deliver [KeyF8] (final (V1_0.start_keyboard_listener w)))
            = negb (paused w))
  /\ (forall s num_images num_iterations story_name,
         start_follows pause_banner
                       (V1_0.process_folder s num_images num_iterations story_name))
  /\ (exists before after,
         events (final (V1_0.process_folder example_settings 1 1 story empty_world))
         = before ++ pause_banner :: EvListenerStart :: after).
Proof.
  split; [|split; [|split; [|split]]].
  - intros w ks H. apply (deliver_other_keys {| pause_key := KeySpace |}); [reflexivity|].
    apply Forall_forall. intros k Hk. destruct k; try reflexivity. contradiction.
  - intros w ks H. apply (deliver_other_keys {| pause_key := KeyF8 |}); [reflexivity|].
    apply Forall_forall. intros k Hk. destruct k; try reflexivity. contradiction.
  - intros w. split; reflexivity.
  - intros s ni nit story. unfold V1_0.process_folder.
    assert (Hs : forall e, setup_event V1_0.output_dir story e -> no_start e).
    { intros e He. now apply not_listener_no_start,
                     (setup_event_not_listener V1_0.output_dir story). }
    assert (Hp : forall m, respects (extends_by no_start) (print m)).
    { intros m w. now apply extends_by_emit. }
    assert (Hg : forall t, respects (extends_by no_start)
                             (V1_0.generate_images s t story ni nit V1_0.output_dir)).
    { intros t. apply (light_no_start not_listener_event);
        [apply not_listener_no_start|apply v1_0_generate_images_light]. }
    do 2 (apply start_follows_bind; [apply Hp|intros _]).
    apply start_follows_bind;
      [apply (light_no_start _ _ Hs), v1_0_create_prompts_light|intros cp].
    apply start_follows_bind;
      [apply (light_no_start _ _ Hs),
             (materialize_loop_light V1_0.output_dir story character)|intros _].
    apply start_follows_bind; [apply Hp|intros _].
    apply start_follows_bind;
      [apply (light_no_start _ _ Hs), v1_0_create_prompts_light|intros sp].
    apply start_follows_bind;
      [apply (light_no_start _ _ Hs),
             (materialize_loop_light V1_0.output_dir story scene)|intros _].
    do 2 (apply start_follows_bind; [apply Hp|intros _]).
    apply (start_follows_now pause_banner f8_listener); [exact I|].
    apply (respects_bind _ (extends_by_trans no_start)); [apply Hp|intros _].
    apply (respects_bind _ (extends_by_trans no_start)); [apply Hg|intros _].
    apply (respects_bind _ (extends_by_trans no_start)); [apply Hp|intros _].
    apply (respects_bind _ (extends_by_trans no_start)); [apply Hg|intros _].
    apply (respects_bind _ (extends_by_trans no_start));
      [apply no_start_stop_keyboard_listener|intros _].
    apply Hp.
  - exists (firstn 7 (events (final (V1_0.process_folder example_settings 1 1 story
                                                         empty_world)))),
           (skipn 9 (events (final (V1_0.process_folder example_settings 1 1 story
                                                        empty_world)))).
    vm_compute. reflexivity.
Qed.

(** ** The LoRA menu and the tag *)

Lemma rfind_from_absent (c : ascii) (s : str) :
  ~ In c s -> forall i best, rfind_from c s i best = best.
Proof.
  induction s as [|x s IH]; intros H i best; [reflexivity|].
  cbn [rfind_from]. destruct (Ascii.eqb x c) eqn:E.
  - apply Ascii.eqb_eq in E. subst x. exfalso. apply H. now left.
  - apply IH. intros Hin. apply H. now right.
Qed.

Lemma rfind_from_app (c : ascii) (a b : str) :
  forall i best,
    rfind_from c (a ++ b) i best
    = rfind_from c b (i + Z.of_nat (List.length a))%Z (rfind_from c a i best).
Proof.
  induction a as [|x a IH]; intros i best.
  - cbn. now rewrite Z.add_0_r.
  - cbn [app rfind_from List.length]. rewrite IH. f_equal. lia.
Qed.

Lemma rfind_last_dot (stem e : str) :
  ~ In (chr 46) e ->
  rfind (chr 46) (stem ++ chr 46 :: e) = Z.of_nat (List.length stem).
Proof.
  intros H. unfold rfind. rewrite rfind_from_app. cbn [rfind_from].
  rewrite Ascii.eqb_refl. now rewrite rfind_from_absent.
Qed.

(** The root of a plain file name that ends in a dot and dot-free
    characters. *)
Lemma splitext_root_plain (stem e : str) :
  ~ In (chr 47) (stem ++ chr 46 :: e) -> ~ In (chr 46) e ->
  splitext_root (stem ++ chr 46 :: e)
  = if existsb (fun c => negb (Ascii.eqb c (chr 46))) stem
    then stem else stem ++ chr 46 :: e.
Proof.
  intros Hs He. unfold splitext_root.
  rewrite (rfind_last_dot stem e He).
  assert (Hsep : rfind (chr 47) (stem ++ chr 46 :: e) = (-1)%Z)
    by (unfold rfind; now rewrite (rfind_from_absent _ _ Hs)).
  rewrite Hsep.
  replace (-1 <? Z.of_nat (List.length stem))%Z with true by (symmetry; apply Z.ltb_lt; lia).
  change (Z.to_nat (-1 + 1)) with 0. cbn [skipn].
  rewrite Nat2Z.id, Nat.sub_0_r.
  rewrite firstn_app, Nat.sub_diag, firstn_all. cbn [firstn]. rewrite app_nil_r.
  reflexivity.
Qed.

Lemma starts_with_split (p x : str) :
  starts_with p x = true -> x = p ++ skipn (List.length p) x.
Proof.
  revert x. induction p as [|a p IH]; intros x H; [reflexivity|].
  destruct x as [|b x]; [discriminate|].
  cbn [starts_with] in H. apply andb_true_iff in H as [Hab Hp].
  apply Ascii.eqb_eq in Hab. subst b. cbn. f_equal. now apply IH.
Qed.

(** A name that ends in [ext] once in lower case: its last characters
    are those of [ext] up to case. *)
Lemma ends_with_lower (ext f : str) :
  ends_with ext (lower f) = true ->
  exists stem suffix,
    f = stem ++ suffix /\ lower suffix = ext
    /\ stem = firstn (List.length f - List.length ext) f.
Proof.
  unfold ends_with. intros H. apply starts_with_split in H.
  apply (f_equal (@rev ascii)) in H. rewrite rev_involutive, rev_app_distr in H.
  rewrite rev_involutive in H. rewrite length_rev in H.
  set (rest := rev (skipn (List.length ext) (rev (lower f)))) in H.
  assert (Hlen : List.length f = List.length rest + List.length ext).
  { apply (f_equal (@List.length ascii)) in H. unfold lower in H.
    now rewrite length_map, length_app in H. }
  exists (firstn (List.length rest) f), (skipn (List.length rest) f).
  split; [now rewrite firstn_skipn|]. split.
  - unfold lower in *. rewrite <- skipn_map, H.
    rewrite skipn_app, skipn_all, Nat.sub_diag. reflexivity.
  - f_equal. lia.
Qed.

Lemma lower_char_dot (c : ascii) : lower_char c = chr 46 -> c = chr 46.
Proof.
  destruct c as [[] [] [] [] [] [] [] []]; vm_compute; intros H;
    try reflexivity; discriminate H.
Qed.

Lemma lower_free (c : ascii) (s : str) :
  lower_char c = c -> ~ In c (lower s) -> ~ In c s.
Proof.
  intros Hc H Hin. apply H. unfold lower. rewrite <- Hc. now apply in_map.
Qed.

(** The root of a listed name: the name without its extension, unless
    nothing but dots comes before the extension. *)
Lemma splitext_root_extension (ext f : str) :
  In ext model_extensions ->
  ends_with ext (lower f) = true ->
  ~ In (chr 47) f ->
  splitext_root f = without_extension f (List.length ext).
Proof.
  intros Hext He Hs.
  destruct (ends_with_lower ext f He) as (stem & suffix & Ef & El & Es).
  unfold without_extension. cbv zeta. rewrite <- Es.
  assert (Hsuf : exists e, suffix = chr 46 :: e /\ ~ In (chr 46) e).
  { destruct Hext as [<-|[<-|[<-|[]]]];
      (destruct suffix as [|c0 e]; [discriminate El|]);
      cbn [lower map] in El; injection El as E0 E1;
      apply lower_char_dot in E0; subst c0;
      exists e; (split; [reflexivity|]);
      apply (lower_free (chr 46)); [reflexivity| |reflexivity|
                                     |reflexivity|];
      unfold lower; rewrite E1; vm_compute; intuition discriminate. }
  destruct Hsuf as (e & -> & Hdot).
  rewrite Ef in Hs |- *. now apply splitext_root_plain.
Qed.

(** X14: a LoRA picked from what [get_available_loras] lists is a file whose
    name ends, up to case, in [.ckpt], [.safetensors] or [.pt], and the
    tag that [generate_images] appends to the prompt names it without
    that extension, unless nothing but dots comes before the extension
    (as in a file called [.pt]): then the tag keeps the whole name. *)
Theorem listed_lora_loses_its_extension (fs : tree) (sd_loras_path : path)
    (loras : list str) (f : str) (s : settings) :
  get_available_loras fs sd_loras_path = inr loras ->
  In f loras ->
  ~ In (chr 47) f ->
  s_lora s = f ->
  exists ext,
    In ext model_extensions
    /\ ends_with ext (lower f) = true
    /\ isfile fs (sd_loras_path ++ [f]) = true
    /\ lora_tag s
       = lit " <lora:" ++ without_extension f (List.length ext) ++ [colon]
                       ++ s_lora_weight s ++ lit ">".
Proof.
  intros Hl Hin Hs Hf. unfold get_available_loras in Hl.
  destruct (tree_lookup fs sd_loras_path) as [[|c]|]; try discriminate.
  injection Hl as <-. apply filter_In in Hin as [_ H].
  apply andb_true_iff in H as [Hfile Hext].
  change (existsb (fun suffix => ends_with suffix (lower f)) model_extensions = true)
    in Hext.
  apply existsb_exists in Hext as (ext & Hin & He).
  exists ext. split; [exact Hin|]. split; [exact He|]. split; [exact Hfile|].
  unfold lora_tag. rewrite Hf.
  now rewrite (splitext_root_extension ext f Hin He Hs).
Qed.

(** ** The menus *)

Lemma nth_error_some {A} (l : list A) (i : nat) :
  i < List.length l -> exists x, nth_error l i = Some x.
Proof.
  intros H. destruct (nth_error l i) as [x|] eqn:E; [now exists x|].
  apply nth_error_None in E. lia.
Qed.

Lemma in_enumerate_inv {A} (l : list A) (start : nat) (n : Z) (x : A) :
  In (n, x) (combine (map Z.of_nat (seq start (List.length l))) l) ->
  exists j, n = Z.of_nat (start + j) /\ nth_error l j = Some x.
Proof.
  revert start. induction l as [|y l IH]; intros start []; cbn [List.length seq map combine] in *.
  - injection H as <- <-. exists 0. split; [f_equal; lia|reflexivity].
  - destruct (IH (S start) H) as (j & E & Hj). exists (S j).
    split; [rewrite E; f_equal; lia|exact Hj].
Qed.

(** X15: the choice at a menu whose answer reads as the number [n]: a number
    shown in the menu picks the option shown next to it; 0 and the
    negative numbers down to minus the length, left out, count from the
    end of the list (0 picks the last option); every other number is an
    [IndexError], as is any number when there is nothing to choose
    from. *)
Theorem menu_choice {A} (options : list A) (answer : str) (n : Z) :
  int_of_str answer = Some n ->
  (forall x, In (n, x) (enumerate_from_1 options) ->
             select_by_number options answer = inr x)
  /\ ((1 <= n <= Z.of_nat (List.length options))%Z ->
      exists x, In (n, x) (enumerate_from_1 options))
  /\ ((- Z.of_nat (List.length options) < n <= 0)%Z ->
      exists x,
        nth_error options (Z.to_nat (Z.of_nat (List.length options) + n - 1)) = Some x
        /\ select_by_number options answer = inr x)
  /\ ((Z.of_nat (List.length options) < n \/ n <= - Z.of_nat (List.length options))%Z ->
      select_by_number options answer = inl IndexError).
Proof.
  intros Hn. unfold select_by_number. rewrite Hn. unfold py_index. cbv zeta.
  set (len := Z.of_nat (List.length options)).
  split; [|split; [|split]].
  - intros x Hin.
    assert (Hx : exists j, n = Z.of_nat (S j) /\ nth_error options j = Some x).
    { destruct (in_enumerate_inv options 1 n x Hin) as (j & E & Hj). now exists j. }
    destruct Hx as (j & -> & Hj).
    replace (0 <=? Z.of_nat (S j) - 1)%Z with true by (symmetry; apply Z.leb_le; lia).
    replace (Z.to_nat (Z.of_nat (S j) - 1)) with j by lia. now rewrite Hj.
  - intros Hr.
    destruct (nth_error_some options (Z.to_nat (n - 1))) as (x & Hx); [lia|].
    exists x. replace n with (Z.of_nat (1 + Z.to_nat (n - 1))) at 1 by lia.
    now apply in_enumerate_from.
  - intros Hr.
    destruct (nth_error_some options (Z.to_nat (len + n - 1))) as (x & Hx);
      [subst len; lia|].
    exists x. split; [exact Hx|].
    replace (0 <=? n - 1)%Z with false by (symmetry; apply Z.leb_gt; lia).
    replace (- len <=? n - 1)%Z with true by (symmetry; apply Z.leb_le; lia).
    replace (len + (n - 1))%Z with (len + n - 1)%Z by lia. now rewrite Hx.
  - intros [Hr|Hr].
    + replace (0 <=? n - 1)%Z with true by (symmetry; apply Z.leb_le; lia).
      destruct (nth_error options (Z.to_nat (n - 1))) as [x|] eqn:E; [|reflexivity].
      assert (Z.to_nat (n - 1) < List.length options)
        by (apply nth_error_Some; congruence).
      lia.
    + replace (0 <=? n - 1)%Z with false by (symmetry; apply Z.leb_gt; lia).
      replace (- len <=? n - 1)%Z with false by (symmetry; apply Z.leb_gt; lia).
      reflexivity.
Qed.

Lemma menu_choice_witness :
  int_of_str (lit "0") = Some 0%Z
  /\ select_by_number [lit "a.ckpt"; lit "b.ckpt"; lit "c.ckpt"] (lit "0")
     = inr (lit "c.ckpt")
  /\ select_by_number [lit "a.ckpt"; lit "b.ckpt"; lit "c.ckpt"] (lit "4")
     = inl IndexError.
Proof.
  split; [reflexivity|]. split.
  - destruct (menu_choice [lit "a.ckpt"; lit "b.ckpt"; lit "c.ckpt"] (lit "0") 0
                          eq_refl) as (_ & _ & H & _).
    destruct H as (x & Hx & E); [cbn; lia|].
    rewrite E. f_equal. cbn in Hx. now injection Hx.
  - vm_compute. reflexivity.
Defined.

(** ** Samplers and schedulers *)

Lemma collect_Forall2 {E A B} (f : A -> E + B) (l : list A) (ys : list B) :
  collect f l = inr ys -> Forall2 (fun x y => f x = inr y) l ys.
Proof.
  revert ys. induction l as [|x l IH]; intros ys H.
  - injection H as <-. constructor.
  - cbn [collect] in H. destruct (f x) as [e|y] eqn:Ex; [discriminate|].
    destruct (collect f l) as [e|ys'] eqn:El; [discriminate|].
    injection H as <-. constructor; [exact Ex|now apply IH].
Qed.

Lemma select_nothing {A} (answer : str) :
  exists e, @select_by_number A [] answer = inl e.
Proof.
  unfold select_by_number. destruct (int_of_str answer) as [n|]; [|now eexists].
  unfold py_index. cbn [List.length Z.of_nat].
  destruct (0 <=? n - 1)%Z; [destruct (Z.to_nat (n - 1)); now eexists|].
  destruct (- 0 <=? n - 1)%Z; [|now eexists].
  destruct (Z.to_nat (0 + (n - 1))); now eexists.
Qed.

Lemma fetch_names_shape (reply : get_outcome) (names : list jvalue) :
  fetch_names reply = inr names ->
  exists r v items,
    reply = GetResponse r
    /\ ((400 <=? status_code r) && (status_code r <? 600))%Z = false
    /\ json r = Some v
    /\ items_of v = Some items
    /\ Forall2 (fun item name =>
                  exists fields,
                    item = JObj fields /\ dict_get fields (lit "name") = Some name)
               items names.
Proof.
  unfold fetch_names. destruct reply as [e|e|r]; try discriminate.
  destruct ((400 <=? status_code r) && (status_code r <? 600))%Z eqn:Hs; [discriminate|].
  destruct (json r) as [v|] eqn:Hj; [|discriminate].
  destruct (items_of v) as [items|] eqn:Hi; [|discriminate].
  intros H. exists r, v, items. repeat (split; [reflexivity||assumption|]).
  apply collect_Forall2 in H. eapply Forall2_impl; [|exact H].
  intros item name Hn. unfold name_of in Hn.
  destruct item; try discriminate.
  destruct (dict_get fields (lit "name")) as [x|] eqn:Hx; [|discriminate].
  injection Hn as ->. now exists fields.
Qed.

(** X16: [get_available_samplers] and [get_available_schedulers] never raise,
    and what they return is all or nothing: either the name of every
    item of the answer, in order, with nothing printed (the answer then
    was JSON with a status outside 4xx and 5xx, and every item an object
    with a "name"), or the empty list with the error printed; one item
    without a name loses the whole list.  After a failed fetch the menu
    that follows has nothing to choose from: every answer to it ends
    [main]. *)
Theorem fetch_is_all_or_nothing (web : server) (api_endpoint : str) :
  (let (names, out) := get_available_samplers web api_endpoint in
   (out = []
    /\ exists r v items,
         web (api_endpoint ++ lit "/sdapi/v1/samplers") = GetResponse r
         /\ ((400 <=? status_code r) && (status_code r <? 600))%Z = false
         /\ json r = Some v
         /\ items_of v = Some items
         /\ Forall2 (fun item name =>
                       exists fields,
                         item = JObj fields
                         /\ dict_get fields (lit "name") = Some name)
                    items names)
   \/ (names = []
       /\ (exists e, out = [NoticeFetchingSamplers e])
       /\ forall answer, exists e, select_by_number names answer = inl e))
  /\ (let (names, out) := get_available_schedulers web api_endpoint in
      (out = []
       /\ exists r v items,
            web (api_endpoint ++ lit "/sdapi/v1/schedulers") = GetResponse r
            /\ ((400 <=? status_code r) && (status_code r <? 600))%Z = false
            /\ json r = Some v
            /\ items_of v = Some items
            /\ Forall2 (fun item name =>
                          exists fields,
                            item = JObj fields
                            /\ dict_get fields (lit "name") = Some name)
                       items names)
      \/ (names = []
          /\ (exists e, out = [NoticeFetchingSchedulers e])
          /\ forall answer, exists e, select_by_number names answer = inl e)).
Proof.
  split.
  - unfold get_available_samplers.
    destruct (fetch_names (web (api_endpoint ++ lit "/sdapi/v1/samplers")))
      as [e|names] eqn:E.
    + right. split; [reflexivity|]. split; [now exists e|]. apply select_nothing.
    + left. split; [reflexivity|]. now apply fetch_names_shape.
  - unfold get_available_schedulers.
    destruct (fetch_names (web (api_endpoint ++ lit "/sdapi/v1/schedulers")))
      as [e|names] eqn:E.
    + right. split; [reflexivity|]. split; [now exists e|]. apply select_nothing.
    + left. split; [reflexivity|]. now apply fetch_names_shape.
Qed.

(** ** Decimal numerals *)

Lemma strip_plain (s : str) :
  (forall c, In c s -> is_space c = false) -> strip s = s.
Proof.
  intros H. unfold strip.
  assert (L : forall x, (forall c, In c x -> is_space c = false) -> lstrip x = x).
  { intros [|c x] Hx; [reflexivity|]. cbn [lstrip]. now rewrite (Hx c (or_introl eq_refl)). }
  rewrite (L s H). unfold rstrip. rewrite L.
  - apply rev_involutive.
  - intros c Hc. apply H. now apply in_rev.
Qed.

Lemma digit_char_plain (c : ascii) :
  is_some (digit_val c) = true ->
  is_space c = false /\ Ascii.eqb c (chr 45) = false /\ Ascii.eqb c (chr 43) = false
  /\ Ascii.eqb c (chr 44) = false /\ isdigit_char c = true /\ digit_val c <> None.
Proof.
  destruct c as [[] [] [] [] [] [] [] []]; vm_compute; intros H;
    try discriminate H; repeat split; discriminate.
Qed.

Lemma uint_chars (d : Decimal.uint) :
  forallb (fun c => is_some (digit_val c))
          (list_ascii_of_string (NilEmpty.string_of_uint d)) = true.
Proof. induction d; cbn [NilEmpty.string_of_uint list_ascii_of_string forallb]; auto. Qed.

Lemma uint_digits_go_acc (d : Decimal.uint) :
  forall a,
    digits_go (list_ascii_of_string (NilEmpty.string_of_uint d)) (Z.pos a) AfterDigit
    = Some (Z.pos (Pos.of_uint_acc d a)).
Proof.
  induction d; intros a; [reflexivity|..];
    cbn [NilEmpty.string_of_uint list_ascii_of_string digits_go Pos.of_uint_acc];
    match goal with
    | |- context [digit_val ?c] =>
        let v := eval vm_compute in (digit_val c) in
        change (digit_val c) with v
    end;
    cbv iota;
    match goal with
    | |- digits_go _ ?z _ = Some (Z.pos (Pos.of_uint_acc _ ?p)) =>
        replace z with (Z.pos p) by lia
    end;
    apply IHd.
Qed.

Lemma uint_digits_go (d : Decimal.uint) :
  digits_go (list_ascii_of_string (NilEmpty.string_of_uint d)) 0 AfterDigit
  = Some (Z.of_N (Pos.of_uint d)).
Proof.
  induction d; [reflexivity|..];
    cbn [NilEmpty.string_of_uint list_ascii_of_string digits_go Pos.of_uint];
    match goal with
    | |- context [digit_val ?c] =>
        let v := eval vm_compute in (digit_val c) in
        change (digit_val c) with v
    end;
    cbv iota; try exact IHd;
    match goal with
    | |- digits_go _ ?z _ = _ =>
        let v := eval vm_compute in z in change z with v
    end;
    rewrite uint_digits_go_acc; reflexivity.
Qed.

Lemma digits_go_start (c : ascii) (s : str) (acc : Z) (st : digit_state) :
  is_some (digit_val c) = true ->
  digits_go (c :: s) acc st = digits_go (c :: s) acc AfterDigit.
Proof. cbn [digits_go]. now destruct (digit_val c). Qed.

Lemma count_digits_all (s : str) :
  forallb (fun c => is_some (digit_val c)) s = true -> count_digits s = List.length s.
Proof.
  unfold count_digits. induction s as [|c s IH]; [reflexivity|].
  cbn [forallb filter]. intros H. apply andb_true_iff in H as [Hc Hs].
  destruct (digit_val c); [|discriminate]. cbn [List.length]. now rewrite IH.
Qed.

(** [int] of a text of digits only, no more than 4300 of them. *)
Lemma int_of_str_digits (s : str) :
  s <> [] -> forallb (fun c => is_some (digit_val c)) s = true ->
  List.length s <= max_str_digits ->
  int_of_str s = digits_go s 0 AfterDigit.
Proof.
  intros Hs Hc Hlen. unfold int_of_str. rewrite strip_plain.
  - destruct s as [|c rest]; [contradiction|].
    rewrite (count_digits_all _ Hc).
    destruct (Nat.ltb_spec max_str_digits (List.length (c :: rest))) as [Hl|_]; [lia|].
    cbn [forallb] in Hc. apply andb_true_iff in Hc as [Hc0 _].
    destruct (digit_char_plain c Hc0) as (_ & H1 & H2 & _).
    rewrite H1, H2. now rewrite digits_go_start.
  - intros c Hin. rewrite forallb_forall in Hc.
    now destruct (digit_char_plain c (Hc c Hin)).
Qed.

(** The text of a number that is not negative: what it is made of, and
    that [int] reads it back when it has no more than 4300 digits. *)
Lemma str_of_Z_digits (n : Z) :
  (0 <= n)%Z ->
  str_of_Z n <> []
  /\ forallb (fun c => is_some (digit_val c)) (str_of_Z n) = true
  /\ (List.length (str_of_Z n) <= max_str_digits -> int_of_str (str_of_Z n) = Some n).
Proof.
  intros Hn. unfold str_of_Z, lit.
  assert (G : forall d,
             d <> Decimal.Nil ->
             let s := list_ascii_of_string (NilEmpty.string_of_uint d) in
             s <> [] /\ forallb (fun c => is_some (digit_val c)) s = true
             /\ (List.length s <= max_str_digits ->
                 int_of_str s = Some (Z.of_N (Pos.of_uint d)))).
  { intros d Hd s. pose proof (uint_chars d) as Hc. fold s in Hc.
    pose proof (uint_digits_go d) as Hg. fold s in Hg.
    assert (Hs : s <> []) by (subst s; destruct d; try discriminate; contradiction).
    split; [exact Hs|]. split; [exact Hc|].
    intros Hlen. now rewrite int_of_str_digits. }
  destruct n as [|p|p]; [| |lia].
  - split; [discriminate|]. split; [reflexivity|]. intros _. reflexivity.
  - cbn [Z.to_int NilZero.string_of_int].
    pose proof (DecimalPos.Unsigned.to_uint_nonnil p) as Hp.
    replace (NilZero.string_of_uint (Pos.to_uint p))
      with (NilEmpty.string_of_uint (Pos.to_uint p))
      by (unfold NilZero.string_of_uint; destruct (Pos.to_uint p); try reflexivity;
          contradiction).
    destruct (G (Pos.to_uint p) Hp) as (H1 & H2 & H3).
    split; [exact H1|]. split; [exact H2|].
    intros Hlen. rewrite (H3 Hlen). now rewrite DecimalPos.Unsigned.of_to.
Qed.

(** ** The folder selection of [v1.0] *)

Lemma split_single_free (c : ascii) (p : str) :
  ~ In c p -> split_go [c] 0 p = [p].
Proof.
  induction p as [|x p IH]; intros H; [reflexivity|].
  cbn [split_go starts_with].
  destruct (Ascii.eqb c x) eqn:E.
  - apply Ascii.eqb_eq in E. subst x. exfalso. apply H. now left.
  - cbn [andb]. rewrite IH by (intros Hin; apply H; now right). reflexivity.
Qed.

Lemma split_single_app (c : ascii) (p X : str) :
  ~ In c p -> split_go [c] 0 (p ++ c :: X) = p :: split_go [c] 0 X.
Proof.
  induction p as [|x p IH]; intros H.
  - cbn [app split_go starts_with List.length]. now rewrite Ascii.eqb_refl.
  - cbn [app split_go starts_with].
    destruct (Ascii.eqb c x) eqn:E.
    + apply Ascii.eqb_eq in E. subst x. exfalso. apply H. now left.
    + cbn [andb]. rewrite IH by (intros Hin; apply H; now right). reflexivity.
Qed.

(** Cutting at a character a text that was joined with it gives the
    pieces back, when none of them holds the character. *)
Lemma split_join_single (c : ascii) (parts : list str) :
  parts <> [] -> Forall (fun p => ~ In c p) parts ->
  split [c] (join [c] parts) = parts.
Proof.
  unfold split. induction parts as [|p parts IH]; intros Hne H; [contradiction|].
  inversion H as [|? ? Hp Hr]; subst.
  destruct parts as [|q parts].
  - cbn [join]. now apply split_single_free.
  - rewrite join_cons by discriminate. cbn [app].
    rewrite split_single_app by exact Hp. f_equal. apply IH; [discriminate|exact Hr].
Qed.

Lemma split_go_chars (sep s : str) :
  forall skip, Forall (fun p => forall c, In c p -> In c s) (split_go sep skip s).
Proof.
  induction s as [|x s IH]; intros skip.
  - cbn. constructor; [intros c []|constructor].
  - cbn [split_go].
    assert (W : forall l, Forall (fun p => forall c, In c p -> In c s) l ->
                          Forall (fun p => forall c, In c p -> In c (x :: s)) l).
    { intros l. apply Forall_impl. intros p Hp c Hc. right. now apply Hp. }
    destruct skip as [|k]; [|apply W, IH].
    destruct (starts_with sep (x :: s)).
    + constructor; [intros c []|apply W, IH].
    + specialize (IH 0). destruct (split_go sep 0 s) as [|q qs]; cbn [cons_first].
      * constructor; [|constructor]. intros c [<-|[]]. now left.
      * inversion IH as [|? ? Hq Hqs]; subst. constructor; [|now apply W].
        intros c [<-|Hc]; [now left|right; now apply Hq].
Qed.

Lemma isdigit_ascii_reads (s : str) :
  isdigit s = true -> forallb is_ascii s = true ->
  count_digits s <= max_str_digits ->
  exists n, int_of_str s = Some n.
Proof.
  unfold isdigit. intros H Ha Hlen. apply andb_true_iff in H as [Hne Hd].
  assert (Hv : forallb (fun c => is_some (digit_val c)) s = true).
  { apply forallb_forall. intros c Hc.
    rewrite forallb_forall in Hd, Ha. specialize (Hd c Hc). specialize (Ha c Hc).
    revert Hd Ha. clear.
    destruct c as [[] [] [] [] [] [] [] []]; vm_compute; intros H1 H2;
      try reflexivity; discriminate. }
  assert (G : forall x acc, forallb (fun c => is_some (digit_val c)) x = true ->
                            exists n, digits_go x acc AfterDigit = Some n).
  { induction x as [|c x IH]; intros acc Hx; [now exists acc|].
    cbn [forallb] in Hx. apply andb_true_iff in Hx as [Hc Hx].
    cbn [digits_go]. destruct (digit_val c) as [v|]; [|discriminate]. now apply IH. }
  rewrite int_of_str_digits.
  - now apply G.
  - now destruct s.
  - exact Hv.
  - now rewrite <- (count_digits_all s Hv).
Qed.

Lemma collect_fails {E A B} (f : A -> E + B) (l : list A) (e : E) :
  collect f l = inl e -> exists x, In x l /\ f x = inl e.
Proof.
  induction l as [|x l IH]; [discriminate|].
  cbn [collect]. destruct (f x) as [e'|y] eqn:Ex.
  - intros [= <-]. exists x. split; [now left|exact Ex].
  - destruct (collect f l) as [e'|ys]; [|discriminate].
    intros [= <-]. destruct (IH eq_refl) as (x' & Hin & Hx).
    exists x'. split; [now right|exact Hx].
Qed.

Lemma in_picked_flat_map (available : list str) (indices : list Z) (f : str) :
  In f (flat_map
          (fun idx =>
             if ((0 <=? idx) && (idx <? Z.of_nat (List.length available)))%Z
             then match nth_error available (Z.to_nat idx) with
                  | Some folder => [folder]
                  | None => []
                  end
             else []) indices) ->
  In f available.
Proof.
  intros H. apply in_flat_map in H as (idx & _ & H).
  destruct ((0 <=? idx) && (idx <? Z.of_nat (List.length available)))%Z; [|contradiction].
  destruct (nth_error available (Z.to_nat idx)) as [g|] eqn:E; [|contradiction].
  destruct H as [<-|[]]. eapply nth_error_In. exact E.
Qed.

(** X17: whatever is typed at the folder menu of [v1.0], the selection never
    reaches outside the list of folders: it returns a non-empty list of
    available folders, or leaves with status 1 when nothing valid was
    selected, or raises the [ValueError] of [int]; the last happens only
    when the answer holds a character that is not ASCII (a piece such as
    a superscript 2 passes [isdigit] but not [int]) or a piece of more
    than 4300 digits, and a piece of 4301 digits does raise it. *)
Theorem selected_folders_are_available (available_folders : list str) (answer : str) :
  match select_folders available_folders answer with
  | inr selected =>
      selected <> [] /\ Forall (fun folder => In folder available_folders) selected
  | inl e =>
      e = SystemExit 1
      \/ (e = Exn ValueError
          /\ (forallb is_ascii answer = false
              \/ exists piece, In piece (split (lit ",") (strip answer))
                               /\ max_str_digits < List.length (strip piece)))
  end
  /\ select_folders available_folders (repeat (chr 49) (S max_str_digits))
     = inl (Exn ValueError).
Proof.
  split; [|now vm_compute].
  unfold select_folders. cbv zeta.
  destruct (str_eqb (strip answer) (lit "0")).
  - destruct available_folders as [|f fs]; [now left|].
    split; [discriminate|]. apply Forall_forall. auto.
  - destruct (collect _ _) as [e|indices] eqn:Ec.
    + right. apply collect_fails in Ec as (x & Hin & Hx).
      apply filter_In in Hin as [Hin Hd].
      destruct (int_of_str (strip x)) as [n|] eqn:Hi; [discriminate|].
      injection Hx as <-. split; [reflexivity|].
      destruct (forallb is_ascii answer) eqn:Ha; [|now left].
      right. exists x. split; [exact Hin|].
      destruct (Nat.lt_ge_cases max_str_digits (List.length (strip x))) as [Hl|Hl];
        [exact Hl|exfalso].
      assert (Hx : forallb is_ascii (strip x) = true).
      { apply forallb_forall. intros c Hc. rewrite forallb_forall in Ha. apply Ha.
        apply in_strip.
        pose proof (split_go_chars (lit ",") (strip answer) 0) as F.
        rewrite Forall_forall in F. apply (F x Hin). now apply in_strip. }
      destruct (isdigit_ascii_reads (strip x) Hd Hx) as (n & Hn); [|congruence].
      unfold count_digits. etransitivity; [apply filter_length_le|exact Hl].
    + destruct (flat_map _ indices) as [|f fs] eqn:Ef; [now left|].
      split; [discriminate|]. rewrite <- Ef. apply Forall_forall.
      intros g Hg. now apply in_picked_flat_map in Hg.
Qed.

Lemma join_single_chars (c : ascii) (parts : list str) (x : ascii) :
  In x (join [c] parts) -> x = c \/ exists p, In p parts /\ In x p.
Proof.
  induction parts as [|p parts IH]; [intros []|].
  destruct parts as [|q parts].
  - cbn [join]. intros H. right. exists p. split; [now left|exact H].
  - rewrite join_cons by discriminate. intros H.
    apply in_app_or in H as [H|H]; [right; exists p; split; [now left|exact H]|].
    cbn [app] in H. destruct H as [<-|H]; [now left|].
    destruct (IH H) as [->|(p' & Hp' & Hx)]; [now left|].
    right. exists p'. split; [now right|exact Hx].
Qed.

Lemma collect_map_ok {E A B} (f : A -> E + B) (g : A -> B) (l : list A) :
  Forall (fun x => f x = inr (g x)) l -> collect f l = @inr E _ (map g l).
Proof.
  induction 1 as [|x l Hx _ IH]; [reflexivity|].
  cbn [collect map]. now rewrite Hx, IH.
Qed.

Lemma filter_all {A} (f : A -> bool) (l : list A) :
  Forall (fun x => f x = true) l -> filter f l = l.
Proof.
  induction 1 as [|x l Hx _ IH]; [reflexivity|]. cbn [filter]. now rewrite Hx, IH.
Qed.

(** X18: numbers typed at the folder menu of [v1.0], in decimal and separated
    by commas, each of no more than 4300 digits: the folders shown under these numbers are selected, in the
    order typed and as often as typed; a number that the menu does not
    show (0 among others, or one past the last folder) is passed over;
    when nothing is left, [main] leaves with status 1.  (A lone 0 stands
    for all folders.) *)
Theorem folders_typed_by_number (available_folders : list str) (numbers : list Z) :
  Forall (fun n => (0 <= n)%Z /\ List.length (str_of_Z n) <= max_str_digits) numbers ->
  numbers <> [0%Z] ->
  select_folders available_folders (join (lit ",") (map str_of_Z numbers))
  = match flat_map (picked available_folders) numbers with
    | [] => inl (SystemExit 1)
    | selected => inr selected
    end.
Proof.
  intros Hnum Hnz.
  assert (Hpos : Forall (fun n => (0 <= n)%Z) numbers).
  { revert Hnum. apply Forall_impl. now intros n [H _]. }
  destruct (list_eq_dec Z.eq_dec numbers []) as [->|Hsome]; [reflexivity|].
  unfold select_folders. cbv zeta.
  set (parts := map str_of_Z numbers).
  assert (Hparts : Forall (fun p => p <> []
                                    /\ forallb (fun c => is_some (digit_val c)) p = true)
                          parts).
  { subst parts. apply Forall_forall. intros p Hp.
    apply in_map_iff in Hp as (n & <- & Hn).
    rewrite Forall_forall in Hpos.
    destruct (str_of_Z_digits n (Hpos n Hn)) as (H1 & H2 & _). now split. }
  assert (Hplain : forall p c, In p parts -> In c p ->
                               is_space c = false /\ c <> chr 44).
  { intros p c Hp Hc. rewrite Forall_forall in Hparts.
    destruct (Hparts p Hp) as (_ & Hd). rewrite forallb_forall in Hd.
    destruct (digit_char_plain c (Hd c Hc)) as (H1 & _ & _ & H4 & _).
    split; [exact H1|]. intros ->. discriminate H4. }
  assert (Hstrip : strip (join (lit ",") parts) = join (lit ",") parts).
  { destruct parts as [|p0 ps] eqn:Ep; [reflexivity|].
    rewrite <- Ep in *.
    assert (Hj : join (lit ",") parts <> []).
    { rewrite Ep. destruct ps; cbn [join].
      - rewrite Forall_forall in Hparts. apply (Hparts p0). rewrite Ep. now left.
      - rewrite Forall_forall in Hparts.
        destruct (Hparts p0) as (H0 & _); [rewrite Ep; now left|].
        destruct p0; [contradiction|discriminate]. }
    assert (Hfirst : forall s, s <> [] ->
               (exists c r, s = c :: r /\ is_space c = false) ->
               (exists c r, s = r ++ [c] /\ is_space c = false) -> strip s = s).
    { intros s _ (c & r & -> & Hc) (c' & r' & E & Hc').
      unfold strip. cbn [lstrip]. rewrite Hc. unfold rstrip.
      rewrite E, rev_app_distr. cbn [rev app lstrip]. rewrite Hc'.
      change (c' :: rev r') with (rev [c'] ++ rev r').
      now rewrite <- rev_app_distr, rev_involutive. }
    apply Hfirst; [exact Hj| |].
    - destruct (join (lit ",") parts) as [|c r] eqn:Ej; [contradiction|].
      exists c, r. split; [reflexivity|].
      rewrite Ep in Ej. destruct ps; cbn [join] in Ej.
      + apply (Hplain p0 c); [rewrite Ep; now left|rewrite Ej; now left].
      + rewrite Forall_forall in Hparts.
        destruct (Hparts p0) as (H0 & _); [rewrite Ep; now left|].
        destruct p0 as [|c0 p0']; [contradiction|].
        cbn [app] in Ej. injection Ej as <- _.
        apply (Hplain (c0 :: p0') c0); [rewrite Ep; now left|now left].
    - destruct (exists_last Hj) as (r & c & Ej). exists c, r. split; [exact Ej|].
      assert (Hlast : forall l : list str, l <> [] ->
                 exists q, In q l /\ (q = [] \/ exists r', join (lit ",") l = r' ++ q)).
      { induction l as [|q l IHl]; [contradiction|]. intros _.
        destruct l as [|q' l].
        - exists q. split; [now left|]. right. now exists [].
        - destruct (IHl ltac:(discriminate)) as (q2 & Hq2 & [->|(r' & Er')]).
          + exists []. split; [now right|now left].
          + exists q2. split; [now right|]. right.
            rewrite join_cons by discriminate. rewrite Er'.
            exists (q ++ lit "," ++ r'). now rewrite <- !app_assoc. }
      destruct (Hlast parts ltac:(rewrite Ep; discriminate)) as (q & Hq & [->|(r' & Er')]).
      + rewrite Forall_forall in Hparts. now destruct (Hparts [] Hq).
      + rewrite Forall_forall in Hparts. destruct (Hparts q Hq) as (Hqne & _).
        destruct (exists_last Hqne) as (q1 & c1 & ->).
        rewrite Er', app_assoc in Ej. apply app_inj_tail in Ej as [_ <-].
        apply (Hplain (q1 ++ [c1]) c1 Hq). apply in_or_app. right. now left. }
  rewrite Hstrip.
  assert (Hzero : str_eqb (join (lit ",") parts) (lit "0") = false).
  { apply str_eqb_neq. intros E. apply Hnz. subst parts.
    destruct numbers as [|n [|m ms]].
    - discriminate E.
    - cbn [map join] in E. change (lit "0") with (str_of_Z 0) in E.
      apply str_of_Z_injective in E. now subst n.
    - exfalso. cbn [map] in E. rewrite join_cons in E by discriminate.
      inversion Hpos as [|? ? Hn _]; subst.
      destruct (str_of_Z_digits n Hn) as (H1 & H2 & _).
      destruct (str_of_Z n) as [|c0 [|c1 r]]; [contradiction| |discriminate E].
      cbn in E. discriminate E. }
  rewrite Hzero.
  assert (Hsplit : split (lit ",") (join (lit ",") parts) = parts).
  { apply (split_join_single (chr 44)).
    - subst parts. destruct numbers; [contradiction|discriminate].
    - apply Forall_forall. intros p Hp Hc. now destruct (Hplain p (chr 44) Hp Hc). }
  rewrite Hsplit.
  assert (Hself : forall p, In p parts -> strip p = p).
  { intros p Hp. apply strip_plain. intros c Hc. now destruct (Hplain p c Hp Hc). }
  rewrite filter_all.
  2:{ apply Forall_forall. intros p Hp. rewrite (Hself p Hp). unfold isdigit.
      rewrite Forall_forall in Hparts. destruct (Hparts p Hp) as (Hne & Hd).
      destruct p; [contradiction|]. cbn [truthy andb].
      apply forallb_forall. intros c Hc. rewrite forallb_forall in Hd.
      now destruct (digit_char_plain c (Hd c Hc)) as (_ & _ & _ & _ & H & _). }
  subst parts.
  rewrite (collect_map_ok _ (fun p => match int_of_str p with
                                      | Some n => (n - 1)%Z
                                      | None => 0%Z
                                      end)).
  2:{ apply Forall_forall. intros p Hp. rewrite (Hself p Hp).
      apply in_map_iff in Hp as (n & <- & Hn).
      pose proof (proj1 (Forall_forall _ _) Hnum n Hn) as [H0 Hlen].
      destruct (str_of_Z_digits n H0) as (_ & _ & H). now rewrite (H Hlen). }
  rewrite map_map.
  assert (Hflat : flat_map
                    (fun idx =>
                       if ((0 <=? idx)
                           && (idx <? Z.of_nat (List.length available_folders)))%Z
                       then match nth_error available_folders (Z.to_nat idx) with
                            | Some folder => [folder]
                            | None => []
                            end
                       else [])
                    (map (fun x => match int_of_str (str_of_Z x) with
                                   | Some n => (n - 1)%Z
                                   | None => 0%Z
                                   end) numbers)
                  = flat_map (picked available_folders) numbers).
  { clear - Hnum. induction Hnum as [|n ns [Hn Hlen] _ IH]; [reflexivity|].
    cbn [map flat_map]. rewrite IH. f_equal.
    destruct (str_of_Z_digits n Hn) as (_ & _ & H). rewrite (H Hlen).
    unfold picked.
    replace ((0 <=? n - 1) && (n - 1 <? Z.of_nat (List.length available_folders)))%Z
      with ((1 <=? n) && (n <=? Z.of_nat (List.length available_folders)))%Z.
    - reflexivity.
    - destruct (1 <=? n)%Z eqn:E1, (0 <=? n - 1)%Z eqn:E2;
        destruct (n <=? Z.of_nat (List.length available_folders))%Z eqn:E3,
                 (n - 1 <? Z.of_nat (List.length available_folders))%Z eqn:E4;
        try reflexivity; lia. }
  rewrite Hflat. now destruct (flat_map _ numbers).
Qed.

(** ** Setup and the settings it leaves *)

Lemma input_lookup_set_same (l : list (path * str)) (p : path) (t : str) :
  input_lookup (input_set l p t) p = Some t.
Proof.
  induction l as [|[q u] l IH]; cbn [input_set input_lookup].
  - now rewrite path_eqb_refl.
  - destruct (path_eqb q p) eqn:E; cbn [input_lookup]; rewrite E; [reflexivity|exact IH].
Qed.

Lemma input_lookup_set_other (l : list (path * str)) (p q : path) (t : str) :
  p <> q -> input_lookup (input_set l p t) q = input_lookup l q.
Proof.
  intros Hne. induction l as [|[r u] l IH]; cbn [input_set input_lookup].
  - now rewrite path_eqb_neq.
  - destruct (path_eqb r p) eqn:E; cbn [input_lookup].
    + apply path_eqb_eq in E. subst r. now rewrite path_eqb_neq.
    + destruct (path_eqb r q); [reflexivity|exact IH].
Qed.

(** Opening a file of the working directory itself, under a name that
    the file system takes: only a directory of that name is in the way. *)
Lemma open_error_here (p : str) (t : tree) :
  has_nul p = false -> (PATH_MAX <=? text_length [p]) = false ->
  (NAME_MAX <? byte_length p) = false ->
  open_error [p] t = if isdir t [p] then Some (IsADirectoryError [p]) else None.
Proof.
  intros H1 H2 H3. unfold open_error. cbn [existsb orb removelast at_path last].
  now rewrite H1, H2, H3.
Qed.

Lemma create_template_run (p : str) (w : world) :
  In p Setup.template_files ->
  exists w',
    Setup.create_template p w = Ok tt w'
    /\ output w' = output w
    /\ inputs w'
       = (if is_some (input_lookup (inputs w) [p]) || exists_path (output w) [p]
          then inputs w
          else input_set (inputs w) [p] []).
Proof.
  intros Hp.
  assert (E : open_error [p] (output w)
              = if isdir (output w) [p] then Some (IsADirectoryError [p]) else None).
  { destruct Hp as [<-|[<-|[]]]; now apply open_error_here. }
  unfold Setup.create_template, bind, os_path_exists.
  destruct (is_some (input_lookup (inputs w) [p])); cbn [orb];
    [eexists; (split; [reflexivity|split; reflexivity])|].
  destruct (exists_path (output w) [p]) eqn:X;
    [eexists; (split; [reflexivity|split; reflexivity])|].
  unfold write_text. rewrite E. unfold isdir. unfold exists_path in X.
  destruct (tree_lookup (output w) [p]); [discriminate X|].
  eexists; (split; [reflexivity|split; reflexivity]).
Qed.

Lemma tree_lookup_makedirs_here (name p : str) (t : tree) :
  p <> name -> tree_lookup (makedirs [name] t) [p] = tree_lookup t [p].
Proof.
  intros Hne. unfold makedirs. cbn [makedirs_from app].
  destruct (exists_path t [name]); [reflexivity|].
  rewrite tree_lookup_app. destruct (tree_lookup t [p]); [reflexivity|].
  rewrite path_eqb_neq; [reflexivity|congruence].
Qed.

(** The run of [Setup.main], step by step, when [settings] is not a file
    and [sd_settings.json] not a directory: only a directory [main.py]
    can stop it, after everything else is written. *)
Lemma setup_main_run (script answer : str) (w : world) :
  isfile (output w) [lit "settings"] = false ->
  isdir (output w) sd_settings_path = false ->
  exists w1 w2 w3 w',
    Setup.main script answer w
    = (if isdir (output w) [lit "main.py"]
       then Raised (IsADirectoryError [lit "main.py"]) w3 else Ok tt w')
    /\ output w1
       = tree_set (makedirs [lit "settings"] (output w)) sd_settings_path
                  (File (Json (Setup.sd_settings (strip answer))))
    /\ inputs w1 = inputs w
    /\ output w2 = output w1 /\ output w3 = output w1 /\ output w' = output w1
    /\ inputs w2
       = (if is_some (input_lookup (inputs w1) [lit "characters.txt"])
             || exists_path (output w1) [lit "characters.txt"]
          then inputs w1
          else input_set (inputs w1) [lit "characters.txt"] [])
    /\ inputs w3
       = (if is_some (input_lookup (inputs w2) [lit "scenes.txt"])
             || exists_path (output w1) [lit "scenes.txt"]
          then inputs w2
          else input_set (inputs w2) [lit "scenes.txt"] [])
    /\ inputs w' = input_set (inputs w3) [lit "main.py"] script.
Proof.
  intros Hfile Hdir.
  assert (R1 : room_for_dir (output w) [lit "settings"] = true).
  { unfold room_for_dir. apply andb_true_iff. split; [reflexivity|].
    cbn [makedirs_error app]. rewrite Hfile. reflexivity. }
  assert (D1 : tree_lookup (makedirs [lit "settings"] (output w)) [lit "settings"]
               = Some Dir).
  { apply makedirs_isdir; [exact R1|discriminate]. }
  assert (Hdir1 : isdir (makedirs [lit "settings"] (output w)) sd_settings_path = false).
  { unfold makedirs. rewrite makedirs_from_isdir_other; [exact Hdir|cbn; lia]. }
  unfold Setup.main. cbv zeta.
  rewrite bind_run, (os_makedirs_ok _ _ R1).
  set (w0 := emit (EvMakedirs _) _).
  rewrite bind_run, write_file_ok.
  2:{ unfold room_for_file. change (output w0) with (makedirs [lit "settings"] (output w)).
      change ([lit "settings"] ++ [lit "sd_settings.json"]) with sd_settings_path.
      rewrite Hdir1. reflexivity. }
  2:{ exact D1. }
  set (w1 := emit (EvWrite _ _) _).
  unfold Setup.template_files. cbn [for_each].
  rewrite bind_run. rewrite bind_run.
  destruct (create_template_run (lit "characters.txt") w1 ltac:(now left))
    as (w2 & E2 & O2 & I2).
  rewrite E2. rewrite bind_run.
  destruct (create_template_run (lit "scenes.txt") w2 ltac:(right; now left))
    as (w3 & E3 & O3 & I3).
  rewrite E3. unfold ret at 1.
  rewrite bind_run. unfold write_text at 1.
  rewrite open_error_here by reflexivity.
  assert (Dm : isdir (output w3) [lit "main.py"] = isdir (output w) [lit "main.py"]).
  { rewrite O3, O2. change (output w1)
      with (tree_set (makedirs [lit "settings"] (output w)) sd_settings_path
                     (File (Json (Setup.sd_settings (strip answer))))).
    rewrite isdir_set_file by exact Hdir1. unfold isdir.
    rewrite tree_lookup_makedirs_here by discriminate. reflexivity. }
  rewrite Dm.
  eexists w1, w2, w3, _. split.
  { destruct (isdir (output w) [lit "main.py"]); reflexivity. }
  split; [reflexivity|]. split; [reflexivity|]. split; [exact O2|].
  split; [congruence|]. split; [cbn [output emit set_inputs]; congruence|].
  split; [exact I2|]. split; [rewrite <- O2; exact I3|]. reflexivity.
Qed.

Lemma isfile_false (t : tree) (p : path) :
  (forall c, tree_lookup t p <> Some (File c)) -> isfile t p = false.
Proof.
  intros H. unfold isfile. destruct (tree_lookup t p) as [[|c]|]; try reflexivity.
  now destruct (H c).
Qed.

Lemma isdir_false (t : tree) (p : path) :
  tree_lookup t p <> Some Dir -> isdir t p = false.
Proof.
  intros H. unfold isdir. destruct (tree_lookup t p) as [[|c]|]; try reflexivity.
  now destruct H.
Qed.

(** X19: after [Setup.main], [load_sd_settings] of [main.py] finds the
    settings: the folder that was typed, trimmed, and the default
    endpoint, whatever settings were there before; it neither leaves the
    program nor prints.  ([settings] must not be a file, nor
    [sd_settings.json] a directory, for the setup to get there.)  The
    setup then goes through, unless [main.py] is a directory: writing
    the script raises in that case, after the settings are written. *)
Theorem setup_then_load_sd_settings (script answer : str) (w : world) :
  (forall c, tree_lookup (output w) [lit "settings"] <> Some (File c)) ->
  tree_lookup (output w) sd_settings_path <> Some Dir ->
  exists w',
    Setup.main script answer w
    = (if isdir (output w) [lit "main.py"]
       then Raised (IsADirectoryError [lit "main.py"]) w' else Ok tt w')
    /\ load_sd_settings (output w')
       = (inr (JObj [(lit "sd_folder", JStr (strip answer));
                     (lit "api_endpoint", JStr default_endpoint)]), [])
    /\ isdir (output w') [lit "settings"] = true.
Proof.
  intros Hfile Hdir.
  destruct (setup_main_run script answer w (isfile_false _ _ Hfile) (isdir_false _ _ Hdir))
    as (w1 & w2 & w3 & w' & E & O1 & _ & _ & O3 & O' & _).
  assert (G : forall v, output v = output w1 ->
                load_sd_settings (output v)
                = (inr (JObj [(lit "sd_folder", JStr (strip answer));
                              (lit "api_endpoint", JStr default_endpoint)]), [])
                /\ isdir (output v) [lit "settings"] = true).
  { intros v Ov.
    assert (L : tree_lookup (output v) sd_settings_path
                = Some (File (Json (Setup.sd_settings (strip answer))))).
    { rewrite Ov, O1. apply tree_lookup_set_same. }
    split.
    - unfold load_sd_settings, exists_path. rewrite L. reflexivity.
    - unfold isdir. rewrite Ov, O1.
      rewrite tree_lookup_set_other by discriminate.
      rewrite makedirs_isdir; [reflexivity| |discriminate].
      unfold room_for_dir. apply andb_true_iff. split; [reflexivity|].
      cbn [makedirs_error app]. rewrite (isfile_false _ _ Hfile). reflexivity. }
  destruct (isdir (output w) [lit "main.py"]).
  - exists w3. split; [exact E|now apply G].
  - exists w'. split; [exact E|now apply G].
Qed.

Lemma setup_then_load_sd_settings_witness :
  exists w',
    Setup.main (lit "#!/usr/bin/env python3") (lit " /opt/webui ") empty_world
    = Ok tt w'
    /\ load_sd_settings (output w')
       = (inr (JObj [(lit "sd_folder", JStr (lit "/opt/webui"));
                     (lit "api_endpoint", JStr default_endpoint)]), []).
Proof.
  destruct (setup_then_load_sd_settings (lit "#!/usr/bin/env python3")
              (lit " /opt/webui ") empty_world)
    as (w' & E & L & _).
  - intros c. discriminate.
  - discriminate.
  - exists w'. split; [exact E|exact L].
Defined.

Lemma keeps_text_refl (p : path) (w : world) : keeps_text p w w.
Proof. now intros content H. Qed.

Lemma keeps_text_trans (p : path) (a b c : world) :
  keeps_text p a b -> keeps_text p b c -> keeps_text p a c.
Proof. intros H1 H2 content H. now apply H2, H1. Qed.

Lemma keeps_text_inputs (p : path) (w w' : world) :
  inputs w' = inputs w -> keeps_text p w w'.
Proof. intros E content H. now rewrite E. Qed.

Lemma keeps_text_write_text (p q : path) (t : str) :
  p <> q -> respects (keeps_text p) (write_text q t).
Proof.
  intros Hne w. unfold write_text. destruct (open_error q (output w)); cbn [final].
  - apply keeps_text_refl.
  - intros content H. cbn [inputs emit set_inputs].
    rewrite input_lookup_set_other by congruence. exact H.
Qed.

Lemma keeps_text_create_template (p : path) (template_file : str) :
  respects (keeps_text p) (Setup.create_template template_file).
Proof.
  intros w. unfold Setup.create_template, bind, os_path_exists.
  destruct (is_some (input_lookup (inputs w) [template_file])) eqn:E; cbn [orb];
    [apply keeps_text_refl|].
  destruct (exists_path (output w) [template_file]); [apply keeps_text_refl|].
  unfold write_text. destruct (open_error _ (output w)); cbn [final];
    [apply keeps_text_refl|].
  intros content H. cbn [inputs emit set_inputs].
  rewrite input_lookup_set_other; [exact H|].
  intros <-. rewrite H in E. discriminate E.
Qed.

(** [Setup.main] leaves the text of every text file but [main.py] as it
    is, however it ends. *)
Lemma setup_main_keeps_text (script answer : str) (p : path) :
  p <> [lit "main.py"] -> respects (keeps_text p) (Setup.main script answer).
Proof.
  intros Hne. unfold Setup.main. cbv zeta.
  apply (respects_bind _ (keeps_text_trans p)).
  { intros w. apply keeps_text_inputs. unfold os_makedirs.
    now destruct (makedirs_error _ _ _ _) as [[e made]|]. }
  intros _. apply (respects_bind _ (keeps_text_trans p)).
  { intros w. apply keeps_text_inputs. unfold write_file.
    now destruct (open_error _ _). }
  intros _. apply (respects_bind _ (keeps_text_trans p)).
  { apply (respects_for_each _ (keeps_text_refl p) (keeps_text_trans p)).
    intros x. apply keeps_text_create_template. }
  intros _. apply (respects_bind _ (keeps_text_trans p)).
  { apply keeps_text_write_text. congruence. }
  intros _. apply (respects_bind _ (keeps_text_trans p));
    [|intros _]; intros w; now apply keeps_text_inputs.
Qed.

(** X20: [Setup.main] never writes over a prompt file that is there: its
    text is kept, however the setup ends.  When [settings] is not a file
    and [sd_settings.json] not a directory, a prompt file that is missing
    is created empty, and [create_prompts] of [main.py] then finds no
    prompt in it; and unless [main.py] is a directory the setup returns
    and the script [main.py] is written. *)
Theorem setup_keeps_prompt_files (script answer : str) (w : world) (t : prompt_type) :
  let w' := final (Setup.main script answer w) in
  keeps_text [prompts_file t] w w'
  /\ ((forall c, tree_lookup (output w) [lit "settings"] <> Some (File c)) ->
      tree_lookup (output w) sd_settings_path <> Some Dir ->
      (input_lookup (inputs w) [prompts_file t] = None ->
       exists_path (output w) [prompts_file t] = false ->
       input_lookup (inputs w') [prompts_file t] = Some []
       /\ create_prompts t w' = Ok [] w')
      /\ (isdir (output w) [lit "main.py"] = false ->
          Setup.main script answer w = Ok tt w'
          /\ input_lookup (inputs w') [lit "main.py"] = Some script)).
Proof.
  cbv zeta. split.
  { apply setup_main_keeps_text. destruct t; discriminate. }
  intros Hfile Hdir.
  destruct (setup_main_run script answer w (isfile_false _ _ Hfile) (isdir_false _ _ Hdir))
    as (w1 & w2 & w3 & w' & E & O1 & I1 & _ & _ & _ & I2 & I3 & I').
  assert (X1 : forall p, p <> lit "settings" ->
                         exists_path (output w1) [p] = exists_path (output w) [p]).
  { intros p Hne. rewrite O1. unfold exists_path.
    rewrite tree_lookup_set_other by discriminate.
    now rewrite tree_lookup_makedirs_here. }
  rewrite !X1, I1 in * by discriminate.
  assert (L3 : input_lookup (inputs w) [prompts_file t] = None ->
               exists_path (output w) [prompts_file t] = false ->
               input_lookup (inputs w3) [prompts_file t] = Some []).
  { intros Hn Hx. destruct t; cbn [prompts_file] in *.
    - assert (H2 : input_lookup (inputs w2) [lit "characters.txt"] = Some []).
      { rewrite I2, Hn, Hx. apply input_lookup_set_same. }
      rewrite I3. match goal with |- context [if ?c then _ else _] => destruct c end; [exact H2|].
      now rewrite input_lookup_set_other by discriminate.
    - assert (H2 : input_lookup (inputs w2) [lit "scenes.txt"] = None).
      { rewrite I2. match goal with |- context [if ?c then _ else _] => destruct c end; [exact Hn|].
        now rewrite input_lookup_set_other by discriminate. }
      rewrite I3, H2, Hx. apply input_lookup_set_same. }
  assert (L' : input_lookup (inputs w') [prompts_file t] = input_lookup (inputs w3) [prompts_file t]).
  { rewrite I'. apply input_lookup_set_other. destruct t; discriminate. }
  rewrite E. split.
  - intros Hn Hx.
    assert (L : input_lookup
                  (inputs (final (if isdir (output w) [lit "main.py"]
                                  then Raised (IsADirectoryError [lit "main.py"]) w3
                                  else Ok tt w'))) [prompts_file t] = Some []).
    { destruct (isdir (output w) [lit "main.py"]); cbn [final];
        [|rewrite L']; now apply L3. }
    split; [exact L|].
    unfold create_prompts, bind, load_prompts. now rewrite L.
  - intros ->. cbn [final]. split; [reflexivity|].
    rewrite I'. apply input_lookup_set_same.
Qed.

Lemma setup_keeps_prompt_files_witness :
  let w' := final (Setup.main (lit "#!/usr/bin/env python3") (lit "/opt/webui")
                              world_main_fine) in
  input_lookup (inputs w') [lit "characters.txt"] = Some text_A_B
  /\ input_lookup (inputs w') [lit "main.py"] = Some (lit "#!/usr/bin/env python3").
Proof.
  destruct (setup_keeps_prompt_files (lit "#!/usr/bin/env python3") (lit "/opt/webui")
              world_main_fine character) as (K & H).
  destruct H as (_ & H); [intros c; discriminate|discriminate|].
  destruct (H eq_refl) as (_ & M).
  split; [now apply K|exact M].
Defined.

Lemma listed_lora_loses_its_extension_witness :
  get_available_loras lora_fs [lit "Lora"]
  = inr [lit "ink.v2.SafeTensors"; lit ".pt"]
  /\ lora_tag (settings_with_lora (lit "ink.v2.SafeTensors")) = lit " <lora:ink.v2:0.8>"
  /\ lora_tag (settings_with_lora (lit ".pt")) = lit " <lora:.pt:0.8>".
Proof.
  split; [reflexivity|]. split.
  - destruct (listed_lora_loses_its_extension lora_fs [lit "Lora"]
                [lit "ink.v2.SafeTensors"; lit ".pt"] (lit "ink.v2.SafeTensors")
                (settings_with_lora (lit "ink.v2.SafeTensors")) eq_refl)
      as (ext & Hext & He & _ & ->).
    + now left.
    + vm_compute. intuition discriminate.
    + reflexivity.
    + destruct Hext as [<-|[<-|[<-|[]]]]; try discriminate He. reflexivity.
  - destruct (listed_lora_loses_its_extension lora_fs [lit "Lora"]
                [lit "ink.v2.SafeTensors"; lit ".pt"] (lit ".pt")
                (settings_with_lora (lit ".pt")) eq_refl)
      as (ext & Hext & He & _ & ->).
    + right. now left.
    + vm_compute. intuition discriminate.
    + reflexivity.
    + destruct Hext as [<-|[<-|[<-|[]]]]; try discriminate He. reflexivity.
Defined.

Lemma select_by_number_in {A} (options : list A) (answer : str) (x : A) :
  select_by_number options answer = inr x -> In x options.
Proof.
  unfold select_by_number. destruct (int_of_str answer) as [n|]; [|discriminate].
  unfold py_index.
  destruct (0 <=? n - 1)%Z.
  - destruct (nth_error options (Z.to_nat (n - 1))) as [y|] eqn:E; [|discriminate].
    intros [= <-]. eapply nth_error_In. exact E.
  - destruct (- Z.of_nat (List.length options) <=? n - 1)%Z; [|discriminate].
    destruct (nth_error options _) as [y|] eqn:E; [|discriminate].
    intros [= <-]. eapply nth_error_In. exact E.
Qed.

(** X21: whatever is typed at the model menu, a model that [main] accepts is
    an entry of the models directory that is a file and whose name ends,
    up to case, in [.ckpt], [.safetensors] or [.pt]: a directory is never
    offered, whatever its name, and no name can be typed in. *)
Theorem chosen_model_is_listed (fs : tree) (sd_models_path : path)
    (models : list str) (answer model : str) :
  get_available_models fs sd_models_path = inr models ->
  select_by_number models answer = inr model ->
  In model (entries fs sd_models_path)
  /\ isfile fs (sd_models_path ++ [model]) = true
  /\ exists ext, In ext model_extensions /\ ends_with ext (lower model) = true.
Proof.
  intros Hm Hs. apply select_by_number_in in Hs.
  unfold get_available_models in Hm.
  destruct (tree_lookup fs sd_models_path) as [[|c]|]; try discriminate.
  injection Hm as <-. apply filter_In in Hs as [Hin H].
  apply andb_true_iff in H as [Hfile Hext].
  change (existsb (fun suffix => ends_with suffix (lower model)) model_extensions = true)
    in Hext.
  apply existsb_exists in Hext as (ext & Hi & He).
  split; [exact Hin|]. split; [exact Hfile|]. now exists ext.
Qed.

Lemma chosen_model_is_listed_witness :
  get_available_models lora_fs [lit "Lora"] = inr [lit "ink.v2.SafeTensors"; lit ".pt"]
  /\ select_by_number [lit "ink.v2.SafeTensors"; lit ".pt"] (lit "1")
     = inr (lit "ink.v2.SafeTensors")
  /\ isfile lora_fs [lit "Lora"; lit "ink.v2.SafeTensors"] = true.
Proof.
  split; [reflexivity|]. split; [reflexivity|].
  apply (chosen_model_is_listed lora_fs [lit "Lora"]
           [lit "ink.v2.SafeTensors"; lit ".pt"] (lit "1") (lit "ink.v2.SafeTensors")
           eq_refl eq_refl).
Defined.

Lemma folders_typed_by_number_witness :
  select_folders [lit "a"; lit "b"; lit "c"] (lit "3,0,1,1,7")
  = inr [lit "c"; lit "a"; lit "a"].
Proof.
  apply (folders_typed_by_number [lit "a"; lit "b"; lit "c"] [3; 0; 1; 1; 7]%Z).
  - repeat (constructor; [split; [discriminate|apply Nat.leb_le; reflexivity]|]).
    constructor.
  - discriminate.
Defined.
